(* ===== verification/_CoqProject ===== *)
-Q . S2P
Prelude.v
Bitfields.v
Registers.v
HostFPU.v
Operations.v
Memory.v
Handlers.v
BlockCache.v
Cpu.v
Operands.v
ExecInt.v
IntSpec.v
ExecMem.v
MemSpec.v
ExecFP.v
FpSpec.v
ExecVec.v
VecSpec.v
ExecSys.v
Dispatch.v
DecodeTable.v
Decode.v
Interp.v
Frame.v
InterpSpec.v
PredecodeSpec.v
CacheSpec.v
Irq.v
MacMem.v
Timer.v
TimerSpec.v
TimerThread.v
Thunks.v
Glue.v
GlueSpec.v
BlockSpec.v
MachineSpec.v
CallSpec.v
ThunkSpec.v
Adb.v
AdbSpec.v
Prefs.v
PrefsSpec.v
Rom.v
RomSpec.v
RomBranch.v
Scsi.v
ScsiSpec.v
MacUtil.v
SysFile.v
Device.v
Disk.v
Sony.v
Cdrom.v
DiskSpec.v
CdromSpec.v
Accel.v
AccelSpec.v
SharedLib.v
SharedLibSpec.v
Drivers.v
EmulOps.v
EmulOpsSpec.v
