(* ===== verification/Prelude.v ===== *)
(** * SheepShaver: a verification library

    SheepShaver runs classic Mac OS on another host.  The emulated program is
    PowerPC code; most of Mac OS is 68k code that Mac OS's own 68k emulator, a
    PowerPC program in the ROM, runs.  Patches in the ROM and in resources
    leave emulated code through fake opcodes, and the C++ routines behind them
    replace the drivers, the Time Manager, the SCSI Manager and so on.  This
    library models the interpreter of the PowerPC (kpx_cpu) completely, the
    code that connects it with Mac OS, and the parts of the emulator behind it
    whose logic does not depend on a host's devices.

    File names of the program are relative to src/src; [ppc/] stands for
    kpx_cpu/src/cpu/ppc/.  Definitions keep the source's names.

    ** Configuration

    The modelled program is the one that Unix/configure.ac makes for Linux on
    x86-64 without the translator: a little-endian host with unaligned access
    and real addressing (a Mac address is a host address), EMULATED_PPC,
    POWERPC_ROM, one CPU (KPX_MAX_CPUS 1), PPC_DECODE_CACHE 1,
    PPC_ENABLE_FPU_EXCEPTIONS 0, POWERPC_GET_RESOURCE_THUNKS 1,
    PRECISE_TIMING_POSIX with [clock_gettime], no DISK_INSERT_CHECK, no BIN/CUE
    and no VHD images.

    ** How the program is represented

    - Integers are [Z]; a conversion to a C type is written out ([u32], [s16],
      ... of this file), so wrap-around is visible.
    - Guest memory is a finite map from addresses to bytes (Memory.v); an access
      outside it is the outcome [Segv], as the host would deliver SIGSEGV.
    - Code that can fail returns an [outcome] (this file): [abort()],
      [QuitEmulator()], a fault, or [Fuel].  [Fuel] is not a behaviour of the
      program: loops that the code does not bound take a bound, and theorems
      say which bound is enough ([predecode_terminates], [key_loop_delivers],
      [TimerInterrupt_spec], [decode_lzss_bounds], [block_loop_runs], ...).
      [execute] may run for ever, as a CPU does: its theorems hold for every
      bound, with [Fuel] allowed.
    - Objects are records passed along; threads and pointers are explicit where
      they matter (the block cache's intrusive lists, the Time Manager's
      descriptors and its second thread).
    - Rounded floating-point arithmetic is the host's: the class [HostFPU].
      What other parts of the program do for a component is a class or an
      argument with named laws ([Host], [Devices], [Targets], [Routines],
      [SysFiles]); the laws are proved where the other part is modelled
      ([HostLaws] by GlueSpec.v for Glue.v, [SysFileLaws] by SysFile.v).

    ** The parts

    The processor:
    - Bitfields.v, Registers.v: ppc/ppc-bitfields.hpp, ppc/ppc-registers.hpp,
      spcflags.hpp.  HostFPU.v: the host's floating point.  Operations.v:
      ppc/ppc-operations.hpp.  Memory.v: kpx_cpu/src/cpu/vm.hpp.
      Handlers.v, Operands.v: ppc/ppc-operands.hpp and the vocabulary of the
      decode table.
    - Cpu.v: the object [powerpc_cpu] (ppc/ppc-cpu.hpp, ppc-cpu.cpp).
    - ExecInt.v, ExecMem.v, ExecFP.v, ExecVec.v: every handler of
      ppc/ppc-execute.cpp.  IntSpec.v, MemSpec.v, FpSpec.v, VecSpec.v: what
      they compute.  ExecSys.v: the opcode 6 of SheepShaver
      (kpx_cpu/sheepshaver_glue.cpp).  Dispatch.v: from table entry to handler.
    - DecodeTable.v, Decode.v: ppc/ppc-decode.cpp, the table, the index of
      2^17 cells that [init_decoder] fills in, and that it decodes every opcode
      as pattern matching does.
    - BlockCache.v: block-cache.hpp, block-alloc.hpp, ppc-blockinfo.hpp.
    - Interp.v: the loops of ppc/ppc-cpu.cpp: the plain interpreter,
      predecoding, [execute].  Frame.v: what an instruction leaves alone.
      InterpSpec.v, PredecodeSpec.v, CacheSpec.v, BlockSpec.v: the loops are
      safe, predecoding translates a block and ends, the two caches stay
      coherent, a predecoded block does what the plain interpreter does.
    Around the processor:
    - Glue.v (kpx_cpu/sheepshaver_glue.cpp, rsrc_patches.cpp in part): 68k and
      Mac OS calls, native routines, resource hooks, interrupts.  They call
      [execute] again: here it is an argument, and [run] and [host_of] tie the
      knot for any depth of nesting.  GlueSpec.v, MachineSpec.v, CallSpec.v:
      the whole machine is safe, and calls and interrupts restore what they
      borrow.
    - Thunks.v, ThunkSpec.v: include/thunks.h, thunks.cpp: the area shared with
      Mac OS, and the code and descriptors of native routines.
    - Irq.v: the flags of pending interrupts (Unix/main_unix.cpp).
    - EmulOps.v, EmulOpsSpec.v: emul_op.cpp, with the parameter RAM and its
      start-up values (main.cpp) and the level 1 interrupt.
    Behind the fake opcodes:
    - Adb.v, AdbSpec.v: adb.cpp.  Timer.v, TimerSpec.v: timer.cpp,
      Unix/timer_unix.cpp; TimerThread.v: its two threads as a step relation.
    - Scsi.v, ScsiSpec.v: scsi.cpp and its dispatcher in emul_op.cpp.
    - MacUtil.v: macos_util.cpp.  MacMem.v: Mac memory as host code sees it.
    - SysFile.v: include/sys.h and Unix/sys_unix.cpp for files and block
      devices.  Device.v: what drivers share (include/macos_util.h).  Disk.v,
      DiskSpec.v: disk.cpp.  Sony.v: sony.cpp.  Cdrom.v, CdromSpec.v:
      cdrom.cpp.  Drivers.v: mounting a volume with the three of them.
    - Accel.v, AccelSpec.v: gfxaccel.cpp: the hooks of QuickDraw's acceleration
      and its operations on rectangles of pixels.
    - SharedLib.v, SharedLibSpec.v: the calls of Mac OS in macos_util.cpp:
      symbols of shared libraries, CallUniversalProc, the system heap.
    Before the start:
    - Prefs.v, PrefsSpec.v: prefs.cpp, prefs_items.cpp, Unix/prefs_unix.cpp.
    - Rom.v, RomSpec.v, RomBranch.v: the ROM image tools of rom_patches.cpp:
      decompression, searches, space for patches.

    ** What the theorems show

    - Safety: every state the machine can reach is well formed, whatever the
      program does ([execute_safe], [emul_ppc_safe]); the caches stay coherent
      ([execute_coherent], [found_block_runs]); at most one thread changes the
      wake-up time ([wakeup_time_exclusive]).
    - Refinement and equivalence: blocks against the plain interpreter, the
      decoder against pattern matching, optimised loads against the portable
      ones, the SCSI dispatcher against the protocol of the bus, the
      scatter/gather table against the transfers, the ROM's branch search
      against the interpreter, the partition search against its definition.
    - Functional behaviour: instructions, calls and interrupts, thunks, block
      cache, timers, keyboard queue, interrupt service; copying a rectangle of
      pixels onto an overlapping one, inverting and filling by unrolled loops
      ([NQD_bitblt_spec], [NQD_rect_spec]).
    - Round trips: settings, LZSS data, parameter RAM, disk driver.
    - Termination and bounds: predecoding, keyboard and timer loops, transfer
      blocks, the decompressor on any input, the table of contents of a disc.
    - Errors: the refusals of the disk driver, and a deadlock of the two timer
      threads.
    Where the code does something other than what it means to, the theorem
    states what it does (partition starts beyond 2^31 blocks, moving bits of
    FPSCR, the timers' deadlock, ...).

    ** Not modelled

    - The translator (kpx_cpu/src/cpu/jit, ppc-translate.cpp, ppc-dyngen.cpp):
      it emits host machine code, whose semantics is not part of the program.
    - The patches themselves (rom_patches.cpp, rsrc_patches.cpp): byte patterns
      for a ROM and for resources that are not part of the repository.
    - Host devices: video (but for the acceleration), audio, network, serial,
      clipboard, the host's CD functions, shared folders, and the user
      interface; signal handlers (Unix/sigsegv.cpp), which read host contexts
      and host instructions; start-up of the process.
    - Debugging output, statistics, the flight recorder.
    - Other hosts (Haiku, MacOSX, Windows), and third-party code (slirp). *)
From Stdlib Require Export ZArith Lia Bool.
From stdpp Require Export base option numbers list list_numbers gmap strings.

#[global] Open Scope Z_scope.

(** ** Outcomes

    Every handler of the emulator is a function from the machine state to an
    [outcome]: it completes, it calls [abort()], it touches unmapped host
    memory (the host delivers SIGSEGV at the given address), or it leaves the
    emulator through [QuitEmulator()].  [Fuel] has no counterpart in the code:
    it is the result of an emulation loop whose bound, an argument of the
    model, was too small. *)
Inductive outcome (A : Type) : Type :=
| Ok (a : A)
| Abort
| Segv (addr : Z)
| Quit
| Fuel.
Arguments Ok {A} a.
Arguments Abort {A}.
Arguments Segv {A} addr.
Arguments Quit {A}.
Arguments Fuel {A}.

#[export] Instance outcome_ret : MRet outcome := fun A a => Ok a.
#[export] Instance outcome_bind : MBind outcome := fun A B f m =>
  match m with
  | Ok a => f a
  | Abort => Abort
  | Segv x => Segv x
  | Quit => Quit
  | Fuel => Fuel
  end.

Lemma outcome_bind_Ok {A B} (f : A -> outcome B) m b :
  mbind f m = Ok b <-> exists a, m = Ok a /\ f a = Ok b.
Proof. destruct m; cbn; split; [eauto| |..]; naive_solver. Qed.

(** [Q] holds of the value, whenever there is one. *)
Definition outcome_holds {A} (Q : A -> Prop) (m : outcome A) : Prop :=
  match m with Ok a => Q a | _ => True end.

Lemma outcome_holds_ret {A} (Q : A -> Prop) a : Q a -> outcome_holds Q (Ok a).
Proof. done. Qed.

Lemma outcome_holds_bind {A B} (P : A -> Prop) (Q : B -> Prop) f m :
  outcome_holds P m -> (forall a, P a -> outcome_holds Q (f a)) ->
  outcome_holds Q (mbind f m).
Proof. destruct m; cbn; auto. Qed.

(** The computation gives a value. *)
Definition completes {A} (m : outcome A) : bool := match m with Ok _ => true | _ => false end.

Lemma completes_holds {A} (Q : A -> Prop) (m : outcome A) :
  completes m = true -> outcome_holds Q m -> exists a, m = Ok a /\ Q a.
Proof. destruct m as [a| | | |]; cbn; [by exists a|done..]. Qed.

(** ** Fixed-width integers

    A value of the C type [uintN] is a [Z] in [0, 2^N); a value of [intN] is a
    [Z] in [-2^(N-1), 2^(N-1)).  [trunc] is the conversion to [uintN] and
    [sext] the conversion to [intN]. *)
Definition trunc (w z : Z) : Z := z mod 2 ^ w.
Definition sext (w z : Z) : Z :=
  if trunc w z <? 2 ^ (w - 1) then trunc w z else trunc w z - 2 ^ w.

Abbreviation u8 := (trunc 8).
Abbreviation u16 := (trunc 16).
Abbreviation u32 := (trunc 32).
Abbreviation u64 := (trunc 64).
Abbreviation s8 := (sext 8).
Abbreviation s16 := (sext 16).
Abbreviation s32 := (sext 32).
Abbreviation s64 := (sext 64).

Definition is_uint (w z : Z) : Prop := 0 <= z < 2 ^ w.

#[export] Instance is_uint_dec w z : Decision (is_uint w z).
Proof. unfold is_uint. apply _. Defined.

(** [b] as a C integer. *)
Definition bZ (b : bool) : Z := if b then 1 else 0.
(** A C integer used as a condition. *)
Definition Zb (z : Z) : bool := negb (z =? 0).

(** ** Ranges *)

Create HintDb word.

Lemma trunc_range w z : 0 <= w -> is_uint w (trunc w z).
Proof. intros. apply Z.mod_pos_bound. lia. Qed.

Lemma trunc_small w z : is_uint w z -> trunc w z = z.
Proof. intros. by apply Z.mod_small. Qed.

Lemma trunc_trunc w v z : 0 <= w <= v -> trunc w (trunc v z) = trunc w z.
Proof.
  intros. unfold trunc. apply Z.mod_mod_divide.
  exists (2 ^ (v - w)). rewrite <- Z.pow_add_r by lia. f_equal. lia.
Qed.

Lemma trunc_add_l w a b : trunc w (trunc w a + b) = trunc w (a + b).
Proof. apply Zplus_mod_idemp_l. Qed.
Lemma trunc_add_r w a b : trunc w (a + trunc w b) = trunc w (a + b).
Proof. apply Zplus_mod_idemp_r. Qed.
Lemma trunc_mul_l w a b : trunc w (trunc w a * b) = trunc w (a * b).
Proof. apply Zmult_mod_idemp_l. Qed.
Lemma trunc_mul_r w a b : trunc w (a * trunc w b) = trunc w (a * b).
Proof. apply Zmult_mod_idemp_r. Qed.

Lemma sext_range w z : 0 < w -> - 2 ^ (w - 1) <= sext w z < 2 ^ (w - 1).
Proof.
  intros. unfold sext. pose proof (trunc_range w z ltac:(lia)) as [? ?].
  assert (2 ^ w = 2 * 2 ^ (w - 1)) by (rewrite <- Z.pow_succ_r by lia; f_equal; lia).
  destruct (Z.ltb_spec (trunc w z) (2 ^ (w - 1))); lia.
Qed.

Lemma trunc_sext w z : 0 <= w -> trunc w (sext w z) = trunc w z.
Proof.
  intros. unfold sext. destruct (_ <? _).
  - by apply trunc_trunc.
  - unfold trunc. rewrite <- (Z_mod_plus_full (z `mod` 2 ^ w - 2 ^ w) 1).
    rewrite Z.mul_1_l, Z.sub_add. apply Z.mod_mod. lia.
Qed.

Lemma sext_small w z :
  0 < w -> - 2 ^ (w - 1) <= z < 2 ^ (w - 1) -> sext w z = z.
Proof.
  intros Hw ?.
  assert (E : 2 ^ w = 2 * 2 ^ (w - 1)) by (rewrite <- Z.pow_succ_r by lia; f_equal; lia).
  unfold sext, trunc. destruct (decide (0 <= z)).
  - rewrite Z.mod_small by lia. destruct (Z.ltb_spec z (2 ^ (w - 1))); lia.
  - replace (z `mod` 2 ^ w) with (z + 2 ^ w); cycle 1.
    { rewrite <- (Z_mod_plus_full z 1), Z.mul_1_l. symmetry. apply Z.mod_small. lia. }
    destruct (Z.ltb_spec (z + 2 ^ w) (2 ^ (w - 1))); lia.
Qed.

(** The signed reading differs from the unsigned one by a multiple of [2^w]. *)
Lemma sext_cases w z :
  0 < w -> is_uint w z ->
  (z < 2 ^ (w - 1) /\ sext w z = z) \/ (2 ^ (w - 1) <= z /\ sext w z = z - 2 ^ w).
Proof.
  intros Hw Hz. unfold sext. rewrite trunc_small by done.
  destruct (Z.ltb_spec z (2 ^ (w - 1))); auto.
Qed.

Lemma sext_cong w a b : trunc w a = trunc w b -> sext w a = sext w b.
Proof. intros E. unfold sext. by rewrite E. Qed.

(** ** Bits *)

Lemma testbit_trunc w z i :
  0 <= w -> Z.testbit (trunc w z) i = (i <? w) && Z.testbit z i.
Proof.
  intros Hw. unfold trunc. destruct (Z.ltb_spec i w).
  - by rewrite Z.mod_pow2_bits_low by lia.
  - by rewrite Z.mod_pow2_bits_high by lia.
Qed.

Lemma testbit_shiftl a n i : Z.testbit (Z.shiftl a n) i = (0 <=? i) && Z.testbit a (i - n).
Proof.
  destruct (Z.leb_spec 0 i); [by apply Z.shiftl_spec|]. by rewrite Z.testbit_neg_r.
Qed.

Lemma testbit_shiftr a n i : Z.testbit (Z.shiftr a n) i = (0 <=? i) && Z.testbit a (i + n).
Proof.
  destruct (Z.leb_spec 0 i); [by apply Z.shiftr_spec|]. by rewrite Z.testbit_neg_r.
Qed.

Lemma testbit_lnot a i : Z.testbit (Z.lnot a) i = (0 <=? i) && negb (Z.testbit a i).
Proof.
  destruct (Z.leb_spec 0 i); [by apply Z.lnot_spec|]. by rewrite Z.testbit_neg_r.
Qed.

Lemma testbit_above w z i : is_uint w z -> w <= i -> 0 <= i -> Z.testbit z i = false.
Proof.
  intros Hz ? ?. destruct (decide (0 <= w)).
  - rewrite <- (trunc_small w z) by done. rewrite testbit_trunc by lia.
    destruct (Z.ltb_spec i w); [lia|done].
  - unfold is_uint in Hz. rewrite Z.pow_neg_r in Hz by lia. lia.
Qed.

Lemma is_uint_bits w z :
  0 <= w -> 0 <= z -> is_uint w z <-> (forall i, w <= i -> Z.testbit z i = false).
Proof. intros. unfold is_uint. by apply Z.bounded_iff_bits_nonneg'. Qed.

Lemma is_uint_0 w : 0 <= w -> is_uint w 0.
Proof. intros. split; [done|]. by apply Z.pow_pos_nonneg. Qed.

Lemma is_uint_land_l w a b : 0 <= w -> is_uint w a -> is_uint w (Z.land a b).
Proof.
  intros Hw Ha. apply is_uint_bits; [done|apply Z.land_nonneg; left; apply Ha|].
  intros i Hi. rewrite Z.land_spec, (testbit_above w) by (done || lia). done.
Qed.

Lemma is_uint_land_r w a b : 0 <= w -> is_uint w b -> is_uint w (Z.land a b).
Proof. intros. rewrite Z.land_comm. by apply is_uint_land_l. Qed.

Lemma is_uint_lor w a b :
  0 <= w -> is_uint w a -> is_uint w b -> is_uint w (Z.lor a b).
Proof.
  intros Hw Ha Hb. apply is_uint_bits; [done|apply Z.lor_nonneg; split; [apply Ha|apply Hb]|].
  intros i Hi. rewrite Z.lor_spec, !(testbit_above w) by (done || lia). done.
Qed.

Lemma is_uint_lxor w a b :
  0 <= w -> is_uint w a -> is_uint w b -> is_uint w (Z.lxor a b).
Proof.
  intros Hw [Ha ?] [Hb ?]. apply is_uint_bits; [done|apply Z.lxor_nonneg; tauto|].
  intros i Hi. rewrite Z.lxor_spec, !(testbit_above w) by (done || lia). done.
Qed.

Lemma is_uint_shiftr w a k : 0 <= k -> is_uint w a -> is_uint w (Z.shiftr a k).
Proof.
  intros Hk [? ?]. split; [by apply Z.shiftr_nonneg|].
  rewrite Z.shiftr_div_pow2 by done.
  eapply Z.le_lt_trans; [apply Z.div_le_upper_bound with (q := a)|done].
  - by apply Z.pow_pos_nonneg.
  - assert (0 < 2 ^ k) by (by apply Z.pow_pos_nonneg). nia.
Qed.

Lemma is_uint_mono w v a : 0 <= w <= v -> is_uint w a -> is_uint v a.
Proof.
  intros ? [? ?]. split; [done|]. eapply Z.lt_le_trans; [done|].
  apply Z.pow_le_mono_r; lia.
Qed.

Lemma is_uint_bZ w b : 1 <= w -> is_uint w (bZ b).
Proof.
  intros. apply (is_uint_mono 1); [lia|]. unfold is_uint. destruct b; cbn; lia.
Qed.

#[export] Hint Resolve trunc_range is_uint_0 is_uint_land_l is_uint_lor is_uint_lxor
  is_uint_shiftr is_uint_bZ : word.
#[export] Hint Extern 1 (_ <= _) => lia : word.
#[export] Hint Extern 1 (_ < _) => lia : word.

(** [bits] proves an equation between bit expressions: it compares the two
    sides bit by bit and splits on the comparisons of bit positions. *)
Lemma testbit_bZ b i : Z.testbit (bZ b) i = (i =? 0) && b.
Proof.
  destruct b; cbn.
  - destruct (Z.eqb_spec i 0) as [->|]; [done|]. cbn.
    destruct i as [|[p|p|]|]; try done; lia.
  - rewrite andb_false_r. apply Z.bits_0.
Qed.

Lemma testbit_pow2 n i : 0 <= n -> Z.testbit (2 ^ n) i = (i =? n).
Proof.
  intros. destruct (Z.eqb_spec i n) as [->|].
  - by apply Z.pow2_bits_true.
  - apply Z.pow2_bits_false. lia.
Qed.

(** A test of one bit. *)
Lemma Zb_land_bit x n : 0 <= n -> Zb (Z.land x (2 ^ n)) = Z.testbit x n.
Proof.
  intros Hn. unfold Zb. destruct (Z.testbit x n) eqn:E.
  - destruct (Z.eqb_spec (Z.land x (2 ^ n)) 0) as [H|]; [|done].
    apply (f_equal (fun z => Z.testbit z n)) in H. rewrite Z.land_spec, E, Z.pow2_bits_true, Z.bits_0 in H by done. done.
  - replace (Z.land x (2 ^ n)) with 0; [done|]. symmetry. apply Z.bits_inj'; intros i Hi.
    rewrite Z.land_spec, testbit_pow2, Z.bits_0 by done. destruct (Z.eqb_spec i n) as [->|]; [by rewrite E|apply andb_false_r].
Qed.

Ltac split_cmp :=
  repeat match goal with
  | |- context [Z.ltb ?a ?b] =>
      first [ rewrite (proj2 (Z.ltb_lt a b)) by lia
            | rewrite (proj2 (Z.ltb_ge a b)) by lia
            | destruct (Z.ltb_spec a b) ]
  | |- context [Z.leb ?a ?b] =>
      first [ rewrite (proj2 (Z.leb_le a b)) by lia
            | rewrite (proj2 (Z.leb_gt a b)) by lia
            | destruct (Z.leb_spec a b) ]
  | |- context [Z.eqb ?a ?b] =>
      first [ rewrite (proj2 (Z.eqb_eq a b)) by lia
            | rewrite (proj2 (Z.eqb_neq a b)) by lia
            | destruct (Z.eqb_spec a b) ]
  end.

Ltac push_testbit :=
  repeat first
    [ rewrite Z.land_spec | rewrite Z.lor_spec | rewrite Z.lxor_spec
    | rewrite Z.bits_0 | rewrite testbit_lnot
    | rewrite testbit_shiftr | rewrite testbit_shiftl
    | rewrite testbit_trunc by lia | rewrite testbit_bZ
    | rewrite Z.testbit_ones by lia | rewrite testbit_pow2 by lia ].

Ltac same_bit :=
  repeat match goal with
  | |- context [Z.testbit ?a ?i] =>
      match goal with
      | |- context [Z.testbit a ?j] =>
          lazymatch i with j => fail | _ => idtac end;
          replace (Z.testbit a i) with (Z.testbit a j) by (f_equal; lia)
      end
  end.

Ltac zero_bits :=
  repeat match goal with
  | |- context [Z.testbit ?a ?j] =>
      first [ rewrite (Z.testbit_neg_r a j) by lia
            | match goal with
              | H : is_uint ?w a |- _ => rewrite (testbit_above w a j H) by lia
              end ]
  end.

Ltac bool_simpl :=
  cbn [andb orb xorb negb];
  rewrite ?andb_false_r, ?andb_true_r, ?orb_false_r, ?orb_true_r, ?xorb_false_r, ?xorb_true_r.

Ltac case_bits :=
  repeat match goal with
  | |- context [Z.testbit ?a ?i] => destruct (Z.testbit a i)
  end.

Ltac close_bits :=
  bool_simpl; try done; zero_bits; bool_simpl; try done;
  same_bit; try done; case_bits; bool_simpl; done.

Ltac bits_with tac :=
  apply Z.bits_inj'; intros ?i ?Hi; push_testbit; tac; split_cmp; close_bits.
Ltac bits := bits_with idtac.

(** ** Shifts and powers *)

Lemma shiftl_land_ones a k w :
  0 <= k -> 0 <= w -> trunc w (Z.shiftl a k) = trunc w (a * 2 ^ k).
Proof. intros. by rewrite Z.shiftl_mul_pow2. Qed.

Lemma land_ones_trunc w a : 0 <= w -> Z.land a (Z.ones w) = trunc w a.
Proof. intros. by apply Z.land_ones. Qed.

(** Disjoint bit sets add up. *)
Lemma lor_add_disjoint a b : Z.land a b = 0 -> Z.lor a b = a + b.
Proof. intros H. rewrite <- Z.lxor_lor by done. symmetry. by apply Z.add_nocarry_lxor. Qed.

Lemma lor_shiftl_add a b k :
  0 <= k -> is_uint k b -> Z.lor (Z.shiftl a k) b = a * 2 ^ k + b.
Proof.
  intros Hk Hb. rewrite lor_add_disjoint.
  - by rewrite Z.shiftl_mul_pow2.
  - apply Z.bits_inj'; intros i Hi. push_testbit.
    destruct (Z.ltb_spec i k); close_bits.
Qed.

(** ** Lists used as register files and arrays *)

Definition Zlookup (l : list Z) (i : Z) : Z := l !!! Z.to_nat i.
Definition Zinsert (i v : Z) (l : list Z) : list Z := <[Z.to_nat i := v]> l.

Lemma Zlookup_insert_eq l i v :
  0 <= i < Z.of_nat (length l) -> Zlookup (Zinsert i v l) i = v.
Proof.
  intros. unfold Zlookup, Zinsert. apply list_lookup_total_insert_eq. lia.
Qed.

Lemma Zlookup_insert_ne l i j v :
  0 <= i -> 0 <= j -> i <> j -> Zlookup (Zinsert i v l) j = Zlookup l j.
Proof.
  intros. unfold Zlookup, Zinsert. apply list_lookup_total_insert_ne. lia.
Qed.

Lemma length_Zinsert l i v : length (Zinsert i v l) = length l.
Proof. apply length_insert. Qed.

Lemma Forall_Zinsert (P : Z -> Prop) l i v :
  Forall P l -> P v -> Forall P (Zinsert i v l).
Proof. intros. by apply Forall_insert. Qed.

Lemma Forall_Zlookup (P : Z -> Prop) l i :
  Forall P l -> 0 <= i < Z.of_nat (length l) -> P (Zlookup l i).
Proof.
  intros HF Hi. unfold Zlookup. eapply Forall_lookup_total_1; [done|].
  lia.
Qed.

(** The values a C loop [for (int i = a; i < a + n; i++)] runs through. *)
Definition count_up (n : nat) : list Z := Z.of_nat <$> seq 0 n.

Lemma elem_of_count_up n i : i ∈ count_up n <-> 0 <= i < Z.of_nat n.
Proof.
  unfold count_up. rewrite list_elem_of_fmap. split.
  - intros (k & -> & Hk%elem_of_seq). lia.
  - intros Hi. exists (Z.to_nat i). rewrite elem_of_seq. lia.
Qed.

Lemma count_up_S n : count_up (S n) = 0 :: (Z.succ <$> count_up n).
Proof.
  unfold count_up. rewrite <- cons_seq, <- fmap_S_seq, fmap_cons, <- !list_fmap_compose. f_equal.
  apply list_fmap_ext. intros. cbn. lia.
Qed.

Lemma count_up_snoc n : count_up (S n) = count_up n ++ [Z.of_nat n].
Proof. unfold count_up. by rewrite seq_S, fmap_app. Qed.

(** A loop body that may stop the run, over a list of indices. *)
Fixpoint foldM {A S} (f : A -> S -> outcome S) (l : list A) (s : S) : outcome S :=
  match l with
  | [] => Ok s
  | x :: l => s ← f x s; foldM f l s
  end.

Lemma foldM_app {A S} (f : A -> S -> outcome S) l1 l2 s :
  foldM f (l1 ++ l2) s = s' ← foldM f l1 s; foldM f l2 s'.
Proof.
  revert s. induction l1 as [|x l1 IH]; intros s; cbn; [done|].
  destruct (f x s); cbn; auto.
Qed.

Lemma foldM_holds {A S} (f : A -> S -> outcome S) (P : S -> Prop) l s :
  (forall x s, x ∈ l -> P s -> outcome_holds P (f x s)) ->
  P s -> outcome_holds P (foldM f l s).
Proof.
  revert s. induction l as [|x l IH]; intros s Hf Hs; cbn; [done|].
  eapply outcome_holds_bind; [apply Hf; [left|done]|].
  intros a Ha. apply IH; [|done]. intros y t Hy. apply Hf. by right.
Qed.

Lemma foldr_invariant {A S} (f : A -> S -> S) (P : S -> Prop) l s :
  (forall x s, P s -> P (f x s)) -> P s -> P (foldr f s l).
Proof. intros Hf Hs. induction l; cbn; auto. Qed.

Lemma foldl_invariant {A S} (f : S -> A -> S) (P : S -> Prop) l s :
  (forall x s, x ∈ l -> P s -> P (f s x)) -> P s -> P (foldl f s l).
Proof.
  revert s. induction l as [|x l IH]; intros s Hf Hs; cbn; [done|].
  apply IH; [intros; apply Hf; [by right|done]|]. apply Hf; [left|done].
Qed.
