(* ===== verification/Bitfields.v ===== *)
(** Instruction and register bit fields (kpx_cpu/src/cpu/ppc/ppc-bitfields.hpp).

    A [bit_field<FB, FE>] names bits [FB] to [FE] of a 32-bit word in the
    PowerPC numbering, where bit 0 is the most significant one; C bit [k] is
    PowerPC bit [31 - k].  The section on laws shows that [extract] reads the
    unsigned number the field holds, that [insert] writes it, and that fields
    which do not overlap do not disturb each other. *)
From S2P Require Import Prelude.

Record bit_field := BF { FB : Z; FE : Z }.

Definition bf_wf (f : bit_field) : Prop := 0 <= FB f <= FE f /\ FE f <= 31.
#[export] Instance bf_wf_dec f : Decision (bf_wf f).
Proof. unfold bf_wf. apply _. Defined.

(** Number of bits of the field. *)
Definition bf_len (f : bit_field) : Z := FE f - FB f + 1.

(** [static_mask<FB, FE>::value], with the specialisation for [FE = 31]. *)
Definition static_mask (fb fe : Z) : Z :=
  if fe =? 31 then Z.shiftr 0xffffffff fb
  else Z.lxor (Z.shiftr 0xffffffff fb) (Z.shiftr 0xffffffff (fe + 1)).

Definition mask (f : bit_field) : Z := static_mask (FB f) (FE f).

Definition test (f : bit_field) (value : Z) : bool := Zb (Z.land value (mask f)).

Definition extract (f : bit_field) (value : Z) : Z :=
  let m := Z.shiftr (mask f) (31 - FE f) in
  Z.land (Z.shiftr value (31 - FE f)) m.

Definition insert (f : bit_field) (data value : Z) : Z :=
  let m := mask f in
  Z.lor (Z.land data (u32 (Z.lnot m))) (Z.land (u32 (Z.shiftl value (31 - FE f))) m).

(** ** Instruction fields *)

Definition OPCD_field := BF 0 5.
Definition XO_10_field := BF 21 30.
Definition XO_9_field := BF 22 30.
Definition XO_5_field := BF 26 30.

Definition rA_field := BF 11 15.
Definition rB_field := BF 16 20.
Definition rD_field := BF 6 10.
Definition rS_field := BF 6 10.

Definition frA_field := BF 11 15.
Definition frB_field := BF 16 20.
Definition frC_field := BF 21 25.
Definition frD_field := BF 6 10.
Definition frS_field := BF 6 10.

Definition vA_field := BF 11 15.
Definition vB_field := BF 16 20.
Definition vC_field := BF 21 25.
Definition vD_field := BF 6 10.
Definition vS_field := BF 6 10.

Definition vRc_field := BF 21 21.
Definition vUIMM_field := BF 11 15.
Definition vSH_field := BF 22 25.

Definition crbA_field := BF 11 15.
Definition crbB_field := BF 16 20.
Definition crbD_field := BF 6 10.
Definition crfD_field := BF 6 8.
Definition crfS_field := BF 11 13.
Definition CRM_field := BF 12 19.
Definition FM_field := BF 7 14.

(** ** Condition register fields *)

Definition CR_field (crn : Z) := BF (4 * crn + 0) (4 * crn + 3).
Definition CR_LT_field (crn : Z) := BF (4 * crn + 0) (4 * crn + 0).
Definition CR_GT_field (crn : Z) := BF (4 * crn + 1) (4 * crn + 1).
Definition CR_EQ_field (crn : Z) := BF (4 * crn + 2) (4 * crn + 2).
Definition CR_SO_field (crn : Z) := BF (4 * crn + 3) (4 * crn + 3).
Definition CR_UN_field (crn : Z) := BF (4 * crn + 3) (4 * crn + 3).

Definition standalone_CR_LT_field := CR_LT_field 7.
Definition standalone_CR_GT_field := CR_GT_field 7.
Definition standalone_CR_EQ_field := CR_EQ_field 7.
Definition standalone_CR_SO_field := CR_SO_field 7.

(** ** XER, FPSCR and VSCR fields *)

Definition XER_SO_field := BF 0 0.
Definition XER_OV_field := BF 1 1.
Definition XER_CA_field := BF 2 2.
Definition XER_COUNT_field := BF 25 31.

Definition FPSCR_FX_field := BF 0 0.
Definition FPSCR_FEX_field := BF 1 1.
Definition FPSCR_VX_field := BF 2 2.
Definition FPSCR_OX_field := BF 3 3.
Definition FPSCR_UX_field := BF 4 4.
Definition FPSCR_ZX_field := BF 5 5.
Definition FPSCR_XX_field := BF 6 6.
Definition FPSCR_VXSNAN_field := BF 7 7.
Definition FPSCR_VXISI_field := BF 8 8.
Definition FPSCR_VXIDI_field := BF 9 9.
Definition FPSCR_VXZDZ_field := BF 10 10.
Definition FPSCR_VXIMZ_field := BF 11 11.
Definition FPSCR_VXVC_field := BF 12 12.
Definition FPSCR_FR_field := BF 13 13.
Definition FPSCR_FI_field := BF 14 14.
Definition FPSCR_FPRF_field := BF 15 19.
Definition FPSCR_VXSOFT_field := BF 21 21.
Definition FPSCR_VXSQRT_field := BF 22 22.
Definition FPSCR_VXCVI_field := BF 23 23.
Definition FPSCR_VE_field := BF 24 24.
Definition FPSCR_OE_field := BF 25 25.
Definition FPSCR_UE_field := BF 26 26.
Definition FPSCR_ZE_field := BF 27 27.
Definition FPSCR_XE_field := BF 28 28.
Definition FPSCR_NI_field := BF 29 29.
Definition FPSCR_RN_field := BF 30 31.
Definition FPSCR_FPCC_field := BF 16 19.
Definition FPSCR_FPRF_C_field := BF 15 15.
Definition FPSCR_FPRF_FL_field := BF 16 16.
Definition FPSCR_FPRF_FG_field := BF 17 17.
Definition FPSCR_FPRF_FE_field := BF 18 18.
Definition FPSCR_FPRF_FU_field := BF 19 19.

Definition VSCR_NJ_field := BF 15 15.
Definition VSCR_SAT_field := BF 31 31.

(** ** Branch, ALU and immediate fields *)

Definition AA_field := BF 30 30.
Definition LK_field := BF 31 31.
Definition BD_field := BF 16 29.
Definition BI_field := BF 11 15.
Definition BO_field := BF 6 10.

(** The BO macros: whether the branch decrements CTR, which value of CTR it
    wants, whether it looks at a condition bit and which value it wants. *)
Definition BO_MAKE (COND TRUE DCTR CTR0 : bool) : Z :=
  Z.lor (Z.lor (Z.lor (if COND then 0 else 16) (if TRUE then 8 else 0))
    (if DCTR then 0 else 4)) (if CTR0 then 2 else 0).
Definition BO_DECREMENT_CTR (bo : Z) : bool := Z.land bo 0x04 =? 0.
Definition BO_BRANCH_IF_CTR_ZERO (bo : Z) : bool := negb (Z.land bo 0x02 =? 0).
Definition BO_CONDITIONAL_BRANCH (bo : Z) : bool := Z.land bo 0x10 =? 0.
Definition BO_BRANCH_IF_TRUE (bo : Z) : bool := negb (Z.land bo 0x08 =? 0).

Definition Rc_field := BF 31 31.
Definition OE_field := BF 21 21.
Definition MB_field := BF 21 25.
Definition ME_field := BF 26 30.
Definition NB_field := BF 16 20.
Definition SH_field := BF 16 20.

Definition IMM_field := BF 16 19.
Definition d_field := BF 16 31.
Definition LI_field := BF 6 29.
Definition SIMM_field := BF 16 31.
Definition UIMM_field := BF 16 31.

Definition SR_field := BF 12 15.
Definition TO_field := BF 6 10.
Definition SPR_field := BF 11 20.
Definition TBR_field := BF 11 20.

(** Predicates the decode table passes to the handlers: [NAME_0] and [NAME_1]
    are [fake_bit_field<bool, false>] and [fake_bit_field<bool, true>],
    [NAME_G] is the field itself. *)
Inductive bit_pred :=
| fake_bit_field (value : bool)
| real_bit_field (f : bit_field).

Definition bp_test (p : bit_pred) (opcode : Z) : bool :=
  match p with
  | fake_bit_field value => value
  | real_bit_field f => test f opcode
  end.

Definition CA_BIT_0 := fake_bit_field false.
Definition CA_BIT_1 := fake_bit_field true.
Definition RC_BIT_0 := fake_bit_field false.
Definition RC_BIT_1 := fake_bit_field true.
Definition RC_BIT_G := real_bit_field Rc_field.
Definition OE_BIT_0 := fake_bit_field false.
Definition OE_BIT_1 := fake_bit_field true.
Definition OE_BIT_G := real_bit_field OE_field.
Definition AA_BIT_0 := fake_bit_field false.
Definition AA_BIT_1 := fake_bit_field true.
Definition AA_BIT_G := real_bit_field AA_field.
Definition LK_BIT_0 := fake_bit_field false.
Definition LK_BIT_1 := fake_bit_field true.
Definition LK_BIT_G := real_bit_field LK_field.
Definition vRC_BIT_0 := fake_bit_field false.
Definition vRC_BIT_1 := fake_bit_field true.
Definition vRC_BIT_G := real_bit_field vRc_field.

(** ** Laws *)

Ltac solve_bf := solve [done | lia | unfold bf_wf; cbn; lia | unfold bf_len; cbn; lia].

Lemma ones32 : 0xffffffff = Z.ones 32.
Proof. reflexivity. Qed.

(** The mask has exactly the bits [FB] to [FE]. *)
Lemma testbit_mask f i :
  bf_wf f ->
  Z.testbit (mask f) i = (31 - FE f <=? i) && (i <=? 31 - FB f).
Proof.
  intros [? ?]. unfold mask, static_mask. rewrite ones32.
  destruct (Z.eqb_spec (FE f) 31); push_testbit; split_cmp; done.
Qed.

Lemma mask_range f : bf_wf f -> is_uint 32 (mask f).
Proof.
  intros [? ?]. unfold mask, static_mask.
  assert (is_uint 32 0xffffffff) by done.
  destruct (_ =? _); auto 6 with word.
Qed.

Lemma mask_ones f : bf_wf f -> Z.shiftr (mask f) (31 - FE f) = Z.ones (bf_len f).
Proof.
  intros Hf. pose proof Hf as [? ?]. unfold bf_len.
  bits_with ltac:(rewrite testbit_mask by (done || lia)).
Qed.

(** [extract] reads the field as an unsigned number. *)
Lemma extract_spec f v :
  bf_wf f -> extract f v = trunc (bf_len f) (Z.shiftr v (31 - FE f)).
Proof.
  intros Hf. unfold extract. rewrite mask_ones by done.
  apply Z.land_ones. unfold bf_len. destruct Hf. lia.
Qed.

Lemma extract_range f v : bf_wf f -> is_uint (bf_len f) (extract f v).
Proof.
  intros Hf. rewrite extract_spec by done. apply trunc_range.
  unfold bf_len. destruct Hf. lia.
Qed.

Lemma extract_nonneg f v : bf_wf f -> 0 <= extract f v.
Proof. intros. by apply extract_range. Qed.

Lemma testbit_extract f v i :
  bf_wf f ->
  Z.testbit (extract f v) i =
    (i <? bf_len f) && ((0 <=? i) && Z.testbit v (i + (31 - FE f))).
Proof.
  intros Hf. pose proof Hf as [? ?]. rewrite extract_spec by done.
  unfold bf_len. push_testbit. done.
Qed.

Lemma extract_of_bits f z y :
  bf_wf f -> is_uint (bf_len f) y ->
  (forall i, 0 <= i < bf_len f -> Z.testbit z (i + (31 - FE f)) = Z.testbit y i) ->
  extract f z = y.
Proof.
  intros Hf Hy Hb. apply Z.bits_inj'; intros i Hi. rewrite testbit_extract by done.
  split_cmp; bool_simpl; [apply Hb; lia|]. by rewrite (testbit_above (bf_len f) y i).
Qed.

Lemma testbit_insert f d v i :
  bf_wf f -> 0 <= i ->
  Z.testbit (insert f d v) i =
    if (31 - FE f <=? i) && (i <=? 31 - FB f) then Z.testbit v (i - (31 - FE f))
    else (i <? 32) && Z.testbit d i.
Proof.
  intros Hf Hi. pose proof Hf as [? ?]. unfold insert. push_testbit.
  rewrite testbit_mask by done. split_cmp; cbn;
    repeat match goal with |- context [Z.testbit ?a ?j] => destruct (Z.testbit a j) end;
    done.
Qed.

Lemma insert_range f d v : bf_wf f -> is_uint 32 d -> is_uint 32 (insert f d v).
Proof.
  intros Hf Hd. unfold insert. pose proof (mask_range f Hf). auto 6 with word.
Qed.

(** The single-bit test used by the Rc, OE, AA and LK predicates. *)
Lemma test_bit f v :
  bf_wf f -> FB f = FE f -> test f v = Z.testbit v (31 - FB f).
Proof.
  intros Hf E. pose proof Hf as [? ?]. unfold test, Zb.
  assert (Hm : Z.land v (mask f) = if Z.testbit v (31 - FB f) then 2 ^ (31 - FB f) else 0).
  { apply Z.bits_inj'; intros i Hi. rewrite Z.land_spec, testbit_mask by done.
    destruct (Z.testbit v (31 - FB f)) eqn:Ht; push_testbit; split_cmp;
      cbn; rewrite ?andb_false_r, ?andb_true_r; try done;
      rewrite <- Ht; f_equal; lia. }
  rewrite Hm. destruct (Z.testbit _ _); [|done].
  destruct (Z.eqb_spec (2 ^ (31 - FB f)) 0); [|done].
  pose proof (Z.pow_pos_nonneg 2 (31 - FB f)). lia.
Qed.

Definition bf_disjoint (f g : bit_field) : bool := (FE f <? FB g) || (FE g <? FB f).

(** Fields round-trip.  What [insert] writes into a field is what
    [extract] reads back, truncated to the width of the field, and a field
    that does not overlap it keeps its value. *)
Theorem field_roundtrip f g d v :
  bf_wf f -> bf_wf g -> is_uint 32 d ->
  extract f (insert f d v) = trunc (bf_len f) v /\
  (bf_disjoint f g = true -> extract g (insert f d v) = extract g d).
Proof.
  intros Hf Hg Hd. pose proof Hf as [? ?]. pose proof Hg as [? ?]. split.
  - apply Z.bits_inj'; intros i Hi. rewrite testbit_extract by done.
    unfold bf_len. push_testbit. rewrite testbit_insert by lia || done.
    split_cmp; cbn; try done. f_equal; lia.
  - unfold bf_disjoint. intros Hdj. apply Z.bits_inj'; intros i Hi.
    rewrite !testbit_extract by done. unfold bf_len.
    rewrite testbit_insert by lia || done.
    destruct (Z.ltb_spec (FE f) (FB g)), (Z.ltb_spec (FE g) (FB f));
      try discriminate; split_cmp; close_bits.
Qed.

Lemma field_roundtrip_witness :
  extract rD_field (insert rD_field 0x7c0802a6 37) = 5 /\
  extract rA_field (insert rD_field 0x7c0802a6 37) = extract rA_field 0x7c0802a6.
Proof.
  destruct (field_roundtrip rD_field rA_field 0x7c0802a6 37) as [H1 H2];
    [by vm_compute..|]. split; [exact H1|]. by apply H2.
Defined.
