(* ===== verification/Registers.v ===== *)
(** The PowerPC register types (kpx_cpu/src/cpu/ppc/ppc-registers.hpp and
    kpx_cpu/src/cpu/spcflags.hpp): condition register, XER, special flags,
    VSCR and the 128-bit vector registers. *)
From S2P Require Import Prelude Bitfields.

(** ** Condition register

    [class powerpc_cr_register]: eight 4-bit fields, field 0 being the most
    significant one. *)
Definition cr_clear (crfd : Z) (cr : Z) : Z :=
  Z.land cr (u32 (Z.lnot (Z.shiftl 0xf (28 - 4 * crfd)))).

Definition cr_set (crfd v : Z) (cr : Z) : Z :=
  Z.lor (cr_clear crfd cr) (u32 (Z.shiftl v (28 - 4 * crfd))).

Definition cr_get (crfd : Z) (cr : Z) : Z :=
  Z.land (Z.shiftr cr (28 - 4 * crfd)) 0xf.

Definition cr_set_so (crfd : Z) (v : bool) (cr : Z) : Z :=
  let m := u32 (Z.shiftl (mask standalone_CR_SO_field) (28 - 4 * crfd)) in
  Z.lor (Z.land cr (u32 (Z.lnot m))) (if v then m else 0).

Definition cr_compute (crfd v : Z) (cr : Z) : Z :=
  let m := u32 (Z.shiftl
    (Z.lor (Z.lor (mask standalone_CR_LT_field) (mask standalone_CR_GT_field))
       (mask standalone_CR_EQ_field)) (28 - 4 * crfd)) in
  let cr := Z.land cr (u32 (Z.lnot m)) in
  if v <? 0 then
    Z.lor cr (u32 (Z.shiftl (mask standalone_CR_LT_field) (28 - 4 * crfd)))
  else if 0 <? v then
    Z.lor cr (u32 (Z.shiftl (mask standalone_CR_GT_field) (28 - 4 * crfd)))
  else
    Z.lor cr (u32 (Z.shiftl (mask standalone_CR_EQ_field) (28 - 4 * crfd))).

Definition cr_test (condition : Z) (cr : Z) : bool :=
  Zb (Z.land (u32 (Z.shiftl cr condition)) 0x80000000).

(** ** XER *)

Record xer_register := XER { xer_so : Z; xer_ov : Z; xer_ca : Z; xer_byte_count : Z }.

(** The constructor of [class powerpc_xer_register]. *)
Definition xer_init : xer_register := XER 0 0 0 0.

Definition xer_get (x : xer_register) : Z :=
  u32 (Z.lor (Z.lor (Z.lor (Z.shiftl (xer_so x) 31) (Z.shiftl (xer_ov x) 30))
    (Z.shiftl (xer_ca x) 29)) (xer_byte_count x)).

Definition xer_set (v : Z) : xer_register :=
  XER (u8 (extract XER_SO_field v)) (u8 (extract XER_OV_field v))
      (u8 (extract XER_CA_field v)) (u8 (extract XER_COUNT_field v)).

Definition xer_set_ov (v : Z) (x : xer_register) : xer_register :=
  XER (u8 (Z.lor (xer_so x) v)) (u8 v) (xer_ca x) (xer_byte_count x).

Definition xer_set_ca (v : Z) (x : xer_register) : xer_register :=
  XER (xer_so x) (xer_ov x) (u8 v) (xer_byte_count x).

(** The flags are single bits and the count is the 7-bit field of SPR 1. *)
Definition xer_wf (x : xer_register) : Prop :=
  is_uint 1 (xer_so x) /\ is_uint 1 (xer_ov x) /\ is_uint 1 (xer_ca x) /\
  is_uint 7 (xer_byte_count x).

(** ** Special CPU flags ([class basic_spcflags]) *)

Definition SPCFLAG_CPU_EXEC_RETURN := Z.shiftl 1 0.
Definition SPCFLAG_CPU_TRIGGER_INTERRUPT := Z.shiftl 1 1.
Definition SPCFLAG_CPU_HANDLE_INTERRUPT := Z.shiftl 1 2.
Definition SPCFLAG_CPU_ENTER_MON := Z.shiftl 1 3.
Definition SPCFLAG_JIT_EXEC_RETURN := Z.shiftl 1 4.

Definition spcflags_empty (m : Z) : bool := m =? 0.
Definition spcflags_test (v m : Z) : bool := Zb (Z.land m v).
Definition spcflags_set (v m : Z) : Z := Z.lor m v.
Definition spcflags_clear (v m : Z) : Z := Z.land m (u32 (Z.lnot v)).

(** ** VSCR *)

Definition vscr_set_sat (v : bool) (vscr : Z) : Z := insert VSCR_SAT_field vscr (bZ v).

(** ** Vector registers

    [union powerpc_vr] on a little-endian host: the 16 bytes are a 128-bit
    number, and element [i] of the [w]-bit view ([b], [h], [w] or [j]) is its
    digit [i] in base [2^w]. *)
Definition vr_get (w : Z) (r : Z) (i : Z) : Z := trunc w (Z.shiftr r (w * i)).

Definition vr_set (w : Z) (r : Z) (i v : Z) : Z :=
  Z.lor (Z.land r (Z.lnot (Z.shiftl (Z.ones w) (w * i))))
        (Z.shiftl (trunc w v) (w * i)).

(** ** Laws of the condition register *)

Lemma cr_field_mask_bits crfd i :
  0 <= crfd <= 7 -> 0 <= i ->
  Z.testbit (u32 (Z.lnot (Z.shiftl 0xf (28 - 4 * crfd)))) i =
    (i <? 32) && negb ((28 - 4 * crfd <=? i) && (i <? 32 - 4 * crfd)).
Proof.
  intros Hc Hi. replace 0xf with (Z.ones 4) by reflexivity. push_testbit.
  split_cmp; done.
Qed.

Lemma testbit_cr_set crfd v cr i :
  0 <= crfd <= 7 -> is_uint 4 v -> is_uint 32 cr -> 0 <= i ->
  Z.testbit (cr_set crfd v cr) i =
    if (28 - 4 * crfd <=? i) && (i <? 32 - 4 * crfd)
    then Z.testbit v (i - (28 - 4 * crfd)) else Z.testbit cr i.
Proof.
  intros Hc Hv Hr Hi. unfold cr_set, cr_clear. push_testbit.
  replace 0xf with (Z.ones 4) by reflexivity. push_testbit.
  split_cmp; close_bits.
Qed.

Lemma testbit_cr_get crfd cr i :
  0 <= crfd <= 7 -> 0 <= i ->
  Z.testbit (cr_get crfd cr) i = (i <? 4) && Z.testbit cr (i + (28 - 4 * crfd)).
Proof.
  intros. unfold cr_get. replace 0xf with (Z.ones 4) by reflexivity. push_testbit.
  split_cmp; cbn; rewrite ?andb_false_r, ?andb_true_r; done.
Qed.

Lemma cr_get_set crfd c v cr :
  0 <= crfd <= 7 -> 0 <= c <= 7 -> is_uint 4 v -> is_uint 32 cr ->
  cr_get c (cr_set crfd v cr) = if c =? crfd then v else cr_get c cr.
Proof.
  intros Hc Hd Hv Hr. apply Z.bits_inj'; intros i Hi.
  rewrite testbit_cr_get, testbit_cr_set by (done || lia).
  destruct (Z.eqb_spec c crfd) as [->|Hne].
  - split_cmp; cbn; try done; [f_equal; lia|].
    by rewrite (testbit_above 4 v i) by (done || lia).
  - rewrite testbit_cr_get by done. split_cmp; cbn; done.
Qed.

Lemma cr_set_range crfd v cr : is_uint 32 cr -> is_uint 32 (cr_set crfd v cr).
Proof. intros. unfold cr_set, cr_clear. auto 6 with word. Qed.

Lemma cr_set_so_range crfd v cr : is_uint 32 cr -> is_uint 32 (cr_set_so crfd v cr).
Proof. intros. unfold cr_set_so. destruct v; auto 6 with word. Qed.

Lemma cr_compute_range crfd v cr : is_uint 32 cr -> is_uint 32 (cr_compute crfd v cr).
Proof. intros. unfold cr_compute. repeat case_match; auto 6 with word. Qed.

Lemma cr_get_range crfd cr : is_uint 4 (cr_get crfd cr).
Proof.
  unfold cr_get. apply is_uint_land_r; [lia|done].
Qed.

#[export] Hint Resolve cr_set_range cr_set_so_range cr_compute_range cr_get_range : word.

(** [cr_test k] reads bit [k] in the PowerPC numbering. *)
Lemma cr_test_spec k cr : 0 <= k <= 31 -> cr_test k cr = Z.testbit cr (31 - k).
Proof.
  intros Hk. unfold cr_test, Zb.
  replace (Z.land _ _) with (if Z.testbit cr (31 - k) then 2 ^ 31 else 0).
  - by destruct (Z.testbit cr (31 - k)).
  - apply Z.bits_inj'; intros i Hi. replace 0x80000000 with (2 ^ 31) by reflexivity.
    push_testbit. destruct (Z.testbit cr (31 - k)) eqn:E; push_testbit; split_cmp;
      rewrite ?andb_false_r; try done; subst; rewrite ?E; try done.
    all: replace (31 - k) with (i - k) in E by lia; by rewrite E.
Qed.

(** The masks of field 7, as shifted constants. *)
Lemma standalone_masks :
  mask standalone_CR_LT_field = 2 ^ 3 /\ mask standalone_CR_GT_field = 2 ^ 2 /\
  mask standalone_CR_EQ_field = 2 ^ 1 /\ mask standalone_CR_SO_field = 2 ^ 0 /\
  Z.lor (Z.lor (mask standalone_CR_LT_field) (mask standalone_CR_GT_field))
    (mask standalone_CR_EQ_field) = Z.shiftl (Z.ones 3) 1.
Proof. by vm_compute. Qed.

(** The field [cr_compute] writes: LT, GT or EQ for the sign of the result,
    SO kept; all the other fields are kept. *)
Lemma testbit_cr_compute crfd v cr i :
  0 <= crfd <= 7 -> is_uint 32 cr -> 0 <= i ->
  Z.testbit (cr_compute crfd v cr) i =
    if (29 - 4 * crfd <=? i) && (i <? 32 - 4 * crfd)
    then (i =? (if v <? 0 then 31 else if 0 <? v then 30 else 29) - 4 * crfd)
    else Z.testbit cr i.
Proof.
  intros Hc Hr Hi. unfold cr_compute.
  destruct standalone_masks as (-> & -> & -> & _ & ->).
  destruct (Z.ltb_spec v 0), (Z.ltb_spec 0 v); try lia; push_testbit;
    split_cmp; close_bits.
Qed.

Lemma testbit_cr_set_so crfd v cr i :
  0 <= crfd <= 7 -> is_uint 32 cr -> 0 <= i ->
  Z.testbit (cr_set_so crfd v cr) i =
    if i =? 28 - 4 * crfd then v else Z.testbit cr i.
Proof.
  intros Hc Hr Hi. unfold cr_set_so. destruct standalone_masks as (_ & _ & _ & -> & _).
  destruct v; push_testbit; split_cmp; close_bits.
Qed.

(** ** Laws of XER *)

Lemma xer_wf_set v : xer_wf (xer_set v).
Proof.
  unfold xer_wf, xer_set; cbn -[extract].
  assert (H : forall f, bf_wf f -> bf_len f <= 7 -> is_uint (bf_len f) (u8 (extract f v))).
  { intros f Hf Hl. pose proof (extract_range f v Hf).
    rewrite trunc_small; [done|].
    eapply is_uint_mono; [|done]. unfold bf_len in *. destruct Hf. lia. }
  repeat split; apply H; by vm_compute.
Qed.

Lemma bit_range x : is_uint 1 x -> x = 0 \/ x = 1.
Proof. intros [? H]. change (2 ^ 1) with 2 in H. lia. Qed.

Lemma xer_get_set v : is_uint 32 v -> xer_get (xer_set v) = Z.land v 0xE000007F.
Proof.
  intros Hv. unfold xer_get, xer_set.
  replace 0xE000007F with (Z.lor (Z.shiftl (Z.ones 3) 29) (Z.ones 7)) by reflexivity.
  apply Z.bits_inj'; intros i Hi. cbn -[extract]. push_testbit.
  rewrite !testbit_extract by solve_bf. unfold bf_len; cbn. split_cmp; close_bits.
Qed.

Lemma xer_set_get x : xer_wf x -> xer_set (xer_get x) = x.
Proof.
  intros (Hso & Hov & Hca & Hct). unfold xer_get, xer_set.
  assert (Hu8 : forall w y, 0 <= w <= 8 -> is_uint w y -> u8 y = y).
  { intros w y Hw Hy. apply trunc_small. by eapply is_uint_mono. }
  assert (Hf : forall f y z, bf_wf f -> is_uint (bf_len f) y -> bf_len f <= 8 ->
    (forall k, 0 <= k < bf_len f -> Z.testbit z (k + (31 - FE f)) = Z.testbit y k) ->
    u8 (extract f z) = y).
  { intros f y z ? ? ? ?. rewrite (extract_of_bits f z y) by done.
    apply (Hu8 (bf_len f)); [unfold bf_len in *; destruct H; lia|done]. }
  destruct x as [so ov ca ct]; cbn in *. f_equal; apply Hf; try solve_bf; try done;
    intros k; unfold bf_len; cbn; intros Hk; push_testbit; split_cmp; close_bits.
Qed.

(** XER is faithful to SPR 1.  Writing a 32-bit value and reading it back
    keeps exactly the bits the register implements (SO, OV, CA and the string
    count), and any well-formed register survives being read and written
    back, as [mtxer]/[mfxer] pairs and interrupt frames do. *)
Theorem xer_roundtrip v x :
  is_uint 32 v -> xer_wf x ->
  xer_get (xer_set v) = Z.land v 0xE000007F /\ xer_set (xer_get x) = x.
Proof. intros. split; [by apply xer_get_set|by apply xer_set_get]. Qed.

Lemma xer_roundtrip_witness :
  xer_get (xer_set 0xFFFFFFFF) = 0xE000007F /\
  xer_set (xer_get (XER 1 0 1 5)) = XER 1 0 1 5.
Proof.
  destruct (xer_roundtrip 0xFFFFFFFF (XER 1 0 1 5)) as [H1 H2];
    [done|repeat split; done|]. split; [exact H1|exact H2].
Defined.

(** ** Laws of the vector registers *)

Lemma testbit_vr_get w r i k :
  0 <= w -> 0 <= i -> 0 <= k ->
  Z.testbit (vr_get w r i) k = (k <? w) && Z.testbit r (k + w * i).
Proof. intros. unfold vr_get. push_testbit. split_cmp; close_bits. Qed.

Lemma testbit_vr_set w r i v k :
  0 < w -> 0 <= i -> 0 <= k ->
  Z.testbit (vr_set w r i v) k =
    if (w * i <=? k) && (k <? w * i + w) then Z.testbit v (k - w * i) else Z.testbit r k.
Proof.
  intros Hw Hi Hk. unfold vr_set. assert (0 <= w * i) by nia.
  push_testbit. split_cmp; close_bits.
Qed.

Lemma vr_get_range w r i : 0 <= w -> is_uint w (vr_get w r i).
Proof. intros. by apply trunc_range. Qed.

Lemma vr_get_set_eq w r i v : 0 < w -> 0 <= i -> vr_get w (vr_set w r i v) i = trunc w v.
Proof.
  intros. apply Z.bits_inj'; intros k Hk.
  rewrite testbit_vr_get, testbit_vr_set by nia. push_testbit.
  split_cmp; cbn; try done. f_equal. lia.
Qed.

Lemma vr_get_set_ne w r i j v :
  0 < w -> 0 <= i -> 0 <= j -> i <> j -> vr_get w (vr_set w r i v) j = vr_get w r j.
Proof.
  intros. apply Z.bits_inj'; intros k Hk.
  rewrite testbit_vr_get, testbit_vr_set, testbit_vr_get by nia.
  destruct (Z.ltb_spec k w); [|done]. cbn.
  destruct (Z.leb_spec (w * i) (k + w * j)), (Z.ltb_spec (k + w * j) (w * i + w));
    cbn; try done; nia.
Qed.

Lemma vr_set_range w r i v :
  0 < w -> 0 <= i -> w * i + w <= 128 -> is_uint 128 r -> is_uint 128 (vr_set w r i v).
Proof.
  intros Hw Hi Hwi Hr. assert (0 <= w * i) by nia.
  apply is_uint_bits; [lia| |].
  - unfold vr_set. apply Z.lor_nonneg. split.
    + apply Z.land_nonneg. left. apply Hr.
    + apply Z.shiftl_nonneg. by apply trunc_range; lia.
  - intros k Hk. rewrite testbit_vr_set by lia.
    destruct (Z.ltb_spec k (w * i + w)); [lia|]. rewrite andb_false_r.
    apply (testbit_above 128); done || lia.
Qed.
