(* ===== verification/HostFPU.v ===== *)
(** The host floating-point unit, as an interface.

    The emulator computes with the host's [float], [double] and [long double];
    the arithmetic itself is the processor's and the C library's.  The model
    represents a [float] by its 32-bit pattern, a [double] by its 64-bit
    pattern, leaves the rounded operations to the class [HostFPU], and defines
    on the patterns everything the source decides by looking at the bits
    (sign operations, NaN tests, comparisons, classification). *)
From S2P Require Import Prelude.

(** The four rounding modes of [<fenv.h>]. *)
Inductive fe_mode := FE_TONEAREST | FE_TOWARDZERO | FE_UPWARD | FE_DOWNWARD.

#[export] Instance fe_mode_eq_dec : EqDecision fe_mode.
Proof. solve_decision. Defined.

(** Rounded operations.  [long_double] is the host's extended format. *)
Class HostFPU := {
  long_double : Type;
  d_add : fe_mode -> Z -> Z -> Z;
  d_sub : fe_mode -> Z -> Z -> Z;
  d_mul : fe_mode -> Z -> Z -> Z;
  d_div : fe_mode -> Z -> Z -> Z;
  ld_of_d : Z -> long_double;
  ld_mul : fe_mode -> long_double -> long_double -> long_double;
  ld_add : fe_mode -> long_double -> long_double -> long_double;
  ld_sub : fe_mode -> long_double -> long_double -> long_double;
  d_of_ld : fe_mode -> long_double -> Z;
  f_of_d : fe_mode -> Z -> Z;
  d_of_f : Z -> Z;
  f_add : fe_mode -> Z -> Z -> Z;
  f_sub : fe_mode -> Z -> Z -> Z;
  f_mul : fe_mode -> Z -> Z -> Z;
  f_div : fe_mode -> Z -> Z -> Z;
  f_of_int : fe_mode -> Z -> Z;          (* (float)n *)
  int64_of_f : Z -> Z;                   (* (int64)f *)
  f_sqrt_inv : fe_mode -> Z -> Z;        (* 1 / sqrt(x), as op_frsqrt *)
  f_exp2 : fe_mode -> Z -> Z;
  f_log2 : fe_mode -> Z -> Z;
  f_floor : Z -> Z;
  f_round : Z -> Z;
  f_ceil : Z -> Z;
  f_trunc : Z -> Z;
  d_lrint : fe_mode -> Z -> Z;           (* mathlib_lrint *)
}.

(** What the model needs of it: results are patterns of the right width. *)
Class HostFPULaws (H : HostFPU) := {
  d_add_range m a b : is_uint 64 (d_add m a b);
  d_sub_range m a b : is_uint 64 (d_sub m a b);
  d_mul_range m a b : is_uint 64 (d_mul m a b);
  d_div_range m a b : is_uint 64 (d_div m a b);
  d_of_ld_range m a : is_uint 64 (d_of_ld m a);
  d_of_f_range a : is_uint 64 (d_of_f a);
  f_of_d_range m a : is_uint 32 (f_of_d m a);
}.

#[export] Hint Resolve d_add_range d_sub_range d_mul_range d_div_range d_of_ld_range
  d_of_f_range f_of_d_range : word.

(** ** Bit-level operations on doubles and floats *)

Definition d_signbit (x : Z) : bool := Z.testbit x 63.
Definition d_neg (x : Z) : Z := Z.lxor x (2 ^ 63).
Definition d_fabs (x : Z) : Z := Z.land x (Z.ones 63).
Definition f_neg (x : Z) : Z := Z.lxor x (2 ^ 31).

Definition d_isnan (x : Z) : bool := 0x7ff0000000000000 <? d_fabs x.
Definition d_isinf (x : Z) : bool := d_fabs x =? 0x7ff0000000000000.
Definition f_isnan (x : Z) : bool := 0x7f800000 <? Z.land x (Z.ones 31).
Definition f_isinf (x : Z) : bool := Z.land x (Z.ones 31) =? 0x7f800000.

(** Non-NaN patterns are ordered like their sign-magnitude reading. *)
Definition d_key (x : Z) : Z := if d_signbit x then - d_fabs x else d_fabs x.
Definition d_lt (x y : Z) : bool := negb (d_isnan x) && negb (d_isnan y) && (d_key x <? d_key y).
Definition d_le (x y : Z) : bool := negb (d_isnan x) && negb (d_isnan y) && (d_key x <=? d_key y).

Definition f_key (x : Z) : Z :=
  if Z.testbit x 31 then - Z.land x (Z.ones 31) else Z.land x (Z.ones 31).
Definition f_lt (x y : Z) : bool := negb (f_isnan x) && negb (f_isnan y) && (f_key x <? f_key y).
Definition f_le (x y : Z) : bool := negb (f_isnan x) && negb (f_isnan y) && (f_key x <=? f_key y).
Definition f_eq (x y : Z) : bool := negb (f_isnan x) && negb (f_isnan y) && (f_key x =? f_key y).

Lemma d_neg_range x : is_uint 64 x -> is_uint 64 (d_neg x).
Proof. intros. apply is_uint_lxor; done. Qed.
Lemma d_fabs_range x : is_uint 64 (d_fabs x).
Proof. apply is_uint_land_r; done. Qed.
#[export] Hint Resolve d_neg_range d_fabs_range : word.

(** A concrete instance, used to evaluate programs that do no rounded
    arithmetic: every rounded operation returns the zero pattern. *)
Definition null_fpu : HostFPU := {|
  long_double := unit;
  d_add _ _ _ := 0; d_sub _ _ _ := 0; d_mul _ _ _ := 0; d_div _ _ _ := 0;
  ld_of_d _ := tt; ld_mul _ _ _ := tt; ld_add _ _ _ := tt; ld_sub _ _ _ := tt;
  d_of_ld _ _ := 0; f_of_d _ _ := 0; d_of_f _ := 0;
  f_add _ _ _ := 0; f_sub _ _ _ := 0; f_mul _ _ _ := 0; f_div _ _ _ := 0;
  f_of_int _ _ := 0; int64_of_f _ := 0; f_sqrt_inv _ _ := 0; f_exp2 _ _ := 0;
  f_log2 _ _ := 0; f_floor _ := 0; f_round _ := 0; f_ceil _ := 0; f_trunc _ := 0;
  d_lrint _ _ := 0;
|}.

Lemma null_fpu_laws : HostFPULaws null_fpu.
Proof. split; intros; cbn; done. Qed.
