(* ===== verification/Operations.v ===== *)
(** The operation classes of the interpreter
    (kpx_cpu/src/cpu/ppc/ppc-operations.hpp).

    [op] lists the [op_*] structures the decode table names; [op_apply1],
    [op_apply2] and [op_apply3] are their [apply] functions, with the implicit
    conversions of the arguments to the parameter type and of the expression
    to the result type written out. *)
From S2P Require Import Prelude HostFPU.

(** ** C integer types *)

Inductive ctype := int8 | int16 | int32 | int64 | uint8 | uint16 | uint32 | uint64 | cfloat.

#[export] Instance ctype_eq_dec : EqDecision ctype.
Proof. solve_decision. Defined.

Definition csize (t : ctype) : Z :=
  match t with
  | int8 | uint8 => 1
  | int16 | uint16 => 2
  | int32 | uint32 | cfloat => 4
  | int64 | uint64 => 8
  end.

(** Conversion of a number to the type.  A [cfloat] is a 32-bit pattern. *)
Definition conv (t : ctype) (z : Z) : Z :=
  match t with
  | int8 => s8 z | int16 => s16 z | int32 => s32 z | int64 => s64 z
  | uint8 => u8 z | uint16 => u16 z | uint32 => u32 z | uint64 => u64 z
  | cfloat => u32 z
  end.

(** Shift of a 32-bit operand by a count.  C leaves counts of 32 and more
    undefined; the hosts the emulator runs on (x86) use the count modulo 32. *)
Definition shl32 (x n : Z) : Z := u32 (Z.shiftl x (n mod 32)).
Definition shr32 (x n : Z) : Z := Z.shiftr x (n mod 32).

(** ** Rotations, extensions, leading zeros *)

Definition op_rotl (x y : Z) : Z := Z.lor (shl32 (u32 x) (u32 y)) (shr32 (u32 x) (u32 (32 - u32 y))).
Definition op_rotr (x y : Z) : Z := Z.lor (shr32 (u32 x) (u32 y)) (shl32 (u32 x) (u32 (32 - u32 y))).

Definition op_ppc_rlwimi (x y z t : Z) : Z :=
  Z.lor (Z.land (op_rotl x y) (u32 z)) (Z.land (u32 t) (u32 (Z.lnot (u32 z)))).
Definition op_ppc_rlwinm (x y z : Z) : Z := Z.land (op_rotl x y) (u32 z).
Definition op_ppc_rlwnm (x y z : Z) : Z := Z.land (op_rotl x (Z.land (u32 y) 0x1f)) (u32 z).

Definition op_sign_extend_5_32 (value : Z) : Z :=
  let value := u32 value in
  if Zb (Z.land value 0x10) then u32 (value - 0x20) else value.
Definition op_sign_extend_16_32 (value : Z) : Z := u32 (s32 (s16 (u32 value))).
Definition op_sign_extend_8_32 (value : Z) : Z := u32 (s32 (s8 (u32 value))).
Definition op_zero_extend_16_32 (value : Z) : Z := u32 (u16 (u32 value)).
Definition op_zero_extend_8_32 (value : Z) : Z := u32 (u8 (u32 value)).
Definition op_sign_extend_16_32_shifted (value : Z) : Z :=
  u32 (Z.shiftl (op_sign_extend_16_32 value) 16).
Definition op_zero_extend_16_32_shifted (value : Z) : Z :=
  u32 (Z.shiftl (op_zero_extend_16_32 value) 16).
Definition op_sign_extend_BD_32 (value : Z) : Z :=
  op_sign_extend_16_32 (u32 (Z.shiftl (u32 value) 2)).
Definition op_sign_extend_LI_32 (value : Z) : Z :=
  let value := u32 value in
  let value := if Zb (Z.land value 0x800000) then Z.lor value 0xff000000 else value in
  u32 (Z.shiftl value 2).

Definition op_andi (value x : Z) : Z := Z.land (u32 x) value.

(** The loop of [op_cntlzw]: [n] counts up to 32 while the bit under the
    moving mask [m] is clear. *)
Fixpoint cntlzw_loop (fuel : nat) (x n m : Z) : Z :=
  match fuel with
  | O => n
  | S fuel => if Zb (Z.land x m) then n else cntlzw_loop fuel x (n + 1) (Z.shiftr m 1)
  end.
Definition op_cntlzw (x : Z) : Z := cntlzw_loop 32 (u32 x) 0 0x80000000.

(** ** AltiVec element operations *)

Definition op_vrl (t : ctype) (v n : Z) : Z :=
  let v := conv t v in
  let sh := Z.land (conv t n) (8 * csize t - 1) in
  if csize t =? 4
  then conv t (Z.lor (shl32 v sh) (shr32 v (8 * csize t - sh)))
  else conv t (Z.lor (Z.shiftl v sh) (Z.shiftr v (8 * csize t - sh))).
Definition op_vsl (t : ctype) (v n : Z) : Z :=
  let sh := Z.land (conv t n) (8 * csize t - 1) in conv t (Z.shiftl (conv t v) sh).
Definition op_vsr (t : ctype) (v n : Z) : Z :=
  let sh := Z.land (conv t n) (8 * csize t - 1) in conv t (Z.shiftr (conv t v) sh).
Definition op_mhraddsh (round a b c : Z) : Z :=
  s32 (s32 (Z.shiftr (s32 (s32 a * s32 b + round)) 15) + s32 c).
Definition op_all_ones (nbytes : Z) : Z :=
  if nbytes =? 4 then 0xffffffff else u32 (Z.shiftl 1 (8 * nbytes) - 1).

Definition op_addcuw (x y : Z) : Z := u32 (Z.shiftr (u64 (u32 x + u32 y)) 32).
Definition op_subcuw (x y : Z) : Z :=
  Z.land (u32 (Z.shiftr (Z.lnot (s64 (u32 x - u32 y))) 32)) 1.

(** Averages compute in the next larger type. *)
Definition op_avg (t : ctype) (x y : Z) : Z := conv t (Z.shiftr (conv t x + conv t y + 1) 1).

Section Float.
Context {FPU : HostFPU}.

(** [mathlib_fmadd] and [mathlib_fmsub] go through [long double]. *)
Definition mathlib_fmadd (m : fe_mode) (x y z : Z) : Z :=
  d_of_ld m (ld_add m (ld_mul m (ld_of_d x) (ld_of_d y)) (ld_of_d z)).
Definition mathlib_fmsub (m : fe_mode) (x y z : Z) : Z :=
  d_of_ld m (ld_sub m (ld_mul m (ld_of_d x) (ld_of_d y)) (ld_of_d z)).

Definition op_cvt_fp2si (m : fe_mode) (a b : Z) : Z :=
  if f_isinf b then
    s64 (Z.shiftl (if f_lt b 0 then 0x80000000 else 0x7fffffff) 32)
  else if f_isnan b then 0
  else int64_of_f (f_mul m b (f_of_int m (shl32 1 a))).
Definition op_cvt_si2fp (m : fe_mode) (t : ctype) (a b : Z) : Z :=
  f_div m (f_of_int m (conv t b)) (f_of_int m (shl32 1 a)).

(** Comparison in the element type. *)
Definition cgt (t : ctype) (a b : Z) : bool :=
  match t with cfloat => f_lt b a | _ => conv t b <? conv t a end.
Definition cge (t : ctype) (a b : Z) : bool :=
  match t with cfloat => f_le b a | _ => conv t b <=? conv t a end.
Definition ceq (t : ctype) (a b : Z) : bool :=
  match t with cfloat => f_eq a b | _ => conv t a =? conv t b end.

Definition op_max (t : ctype) (a b : Z) : Z :=
  match t with
  | cfloat => if f_isnan a then a else if f_isnan b then b else if cgt t a b then a else b
  | _ => if cgt t a b then conv t a else conv t b
  end.
Definition op_min (t : ctype) (a b : Z) : Z :=
  match t with
  | cfloat => if f_isnan a then a else if f_isnan b then b else if cgt t b a then a else b
  | _ => if cgt t b a then conv t a else conv t b
  end.
Definition op_cmp (t : ctype) (r : bool) : Z := if r then op_all_ones (csize t) else 0.
Definition op_cmpbfp (a b : Z) : Z :=
  let le := f_le a b in
  let ge := f_le (f_neg b) a in
  Z.lor (if le then 0 else 2 ^ 31) (if ge then 0 else 2 ^ 30).

End Float.

(** ** The operations the decode table names *)

Inductive op :=
| Op_nop | Op_add | Op_sub | Op_mul | Op_smul | Op_neg | Op_compl
| Op_and | Op_or | Op_xor | Op_orc | Op_andc | Op_nand | Op_nor | Op_eqv
| Op_shll | Op_shrl | Op_shra
| Op_ppc_rlwinm | Op_ppc_rlwnm
| Op_add_64 | Op_sub_64 | Op_smul_64 | Op_and_64 | Op_andc_64 | Op_or_64 | Op_nor_64 | Op_xor_64
| Op_sign_extend_5_32 | Op_sign_extend_16_32 | Op_sign_extend_8_32
| Op_cntlzw | Op_andi (value : Z)
| Op_vrl (t : ctype) | Op_vsl (t : ctype) | Op_vsr (t : ctype) | Op_mhraddsh (round : Z)
| Op_cvt_fp2si | Op_cvt_si2fp (t : ctype)
| Op_max (t : ctype) | Op_min (t : ctype)
| Op_cmp_eq (t : ctype) | Op_cmp_ge (t : ctype) | Op_cmp_gt (t : ctype) | Op_cmpbfp
| Op_vsel | Op_vmaddfp | Op_vnmsubfp | Op_mladduh | Op_addcuw | Op_subcuw
| Op_avgsb | Op_avgsh | Op_avgsw | Op_avgub | Op_avguh | Op_avguw
| Op_fadds | Op_fsubs | Op_exp2 | Op_log2 | Op_fres | Op_frsqrt
| Op_frsim | Op_frsin | Op_frsip | Op_frsiz.

#[export] Instance op_eq_dec : EqDecision op.
Proof. solve_decision. Defined.

(** [DEFINE_OP1(NAME, TYPE, EXPR)] and friends: convert, compute, convert. *)
Definition on1 (t : ctype) (f : Z -> Z) (x : Z) : Z := conv t (f (conv t x)).
Definition on2 (t : ctype) (f : Z -> Z -> Z) (x y : Z) : Z := conv t (f (conv t x) (conv t y)).
Definition on3 (t : ctype) (f : Z -> Z -> Z -> Z) (x y z : Z) : Z :=
  conv t (f (conv t x) (conv t y) (conv t z)).

Section Apply.
Context {FPU : HostFPU}.

(** Unary [apply]; an operation without one is never instantiated so. *)
Definition op_apply1 (m : fe_mode) (o : op) (x : Z) : Z :=
  match o with
  | Op_nop => u32 x
  | Op_neg => on1 uint32 Z.opp x
  | Op_compl => on1 uint32 Z.lnot x
  | Op_sign_extend_5_32 => op_sign_extend_5_32 x
  | Op_sign_extend_16_32 => op_sign_extend_16_32 x
  | Op_sign_extend_8_32 => op_sign_extend_8_32 x
  | Op_cntlzw => op_cntlzw x
  | Op_andi value => op_andi value x
  | Op_exp2 => f_exp2 m x
  | Op_log2 => f_log2 m x
  | Op_fres => f_div m 0x3f800000 x
  | Op_frsqrt => f_sqrt_inv m x
  | Op_frsim => f_floor x
  | Op_frsin => f_round x
  | Op_frsip => f_ceil x
  | Op_frsiz => f_trunc x
  | _ => 0
  end.

Definition op_apply2 (m : fe_mode) (o : op) (x y : Z) : Z :=
  match o with
  | Op_add => on2 uint32 Z.add x y
  | Op_sub => on2 uint32 Z.sub x y
  | Op_mul => on2 uint32 Z.mul x y
  | Op_smul => on2 int32 Z.mul x y
  | Op_and => on2 uint32 Z.land x y
  | Op_or => on2 uint32 Z.lor x y
  | Op_xor => on2 uint32 Z.lxor x y
  | Op_orc => on2 uint32 (fun x y => Z.lor x (Z.lnot y)) x y
  | Op_andc => on2 uint32 (fun x y => Z.land x (Z.lnot y)) x y
  | Op_nand => on2 uint32 (fun x y => Z.lnot (Z.land x y)) x y
  | Op_nor => on2 uint32 (fun x y => Z.lnot (Z.lor x y)) x y
  | Op_eqv => on2 uint32 (fun x y => Z.lnot (Z.lxor x y)) x y
  | Op_shll => on2 uint32 shl32 x y
  | Op_shrl => on2 uint32 shr32 x y
  | Op_shra => on2 uint32 (fun x y => shr32 (s32 x) y) x y
  | Op_add_64 => on2 uint64 Z.add x y
  | Op_sub_64 => on2 uint64 Z.sub x y
  | Op_smul_64 => on2 int64 Z.mul x y
  | Op_and_64 => on2 uint64 Z.land x y
  | Op_andc_64 => on2 uint64 (fun x y => Z.land x (Z.lnot y)) x y
  | Op_or_64 => on2 uint64 Z.lor x y
  | Op_nor_64 => on2 uint64 (fun x y => Z.lnot (Z.lor x y)) x y
  | Op_xor_64 => on2 uint64 Z.lxor x y
  | Op_vrl t => op_vrl t x y
  | Op_vsl t => op_vsl t x y
  | Op_vsr t => op_vsr t x y
  | Op_cvt_fp2si => op_cvt_fp2si m (u32 x) y
  | Op_cvt_si2fp t => op_cvt_si2fp m t (u32 x) y
  | Op_max t => op_max t x y
  | Op_min t => op_min t x y
  | Op_cmp_eq t => op_cmp t (ceq t x y)
  | Op_cmp_ge t => op_cmp t (cge t x y)
  | Op_cmp_gt t => op_cmp t (cgt t x y)
  | Op_cmpbfp => op_cmpbfp x y
  | Op_addcuw => op_addcuw x y
  | Op_subcuw => op_subcuw x y
  | Op_avgsb => op_avg int8 x y
  | Op_avgsh => op_avg int16 x y
  | Op_avgsw => op_avg int32 x y
  | Op_avgub => op_avg uint8 x y
  | Op_avguh => op_avg uint16 x y
  | Op_avguw => op_avg uint32 x y
  | Op_fadds => f_add m x y
  | Op_fsubs => f_sub m x y
  | _ => 0
  end.

Definition op_apply3 (m : fe_mode) (o : op) (x y z : Z) : Z :=
  match o with
  | Op_ppc_rlwinm => op_ppc_rlwinm x y z
  | Op_ppc_rlwnm => op_ppc_rlwnm x y z
  | Op_mhraddsh round => op_mhraddsh round x y z
  | Op_vsel => on3 uint32 (fun x y z => Z.lor (Z.land y z) (Z.land x (Z.lnot z))) x y z
  | Op_vmaddfp => f_add m (f_mul m x z) y
  | Op_vnmsubfp => f_neg (f_sub m (f_mul m x z) y)
  | Op_mladduh => Z.land (u32 (u32 x * u32 y + u32 z)) 0xffff
  | _ => 0
  end.

End Apply.

(** ** Laws *)

Lemma conv_small t z :
  match t with
  | uint8 => is_uint 8 z | uint16 => is_uint 16 z | uint32 | cfloat => is_uint 32 z
  | uint64 => is_uint 64 z
  | int8 => - 2 ^ 7 <= z < 2 ^ 7 | int16 => - 2 ^ 15 <= z < 2 ^ 15
  | int32 => - 2 ^ 31 <= z < 2 ^ 31 | int64 => - 2 ^ 63 <= z < 2 ^ 63
  end -> conv t z = z.
Proof. destruct t; cbn -[Z.pow]; intros; (by apply trunc_small) || (by apply sext_small). Qed.

Lemma Zb_land_pow2 x n : 0 <= n -> Zb (Z.land x (2 ^ n)) = Z.testbit x n.
Proof.
  intros Hn. unfold Zb.
  replace (Z.land x (2 ^ n)) with (if Z.testbit x n then 2 ^ n else 0).
  - destruct (Z.testbit x n); [|done].
    pose proof (Z.pow_pos_nonneg 2 n). destruct (Z.eqb_spec (2 ^ n) 0); [lia|done].
  - apply Z.bits_inj'; intros i Hi. destruct (Z.testbit x n) eqn:E; push_testbit;
      split_cmp; bool_simpl; subst; done.
Qed.

(** Bit [i] of a rotation comes from bit [i - y] modulo 32. *)
Lemma testbit_rotl x y i :
  is_uint 32 x -> is_uint 5 y -> 0 <= i ->
  Z.testbit (op_rotl x y) i = (i <? 32) && Z.testbit x ((i - y) mod 32).
Proof.
  intros Hx [Hy Hy'] Hi. change (2 ^ 5) with 32 in Hy'. unfold op_rotl, shl32, shr32.
  rewrite (trunc_small 32 x) by done. rewrite (trunc_small 32 y) by (split; lia).
  rewrite (trunc_small 32 (32 - y)) by (split; lia).
  rewrite (Z.mod_small y) by lia.
  destruct (decide (y = 0)) as [->|Hy0].
  - change ((32 - 0) mod 32) with 0. rewrite Z.sub_0_r.
    push_testbit. destruct (Z.ltb_spec i 32).
    + rewrite Z.mod_small by lia. split_cmp. replace (i - 0) with i by lia.
      replace (i + 0) with i by lia. bool_simpl. by rewrite orb_diag.
    + split_cmp; close_bits.
  - rewrite (Z.mod_small (32 - y)) by lia. push_testbit.
    destruct (Z.ltb_spec i 32); [|split_cmp; close_bits]. bool_simpl.
    destruct (Z.ltb_spec i y).
    + replace ((i - y) mod 32) with (i - y + 32); [split_cmp; close_bits|].
      rewrite <- (Z_mod_plus_full (i - y) 1), Z.mul_1_l. symmetry. apply Z.mod_small. lia.
    + rewrite Z.mod_small by lia. split_cmp; close_bits.
Qed.

Lemma op_rotl_range x y : is_uint 32 (op_rotl x y).
Proof.
  unfold op_rotl, shl32, shr32.
  apply is_uint_lor; [lia|apply trunc_range; lia|].
  apply is_uint_shiftr; [apply Z.mod_pos_bound; lia|apply trunc_range; lia].
Qed.

(** Rotating left by [y] and right by [y] are inverse on the host as well for
    the count 0, where the source shifts by 32. *)
Lemma op_rotl_0 x : is_uint 32 x -> op_rotl x 0 = x.
Proof.
  intros Hx. apply Z.bits_inj'; intros i Hi. rewrite testbit_rotl by done.
  destruct (Z.ltb_spec i 32).
  - rewrite Z.sub_0_r, Z.mod_small by lia. done.
  - by rewrite (testbit_above 32 x i).
Qed.

Lemma cntlzw_loop_spec x fuel n :
  is_uint 32 x -> 0 <= n -> n + Z.of_nat fuel = 32 ->
  x < 2 ^ (32 - n) ->
  cntlzw_loop fuel x n (if n =? 32 then 0 else 2 ^ (31 - n)) =
    (if x =? 0 then 32 else 31 - Z.log2 x).
Proof.
  intros Hx. revert n. induction fuel as [|fuel IH]; intros n Hn Hf Hlt.
  - replace n with 32 in * by lia. change (2 ^ (32 - 32)) with 1 in Hlt.
    destruct Hx. cbn. destruct (Z.eqb_spec x 0); lia.
  - cbn [cntlzw_loop]. destruct (Z.eqb_spec n 32); [lia|].
    rewrite Zb_land_pow2 by lia. destruct (Z.testbit x (31 - n)) eqn:Hb.
    + assert (2 ^ (31 - n) <= x).
      { destruct (Z.le_gt_cases (2 ^ (31 - n)) x) as [|Hs]; [done|].
        rewrite (testbit_above (31 - n)) in Hb; [done|split; [apply Hx|done]|lia..]. }
      pose proof (Z.pow_pos_nonneg 2 (31 - n)).
      destruct (Z.eqb_spec x 0); [lia|].
      rewrite (Z.log2_unique x (31 - n)); [lia..|]. split; [lia|].
      by replace (Z.succ (31 - n)) with (32 - n) by lia.
    + replace (Z.shiftr (2 ^ (31 - n)) 1) with (if n + 1 =? 32 then 0 else 2 ^ (31 - (n + 1))).
      2:{ apply Z.bits_inj'; intros i Hi. destruct (Z.eqb_spec (n + 1) 32); push_testbit;
          split_cmp; done. }
      apply IH; [lia..|]. apply Z.nle_gt. intros Hge.
      replace (32 - (n + 1)) with (31 - n) in * by lia.
      assert (Z.log2 x = 31 - n).
      { apply Z.log2_unique; [lia|]. replace (Z.succ (31 - n)) with (32 - n) by lia. lia. }
      rewrite <- H, Z.bit_log2 in Hb; [done|].
      pose proof (Z.pow_pos_nonneg 2 (31 - n)). lia.
Qed.

(** The mask-and-count loop of [cntlzw] returns the number of leading
    zeros: 32 for zero, and otherwise 31 minus the position of the highest
    set bit. *)
Theorem cntlzw_correct x :
  is_uint 32 x -> op_cntlzw x = if x =? 0 then 32 else 31 - Z.log2 x.
Proof.
  intros Hx. unfold op_cntlzw. rewrite (trunc_small 32 x) by done.
  apply (cntlzw_loop_spec x 32 0); [done|lia|lia|apply Hx].
Qed.

Lemma cntlzw_correct_witness : op_cntlzw 0x00010000 = 15 /\ op_cntlzw 0 = 32.
Proof.
  split; [rewrite (cntlzw_correct 0x00010000)|rewrite (cntlzw_correct 0)]; done.
Defined.

(** Averages never overflow: computing in the larger type gives the rounded
    mean of the operands. *)
Lemma op_avg_exact t x y :
  t = uint8 \/ t = uint16 \/ t = uint32 \/ t = int8 \/ t = int16 \/ t = int32 ->
  op_avg t x y = (conv t x + conv t y + 1) / 2.
Proof.
  intros Ht. unfold op_avg. rewrite Z.shiftr_div_pow2 by lia. change (2 ^ 1) with 2.
  apply conv_small.
  pose proof (fun w z => sext_range w z) as Hs. pose proof (fun w z => trunc_range w z) as Hu.
  destruct Ht as [->|[->|[->|[->|[->| ->]]]]]; unfold conv, is_uint in *;
    [ pose proof (Hu 8 x); pose proof (Hu 8 y) | pose proof (Hu 16 x); pose proof (Hu 16 y)
    | pose proof (Hu 32 x); pose proof (Hu 32 y) | pose proof (Hs 8 x); pose proof (Hs 8 y)
    | pose proof (Hs 16 x); pose proof (Hs 16 y) | pose proof (Hs 32 x); pose proof (Hs 32 y) ];
    clear Hs Hu;
    cbn [Z.pow Z.pow_pos Pos.iter Z.mul Pos.mul Z.sub Z.add Z.opp Z.pos_sub Pos.pred_double] in *;
    Z.div_mod_to_equations; lia.
Qed.
