(* ===== verification/Memory.v ===== *)
(** Guest memory and its accessors (kpx_cpu/src/cpu/vm.hpp and the byte-swap
    helpers of Unix/sysdeps.h).

    The engine runs with real addressing, so a guest address is a host
    address.  Memory is a finite map from addresses to bytes: an address
    outside its domain is not mapped, and touching it is [Segv].  The
    accessors modelled are those of a little-endian host that can access
    unaligned data; the portable byte-by-byte versions of the same header are
    modelled next to them and proved equal. *)
From S2P Require Import Prelude.

Abbreviation memory := (gmap Z Z).

(** ** Byte accesses of the host *)

Definition load_1 (m : memory) (a : Z) : outcome Z :=
  match m !! a with Some b => Ok b | None => Segv a end.

Definition store_1 (a v : Z) (m : memory) : outcome memory :=
  match m !! a with Some _ => Ok (<[a := u8 v]> m) | None => Segv a end.

(** An [n]-byte access of the little-endian host, through a wider pointer. *)
Fixpoint load_le (n : nat) (m : memory) (a : Z) : outcome Z :=
  match n with
  | O => Ok 0
  | S n => b ← load_1 m a; r ← load_le n m (a + 1); Ok (Z.lor b (Z.shiftl r 8))
  end.

Fixpoint store_le (n : nat) (a v : Z) (m : memory) : outcome memory :=
  match n with
  | O => Ok m
  | S n => m ← store_1 a v m; store_le n (a + 1) (Z.shiftr v 8) m
  end.

(** ** Byte swapping *)

Definition generic_bswap_16 (x : Z) : Z :=
  Z.lor (Z.shiftl (Z.land x 0xff) 8) (Z.land (Z.shiftr x 8) 0xff).

Definition generic_bswap_32 (x : Z) : Z :=
  Z.lor (Z.lor (Z.lor (Z.shiftr (Z.land x 0xff000000) 24)
                      (Z.shiftr (Z.land x 0x00ff0000) 8))
               (Z.shiftl (Z.land x 0x0000ff00) 8))
        (Z.shiftl (Z.land x 0x000000ff) 24).

Definition generic_bswap_64 (x : Z) : Z :=
  Z.lor (Z.lor (Z.lor (Z.lor (Z.lor (Z.lor (Z.lor
    (Z.shiftr (Z.land x 0xff00000000000000) 56)
    (Z.shiftr (Z.land x 0x00ff000000000000) 40))
    (Z.shiftr (Z.land x 0x0000ff0000000000) 24))
    (Z.shiftr (Z.land x 0x000000ff00000000) 8))
    (Z.shiftl (Z.land x 0x00000000ff000000) 8))
    (Z.shiftl (Z.land x 0x0000000000ff0000) 24))
    (Z.shiftl (Z.land x 0x000000000000ff00) 40))
    (Z.shiftl (Z.land x 0x00000000000000ff) 56).

(** ** The accessors *)

Definition vm_do_read_memory_1 (m : memory) (a : Z) : outcome Z := load_1 m a.
Definition vm_do_read_memory_2 (m : memory) (a : Z) : outcome Z :=
  x ← load_le 2 m a; Ok (generic_bswap_16 x).
Definition vm_do_read_memory_4 (m : memory) (a : Z) : outcome Z :=
  x ← load_le 4 m a; Ok (generic_bswap_32 x).
Definition vm_do_read_memory_8 (m : memory) (a : Z) : outcome Z :=
  x ← load_le 8 m a; Ok (generic_bswap_64 x).

Definition vm_do_write_memory_1 (a v : Z) (m : memory) : outcome memory := store_1 a v m.
Definition vm_do_write_memory_2 (a v : Z) (m : memory) : outcome memory :=
  store_le 2 a (generic_bswap_16 (u16 v)) m.
Definition vm_do_write_memory_4 (a v : Z) (m : memory) : outcome memory :=
  store_le 4 a (generic_bswap_32 (u32 v)) m.
Definition vm_do_write_memory_8 (a v : Z) (m : memory) : outcome memory :=
  store_le 8 a (generic_bswap_64 (u64 v)) m.

Definition vm_do_read_memory_2_reversed (m : memory) (a : Z) : outcome Z :=
  b0 ← load_1 m a; b1 ← load_1 m (a + 1); Ok (Z.lor b0 (Z.shiftl b1 8)).
Definition vm_do_write_memory_2_reversed (a v : Z) (m : memory) : outcome memory :=
  m ← store_1 a v m; store_1 (a + 1) (Z.shiftr v 8) m.
Definition vm_do_read_memory_4_reversed (m : memory) (a : Z) : outcome Z :=
  b0 ← load_1 m a; b1 ← load_1 m (a + 1); b2 ← load_1 m (a + 2); b3 ← load_1 m (a + 3);
  Ok (u32 (Z.lor (Z.lor (Z.lor b0 (Z.shiftl b1 8)) (Z.shiftl b2 16)) (Z.shiftl b3 24))).
Definition vm_do_write_memory_4_reversed (a v : Z) (m : memory) : outcome memory :=
  m ← store_1 a v m; m ← store_1 (a + 1) (Z.shiftr v 8) m;
  m ← store_1 (a + 2) (Z.shiftr v 16) m; store_1 (a + 3) (Z.shiftr v 24) m.

(** The portable versions, for hosts without unaligned accesses. *)
Definition portable_read_memory_2 (m : memory) (a : Z) : outcome Z :=
  b0 ← load_1 m a; b1 ← load_1 m (a + 1); Ok (Z.lor (Z.shiftl b0 8) b1).
Definition portable_write_memory_2 (a v : Z) (m : memory) : outcome memory :=
  m ← store_1 a (Z.shiftr v 8) m; store_1 (a + 1) v m.
Definition portable_read_memory_4 (m : memory) (a : Z) : outcome Z :=
  b0 ← load_1 m a; b1 ← load_1 m (a + 1); b2 ← load_1 m (a + 2); b3 ← load_1 m (a + 3);
  Ok (u32 (Z.lor (Z.lor (Z.lor (Z.shiftl b0 24) (Z.shiftl b1 16)) (Z.shiftl b2 8)) b3)).
Definition portable_write_memory_4 (a v : Z) (m : memory) : outcome memory :=
  m ← store_1 a (Z.shiftr v 24) m; m ← store_1 (a + 1) (Z.shiftr v 16) m;
  m ← store_1 (a + 2) (Z.shiftr v 8) m; store_1 (a + 3) v m.
Definition portable_read_memory_8 (m : memory) (a : Z) : outcome Z :=
  b0 ← load_1 m a; b1 ← load_1 m (a + 1); b2 ← load_1 m (a + 2); b3 ← load_1 m (a + 3);
  b4 ← load_1 m (a + 4); b5 ← load_1 m (a + 5); b6 ← load_1 m (a + 6); b7 ← load_1 m (a + 7);
  Ok (Z.lor (Z.lor (Z.lor (Z.lor (Z.lor (Z.lor (Z.lor
    (Z.shiftl b0 56) (Z.shiftl b1 48)) (Z.shiftl b2 40)) (Z.shiftl b3 32))
    (Z.shiftl b4 24)) (Z.shiftl b5 16)) (Z.shiftl b6 8)) b7).
Definition portable_write_memory_8 (a v : Z) (m : memory) : outcome memory :=
  m ← store_1 a (Z.shiftr v 56) m; m ← store_1 (a + 1) (Z.shiftr v 48) m;
  m ← store_1 (a + 2) (Z.shiftr v 40) m; m ← store_1 (a + 3) (Z.shiftr v 32) m;
  m ← store_1 (a + 4) (Z.shiftr v 24) m; m ← store_1 (a + 5) (Z.shiftr v 16) m;
  m ← store_1 (a + 6) (Z.shiftr v 8) m; store_1 (a + 7) v m.

(** Accessors visible to the CPU: real addressing, so [VMBaseDiff] is 0. *)
Definition vm_do_get_real_address (addr : Z) : Z := addr.

Definition vm_read_memory_1 m addr := vm_do_read_memory_1 m (vm_do_get_real_address addr).
Definition vm_read_memory_2 m addr := vm_do_read_memory_2 m (vm_do_get_real_address addr).
Definition vm_read_memory_4 m addr := vm_do_read_memory_4 m (vm_do_get_real_address addr).
Definition vm_read_memory_8 m addr := vm_do_read_memory_8 m (vm_do_get_real_address addr).
Definition vm_read_memory_2_reversed m addr :=
  vm_do_read_memory_2_reversed m (vm_do_get_real_address addr).
Definition vm_read_memory_4_reversed m addr :=
  vm_do_read_memory_4_reversed m (vm_do_get_real_address addr).
Definition vm_write_memory_1 addr value m :=
  vm_do_write_memory_1 (vm_do_get_real_address addr) value m.
Definition vm_write_memory_2 addr value m :=
  vm_do_write_memory_2 (vm_do_get_real_address addr) value m.
Definition vm_write_memory_4 addr value m :=
  vm_do_write_memory_4 (vm_do_get_real_address addr) value m.
Definition vm_write_memory_8 addr value m :=
  vm_do_write_memory_8 (vm_do_get_real_address addr) value m.
Definition vm_write_memory_2_reversed addr value m :=
  vm_do_write_memory_2_reversed (vm_do_get_real_address addr) value m.
Definition vm_write_memory_4_reversed addr value m :=
  vm_do_write_memory_4_reversed (vm_do_get_real_address addr) value m.

(** [memset(m, c, n)], byte by byte. *)
Fixpoint memset (a c : Z) (n : nat) (m : memory) : outcome memory :=
  match n with
  | O => Ok m
  | S n => m ← store_1 a c m; memset (a + 1) c n m
  end.
Definition vm_memset (addr c : Z) (n : nat) (m : memory) : outcome memory :=
  memset (vm_do_get_real_address addr) c n m.

(** ** Specification: big-endian numbers in memory *)

Fixpoint load_be (n : nat) (m : memory) (a : Z) : outcome Z :=
  match n with
  | O => Ok 0
  | S n => b ← load_1 m a; r ← load_be n m (a + 1); Ok (b * 2 ^ (8 * Z.of_nat n) + r)
  end.

Fixpoint store_be (n : nat) (a v : Z) (m : memory) : outcome memory :=
  match n with
  | O => Ok m
  | S n => m ← store_1 a (Z.shiftr v (8 * Z.of_nat n)) m; store_be n (a + 1) v m
  end.

(** Every byte is a byte. *)
Definition mem_wf (m : memory) : Prop := map_Forall (fun _ b => is_uint 8 b) m.

(** The [n] bytes at [a] are mapped. *)
Definition mapped (n : nat) (a : Z) (m : memory) : Prop :=
  forall i, a <= i < a + Z.of_nat n -> is_Some (m !! i).

(** ** Laws of bytes *)

Lemma load_1_wf m a : mem_wf m -> outcome_holds (is_uint 8) (load_1 m a).
Proof. intros Hm. unfold load_1. destruct (m !! a) eqn:E; cbn; [by apply (Hm a)|done]. Qed.

Lemma store_1_wf a v m : mem_wf m -> outcome_holds mem_wf (store_1 a v m).
Proof.
  intros Hm. unfold store_1. destruct (m !! a); cbn; [|done].
  apply map_Forall_insert_2; [apply trunc_range; lia|done].
Qed.

Lemma store_1_Ok a v m m' :
  store_1 a v m = Ok m' <-> is_Some (m !! a) /\ m' = <[a := u8 v]> m.
Proof.
  unfold store_1. split.
  - destruct (m !! a); intros; simplify_eq; eauto.
  - intros [[b ->] ->]. done.
Qed.

Lemma load_1_store_1 a v m m' : store_1 a v m = Ok m' -> load_1 m' a = Ok (u8 v).
Proof. intros [_ ->]%store_1_Ok. unfold load_1. by rewrite lookup_insert_eq. Qed.

Lemma store_1_lookup_ne a b v m m' : store_1 a v m = Ok m' -> a <> b -> m' !! b = m !! b.
Proof. intros [_ ->]%store_1_Ok ?. by rewrite lookup_insert_ne. Qed.

Lemma store_1_mapped a v m m' : store_1 a v m = Ok m' -> dom m' = dom m.
Proof. intros [Hs ->]%store_1_Ok. by rewrite dom_insert_lookup_L. Qed.

(** ** The accessors implement big-endian memory *)

Lemma store_1_cong a v w m : u8 v = u8 w -> store_1 a v m = store_1 a w m.
Proof. intros E. unfold store_1. by rewrite E. Qed.

Ltac byte_eq :=
  apply Z.bits_inj'; intros ?i ?Hi; push_testbit; split_cmp; close_bits.

(** Byte masks as shifted blocks of ones. *)
Ltac block_masks :=
  change 0xff with (Z.ones 8);
  change 0xff00 with (Z.shiftl (Z.ones 8) 8);
  change 0xff0000 with (Z.shiftl (Z.ones 8) 16);
  change 0xff000000 with (Z.shiftl (Z.ones 8) 24);
  change 0xff00000000 with (Z.shiftl (Z.ones 8) 32);
  change 0xff0000000000 with (Z.shiftl (Z.ones 8) 40);
  change 0xff000000000000 with (Z.shiftl (Z.ones 8) 48);
  change 0xff00000000000000 with (Z.shiftl (Z.ones 8) 56).

Lemma bswap_16_byte v k :
  0 <= k < 2 -> u8 (Z.shiftr (generic_bswap_16 (u16 v)) (8 * k)) = u8 (Z.shiftr v (8 * (1 - k))).
Proof.
  intros. unfold generic_bswap_16. block_masks.
  assert (k = 0 \/ k = 1) as [->| ->] by lia; byte_eq.
Qed.

Lemma bswap_32_byte v k :
  0 <= k < 4 -> u8 (Z.shiftr (generic_bswap_32 (u32 v)) (8 * k)) = u8 (Z.shiftr v (8 * (3 - k))).
Proof.
  intros. unfold generic_bswap_32. block_masks.
  assert (k = 0 \/ k = 1 \/ k = 2 \/ k = 3) as [->|[->|[->| ->]]] by lia; byte_eq.
Qed.

Lemma bswap_64_byte v k :
  0 <= k < 8 -> u8 (Z.shiftr (generic_bswap_64 (u64 v)) (8 * k)) = u8 (Z.shiftr v (8 * (7 - k))).
Proof.
  intros. unfold generic_bswap_64. block_masks.
  assert (k = 0 \/ k = 1 \/ k = 2 \/ k = 3 \/ k = 4 \/ k = 5 \/ k = 6 \/ k = 7)
    as [->|[->|[->|[->|[->|[->|[->| ->]]]]]]] by lia; byte_eq.
Qed.

(** A little-endian store writes the bytes of the value from the low end, a
    big-endian one from the high end. *)
Lemma store_le_be n : forall a x v m,
  (forall k, 0 <= k < Z.of_nat n ->
    u8 (Z.shiftr x (8 * k)) = u8 (Z.shiftr v (8 * (Z.of_nat n - 1 - k)))) ->
  store_le n a x m = store_be n a v m.
Proof.
  induction n as [|n IH]; intros a x v m H; [done|]. cbn [store_le store_be].
  rewrite (store_1_cong a x (Z.shiftr v (8 * Z.of_nat n))).
  2:{ specialize (H 0 ltac:(lia)). rewrite Z.mul_0_r, Z.shiftr_0_r in H.
      rewrite H. do 2 f_equal. lia. }
  destruct (store_1 _ _ m) as [m'| | | |]; try done. cbn. apply IH.
  intros k Hk. specialize (H (k + 1) ltac:(lia)).
  rewrite Z.shiftr_shiftr by lia.
  replace (8 + 8 * k) with (8 * (k + 1)) by lia. rewrite H. do 2 f_equal. lia.
Qed.

Lemma vm_do_write_memory_2_be a v m : vm_do_write_memory_2 a v m = store_be 2 a v m.
Proof. apply store_le_be. intros. rewrite bswap_16_byte by lia. done. Qed.
Lemma vm_do_write_memory_4_be a v m : vm_do_write_memory_4 a v m = store_be 4 a v m.
Proof. apply store_le_be. intros. rewrite bswap_32_byte by lia. done. Qed.
Lemma vm_do_write_memory_8_be a v m : vm_do_write_memory_8 a v m = store_be 8 a v m.
Proof. apply store_le_be. intros. rewrite bswap_64_byte by lia. done. Qed.

(** Big-endian loads as combinations of bytes. *)
Lemma load_be_range n : forall m a,
  mem_wf m -> outcome_holds (is_uint (8 * Z.of_nat n)) (load_be n m a).
Proof.
  induction n as [|n IH]; intros m a Hm; cbn [load_be]; [done|].
  eapply outcome_holds_bind; [by apply load_1_wf|]. intros b Hb.
  eapply outcome_holds_bind; [by apply IH|]. intros r Hr. cbn.
  rewrite <- lor_shiftl_add by (done || lia). apply is_uint_lor; [lia| |].
  - rewrite Z.shiftl_mul_pow2 by lia. unfold is_uint in *.
    replace (8 * Z.of_nat (S n)) with (8 + 8 * Z.of_nat n) by lia.
    rewrite Z.pow_add_r by lia.
    assert (0 < 2 ^ (8 * Z.of_nat n)) by (apply Z.pow_pos_nonneg; lia). nia.
  - eapply is_uint_mono; [|done]. lia.
Qed.

Lemma load_1_cases m a :
  mem_wf m -> (exists b, load_1 m a = Ok b /\ is_uint 8 b) \/ load_1 m a = Segv a.
Proof.
  intros Hm. pose proof (load_1_wf m a Hm) as H. unfold load_1 in *.
  destruct (m !! a) as [b|]; [left; exists b; done|by right].
Qed.

Ltac case_load :=
  repeat match goal with
  | Hm : mem_wf ?m |- context [load_1 ?m ?a] =>
      destruct (load_1_cases m a Hm) as [(?b & -> & ?Hb)| ->]; cbn [mbind outcome_bind]; try done
  end.

Lemma load_be_S n m a :
  mem_wf m ->
  load_be (S n) m a =
    (b ← load_1 m a; r ← load_be n m (a + 1); Ok (Z.lor (Z.shiftl b (8 * Z.of_nat n)) r)).
Proof.
  intros Hm. cbn [load_be]. destruct (load_1 m a) as [b| | | |]; try done. cbn.
  pose proof (load_be_range n m (a + 1) Hm) as Hr.
  destruct (load_be n m (a + 1)) as [r| | | |]; try done. cbn in *.
  rewrite lor_shiftl_add by (done || lia). done.
Qed.

Ltac norm_shifts :=
  repeat match goal with
  | |- context [8 * Z.of_nat ?n] =>
      let k := eval cbv in (8 * Z.of_nat n) in change (8 * Z.of_nat n) with k
  end; rewrite ?Z.shiftr_0_r.

(** Addresses [a + 1 + ... + 1] as [a + k]. *)
Ltac norm_addr :=
  repeat match goal with
  | |- context [?a + ?k + 1] => is_var a; let k' := eval cbv in (k + 1) in
      replace (a + k + 1) with (a + k') by lia
  end.

Ltac solve_load :=
  rewrite ?load_be_S by done; cbn [load_le load_be]; norm_addr;
  case_load; f_equal; block_masks; byte_eq.

Lemma vm_do_read_memory_2_be m a : mem_wf m -> vm_do_read_memory_2 m a = load_be 2 m a.
Proof. intros Hm. unfold vm_do_read_memory_2, generic_bswap_16. solve_load. Qed.
Lemma vm_do_read_memory_4_be m a : mem_wf m -> vm_do_read_memory_4 m a = load_be 4 m a.
Proof. intros Hm. unfold vm_do_read_memory_4, generic_bswap_32. solve_load. Qed.
Lemma vm_do_read_memory_8_be m a : mem_wf m -> vm_do_read_memory_8 m a = load_be 8 m a.
Proof. intros Hm. unfold vm_do_read_memory_8, generic_bswap_64. solve_load. Qed.
Lemma portable_read_memory_2_be m a : mem_wf m -> portable_read_memory_2 m a = load_be 2 m a.
Proof. intros Hm. unfold portable_read_memory_2. solve_load. Qed.
Lemma portable_read_memory_4_be m a : mem_wf m -> portable_read_memory_4 m a = load_be 4 m a.
Proof. intros Hm. unfold portable_read_memory_4. solve_load. Qed.
Lemma portable_read_memory_8_be m a : mem_wf m -> portable_read_memory_8 m a = load_be 8 m a.
Proof. intros Hm. unfold portable_read_memory_8. solve_load. Qed.

(** ** Stores and loads *)

Lemma store_be_wf n : forall a v m, mem_wf m -> outcome_holds mem_wf (store_be n a v m).
Proof.
  induction n as [|n IH]; intros a v m Hm; cbn; [done|].
  eapply outcome_holds_bind; [by apply store_1_wf|]. intros m' Hm'. by apply IH.
Qed.

Lemma store_be_dom n : forall a v m m', store_be n a v m = Ok m' -> dom m' = dom m.
Proof.
  induction n as [|n IH]; intros a v m m' H; cbn in H; [by simplify_eq|].
  apply outcome_bind_Ok in H as (m1 & H1 & H2).
  rewrite (IH _ _ _ _ H2). by eapply store_1_mapped.
Qed.

(** A store changes nothing outside its range. *)
Lemma store_be_frame n : forall a v m m' i,
  store_be n a v m = Ok m' -> ~ (a <= i < a + Z.of_nat n) -> m' !! i = m !! i.
Proof.
  induction n as [|n IH]; intros a v m m' i H Hi; cbn in H; [by simplify_eq|].
  apply outcome_bind_Ok in H as (m1 & H1 & H2).
  rewrite (IH _ _ _ _ i H2) by lia. eapply store_1_lookup_ne; [done|lia].
Qed.

Lemma mapped_cong n a m m' : dom m' = dom m -> mapped n a m -> mapped n a m'.
Proof.
  intros Hd H i Hi. specialize (H i Hi). rewrite <- elem_of_dom in *. by rewrite Hd.
Qed.

Lemma store_be_total n : forall a v m, mapped n a m -> exists m', store_be n a v m = Ok m'.
Proof.
  induction n as [|n IH]; intros a v m H; cbn; [by eexists|].
  destruct (H a ltac:(lia)) as [b Hb]. unfold store_1 at 1. rewrite Hb. cbn.
  apply IH. intros i Hi. destruct (decide (i = a)) as [->|].
  - rewrite lookup_insert_eq. by eexists.
  - rewrite lookup_insert_ne by done. apply H. lia.
Qed.

Lemma load_be_total n : forall m a, mapped n a m -> exists v, load_be n m a = Ok v.
Proof.
  induction n as [|n IH]; intros m a H; cbn; [by eexists|].
  destruct (H a ltac:(lia)) as [b Hb]. unfold load_1 at 1. rewrite Hb. cbn.
  destruct (IH m (a + 1)) as [v ->]; [|by eexists]. intros i Hi. apply H. lia.
Qed.

Lemma load_be_cong n : forall m m' a,
  (forall i, a <= i < a + Z.of_nat n -> m' !! i = m !! i) -> load_be n m' a = load_be n m a.
Proof.
  induction n as [|n IH]; intros m m' a H; cbn; [done|].
  unfold load_1. rewrite H by lia. rewrite (IH m m') by (intros; apply H; lia). done.
Qed.

(** What is stored is what is loaded. *)
Lemma load_store_be n : forall a v m m',
  store_be n a v m = Ok m' -> load_be n m' a = Ok (trunc (8 * Z.of_nat n) v).
Proof.
  induction n as [|n IH]; intros a v m m' H.
  - cbn. unfold trunc. by rewrite Z.mod_1_r.
  - cbn in H. apply outcome_bind_Ok in H as (m1 & H1 & H2). cbn [load_be].
    unfold load_1. rewrite (store_be_frame _ _ _ _ _ a H2) by lia.
    apply store_1_Ok in H1 as [_ ->]. rewrite lookup_insert_eq. cbn.
    rewrite (IH _ _ _ _ H2). cbn. f_equal.
    rewrite <- lor_shiftl_add by (apply trunc_range || idtac; lia).
    bits.
Qed.

Lemma load_be_frame n k a b v m m' :
  store_be n a v m = Ok m' ->
  b + Z.of_nat k <= a \/ a + Z.of_nat n <= b ->
  load_be k m' b = load_be k m b.
Proof.
  intros H Hd. apply load_be_cong. intros i Hi. eapply store_be_frame; [done|lia].
Qed.

(** [l] at address [a]. *)
Fixpoint blit (a : Z) (l : list Z) (m : memory) : memory :=
  match l with [] => m | b :: l => blit (a + 1) l (<[a := b]> m) end.

Lemma blit_snoc l : forall a c m, blit a (l ++ [c]) m = <[a + Z.of_nat (length l) := c]> (blit a l m).
Proof.
  induction l as [|b l IH]; intros a c m; cbn [app blit length].
  - by rewrite Z.add_0_r.
  - rewrite IH. f_equal. lia.
Qed.

Lemma blit_lookup l : forall a m i,
  blit a l m !! i = if decide (a <= i < a + Z.of_nat (length l)) then l !! Z.to_nat (i - a) else m !! i.
Proof.
  induction l as [|b l IH]; intros a m i; cbn [blit length].
  - rewrite decide_False by lia. done.
  - rewrite IH. destruct (decide (a = i)) as [->|].
    + rewrite decide_False, decide_True by lia. by rewrite lookup_insert_eq, Z.sub_diag.
    + rewrite lookup_insert_ne by done. destruct (decide (a + 1 <= i < _)).
      * rewrite decide_True by lia. replace (Z.to_nat (i - a)) with (S (Z.to_nat (i - (a + 1)))) by lia. done.
      * by rewrite decide_False by lia.
Qed.

Lemma blit_mapped l a n b m : mapped n b m -> mapped n b (blit a l m).
Proof.
  intros Hm i Hi. rewrite blit_lookup. destruct (decide _); [|by apply Hm].
  apply lookup_lt_is_Some. lia.
Qed.

Lemma blit_frame l a m i : ~ (a <= i < a + Z.of_nat (length l)) -> blit a l m !! i = m !! i.
Proof. intros H. rewrite blit_lookup. by rewrite decide_False. Qed.

Lemma blit_wf l a m : Forall (is_uint 8) l -> mem_wf m -> mem_wf (blit a l m).
Proof.
  intros Hl Hm i b. rewrite blit_lookup. destruct (decide _); [|by apply Hm].
  intros H. rewrite Forall_lookup in Hl. by eapply Hl.
Qed.

Lemma blit_dom l a m : mapped (length l) a m -> dom (blit a l m) = dom m.
Proof.
  intros H. apply set_eq. intros i. rewrite !elem_of_dom, blit_lookup. destruct (decide _) as [Hi|]; [|done].
  split; intros _; [by apply H|]. apply lookup_lt_is_Some. lia.
Qed.

(** ** Properties *)

(** The byte-swapping accessors used on hosts with unaligned accesses are
    the portable byte-by-byte accessors: same value, same memory and same
    faulting address, for 2, 4 and 8 bytes. *)
Theorem optimised_accessors_portable m a v :
  mem_wf m ->
  vm_do_read_memory_2 m a = portable_read_memory_2 m a /\
  vm_do_read_memory_4 m a = portable_read_memory_4 m a /\
  vm_do_read_memory_8 m a = portable_read_memory_8 m a /\
  vm_do_write_memory_2 a v m = portable_write_memory_2 a v m /\
  vm_do_write_memory_4 a v m = portable_write_memory_4 a v m /\
  vm_do_write_memory_8 a v m = portable_write_memory_8 a v m.
Proof.
  intros Hm.
  rewrite vm_do_read_memory_2_be, vm_do_read_memory_4_be, vm_do_read_memory_8_be,
    portable_read_memory_2_be, portable_read_memory_4_be, portable_read_memory_8_be by done.
  rewrite vm_do_write_memory_2_be, vm_do_write_memory_4_be, vm_do_write_memory_8_be.
  repeat split; unfold portable_write_memory_2, portable_write_memory_4,
    portable_write_memory_8; cbn [store_be]; norm_shifts; norm_addr;
    repeat (match goal with |- context [store_1 ?a ?v ?m] =>
      destruct (store_1 a v m); cbn [mbind outcome_bind]; try done end).
Qed.

Lemma optimised_accessors_portable_witness :
  let m := list_to_map [(16, 0x12); (17, 0x34); (18, 0x56); (19, 0x78)] in
  vm_do_read_memory_4 m 16 = portable_read_memory_4 m 16 /\
  vm_do_read_memory_4 m 16 = Ok 0x12345678.
Proof.
  destruct (optimised_accessors_portable
    (list_to_map [(16, 0x12); (17, 0x34); (18, 0x56); (19, 0x78)]) 16 0) as (_ & H & _).
  - by apply (bool_decide_unpack _).
  - split; [exact H|reflexivity].
Defined.

(** Guest memory is big-endian and its accesses do not interfere.  A
    4-byte store to mapped memory succeeds; the word reads back as the low 32
    bits stored and byte by byte from the most significant one; every other
    address keeps its byte; and the store maps and unmaps nothing. *)
Theorem word_store_load a v m :
  mem_wf m -> mapped 4 a m ->
  exists m', vm_write_memory_4 a v m = Ok m' /\ mem_wf m' /\ dom m' = dom m /\
    vm_read_memory_4 m' a = Ok (u32 v) /\
    (forall k, 0 <= k < 4 ->
       vm_read_memory_1 m' (a + k) = Ok (u8 (Z.shiftr v (8 * (3 - k))))) /\
    (forall i, ~ (a <= i < a + 4) -> m' !! i = m !! i).
Proof.
  intros Hm Hmap. unfold vm_write_memory_4, vm_read_memory_4, vm_do_get_real_address.
  rewrite vm_do_write_memory_4_be.
  destruct (store_be_total 4 a v m Hmap) as [m' Hs]. exists m'.
  pose proof (store_be_wf 4 a v m Hm) as Hm'. rewrite Hs in Hm'. cbn in Hm'.
  split_and!; [done|done|by eapply store_be_dom| | |].
  - rewrite vm_do_read_memory_4_be by done. by rewrite (load_store_be 4 _ _ _ _ Hs).
  - intros k Hk. unfold vm_read_memory_1, vm_do_read_memory_1, vm_do_get_real_address, load_1.
    cbn [store_be] in Hs.
    repeat (apply outcome_bind_Ok in Hs as (? & [_ ->]%store_1_Ok & Hs)). simplify_eq.
    assert (k = 0 \/ k = 1 \/ k = 2 \/ k = 3) as [->|[->|[->| ->]]] by lia;
      repeat (rewrite lookup_insert; case_decide; try lia); f_equal; f_equal; f_equal; lia.
  - intros i Hi. eapply store_be_frame; [done|lia].
Qed.

Lemma word_store_load_witness :
  let m := list_to_map [(16, 0); (17, 0); (18, 0); (19, 0); (20, 7)] in
  exists m', vm_write_memory_4 16 0xAABBCCDD m = Ok m' /\
    vm_read_memory_1 m' (16 + 0) = Ok 0xAA /\ m' !! 20 = Some 7.
Proof.
  destruct (word_store_load 16 0xAABBCCDD
    (list_to_map [(16, 0); (17, 0); (18, 0); (19, 0); (20, 7)])) as (m' & H1 & _ & _ & _ & H2 & H3).
  - by apply (bool_decide_unpack _).
  - intros i Hi. assert (i = 16 \/ i = 17 \/ i = 18 \/ i = 19) as [->|[->|[->| ->]]] by lia;
      by eexists.
  - exists m'. split; [exact H1|]. split; [exact (H2 0 ltac:(lia))|].
    rewrite (H3 20) by lia. reflexivity.
Defined.
