(* ===== verification/Handlers.v ===== *)
(** The vocabulary of the decode table: operand classes
    (kpx_cpu/src/cpu/ppc/ppc-operands.hpp), the instruction handlers with
    their template arguments (the [EXECUTE_*] macros of ppc-decode.cpp), the
    instruction formats and the entries of the table (ppc-cpu.hpp).

    C++ passes operands and operations as template arguments; here they are
    data, so that the decode table is a value and the handlers are functions
    of it. *)
From S2P Require Import Prelude Bitfields Operations.

(** ** Scalar operands *)

Inductive operand :=
| operand_NONE | operand_CR | operand_PC | operand_LR | operand_CTR
| operand_RA_compl | operand_RA | operand_RB | operand_RS | operand_RD
| operand_RA_or_0
| immediate_value (n : Z)
| operand_XER_CA | operand_XER_COUNT | operand_FPSCR_RN
| operand_SPR | operand_TBR | operand_MASK
| operand_LI | operand_BO | operand_BD | operand_IMM
| operand_UIMM | operand_UIMM_shifted | operand_SIMM | operand_SIMM_shifted
| operand_D | operand_NB | operand_SH | operand_FM | operand_SHB | operand_SHBO.

Definition operand_ONE := immediate_value 1.
Definition operand_ZERO := immediate_value 0.
Definition operand_MINUS_ONE := immediate_value (-1).

#[export] Instance operand_eq_dec : EqDecision operand.
Proof. solve_decision. Defined.

(** ** Floating-point operands *)

Inductive fp_operand :=
| operand_fp_NONE | operand_fp_RA | operand_fp_RB | operand_fp_RC | operand_fp_RD.

Inductive fp_type := fp_double | fp_float.

Inductive fp_op :=
| op_fnop | op_fabs | op_fadd | op_fdiv | op_fmadd | op_fmsub | op_fmul | op_fnabs | op_fneg
| op_fnmadd | op_fnmsub | op_fnmadds | op_fnmsubs | op_fsub | op_fsel.

(** ** Vector operands

    [vec_operand] covers [v16qi_operand], [v8hi_operand], [v4si_operand] and
    [v2di_operand], by the width [vw] in bits of the register element they
    access, the C type [vt] of the element and whether the element order is
    [ev_mixed]; [vec_sat_operand] the saturating ones, which compute in the
    wider type [vs]; [vec_float] is [v4sf_operand]. *)
Inductive vop :=
| null_vector_operand
| vimm_operand (f : bit_field)
| vec_operand (f : bit_field) (vw : Z) (vt : ctype) (mixed : bool)
| vec_sat_operand (f : bit_field) (vw : Z) (vt vs : ctype) (mixed : bool)
| vec_float (f : bit_field).

(** [element_type] of the operand. *)
Definition element_type (v : vop) : ctype :=
  match v with
  | null_vector_operand | vimm_operand _ => uint32
  | vec_operand _ _ vt _ => vt
  | vec_sat_operand _ _ _ vs _ => vs
  | vec_float _ => cfloat
  end.

(** [element_size]: the size of the element in the register. *)
Definition element_size (v : vop) : Z :=
  match v with
  | null_vector_operand | vimm_operand _ => 4
  | vec_operand _ _ vt _ => csize vt
  | vec_sat_operand _ _ vt _ _ => csize vt
  | vec_float _ => 4
  end.

Definition V16QI f := vec_operand f 8 uint8 false.
Definition V16QIs f := vec_operand f 8 int8 false.
Definition V16QIm f := vec_operand f 8 uint8 true.
Definition V16QIms f := vec_operand f 8 int8 true.
Definition V8HI f := vec_operand f 16 uint16 false.
Definition V8HIs f := vec_operand f 16 int16 false.
Definition V8HIm f := vec_operand f 16 uint16 true.
Definition V8HIms f := vec_operand f 16 int16 true.
Definition V4SI f := vec_operand f 32 uint32 false.
Definition V4SIs f := vec_operand f 32 int32 false.
Definition V2DI f := vec_operand f 64 uint64 false.
Definition V4SF f := vec_float f.
Definition V16QI_SAT t f := vec_sat_operand f 8 t int16 false.
Definition V8HI_SAT t f := vec_sat_operand f 16 t int32 false.
Definition V4SI_SAT t f := vec_sat_operand f 32 t int64 false.
Definition V16QIm_SAT t f := vec_sat_operand f 8 t int16 true.
Definition V8HIm_SAT t f := vec_sat_operand f 16 t int32 true.
Definition V16QIm_USAT t f := vec_sat_operand f 8 t uint16 true.
Definition V8HIm_USAT t f := vec_sat_operand f 16 t uint32 true.
Definition UIMM f := vimm_operand f.
Definition NONE (f : bit_field) := null_vector_operand.

(** ** Handlers

    One constructor per [execute_*] member function, with its template
    arguments in order. *)
Inductive handler :=
| execute_illegal_h | execute_nop_h
| execute_addition_h (RA RB RC : operand) (CA OE Rc : bit_pred)
| execute_generic_arith_h (OP : op) (RD RA RB RC : operand) (OE Rc : bit_pred)
| execute_rlwimi_h (SH MA : operand) (Rc : bit_pred)
| execute_shift_h (OP : op) (RD RA SH : operand) (SO : op) (CA Rc : bit_pred)
| execute_branch_h (PC BO DP : operand) (AA LK : bit_pred)
| execute_compare_h (RB : operand) (CT : ctype)
| execute_cr_op_h (OP : op)
| execute_divide_h (SB : bool) (OE Rc : bit_pred)
| execute_multiply_h (HI SB : bool) (OE Rc : bit_pred)
| execute_fp_arith_h (FP : fp_type) (OP : fp_op) (RD RA RB RC : fp_operand) (Rc : bit_pred) (FPSCR : bool)
| execute_loadstore_h (OP : op) (RA RB : operand) (LD : bool) (SZ : Z) (UP RX : bool)
| execute_loadstore_multiple_h (RA DP : operand) (LD : bool)
| execute_fp_loadstore_h (RA RB : operand) (LD DB UP : bool)
| execute_load_string_h (RA : operand) (IM : bool) (NB : operand)
| execute_store_string_h (RA : operand) (IM : bool) (NB : operand)
| execute_lwarx_h (RA : operand) | execute_stwcx_h (RA : operand)
| execute_fp_compare_h (OC : bool)
| execute_fp_int_convert_h (RN : operand) (Rc : bit_pred)
| execute_fp_round_h (Rc : bit_pred)
| execute_syscall_h
| execute_mcrf_h | execute_mcrfs_h | execute_mcrxr_h | execute_mtcrf_h
| execute_mtfsf_h (FM : operand) (RB : fp_operand) (Rc : bit_pred)
| execute_mtfsfi_h (RB : operand) (Rc : bit_pred)
| execute_mtfsb_h (RB : operand) (Rc : bit_pred)
| execute_mffs_h (Rc : bit_pred)
| execute_mfmsr_h
| execute_mfspr_h (SPR : operand) | execute_mtspr_h (SPR : operand) | execute_mftbr_h (TBR : operand)
| execute_icbi_h (RA RB : operand) | execute_isync_h | execute_dcbz_h (RA RB : operand)
| execute_vector_load_for_shift_h (SL : bool)
| execute_vector_load_h (VD : vop) (RA RB : operand)
| execute_vector_store_h (VS : vop) (RA RB : operand)
| execute_vector_arith_h (OP : op) (VD VA VB VC : vop) (Rc : bit_pred) (C1 : bool)
| execute_vector_arith_mixed_h (OP : op) (VD VA VB VC : vop)
| execute_vector_arith_odd_h (ODD : Z) (OP : op) (VD VA VB VC : vop)
| execute_vector_merge_h (VD VA VB : vop) (LO : Z)
| execute_vector_pack_h (VD VA VB : vop)
| execute_vector_unpack_h (LO : Z) (VD VA : vop)
| execute_vector_pack_pixel_h | execute_vector_unpack_pixel_h (LO : Z)
| execute_vector_shift_h (SD : Z)
| execute_vector_shift_octet_h (SD : Z) (VD VA VB : vop) (SH : operand)
| execute_vector_splat_h (OP : op) (VD VB : vop) (IM : bool)
| execute_vector_sum_h (SZ : Z) (VD VA VB : vop)
| execute_vector_permute_h | execute_mfvscr_h | execute_mtvscr_h
| execute_sheep_h.

(** ** Instruction formats, control flow and table entries *)

Inductive instr_format :=
| INVALID_form | A_form | B_form | D_form | DS_form | I_form | M_form | MD_form | MDS_form
| SC_form | X_form | XFL_form | XFX_form | XL_form | XO_form | XS_form
| VX_form | VXR_form | VA_form.

#[export] Instance instr_format_eq_dec : EqDecision instr_format.
Proof. solve_decision. Defined.

Definition CFLOW_NORMAL := 0.
Definition CFLOW_BRANCH := 1.
Definition CFLOW_JUMP := 2.
Definition CFLOW_TRAP := 4.
Definition CFLOW_CONST_JUMP := 8.
Definition CFLOW_END_BLOCK := Z.lor (Z.lor CFLOW_BRANCH CFLOW_JUMP) CFLOW_TRAP.

(** [struct instr_info_t], without the mnemonic number used by the JIT. *)
Record instr_info := II {
  ii_name : string;
  ii_execute : handler;
  ii_format : instr_format;
  ii_opcode : Z;
  ii_xo : Z;
  ii_cflow : Z;
}.

(** ** The macros of the decode table *)

Definition EXECUTE_VECTOR_LOADSTORE_load (VD : bit_field -> vop) RA RB :=
  execute_vector_load_h (VD vD_field) RA RB.
Definition EXECUTE_VECTOR_LOADSTORE_store (VD : bit_field -> vop) RA RB :=
  execute_vector_store_h (VD vD_field) RA RB.
Definition EXECUTE_VECTOR_ARITH OP (VD VA VB VC : bit_field -> vop) :=
  execute_vector_arith_h OP (VD vD_field) (VA vA_field) (VB vB_field) (VC vC_field)
    (fake_bit_field false) false.
Definition EXECUTE_VECTOR_ARITH_MIXED OP (VD VA VB VC : bit_field -> vop) :=
  execute_vector_arith_mixed_h OP (VD vD_field) (VA vA_field) (VB vB_field) (VC vC_field).
Definition EXECUTE_VECTOR_ARITH_ODD ODD OP (VD VA VB VC : bit_field -> vop) :=
  execute_vector_arith_odd_h ODD OP (VD vD_field) (VA vA_field) (VB vB_field) (VC vC_field).
Definition EXECUTE_VECTOR_MERGE (VD VA VB : bit_field -> vop) LO :=
  execute_vector_merge_h (VD vD_field) (VA vA_field) (VB vB_field) LO.
Definition EXECUTE_VECTOR_COMPARE OP (VD VA VB : bit_field -> vop) C1 :=
  execute_vector_arith_h OP (VD vD_field) (VA vA_field) (VB vB_field) (NONE vC_field) vRC_BIT_G C1.
Definition EXECUTE_VECTOR_PACK (VD VA VB : bit_field -> vop) :=
  execute_vector_pack_h (VD vD_field) (VA vA_field) (VB vB_field).
Definition EXECUTE_VECTOR_UNPACK LO (VD VB : bit_field -> vop) :=
  execute_vector_unpack_h LO (VD vD_field) (VB vB_field).
Definition EXECUTE_VECTOR_SHIFT_OCTET SD (VD VA VB : bit_field -> vop) SH :=
  execute_vector_shift_octet_h SD (VD vD_field) (VA vA_field) (VB vB_field) SH.
Definition EXECUTE_VECTOR_SPLAT OP (VD VB : bit_field -> vop) IM :=
  execute_vector_splat_h OP (VD vD_field) (VB vB_field) IM.
Definition EXECUTE_VECTOR_SUM SZ (VD VA VB : bit_field -> vop) :=
  execute_vector_sum_h SZ (VD vD_field) (VA vA_field) (VB vB_field).
