(* ===== verification/BlockCache.v ===== *)
(** The cache of predecoded blocks (kpx_cpu/src/cpu/block-cache.hpp,
    kpx_cpu/src/cpu/ppc/ppc-blockinfo.hpp, include/basic-blockinfo.hpp,
    include/block-alloc.hpp).

    The cache threads every block on two intrusive doubly-linked lists: the
    chain of its cache line and the active (or dormant) list.  A back link is
    a pointer to the field that points to the entry, so it may be a list head
    or the [next] field of another entry.  The model keeps the C++ pointers:
    an entry is an address, the fields of the entries are maps from
    addresses, and a back link is a [link].  [repr] relates the pointers to
    the mathematical lists they stand for, and every operation is shown to
    implement the list operation. *)
From stdpp Require Import functions.
From S2P Require Import Prelude.

(** ** Intrusive doubly-linked lists *)

Inductive link (K : Type) : Type :=
| Head (k : K)      (* address of the list head [k] *)
| Next (x : Z).     (* address of the [next] field of entry [x] *)
Arguments Head {K} k.
Arguments Next {K} x.

(** [nexts] has no binding for a null pointer. *)
Record dll (K : Type) : Type := Dll {
  heads : K -> option Z;
  nexts : gmap Z Z;
  prevs : gmap Z (link K);
}.
Arguments Dll {K} heads nexts prevs.
Arguments heads {K} d.
Arguments nexts {K} d.
Arguments prevs {K} d.

Section Dll.
Context {K : Type} `{EqDecision K}.

(** Reading and writing through a link. *)
Definition slot (d : dll K) (p : link K) : option Z :=
  match p with Head k => heads d k | Next x => nexts d !! x end.

Definition set_slot (p : link K) (v : option Z) (d : dll K) : dll K :=
  match p with
  | Head k => Dll (<[k := v]> (heads d)) (nexts d) (prevs d)
  | Next x => Dll (heads d) (partial_alter (fun _ => v) x (nexts d)) (prevs d)
  end.

Definition set_prev (x : Z) (p : option (link K)) (d : dll K) : dll K :=
  Dll (heads d) (nexts d) (partial_alter (fun _ => p) x (prevs d)).

(** [remove_from_cl_list] and [remove_from_list]. *)
Definition dll_remove (x : Z) (d : dll K) : dll K :=
  let d := match prevs d !! x with
           | Some p => set_slot p (nexts d !! x) d
           | None => d
           end in
  match nexts d !! x with
  | Some n => set_prev n (prevs d !! x) d
  | None => d
  end.

(** [add_to_cl_list], [add_to_active_list] and [add_to_dormant_list]. *)
Definition dll_add (k : K) (x : Z) (d : dll K) : dll K :=
  let d := match heads d k with
           | Some h => set_prev h (Some (Next x)) d
           | None => d
           end in
  let d := set_slot (Next x) (heads d k) d in
  let d := set_slot (Head k) (Some x) d in
  set_prev x (Some (Head k)) d.

(** ** The lists behind the pointers *)

(** The entries reachable from link [p] are [l], in order, and their back
    links are right. *)
Fixpoint dseg (d : dll K) (p : link K) (l : list Z) : Prop :=
  match l with
  | [] => slot d p = None
  | x :: l => slot d p = Some x /\ prevs d !! x = Some p /\ dseg d (Next x) l
  end.

(** [L k] is the list with head [k]; an entry is on one list at most. *)
Definition repr (d : dll K) (L : K -> list Z) : Prop :=
  (forall k, dseg d (Head k) (L k)) /\
  (forall k, NoDup (L k)) /\
  (forall k k' x, x ∈ L k -> x ∈ L k' -> k = k').

Lemma slot_set_slot_eq d p v : slot (set_slot p v d) p = v.
Proof.
  destruct p; cbn; [apply fn_lookup_insert|apply lookup_partial_alter_eq].
Qed.
Lemma slot_set_slot_ne d p q v : p <> q -> slot (set_slot p v d) q = slot d q.
Proof.
  intros Hpq. destruct p as [k|x], q as [k'|y]; cbn; try done.
  - apply fn_lookup_insert_ne. congruence.
  - apply lookup_partial_alter_ne. congruence.
Qed.
Lemma prevs_set_slot d p v x : prevs (set_slot p v d) !! x = prevs d !! x.
Proof. by destruct p. Qed.
Lemma slot_set_prev d x p q : slot (set_prev x p d) q = slot d q.
Proof. by destruct q. Qed.
Lemma prevs_set_prev_eq d x p : prevs (set_prev x p d) !! x = p.
Proof. apply lookup_partial_alter_eq. Qed.
Lemma prevs_set_prev_ne d x y p : x <> y -> prevs (set_prev x p d) !! y = prevs d !! y.
Proof. apply lookup_partial_alter_ne. Qed.

Lemma dseg_frame d d' p l :
  slot d' p = slot d p ->
  (forall y, y ∈ l -> slot d' (Next y) = slot d (Next y) /\ prevs d' !! y = prevs d !! y) ->
  dseg d p l -> dseg d' p l.
Proof.
  revert p. induction l as [|x l IH]; intros p Hp Hl; cbn; [congruence|].
  intros (Hs & Hpv & Hd). destruct (Hl x ltac:(left)) as [Hn Hx].
  split_and!; [congruence..|]. apply IH; [done| |done].
  intros y Hy. apply Hl. by right.
Qed.

(** The fields of an entry that is on the list. *)
Lemma dseg_app d p l1 x l2 :
  dseg d p (l1 ++ x :: l2) ->
  exists q, prevs d !! x = Some q /\ slot d q = Some x /\
    (q = p /\ l1 = [] \/ exists y, y ∈ l1 /\ q = Next y) /\ dseg d (Next x) l2.
Proof.
  revert p. induction l1 as [|y l1 IH]; intros p; cbn.
  - intros (? & ? & ?). exists p. split_and!; auto.
  - intros (_ & _ & Hd). destruct (IH _ Hd) as (q & ? & ? & [[-> ->]|(z & ? & ->)] & ?).
    + exists (Next y). split_and!; auto. right. exists y. split; [left|done].
    + exists (Next z). split_and!; auto. right. exists z. split; [by right|done].
Qed.

(** What [dll_remove] does to the fields, with the back link known. *)
Lemma dll_remove_fields d x q :
  prevs d !! x = Some q -> slot d q = Some x -> q <> Next x ->
  let d' := dll_remove x d in
  slot d' q = nexts d !! x /\
  (forall p, p <> q -> slot d' p = slot d p) /\
  (forall y, nexts d !! x <> Some y -> prevs d' !! y = prevs d !! y) /\
  (forall n, nexts d !! x = Some n -> prevs d' !! n = Some q).
Proof.
  intros Hq Hs Hne. unfold dll_remove. rewrite Hq.
  assert (Hn : nexts (set_slot q (nexts d !! x) d) !! x = nexts d !! x).
  { pose proof (slot_set_slot_ne d q (Next x) (nexts d !! x) Hne). done. }
  rewrite Hn, prevs_set_slot, Hq. destruct (nexts d !! x) as [n|] eqn:En; cbn zeta.
  - split_and!.
    + by rewrite slot_set_prev, slot_set_slot_eq.
    + intros p Hp. rewrite slot_set_prev. by apply slot_set_slot_ne.
    + intros y Hy. rewrite prevs_set_prev_ne by congruence. apply prevs_set_slot.
    + intros m [= <-]. apply prevs_set_prev_eq.
  - split_and!; [apply slot_set_slot_eq| |intros; apply prevs_set_slot|done].
    intros p Hp. by apply slot_set_slot_ne.
Qed.

Lemma dseg_remove d p l1 x l2 :
  dseg d p (l1 ++ x :: l2) -> NoDup (l1 ++ x :: l2) ->
  (forall y, y ∈ l1 ++ x :: l2 -> p <> Next y) ->
  dseg (dll_remove x d) p (l1 ++ l2).
Proof.
  intros Hd Hnd Hp. destruct (dseg_app _ _ _ _ _ Hd) as (q & Hq & Hs & Hcase & _).
  assert (Hqx : q <> Next x).
  { destruct Hcase as [[-> _]|(y & Hy & ->)].
    - apply Hp. set_solver.
    - intros [= ->]. apply NoDup_app in Hnd as (_ & Hd' & _). eapply Hd'; [done|left]. }
  destruct (dll_remove_fields d x q Hq Hs Hqx) as (F1 & F2 & F3 & F4).
  clear Hcase. revert p Hd Hnd Hp.
  induction l1 as [|y l1 IH]; intros p Hd Hnd Hp; cbn in *.
  - destruct Hd as (_ & Hpx & Hd). assert (p = q) as -> by congruence.
    apply NoDup_cons in Hnd as [Hx Hnd].
    destruct l2 as [|n l3]; cbn in *; [congruence|].
    destruct Hd as (Hn & Hpn & Hd). apply NoDup_cons in Hnd as [Hn3 Hnd].
    split_and!; [congruence|by apply F4|].
    eapply dseg_frame; [..|done].
    + apply F2. intros [= <-]. by apply (Hp n); [right; left|].
    + intros z Hz. split; [apply F2|apply F3].
      * intros <-. by apply (Hp z); [right; right|].
      * rewrite Hn. intros [= ->]. done.
  - destruct Hd as (Hsp & Hpy & Hd). apply NoDup_cons in Hnd as [Hy Hnd].
    assert (Hpq : p <> q).
    { intros ->. destruct (dseg_app _ _ _ _ _ Hd) as (q' & Hq' & _ & [[-> _]|(z & Hz & ->)] & _).
      - apply (Hp y); [left|congruence].
      - apply (Hp z); [right; apply elem_of_app; by left|congruence]. }
    split_and!.
    + by rewrite F2.
    + rewrite F3; [done|]. intros En.
      destruct (dseg_app _ _ _ _ _ Hd) as (_ & _ & _ & _ & Hx2).
      destruct l2 as [|n l3]; cbn in Hx2; [congruence|].
      destruct Hx2 as (En' & _). assert (n = y) as -> by congruence.
      apply Hy. set_solver.
    + apply IH; [done..|]. intros z Hz [= ->]. done.
Qed.

(** Removing an entry that is on list [k]. *)
Lemma repr_remove d L k x l1 l2 :
  repr d L -> L k = l1 ++ x :: l2 -> repr (dll_remove x d) (<[k := l1 ++ l2]> L).
Proof.
  intros (Hs & Hnd & Hdj) Hk. pose proof (Hs k) as Hsk. rewrite Hk in Hsk.
  pose proof (Hnd k) as Hnk. rewrite Hk in Hnk.
  assert (Hsub : forall y, y ∈ l1 ++ l2 -> y ∈ L k) by (rewrite Hk; set_solver).
  split_and!.
  - intros k'. destruct (decide (k = k')) as [<-|Hne].
    + rewrite fn_lookup_insert. apply dseg_remove; [done..|]. intros; discriminate.
    + rewrite fn_lookup_insert_ne by done.
      destruct (dseg_app _ _ _ _ _ Hsk) as (q & Hq & Hsq & Hcase & Hx2).
      assert (Hqk : (q = Head k) \/ exists y, y ∈ L k /\ y <> x /\ q = Next y).
      { destruct Hcase as [[-> _]|(y & Hy & ->)]; [by left|right].
        exists y. split_and!; [rewrite Hk; set_solver| |done].
        intros ->. apply NoDup_app in Hnk as (_ & Hd' & _). eapply Hd'; [done|left]. }
      assert (Hqx : q <> Next x) by (destruct Hqk as [->|(y & _ & ? & ->)]; congruence).
      destruct (dll_remove_fields d x q Hq Hsq Hqx) as (F1 & F2 & F3 & F4).
      assert (Hout : forall y, y ∈ L k' -> y ∉ L k).
      { intros y Hy Hy'. by specialize (Hdj _ _ _ Hy Hy'). }
      eapply dseg_frame; [..|apply Hs].
      * apply F2. destruct Hqk as [->|(y & _ & _ & ->)]; congruence.
      * intros y Hy. specialize (Hout y Hy). split; [apply F2|apply F3].
        { destruct Hqk as [->|(z & Hz & _ & ->)]; [done|]. intros [= ->]. done. }
        { intros En. destruct l2 as [|n l3]; cbn in Hx2; [congruence|].
          destruct Hx2 as (En' & _). assert (n = y) as -> by congruence.
          apply Hout. rewrite Hk. set_solver. }
  - intros k'. destruct (decide (k = k')) as [<-|Hne].
    + rewrite fn_lookup_insert. apply (sublist_NoDup _ _ Hnk).
      apply sublist_app; [done|by constructor].
    + by rewrite fn_lookup_insert_ne.
  - intros k1 k2 y H1 H2. apply (Hdj _ _ y).
    + destruct (decide (k = k1)) as [<-|];
        [rewrite fn_lookup_insert in H1; auto|by rewrite fn_lookup_insert_ne in H1].
    + destruct (decide (k = k2)) as [<-|];
        [rewrite fn_lookup_insert in H2; auto|by rewrite fn_lookup_insert_ne in H2].
Qed.

(** Adding an entry that is on no list. *)
Lemma repr_add d L k x :
  repr d L -> (forall k', x ∉ L k') -> repr (dll_add k x d) (<[k := x :: L k]> L).
Proof.
  intros (Hs & Hnd & Hdj) Hx.
  set (d1 := match heads d k with Some h => set_prev h (Some (Next x)) d | None => d end).
  assert (S1 : forall p, slot d1 p = slot d p).
  { intros p. unfold d1. destruct (heads d k); [apply slot_set_prev|done]. }
  assert (P1 : forall y, heads d k <> Some y -> prevs d1 !! y = prevs d !! y).
  { intros y Hy. unfold d1. destruct (heads d k); [|done]. apply prevs_set_prev_ne. congruence. }
  assert (P1h : forall h, heads d k = Some h -> prevs d1 !! h = Some (Next x)).
  { intros h Hh. unfold d1. rewrite Hh. apply prevs_set_prev_eq. }
  assert (Ed : dll_add k x d =
    set_prev x (Some (Head k)) (set_slot (Head k) (Some x) (set_slot (Next x) (heads d1 k) d1)))
    by done.
  assert (Hh1 : heads d1 k = heads d k) by (apply (S1 (Head k))).
  assert (S2 : forall p, p <> Head k -> p <> Next x -> slot (dll_add k x d) p = slot d p).
  { intros p ? ?. rewrite Ed, slot_set_prev, !slot_set_slot_ne by done. apply S1. }
  assert (P2 : forall y, y <> x -> prevs (dll_add k x d) !! y = prevs d1 !! y).
  { intros y ?. rewrite Ed, prevs_set_prev_ne by done. by rewrite !prevs_set_slot. }
  assert (Hmem : forall k' y, y ∈ L k' -> y <> x) by (intros k' y Hy ->; by apply (Hx k')).
  pose proof (Hs k) as Hk.
  split_and!.
  - intros k'. destruct (decide (k = k')) as [<-|Hne].
    + rewrite fn_lookup_insert. cbn [dseg]. split_and!.
      * by rewrite Ed, slot_set_prev, slot_set_slot_eq.
      * by rewrite Ed, prevs_set_prev_eq.
      * assert (Hnx : slot (dll_add k x d) (Next x) = heads d k).
        { by rewrite Ed, slot_set_prev, slot_set_slot_ne, slot_set_slot_eq. }
        change (heads d k) with (slot d (Head k)) in Hnx.
        destruct (L k) as [|h l] eqn:El; cbn [dseg] in *; [congruence|].
        destruct Hk as (Hh & Hph & Hd). rewrite Hh in Hnx. cbn in Hh.
        assert (Hhx : h <> x) by (apply (Hmem k); rewrite El; left).
        split_and!; [done|rewrite P2 by done; by apply P1h|].
        eapply dseg_frame; [..|done].
        { apply S2; congruence. }
        intros y Hy. assert (y <> x) by (apply (Hmem k); rewrite El; by right).
        assert (y <> h).
        { intros ->. specialize (Hnd k). rewrite El in Hnd. by apply NoDup_cons in Hnd as [? _]. }
        split; [apply S2; congruence|]. rewrite P2 by done. apply P1. cbn in Hh. congruence.
    + rewrite fn_lookup_insert_ne by done. eapply dseg_frame; [..|apply Hs].
      * apply S2; congruence.
      * intros y Hy. pose proof (Hmem _ _ Hy). split; [apply S2; congruence|].
        rewrite P2 by done. apply P1. intros Hh.
        destruct (L k) as [|h l] eqn:El; cbn in Hk; [congruence|].
        destruct Hk as (Hh' & _). assert (h = y) as -> by congruence.
        apply Hne. apply (Hdj _ _ y); [rewrite El; left|done].
  - intros k'. destruct (decide (k = k')) as [<-|Hne].
    + rewrite fn_lookup_insert. by constructor.
    + by rewrite fn_lookup_insert_ne.
  - assert (Hup : forall k1 y, y ∈ (<[k := x :: L k]> L) k1 -> (y = x /\ k1 = k) \/ y ∈ L k1).
    { intros k1 y. destruct (decide (k = k1)) as [<-|]; [rewrite fn_lookup_insert|
        rewrite fn_lookup_insert_ne by done; auto].
      intros [->|]%elem_of_cons; auto. }
    intros k1 k2 y H1%Hup H2%Hup. destruct H1 as [[-> ->]|H1], H2 as [[? ->]|H2]; subst;
      try done; [by apply Hx in H2|by apply Hx in H1|by apply (Hdj _ _ y)].
Qed.

End Dll.

(** ** Blocks *)

(** [struct powerpc_block_info] in the predecoding configuration; [bi_di] is
    the index of its first [decode_info] in the decode cache, or [None] for a
    null pointer.  The [dep] and [deplist] fields serve the translator only. *)
Record block_info := BI {
  bi_pc : Z;
  bi_end_pc : Z;
  bi_size : Z;
  bi_di : option Z;
  bi_min_pc : Z;
  bi_max_pc : Z;
}.

(** [powerpc_block_info::init] on a freshly acquired (dirty) object. *)
Definition bi_init (start_pc : Z) (b : block_info) : block_info :=
  BI start_pc (bi_end_pc b) (bi_size b) None (bi_min_pc b) (bi_max_pc b).

(** [powerpc_block_info::intersect]. *)
Definition intersect (start end_ : Z) (b : block_info) : bool :=
  ((start <=? bi_min_pc b) && (bi_min_pc b <? end_)) ||
  ((start <=? bi_max_pc b) && (bi_max_pc b <? end_)).

(** ** The cache *)

Inductive which := active | dormant.
#[export] Instance which_eq_dec : EqDecision which.
Proof. solve_decision. Defined.

Definition HASH_BITS := 15.
Definition HASH_SIZE := Z.shiftl 1 HASH_BITS.
Definition HASH_MASK := HASH_SIZE - 1.
Definition cacheline (addr : Z) : Z := Z.land (Z.shiftr addr 2) HASH_MASK.

(** [chunks] is the free list of the lazy allocator, [brk] the first address
    no pool has used. *)
Record block_cache := BC {
  infos : gmap Z block_info;
  cl_lists : dll Z;
  bi_lists : dll which;
  chunks : list Z;
  brk : Z;
}.

(** Entries per pool: [1 + pool_size / sizeof(entry)] on x86-64. *)
Definition pool_count : nat := 26.

Definition info (bc : block_cache) (x : Z) : block_info :=
  default (BI 0 0 0 None 0 0) (infos bc !! x).

Definition set_info (x : Z) (b : block_info) (bc : block_cache) : block_cache :=
  BC (<[x := b]> (infos bc)) (cl_lists bc) (bi_lists bc) (chunks bc) (brk bc).

(** The constructor. *)
Definition bc_empty : block_cache :=
  BC ∅ (Dll (fun _ => None) ∅ ∅) (Dll (fun _ => None) ∅ ∅) [] 0.

(** [lazy_allocator::acquire]: when the free list is empty, the chunks of a
    new pool are pushed on it one after the other. *)
Definition refill (bc : block_cache) : list Z * Z :=
  match chunks bc with
  | [] => (reverse ((fun i => brk bc + i) <$> count_up pool_count), brk bc + Z.of_nat pool_count)
  | c => (c, brk bc)
  end.

Definition new_blockinfo (bc : block_cache) : Z * block_cache :=
  let (c, b) := refill bc in
  (hd 0 c, BC (infos bc) (cl_lists bc) (bi_lists bc) (tl c) b).

Definition delete_blockinfo (x : Z) (bc : block_cache) : block_cache :=
  BC (infos bc) (cl_lists bc) (bi_lists bc) (x :: chunks bc) (brk bc).

Definition on_cl (f : dll Z -> dll Z) (bc : block_cache) : block_cache :=
  BC (infos bc) (f (cl_lists bc)) (bi_lists bc) (chunks bc) (brk bc).
Definition on_lists (f : dll which -> dll which) (bc : block_cache) : block_cache :=
  BC (infos bc) (cl_lists bc) (f (bi_lists bc)) (chunks bc) (brk bc).

Definition remove_from_cl_list (x : Z) (bc : block_cache) := on_cl (dll_remove x) bc.
Definition remove_from_list (x : Z) (bc : block_cache) := on_lists (dll_remove x) bc.
Definition add_to_cl_list (x : Z) (bc : block_cache) :=
  on_cl (dll_add (cacheline (bi_pc (info bc x))) x) bc.
Definition raise_in_cl_list (x : Z) (bc : block_cache) :=
  add_to_cl_list x (remove_from_cl_list x bc).
Definition add_to_active_list (x : Z) (bc : block_cache) := on_lists (dll_add active x) bc.
Definition add_to_dormant_list (x : Z) (bc : block_cache) := on_lists (dll_add dormant x) bc.

(** [initialize]: the tags are reset, one by one. *)
Definition initialize (bc : block_cache) : block_cache :=
  on_cl (fun d => Dll (fun cl => if (0 <=? cl) && (cl <? HASH_SIZE) then None else heads d cl)
                    (nexts d) (prevs d)) bc.

(** The loops walk at most as many entries as the allocator has made. *)
Definition walk_fuel (bc : block_cache) : nat := Z.to_nat (brk bc).

Fixpoint release_list (fuel : nat) (p : option Z) (bc : block_cache) : block_cache :=
  match fuel, p with
  | S fuel, Some d => release_list fuel (nexts (bi_lists bc) !! d) (delete_blockinfo d bc)
  | _, _ => bc
  end.

Definition clear (bc : block_cache) : block_cache :=
  let clear_list (w : which) bc :=
    let bc := release_list (walk_fuel bc) (heads (bi_lists bc) w) bc in
    on_lists (set_slot (Head w) None) bc in
  clear_list dormant (clear_list active bc).

(** The body of both loops of [clear_range]. *)
Definition clear_entry (start end_ q : Z) (bc : block_cache) : block_cache :=
  if intersect start end_ (info bc q)
  then delete_blockinfo q (remove_from_list q (remove_from_cl_list q bc))
  else bc.

Fixpoint clear_cl (fuel : nat) (start end_ : Z) (p : option Z) (bc : block_cache) : block_cache :=
  match fuel, p with
  | S fuel, Some q =>
      clear_cl fuel start end_ (nexts (cl_lists bc) !! q) (clear_entry start end_ q bc)
  | _, _ => bc
  end.

Fixpoint clear_active (fuel : nat) (start end_ : Z) (p : option Z) (bc : block_cache)
  : block_cache :=
  match fuel, p with
  | S fuel, Some q =>
      clear_active fuel start end_ (nexts (bi_lists bc) !! q) (clear_entry start end_ q bc)
  | _, _ => bc
  end.

Definition clear_range (start end_ : Z) (bc : block_cache) : block_cache :=
  match heads (bi_lists bc) active with
  | None => bc
  | Some a =>
      let cl0 := cacheline start in
      let end_cl := cacheline (u64 (end_ - 1)) in
      if cl0 <? end_cl then
        foldl (fun bc cl => clear_cl (walk_fuel bc) start end_ (heads (cl_lists bc) cl) bc) bc
          ((fun i => cl0 + i) <$> count_up (Z.to_nat (end_cl - cl0 + 1)))
      else clear_active (walk_fuel bc) start end_ (Some a) bc
  end.

Definition fast_find (pc : Z) (bc : block_cache) : option Z :=
  match heads (cl_lists bc) (cacheline pc) with
  | Some x => if bi_pc (info bc x) =? pc then Some x else None
  | None => None
  end.

(** The search down the chain; the block found is moved to its front. *)
Fixpoint find_loop (fuel : nat) (pc bce : Z) (bc : block_cache) : option Z * block_cache :=
  match fuel with
  | O => (None, bc)
  | S fuel =>
      match nexts (cl_lists bc) !! bce with
      | Some x =>
          if bi_pc (info bc x) =? pc then (Some x, raise_in_cl_list x bc)
          else find_loop fuel pc x bc
      | None => (None, bc)
      end
  end.

Definition find (pc : Z) (bc : block_cache) : option Z * block_cache :=
  match heads (cl_lists bc) (cacheline pc) with
  | Some x =>
      if bi_pc (info bc x) =? pc then (Some x, bc) else find_loop (walk_fuel bc) pc x bc
  | None => (None, bc)
  end.

(** ** The cache invariant *)

(** [CL] and [AL] are the lists behind the pointers.  Every block on the
    active or dormant list is on the chain of its cache line and conversely;
    the free list holds distinct entries that are on no list. *)
Record bc_inv (bc : block_cache) (CL : Z -> list Z) (AL : which -> list Z) : Prop := {
  inv_cl : repr (cl_lists bc) CL;
  inv_al : repr (bi_lists bc) AL;
  inv_hash : forall cl x,
    x ∈ CL cl <-> (exists w, x ∈ AL w) /\ cacheline (bi_pc (info bc x)) = cl;
  inv_free : NoDup (chunks bc);
  inv_free_out : forall x w, x ∈ chunks bc -> x ∉ AL w;
  inv_brk : 0 <= brk bc /\ (forall x, x ∈ chunks bc -> 0 <= x < brk bc) /\
    (forall w x, x ∈ AL w -> 0 <= x < brk bc);
}.

Lemma repr_ext {K} (d : dll K) L L' : (forall k, L k = L' k) -> repr d L -> repr d L'.
Proof.
  intros E (H1 & H2 & H3). split_and!; intros *; rewrite <- ?E; eauto.
Qed.

Lemma filter_true {A} (P : A -> Prop) `{!forall x, Decision (P x)} (l : list A) :
  (forall x, x ∈ l -> P x) -> base.filter P l = l.
Proof.
  induction l as [|x l IH]; intros Hl; [done|].
  rewrite filter_cons_True by (apply Hl; left). f_equal. apply IH. intros. apply Hl. by right.
Qed.

Lemma repr_drop {K} `{EqDecision K} (d : dll K) L k x :
  repr d L -> x ∈ L k -> repr (dll_remove x d) (fun k => base.filter (fun y => y <> x) (L k)).
Proof.
  intros Hr Hx. pose proof Hr as (Hs & Hnd & Hdj).
  destruct (list_elem_of_split _ _ Hx) as (l1 & l2 & E).
  eapply repr_ext; [|by eapply repr_remove].
  intros k'. destruct (decide (k = k')) as [<-|Hne].
  - rewrite fn_lookup_insert, E, filter_app, filter_cons_False by auto.
    specialize (Hnd k). rewrite E in Hnd. apply NoDup_app in Hnd as (_ & Hd & Hn2).
    apply NoDup_cons in Hn2 as [Hn2 _].
    rewrite !filter_true; [done|congruence|]. intros y Hy ->. eapply Hd; [done|left].
  - rewrite fn_lookup_insert_ne by done. symmetry. apply filter_true.
    intros y Hy ->. apply Hne. by apply (Hdj _ _ x).
Qed.

Lemma NoDup_range_length (l : list Z) n :
  NoDup l -> (forall x, x ∈ l -> 0 <= x < n) -> Nat.le (length l) (Z.to_nat n).
Proof.
  intros Hl Hr.
  assert (l ⊆+ count_up (Z.to_nat n)) as Hsub.
  { apply NoDup_submseteq; [done|]. intros x Hx. apply elem_of_count_up.
    specialize (Hr x Hx). lia. }
  apply submseteq_length in Hsub. unfold count_up in Hsub.
  by rewrite length_fmap, length_seq in Hsub.
Qed.

(** The lists are no longer than the fuel of the walks. *)
Lemma cl_length bc CL AL cl : bc_inv bc CL AL -> Nat.le (length (CL cl)) (walk_fuel bc).
Proof.
  intros H. apply NoDup_range_length; [apply (inv_cl _ _ _ H)|].
  intros x [[w Hw] _]%(inv_hash _ _ _ H). by apply (inv_brk _ _ _ H) in Hw.
Qed.

Lemma al_length bc CL AL w : bc_inv bc CL AL -> Nat.le (length (AL w)) (walk_fuel bc).
Proof.
  intros H. apply NoDup_range_length; [apply (inv_al _ _ _ H)|].
  intros x Hw. by apply (inv_brk _ _ _ H) in Hw.
Qed.

Lemma bc_inv_empty : bc_inv bc_empty (fun _ => []) (fun _ => []).
Proof.
  split; cbn; try (by split_and!; intros; try constructor; set_solver); try set_solver.
  - constructor.
Qed.

(** An entry the allocator hands out is on no list. *)
Definition fresh_entry (bc : block_cache) (AL : which -> list Z) (x : Z) : Prop :=
  (forall w, x ∉ AL w) /\ x ∉ chunks bc /\ 0 <= x < brk bc.

Lemma refill_spec bc CL AL c b :
  bc_inv bc CL AL -> refill bc = (c, b) ->
  NoDup c /\ brk bc <= b /\ c <> [] /\
  forall y, y ∈ c -> 0 <= y < b /\ forall w, y ∉ AL w.
Proof.
  intros [H1 H2 H3 H4 H5 (Hb & Hc & Ha)]. unfold refill.
  assert (0 < pool_count)%nat as Hn by (vm_compute; lia). revert Hn. generalize pool_count as n.
  intros n Hn. destruct (chunks bc) as [|c0 c'] eqn:Ec; intros [= <- <-].
  - split_and!.
    + rewrite reverse_Permutation. apply NoDup_fmap_2; [intros ?? ?; lia|].
      apply NoDup_fmap_2; [intros ???; lia|apply NoDup_seq].
    + lia.
    + destruct n as [|n]; [lia|]. intros Hr. apply (f_equal length) in Hr.
      by rewrite length_reverse, length_fmap in Hr.
    + intros y. rewrite elem_of_reverse, list_elem_of_fmap.
      intros (i & -> & Hi%elem_of_count_up). split; [lia|].
      intros w Hw. apply Ha in Hw. lia.
  - split_and!; [done|lia|done|]. intros y Hy. split; [by apply Hc|]. intros w. by apply H5.
Qed.

Lemma new_blockinfo_inv bc CL AL x bc' :
  bc_inv bc CL AL -> new_blockinfo bc = (x, bc') ->
  bc_inv bc' CL AL /\ fresh_entry bc' AL x /\ infos bc' = infos bc.
Proof.
  intros H E. unfold new_blockinfo in E. destruct (refill bc) as [c b] eqn:Er.
  destruct (refill_spec _ _ _ _ _ H Er) as (Hnd & Hb & Hne & Hy).
  destruct H as [H1 H2 H3 H4 H5 (Hb0 & Hc & Ha)].
  destruct c as [|c0 c]; [done|]. injection E as <- <-. cbn.
  apply NoDup_cons in Hnd as [Hc0 Hnd].
  split_and!; [|split_and!; [apply Hy; left|done|apply Hy; left..]|done].
  split; cbn; try done.
  - intros y w Hyc. apply Hy. by right.
  - split_and!; [lia|intros y Hyc; apply Hy; by right|].
    intros w y Hw. apply Ha in Hw. lia.
Qed.

(** The fields of an entry that is on no list are free to change. *)
Lemma set_info_inv bc CL AL x b :
  bc_inv bc CL AL -> fresh_entry bc AL x -> bc_inv (set_info x b bc) CL AL.
Proof.
  intros [H1 H2 H3 H4 H5 H6] (Hf & _). split; try done.
  intros cl y. destruct (decide (y = x)) as [->|Hne].
  - split; [|by intros [[w ?%Hf] _]]. intros Hy. apply H3 in Hy as [[w ?%Hf] _]. done.
  - unfold info, set_info. cbn [infos]. rewrite lookup_insert_ne by done. apply H3.
Qed.

(** ** Insertion *)

Lemma bc_inv_add bc CL AL x w b :
  bc_inv bc CL AL -> fresh_entry bc AL x ->
  let cl := cacheline (bi_pc b) in
  bc_inv (on_lists (dll_add w x) (add_to_cl_list x (set_info x b bc)))
    (<[cl := x :: CL cl]> CL) (<[w := x :: AL w]> AL).
Proof.
  intros [H1 H2 H3 H4 H5 (Hb & Hc & Ha)] (Hf1 & Hf2 & Hf3) cl.
  assert (Hcl : forall k, x ∉ CL k).
  { intros k [[w' Hw] _]%H3. by apply Hf1 in Hw. }
  assert (Hi : forall y, y <> x -> info (set_info x b bc) y = info bc y).
  { intros y Hy. unfold info. cbn. by rewrite lookup_insert_ne. }
  assert (Hx : info (set_info x b bc) x = b) by (unfold info; cbn; by rewrite lookup_insert_eq).
  assert (HA : forall w' y, y ∈ (<[w := x :: AL w]> AL) w' <-> (w' = w /\ y = x) \/ y ∈ AL w').
  { intros w' y. destruct (decide (w = w')) as [<-|]; [rewrite fn_lookup_insert|
      rewrite fn_lookup_insert_ne by done]; set_solver. }
  assert (HC : forall k y, y ∈ (<[cl := x :: CL cl]> CL) k <-> (k = cl /\ y = x) \/ y ∈ CL k).
  { intros k y. destruct (decide (cl = k)) as [<-|]; [rewrite fn_lookup_insert|
      rewrite fn_lookup_insert_ne by done]; set_solver. }
  unfold add_to_cl_list. rewrite Hx. split; cbn; try done.
  - by apply repr_add.
  - by apply repr_add.
  - intros k y. change (info _ y) with (info (set_info x b bc) y). rewrite HC, H3.
    setoid_rewrite HA. destruct (decide (y = x)) as [->|Hne].
    + rewrite Hx. split.
      * intros [[-> _]|[[w' Hw] _]]; [|by apply Hf1 in Hw]. split; [exists w; by left|done].
      * intros [_ <-]. by left.
    + rewrite Hi by done. naive_solver.
  - intros y w' Hy. rewrite HA. intros [[-> ->]|Hw]; [done|by eapply H5].
  - split_and!; [done|done|]. intros w' y. rewrite HA. intros [[-> ->]|Hw]; [done|eauto].
Qed.

(** ** Search *)

(** The chains after [x] was moved to the front of the chain of line [cl]. *)
Definition raised (cl x : Z) (CL : Z -> list Z) : Z -> list Z :=
  <[cl := x :: base.filter (fun y => y <> x) (CL cl)]> CL.

Lemma bc_inv_ext bc CL CL' AL : (forall k, CL k = CL' k) -> bc_inv bc CL AL -> bc_inv bc CL' AL.
Proof.
  intros HE [H1 H2 H3 H4 H5 H6]. split; try done; [by eapply repr_ext|].
  intros cl x. by rewrite <- HE.
Qed.

(** Raising the first block of a chain changes nothing. *)
Lemma raised_head cl x rest CL : CL cl = x :: rest -> NoDup (CL cl) -> forall k, CL k = raised cl x CL k.
Proof.
  intros E Hnd k. unfold raised. destruct (decide (cl = k)) as [<-|]; [|by rewrite fn_lookup_insert_ne].
  rewrite fn_lookup_insert, E. rewrite E in Hnd. apply NoDup_cons in Hnd as [Hx _].
  rewrite filter_cons_False by (by intros []). rewrite filter_true; [done|]. intros y Hy ->. done.
Qed.

Lemma raise_inv bc CL AL cl x :
  bc_inv bc CL AL -> x ∈ CL cl ->
  bc_inv (raise_in_cl_list x bc) (raised cl x CL) AL /\ infos (raise_in_cl_list x bc) = infos bc.
Proof.
  intros [H1 H2 H3 H4 H5 H6] Hx. pose proof (proj1 (H3 cl x) Hx) as [Hw Hcl].
  pose proof (repr_drop _ _ _ _ H1 Hx) as Hr. split; [|done].
  set (CL1 := fun k => base.filter (fun y => y <> x) (CL k)) in Hr.
  assert (HE : forall k, (<[cl := x :: CL1 cl]> CL1) k = raised cl x CL k).
  { intros k. unfold raised, CL1. destruct (decide (cl = k)) as [<-|Hne]; [by rewrite !fn_lookup_insert|].
    rewrite !fn_lookup_insert_ne by done. apply filter_true. intros y Hy ->.
    apply Hne. by apply H3 in Hy as [_ <-]. }
  apply (bc_inv_ext _ _ _ _ HE).
  unfold raise_in_cl_list, add_to_cl_list. change (info (remove_from_cl_list x bc) x) with (info bc x).
  rewrite Hcl. split; cbn; try done.
  - apply repr_add; [done|]. intros k. unfold CL1. rewrite list_elem_of_filter. naive_solver.
  - intros k y. change (info _ y) with (info bc y). rewrite HE, <- H3. unfold raised.
    destruct (decide (cl = k)) as [<-|Hne]; [|by rewrite fn_lookup_insert_ne].
    rewrite fn_lookup_insert, elem_of_cons, list_elem_of_filter.
    destruct (decide (y = x)) as [->|]; naive_solver.
Qed.

(** The chains after [find] looked for [pc] and returned [r]. *)
Definition found_chains (pc : Z) (r : option Z) (CL : Z -> list Z) : Z -> list Z :=
  match r with Some x => raised (cacheline pc) x CL | None => CL end.

Lemma find_loop_spec bc CL AL pc fuel pre x rest :
  bc_inv bc CL AL -> CL (cacheline pc) = pre ++ x :: rest -> Nat.lt (length rest) fuel ->
  Forall (fun y => bi_pc (info bc y) <> pc) (pre ++ [x]) ->
  let (r, bc') := find_loop fuel pc x bc in
  match r with
  | Some y => y ∈ CL (cacheline pc) /\ bi_pc (info bc y) = pc
  | None => Forall (fun y => bi_pc (info bc y) <> pc) (CL (cacheline pc))
  end /\ bc_inv bc' (found_chains pc r CL) AL /\ infos bc' = infos bc.
Proof.
  intros H. revert pre x rest. induction fuel as [|fuel IH]; intros pre x rest E Hf HF; [lia|].
  pose proof (inv_cl _ _ _ H) as (Hs & _). specialize (Hs (cacheline pc)). rewrite E in Hs.
  apply dseg_app in Hs as (_ & _ & _ & _ & Hs). cbn [find_loop].
  destruct rest as [|y rest]; cbn in Hs.
  - rewrite Hs. split; [by rewrite E|done].
  - destruct Hs as (Hn & _). rewrite Hn.
    assert (Hy : y ∈ CL (cacheline pc)) by (rewrite E; set_solver).
    destruct (Z.eqb_spec (bi_pc (info bc y)) pc) as [Hpc|Hpc].
    + split; [done|]. by apply raise_inv.
    + apply (IH (pre ++ [x]) y rest).
      * by rewrite E, <- app_assoc.
      * cbn in Hf. lia.
      * apply Forall_app. split; [done|by constructor].
Qed.

(** What [find] promises, wherever the block is on its chain. *)
Lemma find_spec bc CL AL pc r bc' :
  bc_inv bc CL AL -> find pc bc = (r, bc') ->
  match r with
  | Some x => (exists w, x ∈ AL w) /\ bi_pc (info bc x) = pc
  | None => forall w x, x ∈ AL w -> bi_pc (info bc x) <> pc
  end /\ bc_inv bc' (found_chains pc r CL) AL /\ infos bc' = infos bc.
Proof.
  intros H E.
  assert (Hgen : match r with
    | Some y => y ∈ CL (cacheline pc) /\ bi_pc (info bc y) = pc
    | None => Forall (fun y => bi_pc (info bc y) <> pc) (CL (cacheline pc))
    end /\ bc_inv bc' (found_chains pc r CL) AL /\ infos bc' = infos bc).
  { pose proof (inv_cl _ _ _ H) as (Hs & Hnd & _). specialize (Hs (cacheline pc)).
    pose proof (cl_length _ _ _ (cacheline pc) H) as Hl.
    unfold find in E. destruct (CL (cacheline pc)) as [|x rest] eqn:Ec; cbn in Hs.
    - rewrite Hs in E. injection E as <- <-. split; [constructor|done].
    - destruct Hs as (Hh & _ & _). rewrite Hh in E.
      destruct (Z.eqb_spec (bi_pc (info bc x)) pc) as [Hpc|Hpc].
      + injection E as <- <-. split; [|split; [|done]]. { split; [left|done]. }
        by eapply bc_inv_ext; [eapply raised_head|].
      + rewrite <- Ec. pose proof (find_loop_spec bc CL AL pc (walk_fuel bc) [] x rest H Ec) as Hf.
        rewrite E in Hf. apply Hf; [cbn in Hl; lia|by constructor]. }
  destruct Hgen as [Hr HCL]. split; [|done]. destruct r as [x|].
  - destruct Hr as [Hx Hpc]. split; [|done]. by apply (inv_hash _ _ _ H) in Hx as [? _].
  - intros w x Hx Hpc. rewrite Forall_forall in Hr. apply (Hr x); [|done].
    apply (inv_hash _ _ _ H). split; [by exists w|by rewrite Hpc].
Qed.

(** ** Invalidation *)

(** Unlinking and releasing a cached entry. *)
Lemma kill_inv bc CL AL w x :
  bc_inv bc CL AL -> x ∈ AL w ->
  bc_inv (delete_blockinfo x (remove_from_list x (remove_from_cl_list x bc)))
    (fun k => base.filter (fun y => y <> x) (CL k))
    (fun w => base.filter (fun y => y <> x) (AL w)).
Proof.
  intros [H1 H2 H3 H4 H5 (Hb & Hc & Ha)] Hx.
  assert (Hcl : x ∈ CL (cacheline (bi_pc (info bc x)))) by (apply H3; eauto).
  split; cbn.
  - by eapply repr_drop.
  - by eapply repr_drop.
  - intros cl y. change (info _ y) with (info bc y). setoid_rewrite list_elem_of_filter.
    rewrite H3. naive_solver.
  - constructor; [|done]. intros Hxc. by apply (H5 _ w) in Hxc.
  - intros y w' Hy. rewrite list_elem_of_filter. intros [Hne Hw].
    apply elem_of_cons in Hy as [->|Hy]; [done|]. by apply (H5 _ w') in Hy.
  - split_and!; [done| |].
    + intros y [->|Hy]%elem_of_cons; eauto.
    + intros w' y [_ Hy]%list_elem_of_filter. eauto.
Qed.

Lemma clear_entry_infos start end_ q bc : infos (clear_entry start end_ q bc) = infos bc.
Proof. unfold clear_entry. by destruct (intersect _ _ _). Qed.

Lemma clear_entry_brk start end_ q bc : brk (clear_entry start end_ q bc) = brk bc.
Proof. unfold clear_entry. by destruct (intersect _ _ _). Qed.

(** [AL'] is [AL] without the entries that [dead] names. *)
Definition without (dead : Z -> Prop) (AL AL' : which -> list Z) : Prop :=
  forall w x, x ∈ AL' w <-> x ∈ AL w /\ ~ dead x.

(** The walk down the rest of a chain is the fold of its body over the
    entries it still holds, although the body unlinks and frees entries. *)
Lemma clear_cl_fold start end_ cl fuel rest : forall pre bc CL AL,
  bc_inv bc CL AL -> CL cl = pre ++ rest -> Nat.le (length rest) fuel ->
  clear_cl fuel start end_ (head rest) bc =
    foldl (fun bc q => clear_entry start end_ q bc) bc rest.
Proof.
  revert fuel. induction rest as [|q rest IH]; intros fuel pre bc CL AL H E Hf; [by destruct fuel|].
  destruct fuel as [|fuel]; cbn in Hf; [lia|]. cbn [head clear_cl foldl].
  pose proof (inv_cl _ _ _ H) as (Hs & Hnd & _).
  specialize (Hs cl). specialize (Hnd cl). rewrite E in Hs, Hnd.
  apply dseg_app in Hs as (_ & _ & _ & _ & Hs).
  assert (Hn : nexts (cl_lists bc) !! q = head rest) by (destruct rest; apply Hs).
  rewrite Hn. unfold clear_entry at 1 3. destruct (intersect start end_ (info bc q)).
  - assert (Hq : exists w, q ∈ AL w).
    { apply (inv_hash _ _ _ H cl). rewrite E. set_solver. }
    destruct Hq as [w Hq]. eapply (IH fuel (base.filter (fun y => y <> q) pre));
      [by eapply kill_inv| |lia].
    cbn beta. rewrite E, filter_app, filter_cons_False by auto.
    rewrite (filter_true _ rest); [done|]. intros y Hy ->.
    apply NoDup_app in Hnd as (_ & _ & Hnd). by apply NoDup_cons in Hnd as [? _].
  - eapply (IH fuel (pre ++ [q])); [done| |lia]. by rewrite <- app_assoc.
Qed.

Lemma clear_active_fold start end_ fuel rest : forall pre bc CL AL,
  bc_inv bc CL AL -> AL active = pre ++ rest -> Nat.le (length rest) fuel ->
  clear_active fuel start end_ (head rest) bc =
    foldl (fun bc q => clear_entry start end_ q bc) bc rest.
Proof.
  revert fuel. induction rest as [|q rest IH]; intros fuel pre bc CL AL H E Hf; [by destruct fuel|].
  destruct fuel as [|fuel]; cbn in Hf; [lia|]. cbn [head clear_active foldl].
  pose proof (inv_al _ _ _ H) as (Hs & Hnd & _).
  specialize (Hs active). specialize (Hnd active). rewrite E in Hs, Hnd.
  apply dseg_app in Hs as (_ & _ & _ & _ & Hs).
  assert (Hn : nexts (bi_lists bc) !! q = head rest) by (destruct rest; apply Hs).
  rewrite Hn. unfold clear_entry at 1 3. destruct (intersect start end_ (info bc q)).
  - eapply (IH fuel (base.filter (fun y => y <> q) pre)).
    + eapply (kill_inv _ _ _ active); [done|]. rewrite E. set_solver.
    + cbn beta. rewrite E, filter_app, filter_cons_False by auto.
      rewrite (filter_true _ rest); [done|]. intros y Hy ->.
      apply NoDup_app in Hnd as (_ & _ & Hnd). by apply NoDup_cons in Hnd as [? _].
    + lia.
  - eapply (IH fuel (pre ++ [q])); [done| |lia]. by rewrite <- app_assoc.
Qed.

(** The fold removes the entries that intersect the range, and only them. *)
Lemma clear_fold_inv start end_ l : forall bc CL AL,
  bc_inv bc CL AL -> NoDup l -> (forall q, q ∈ l -> exists w, q ∈ AL w) ->
  let bc' := foldl (fun bc q => clear_entry start end_ q bc) bc l in
  infos bc' = infos bc /\ brk bc' = brk bc /\
  exists CL' AL', bc_inv bc' CL' AL' /\
    without (fun x => x ∈ l /\ intersect start end_ (info bc x) = true) AL AL'.
Proof.
  induction l as [|q l IH]; intros bc CL AL H Hnd Hl; cbn.
  { split_and!; [done..|]. exists CL, AL. split; [done|]. intros w x. set_solver. }
  apply NoDup_cons in Hnd as [Hq Hnd].
  assert (Hstep : exists CL1 AL1, bc_inv (clear_entry start end_ q bc) CL1 AL1 /\
    without (fun x => x = q /\ intersect start end_ (info bc x) = true) AL AL1).
  { unfold clear_entry. destruct (intersect start end_ (info bc q)) eqn:Ei.
    - destruct (Hl q ltac:(left)) as [w Hw]. eexists _, _. split; [by eapply kill_inv|].
      intros w' x. rewrite list_elem_of_filter. split.
      + intros [? ?]. split; [done|]. by intros [? _].
      + intros [? Hx]. split; [|done]. intros ->. by apply Hx.
    - exists CL, AL. split; [done|]. intros w' x. split; [|by intros [? _]].
      intros Hx. split; [done|]. intros [-> ?]. congruence. }
  destruct Hstep as (CL1 & AL1 & H1 & HA1).
  destruct (IH _ _ _ H1 Hnd) as (Hi & Hb & CL2 & AL2 & H2 & HA2).
  { intros y Hy. destruct (Hl y ltac:(by right)) as [w Hw]. exists w. apply HA1.
    split; [done|]. intros [-> _]. done. }
  rewrite clear_entry_infos in Hi. rewrite clear_entry_brk in Hb.
  split_and!; [done..|]. exists CL2, AL2. split; [done|].
  intros w x. rewrite (HA2 w x), (HA1 w x).
  unfold info. rewrite clear_entry_infos. rewrite elem_of_cons. naive_solver.
Qed.

(** The entries [clear_range] looks at: those of the cache lines between the
    lines of the two ends when these are in order, and all the active ones
    otherwise. *)
Definition scanned (bc : block_cache) (AL : which -> list Z) (start end_ x : Z) : Prop :=
  if cacheline start <? cacheline (u64 (end_ - 1))
  then cacheline start <= cacheline (bi_pc (info bc x)) <= cacheline (u64 (end_ - 1))
  else x ∈ AL active.

Lemma clear_lines_inv start end_ cls : forall bc CL AL,
  bc_inv bc CL AL ->
  let bc' := foldl (fun bc cl => clear_cl (walk_fuel bc) start end_ (heads (cl_lists bc) cl) bc)
    bc cls in
  infos bc' = infos bc /\ exists CL' AL', bc_inv bc' CL' AL' /\
    without (fun x => cacheline (bi_pc (info bc x)) ∈ cls /\
      intersect start end_ (info bc x) = true) AL AL'.
Proof.
  induction cls as [|cl cls IH]; intros bc CL AL H; cbn.
  { split; [done|]. exists CL, AL. split; [done|]. intros w x. set_solver. }
  pose proof (inv_cl _ _ _ H) as (Hs & Hnd & _). specialize (Hs cl). specialize (Hnd cl).
  assert (Hh : heads (cl_lists bc) cl = head (CL cl)) by (destruct (CL cl); apply Hs).
  rewrite Hh, (clear_cl_fold _ _ cl _ (CL cl) [] _ CL AL) by
    (done || by eapply cl_length).
  destruct (clear_fold_inv start end_ (CL cl) bc CL AL H Hnd) as (Hi & _ & CL1 & AL1 & H1 & HA1).
  { intros q Hq. by apply (inv_hash _ _ _ H) in Hq as [? _]. }
  destruct (IH _ _ _ H1) as (Hi2 & CL2 & AL2 & H2 & HA2).
  split; [congruence|]. exists CL2, AL2. split; [done|].
  intros w x. rewrite (HA2 w x), (HA1 w x). unfold info in *. rewrite Hi. rewrite elem_of_cons.
  pose proof (inv_hash _ _ _ H cl x) as Hx. unfold info in Hx. naive_solver.
Qed.

Lemma clear_range_spec bc CL AL start end_ :
  bc_inv bc CL AL -> (AL active = [] -> AL dormant = []) ->
  let bc' := clear_range start end_ bc in
  infos bc' = infos bc /\ exists CL' AL', bc_inv bc' CL' AL' /\
    without (fun x => scanned bc AL start end_ x /\ intersect start end_ (info bc x) = true) AL AL'.
Proof.
  intros H Hdor. pose proof (inv_al _ _ _ H) as (Hs & Hnd & _).
  specialize (Hs active). specialize (Hnd active). unfold clear_range, scanned.
  destruct (AL active) as [|a act] eqn:Ea; cbn in Hs.
  { rewrite Hs. split; [done|]. exists CL, AL. split; [done|].
    specialize (Hdor eq_refl). intros [] x; rewrite ?Ea, ?Hdor; split; try tauto;
      by intros ?%elem_of_nil. }
  destruct Hs as (Hh & _ & _). rewrite Hh.
  destruct (Z.ltb_spec (cacheline start) (cacheline (u64 (end_ - 1)))) as [Hlt|Hge].
  - destruct (clear_lines_inv start end_ ((fun i => cacheline start + i) <$>
      count_up (Z.to_nat (cacheline (u64 (end_ - 1)) - cacheline start + 1))) bc CL AL H)
      as (Hi & CL' & AL' & H' & HA').
    split; [done|]. exists CL', AL'. split; [done|].
    intros w x. rewrite (HA' w x). rewrite list_elem_of_fmap.
    setoid_rewrite elem_of_count_up. split; intros [Hx Hd]; (split; [done|]); intros [Hc Hi'];
      apply Hd; (split; [|done]).
    + exists (cacheline (bi_pc (info bc x)) - cacheline start). split; lia.
    + destruct Hc as (i & -> & Hc). lia.
  - assert (Hfold : clear_active (walk_fuel bc) start end_ (Some a) bc =
      foldl (fun bc q => clear_entry start end_ q bc) bc (a :: act)).
    { eapply (clear_active_fold _ _ _ (a :: act) []); [done|by rewrite Ea|].
      rewrite <- Ea. by eapply al_length. }
    rewrite Hfold.
    destruct (clear_fold_inv start end_ (a :: act) bc CL AL H Hnd) as (Hi & _ & CL' & AL' & H' & HA').
    { intros q Hq. exists active. by rewrite Ea. }
    split; [done|]. exists CL', AL'. by split.
Qed.

Lemma release_list_spec l : forall fuel p bc,
  dseg (bi_lists bc) p l -> Nat.le (length l) fuel ->
  release_list fuel (slot (bi_lists bc) p) bc =
    BC (infos bc) (cl_lists bc) (bi_lists bc) (reverse l ++ chunks bc) (brk bc).
Proof.
  induction l as [|x l IH]; intros fuel p bc Hs Hf; cbn [dseg] in Hs.
  - rewrite Hs. by destruct fuel, bc.
  - destruct Hs as (Hp & _ & Hs). rewrite Hp. destruct fuel as [|fuel]; cbn in Hf; [lia|].
    cbn [release_list].
    change (nexts (bi_lists bc) !! x) with (slot (bi_lists (delete_blockinfo x bc)) (Next x)).
    rewrite (IH fuel (Next x) (delete_blockinfo x bc)) by (done || lia).
    unfold delete_blockinfo. cbn [infos cl_lists bi_lists chunks brk].
    by rewrite reverse_cons, <- (assoc_L (++)).
Qed.

(** Emptying one of the two lists. *)
Lemma repr_clear {K} `{EqDecision K} (d : dll K) L k :
  repr d L -> repr (set_slot (Head k) None d) (<[k := []]> L).
Proof.
  intros (Hs & Hnd & Hdj).
  assert (HL : forall k' x, x ∈ (<[k := []]> L) k' -> x ∈ L k').
  { intros k' x. destruct (decide (k = k')) as [<-|];
      [by rewrite fn_lookup_insert, elem_of_nil|by rewrite fn_lookup_insert_ne]. }
  split_and!.
  - intros k'. destruct (decide (k = k')) as [<-|Hne].
    + rewrite fn_lookup_insert. cbn. apply fn_lookup_insert.
    + rewrite fn_lookup_insert_ne by done. eapply dseg_frame; [..|apply Hs].
      * apply slot_set_slot_ne. congruence.
      * done.
  - intros k'. destruct (decide (k = k')) as [<-|];
      [rewrite fn_lookup_insert; constructor|by rewrite fn_lookup_insert_ne].
  - intros k1 k2 x H1 H2. eauto.
Qed.

Lemma cacheline_range a : 0 <= cacheline a < HASH_SIZE.
Proof.
  unfold cacheline. change HASH_MASK with (Z.ones 15). rewrite Z.land_ones by lia.
  apply Z.mod_pos_bound. done.
Qed.

(** [invalidate_cache] empties the cache: no block is left and every entry is
    free again. *)
Lemma clear_initialize_inv bc CL AL :
  bc_inv bc CL AL -> bc_inv (initialize (clear bc)) (fun _ => []) (fun _ => []) /\
  infos (initialize (clear bc)) = infos bc /\
  forall x, fresh_entry bc AL x -> fresh_entry (initialize (clear bc)) (fun _ => []) x.
Proof.
  intros H. pose proof (al_length _ _ _ active H) as La.
  pose proof (al_length _ _ _ dormant H) as Ld.
  destruct H as [H1 H2 H3 H4 H5 (Hb & Hc & Ha)].
  pose proof H2 as (Hs & Hnd & Hdj).
  assert (Ea : release_list (walk_fuel bc) (heads (bi_lists bc) active) bc =
    BC (infos bc) (cl_lists bc) (bi_lists bc) (reverse (AL active) ++ chunks bc) (brk bc))
    by (apply (release_list_spec _ _ (Head active)); done).
  pose proof (repr_clear _ _ active H2) as H2a. pose proof (proj1 H2a dormant) as Hsd.
  set (bc1 := on_lists (set_slot (Head active) None) (BC (infos bc) (cl_lists bc) (bi_lists bc)
    (reverse (AL active) ++ chunks bc) (brk bc))).
  pose proof (release_list_spec (AL dormant) (walk_fuel bc1) (Head dormant) bc1 Hsd Ld) as Ed.
  unfold clear. rewrite Ea. fold bc1. cbn [slot] in Ed.
  rewrite Ed. split; [|split; [done|]; intros x (Hx1 & Hx2 & Hx3); split_and!; cbn; set_solver].
  split; cbn.
  - split_and!; [|intros; constructor|intros; set_solver]. intros cl. cbn.
    destruct (Z.leb_spec 0 cl), (Z.ltb_spec cl HASH_SIZE); cbn; try done;
      (destruct (CL cl) as [|x l] eqn:Ec;
        [pose proof (proj1 H1 cl) as Hcl; by rewrite Ec in Hcl|];
       assert (Hx : x ∈ CL cl) by (rewrite Ec; left); apply H3 in Hx as [_ Hx];
       pose proof (cacheline_range (bi_pc (info bc x))); lia).
  - apply (repr_ext _ (<[dormant := []]> (<[active := []]> AL))).
    + by intros [].
    + exact (repr_clear _ _ dormant H2a).
  - set_solver.
  - apply NoDup_app. split_and!; [by rewrite reverse_Permutation| |
      apply NoDup_app; split_and!; [by rewrite reverse_Permutation| |done]].
    + intros x. rewrite elem_of_reverse, elem_of_app, elem_of_reverse. intros Hd [Hx|Hx].
      * by specialize (Hdj _ _ _ Hd Hx).
      * by apply (H5 _ dormant) in Hx.
    + intros x. rewrite elem_of_reverse. intros Hx Hf. by apply (H5 _ active) in Hf.
  - set_solver.
  - split_and!; [done| |set_solver]. intros x. rewrite !elem_of_app, !elem_of_reverse. naive_solver.
Qed.

(** ** Properties *)

(** C12: The search is right wherever the block is: [find] returns a cached
    block that starts at [pc] when there is one and none otherwise.  The block
    it found is now the first of its chain, the other blocks of the chain and
    every other chain keep their order, and a search that finds nothing leaves
    all the chains; the pointer structure stays well formed, and the lists of
    cached blocks and the blocks themselves are those of before. *)
Theorem find_correct bc CL AL pc r bc' :
  bc_inv bc CL AL -> find pc bc = (r, bc') ->
  infos bc' = infos bc /\
  match r with
  | Some x => (exists w, x ∈ AL w) /\ bi_pc (info bc x) = pc /\
      bc_inv bc' (<[cacheline pc := x :: base.filter (fun y => y <> x) (CL (cacheline pc))]> CL) AL /\
      heads (cl_lists bc') (cacheline pc) = Some x
  | None => (forall w x, x ∈ AL w -> bi_pc (info bc x) <> pc) /\ bc_inv bc' CL AL
  end.
Proof.
  intros H E. destruct (find_spec _ _ _ _ _ _ H E) as (Hr & H' & Hi). split; [done|].
  destruct r as [x|]; [|by split]. destruct Hr as [Hw Hpc]. split_and!; [done..|].
  destruct (inv_cl _ _ _ H') as (Hs & _). specialize (Hs (cacheline pc)).
  cbn [found_chains] in Hs. unfold raised in Hs. rewrite fn_lookup_insert in Hs. apply Hs.
Qed.

(** A cache with two blocks on one chain. *)
Definition two_blocks : block_cache :=
  let (x, bc) := new_blockinfo bc_empty in
  let bc := add_to_active_list x (add_to_cl_list x
    (set_info x (BI 0x1000 0x1010 5 (Some 0) 0x1000 0x1010) bc)) in
  let (y, bc) := new_blockinfo bc in
  add_to_active_list y (add_to_cl_list y
    (set_info y (BI 0x21000 0x21004 2 (Some 5) 0x21000 0x21004) bc)).

Lemma two_blocks_inv : exists CL AL,
  bc_inv two_blocks CL AL /\ AL active = [24; 25] /\ AL dormant = [].
Proof.
  unfold two_blocks. destruct (new_blockinfo bc_empty) as [x bc] eqn:E1.
  destruct (new_blockinfo_inv _ _ _ _ _ bc_inv_empty E1) as (H1 & F1 & _).
  assert (x = 25) as -> by (by vm_compute in E1; injection E1 as <- _).
  pose proof (bc_inv_add _ _ _ _ active (BI 0x1000 0x1010 5 (Some 0) 0x1000 0x1010) H1 F1) as H2.
  match goal with |- context [new_blockinfo ?b] => destruct (new_blockinfo b) as [y bc2] eqn:E2 end.
  destruct (new_blockinfo_inv _ _ _ _ _ H2 E2) as (H3 & F3 & _).
  assert (y = 24) as ->.
  { vm_compute in E1. injection E1 as <-. by vm_compute in E2; injection E2 as <- _. }
  pose proof (bc_inv_add _ _ _ _ active (BI 0x21000 0x21004 2 (Some 5) 0x21000 0x21004) H3 F3) as H4.
  eexists _, _. split; [exact H4|]. done.
Qed.

Lemma find_correct_witness :
  exists bc', find 0x1000 two_blocks = (Some 25, bc') /\ bi_pc (info two_blocks 25) = 0x1000 /\
    heads (cl_lists two_blocks) 0x400 = Some 24 /\ heads (cl_lists bc') 0x400 = Some 25.
Proof.
  destruct two_blocks_inv as (CL & AL & H & _).
  destruct (find 0x1000 two_blocks) as [r bc'] eqn:E.
  assert (Hr : r = Some 25) by (vm_compute in E; by injection E as <- _). subst r.
  exists bc'. destruct (find_correct _ _ _ _ _ _ H E) as (_ & _ & Hx & _ & Hh).
  split_and!; [done|exact Hx|by vm_compute|exact Hh].
Defined.

(** A block just linked is at the front of its chain. *)
Lemma find_added bc CL AL x w b :
  bc_inv bc CL AL -> fresh_entry bc AL x ->
  let bc' := on_lists (dll_add w x) (add_to_cl_list x (set_info x b bc)) in
  info bc' x = b /\ find (bi_pc b) bc' = (Some x, bc').
Proof.
  intros H F bc'. pose proof (bc_inv_add _ _ _ _ w b H F) as H2.
  assert (Hi : info bc' x = b) by (unfold info; cbn; by rewrite lookup_insert_eq).
  split; [done|]. pose proof (inv_cl _ _ _ H2) as (Hs & _). specialize (Hs (cacheline (bi_pc b))).
  rewrite fn_lookup_insert in Hs. destruct Hs as (Hh & _). cbn [slot] in Hh.
  unfold find. change (on_lists _ _) with bc' in Hh. rewrite Hh, Hi, Z.eqb_refl. done.
Qed.

(** A block that is allocated, filled in and linked on its chain and on
    the active list, as [execute] does after predecoding, is found again by
    its address, and the other blocks stay cached. *)
Theorem insert_then_find bc CL AL x bc1 b :
  bc_inv bc CL AL -> new_blockinfo bc = (x, bc1) ->
  let bc2 := add_to_active_list x (add_to_cl_list x (set_info x b bc1)) in
  fst (find (bi_pc b) bc2) = Some x /\
  exists CL' AL', bc_inv bc2 CL' AL' /\ AL' active = x :: AL active /\ AL' dormant = AL dormant.
Proof.
  intros H E bc2. destruct (new_blockinfo_inv _ _ _ _ _ H E) as (H1 & F1 & _).
  split; [|eexists _, _; split; [exact (bc_inv_add _ _ _ _ active b H1 F1)|done]].
  destruct (find_added _ _ _ _ active b H1 F1) as [_ Hf]. unfold bc2, add_to_active_list. by rewrite Hf.
Qed.

Lemma insert_then_find_witness :
  let (x, bc1) := new_blockinfo two_blocks in
  fst (find 0x41000 (add_to_active_list x (add_to_cl_list x
    (set_info x (BI 0x41000 0x41000 1 (Some 7) 0x41000 0x41000) bc1)))) = Some x.
Proof.
  destruct two_blocks_inv as (CL & AL & H & _).
  destruct (new_blockinfo two_blocks) as [x bc1] eqn:E.
  destruct (insert_then_find _ _ _ _ _ (BI 0x41000 0x41000 1 (Some 7) 0x41000 0x41000) H E)
    as [Hf _]. exact Hf.
Defined.

(** C13: [clear_range] removes exactly the blocks it scans whose bounds
    intersect the range, unlinking and freeing entries while it walks the
    chains; the pointer structure stays well formed and the other blocks stay
    cached. *)
Theorem clear_range_exact bc CL AL start end_ :
  bc_inv bc CL AL -> AL dormant = [] ->
  let bc' := clear_range start end_ bc in
  infos bc' = infos bc /\ exists CL' AL', bc_inv bc' CL' AL' /\
    forall w x, x ∈ AL' w <->
      x ∈ AL w /\ ~ (scanned bc AL start end_ x /\ intersect start end_ (info bc x) = true).
Proof. intros H Hd. exact (clear_range_spec bc CL AL start end_ H (fun _ => Hd)). Qed.

Lemma clear_range_exact_witness :
  fst (find 0x1000 (clear_range 0x0ff0 0x1004 two_blocks)) = None /\
  fst (find 0x21000 (clear_range 0x0ff0 0x1004 two_blocks)) = Some 24 /\
  infos (clear_range 0x0ff0 0x1004 two_blocks) = infos two_blocks.
Proof.
  split_and!; [by vm_compute..|]. destruct two_blocks_inv as (CL & AL & H & _ & Hd).
  destruct (clear_range_exact _ _ _ 0x0ff0 0x1004 H Hd) as [Hi _]. exact Hi.
Defined.

(** The intersection test only looks at the two ends of a block, so a
    block that encloses the invalidated range is never removed, whichever
    path [clear_range] takes: code modified in the middle of a long block
    keeps running in its old version. *)
Theorem clear_range_keeps_enclosing_block bc CL AL start end_ w x :
  bc_inv bc CL AL -> AL dormant = [] -> x ∈ AL w ->
  bi_min_pc (info bc x) < start -> end_ <= bi_max_pc (info bc x) -> start <= end_ ->
  exists CL' AL', bc_inv (clear_range start end_ bc) CL' AL' /\ x ∈ AL' w.
Proof.
  intros H Hd Hx Hmin Hmax Hse.
  destruct (clear_range_spec bc CL AL start end_ H (fun _ => Hd)) as (_ & CL' & AL' & H' & HA).
  exists CL', AL'. split; [done|]. apply HA. split; [done|]. intros [_ Hi].
  unfold intersect in Hi. lia.
Qed.

Lemma clear_range_keeps_enclosing_block_witness :
  fst (find 0x1000 (clear_range 0x1004 0x1008 two_blocks)) = Some 25 /\
  exists CL' AL', bc_inv (clear_range 0x1004 0x1008 two_blocks) CL' AL' /\ 25 ∈ AL' active.
Proof.
  split; [by vm_compute|]. destruct two_blocks_inv as (CL & AL & H & Ha & Hd).
  apply (clear_range_keeps_enclosing_block two_blocks CL AL 0x1004 0x1008 active 25); try done.
  rewrite Ha. set_solver.
Defined.
