(* ===== verification/Cpu.v ===== *)
(** The CPU state and the operations on it (kpx_cpu/src/cpu/ppc/ppc-cpu.hpp,
    ppc-cpu.cpp, ppc-registers.hpp).

    [powerpc_cpu] is the object of the class of that name, together with the
    memory the emulator shares with the emulated program and the host's
    rounding mode.  The rest of SheepShaver that the handlers call into is the
    interface [Host]. *)
From S2P Require Import Prelude Bitfields Registers HostFPU Operations Memory Handlers BlockCache.

(** ** Registers ([struct powerpc_registers]) *)

Record registers := Regs {
  r_gpr : list Z;
  r_fpr : list Z;
  r_vr : list Z;
  r_cr : Z;
  r_xer : xer_register;
  r_vscr : Z;
  r_vrsave : Z;
  r_fpscr : Z;
  r_lr : Z;
  r_ctr : Z;
  r_pc : Z;
  r_spcflags : Z;
  r_reserve_valid : Z;
  r_reserve_addr : Z;
}.

(** An entry of the decode cache ([struct decode_info]). *)
Record decode_info := DI { di_execute : handler; di_opcode : Z }.

(** The static state of the code around the CPU: the two ends of the area that
    is shared with Mac OS ([SheepMem::data] and [SheepMem::proc]) and the static
    procedure of [HandleInterrupt], 0 until it is built. *)
Record sheep_mem := Sheep { sheep_data : Z; sheep_proc : Z; irq_proc : Z }.

Record powerpc_cpu := Cpu {
  regs : registers;
  mem : memory;
  cache_range_start : Z;
  cache_range_end : Z;
  fe_round : fe_mode;
  my_block_cache : block_cache;
  decode_cache : gmap Z decode_info;
  decode_cache_p : Z;
  execute_depth : Z;
  processing_interrupt : bool;
  clock : Z;      (* number of readings of the host's clock so far *)
  sheep : sheep_mem;
}.

(** ** Accessors *)

Definition gpr (c : powerpc_cpu) (i : Z) : Z := Zlookup (r_gpr (regs c)) i.
Definition fpr_dw (c : powerpc_cpu) (i : Z) : Z := Zlookup (r_fpr (regs c)) i.
Definition vr (c : powerpc_cpu) (i : Z) : Z := Zlookup (r_vr (regs c)) i.
Definition cr c := r_cr (regs c).
Definition xer c := r_xer (regs c).
Definition vscr c := r_vscr (regs c).
Definition vrsave c := r_vrsave (regs c).
Definition fpscr c := r_fpscr (regs c).
Definition lr c := r_lr (regs c).
Definition ctr c := r_ctr (regs c).
Definition pc c := r_pc (regs c).
Definition spcflags c := r_spcflags (regs c).

Definition with_regs (f : registers -> registers) (c : powerpc_cpu) : powerpc_cpu :=
  Cpu (f (regs c)) (mem c) (cache_range_start c) (cache_range_end c) (fe_round c)
    (my_block_cache c) (decode_cache c) (decode_cache_p c) (execute_depth c)
    (processing_interrupt c) (clock c) (sheep c).

Definition set_gpr (i v : Z) : powerpc_cpu -> powerpc_cpu := with_regs (fun r =>
  Regs (Zinsert i v (r_gpr r)) (r_fpr r) (r_vr r) (r_cr r) (r_xer r) (r_vscr r) (r_vrsave r)
    (r_fpscr r) (r_lr r) (r_ctr r) (r_pc r) (r_spcflags r) (r_reserve_valid r) (r_reserve_addr r)).
Definition set_fpr_dw (i v : Z) : powerpc_cpu -> powerpc_cpu := with_regs (fun r =>
  Regs (r_gpr r) (Zinsert i v (r_fpr r)) (r_vr r) (r_cr r) (r_xer r) (r_vscr r) (r_vrsave r)
    (r_fpscr r) (r_lr r) (r_ctr r) (r_pc r) (r_spcflags r) (r_reserve_valid r) (r_reserve_addr r)).
Definition set_vr (i v : Z) : powerpc_cpu -> powerpc_cpu := with_regs (fun r =>
  Regs (r_gpr r) (r_fpr r) (Zinsert i v (r_vr r)) (r_cr r) (r_xer r) (r_vscr r) (r_vrsave r)
    (r_fpscr r) (r_lr r) (r_ctr r) (r_pc r) (r_spcflags r) (r_reserve_valid r) (r_reserve_addr r)).
Definition set_cr (v : Z) : powerpc_cpu -> powerpc_cpu := with_regs (fun r =>
  Regs (r_gpr r) (r_fpr r) (r_vr r) v (r_xer r) (r_vscr r) (r_vrsave r)
    (r_fpscr r) (r_lr r) (r_ctr r) (r_pc r) (r_spcflags r) (r_reserve_valid r) (r_reserve_addr r)).
Definition set_xer (v : xer_register) : powerpc_cpu -> powerpc_cpu := with_regs (fun r =>
  Regs (r_gpr r) (r_fpr r) (r_vr r) (r_cr r) v (r_vscr r) (r_vrsave r)
    (r_fpscr r) (r_lr r) (r_ctr r) (r_pc r) (r_spcflags r) (r_reserve_valid r) (r_reserve_addr r)).
Definition set_vscr (v : Z) : powerpc_cpu -> powerpc_cpu := with_regs (fun r =>
  Regs (r_gpr r) (r_fpr r) (r_vr r) (r_cr r) (r_xer r) v (r_vrsave r)
    (r_fpscr r) (r_lr r) (r_ctr r) (r_pc r) (r_spcflags r) (r_reserve_valid r) (r_reserve_addr r)).
Definition set_vrsave (v : Z) : powerpc_cpu -> powerpc_cpu := with_regs (fun r =>
  Regs (r_gpr r) (r_fpr r) (r_vr r) (r_cr r) (r_xer r) (r_vscr r) v
    (r_fpscr r) (r_lr r) (r_ctr r) (r_pc r) (r_spcflags r) (r_reserve_valid r) (r_reserve_addr r)).
Definition set_fpscr (v : Z) : powerpc_cpu -> powerpc_cpu := with_regs (fun r =>
  Regs (r_gpr r) (r_fpr r) (r_vr r) (r_cr r) (r_xer r) (r_vscr r) (r_vrsave r)
    v (r_lr r) (r_ctr r) (r_pc r) (r_spcflags r) (r_reserve_valid r) (r_reserve_addr r)).
Definition set_lr (v : Z) : powerpc_cpu -> powerpc_cpu := with_regs (fun r =>
  Regs (r_gpr r) (r_fpr r) (r_vr r) (r_cr r) (r_xer r) (r_vscr r) (r_vrsave r)
    (r_fpscr r) v (r_ctr r) (r_pc r) (r_spcflags r) (r_reserve_valid r) (r_reserve_addr r)).
Definition set_ctr (v : Z) : powerpc_cpu -> powerpc_cpu := with_regs (fun r =>
  Regs (r_gpr r) (r_fpr r) (r_vr r) (r_cr r) (r_xer r) (r_vscr r) (r_vrsave r)
    (r_fpscr r) (r_lr r) v (r_pc r) (r_spcflags r) (r_reserve_valid r) (r_reserve_addr r)).
Definition set_pc (v : Z) : powerpc_cpu -> powerpc_cpu := with_regs (fun r =>
  Regs (r_gpr r) (r_fpr r) (r_vr r) (r_cr r) (r_xer r) (r_vscr r) (r_vrsave r)
    (r_fpscr r) (r_lr r) (r_ctr r) v (r_spcflags r) (r_reserve_valid r) (r_reserve_addr r)).
Definition set_spcflags (v : Z) : powerpc_cpu -> powerpc_cpu := with_regs (fun r =>
  Regs (r_gpr r) (r_fpr r) (r_vr r) (r_cr r) (r_xer r) (r_vscr r) (r_vrsave r)
    (r_fpscr r) (r_lr r) (r_ctr r) (r_pc r) v (r_reserve_valid r) (r_reserve_addr r)).
Definition set_reserve (valid addr : Z) : powerpc_cpu -> powerpc_cpu := with_regs (fun r =>
  Regs (r_gpr r) (r_fpr r) (r_vr r) (r_cr r) (r_xer r) (r_vscr r) (r_vrsave r)
    (r_fpscr r) (r_lr r) (r_ctr r) (r_pc r) (r_spcflags r) valid addr).

Definition set_mem (m : memory) (c : powerpc_cpu) : powerpc_cpu :=
  Cpu (regs c) m (cache_range_start c) (cache_range_end c) (fe_round c)
    (my_block_cache c) (decode_cache c) (decode_cache_p c) (execute_depth c)
    (processing_interrupt c) (clock c) (sheep c).
Definition set_cache_range (start end_ : Z) (c : powerpc_cpu) : powerpc_cpu :=
  Cpu (regs c) (mem c) start end_ (fe_round c)
    (my_block_cache c) (decode_cache c) (decode_cache_p c) (execute_depth c)
    (processing_interrupt c) (clock c) (sheep c).
Definition fesetround (m : fe_mode) (c : powerpc_cpu) : powerpc_cpu :=
  Cpu (regs c) (mem c) (cache_range_start c) (cache_range_end c) m
    (my_block_cache c) (decode_cache c) (decode_cache_p c) (execute_depth c)
    (processing_interrupt c) (clock c) (sheep c).
Definition set_block_cache (b : block_cache) (c : powerpc_cpu) : powerpc_cpu :=
  Cpu (regs c) (mem c) (cache_range_start c) (cache_range_end c) (fe_round c)
    b (decode_cache c) (decode_cache_p c) (execute_depth c)
    (processing_interrupt c) (clock c) (sheep c).
Definition set_decode_cache (d : gmap Z decode_info) (p : Z) (c : powerpc_cpu) : powerpc_cpu :=
  Cpu (regs c) (mem c) (cache_range_start c) (cache_range_end c) (fe_round c)
    (my_block_cache c) d p (execute_depth c)
    (processing_interrupt c) (clock c) (sheep c).
Definition set_execute_depth (n : Z) (c : powerpc_cpu) : powerpc_cpu :=
  Cpu (regs c) (mem c) (cache_range_start c) (cache_range_end c) (fe_round c)
    (my_block_cache c) (decode_cache c) (decode_cache_p c) n
    (processing_interrupt c) (clock c) (sheep c).
Definition set_processing_interrupt (b : bool) (c : powerpc_cpu) : powerpc_cpu :=
  Cpu (regs c) (mem c) (cache_range_start c) (cache_range_end c) (fe_round c)
    (my_block_cache c) (decode_cache c) (decode_cache_p c) (execute_depth c)
    b (clock c) (sheep c).
Definition tick (c : powerpc_cpu) : powerpc_cpu :=
  Cpu (regs c) (mem c) (cache_range_start c) (cache_range_end c) (fe_round c)
    (my_block_cache c) (decode_cache c) (decode_cache_p c) (execute_depth c)
    (processing_interrupt c) (clock c + 1) (sheep c).
Definition set_sheep (s : sheep_mem) (c : powerpc_cpu) : powerpc_cpu :=
  Cpu (regs c) (mem c) (cache_range_start c) (cache_range_end c) (fe_round c)
    (my_block_cache c) (decode_cache c) (decode_cache_p c) (execute_depth c)
    (processing_interrupt c) (clock c) s.

(** Memory accesses of a handler, on the memory of the CPU. *)
Definition cpu_read {A} (f : memory -> outcome A) (c : powerpc_cpu) : outcome A := f (mem c).
Definition cpu_write (f : memory -> outcome memory) (c : powerpc_cpu) : outcome powerpc_cpu :=
  m ← f (mem c); Ok (set_mem m c).

Definition increment_pc (o : Z) (c : powerpc_cpu) : powerpc_cpu := set_pc (u32 (pc c + o)) c.

(** ** Condition codes *)

Definition record_cr (crfd value : Z) (c : powerpc_cpu) : powerpc_cpu :=
  let c := set_cr (cr_compute crfd value (cr c)) c in
  set_cr (cr_set_so crfd (Zb (xer_so (xer c))) (cr c)) c.

Definition record_cr0 (value : Z) (c : powerpc_cpu) : powerpc_cpu := record_cr 0 value c.

Definition record_cr1 (c : powerpc_cpu) : powerpc_cpu :=
  set_cr (Z.lor (Z.land (cr c) (u32 (Z.lnot (mask (CR_field 1)))))
            (Z.land (Z.shiftr (fpscr c) 4) 0x0f000000)) c.

(** The exception bits are only maintained with [PPC_ENABLE_FPU_EXCEPTIONS],
    which is off by default. *)
Definition record_fpscr (exceptions : Z) (c : powerpc_cpu) : powerpc_cpu := c.

Definition record_cr6 (vS : Z) (check_one : bool) (c : powerpc_cpu) : powerpc_cpu :=
  if check_one && ((vr_get 64 vS 0 =? 0xffffffffffffffff) && (vr_get 64 vS 1 =? 0xffffffffffffffff))
  then set_cr (cr_set 6 8 (cr c)) c
  else if (vr_get 64 vS 0 =? 0) && (vr_get 64 vS 1 =? 0)
  then set_cr (cr_set 6 2 (cr c)) c
  else set_cr (cr_set 6 0 (cr c)) c.

(** ** The register file by number *)

(** [union any_register]: a 64-bit cell whose member [i] is its low word. *)
Definition any_set_i (v cell : Z) : Z := Z.lor (Z.land cell (Z.shiftl 0xffffffff 32)) v.

Definition CR_ID := 64.
Definition FPSCR_ID := 65.
Definition XER_ID := 66.
Definition LR_ID := 67.
Definition CTR_ID := 68.
Definition PC_ID := 69.
Definition basic_PC_ID := -1.
Definition basic_SP_ID := -2.

Definition set_register (id value : Z) (c : powerpc_cpu) : outcome powerpc_cpu :=
  if (0 <=? id) && (id <=? 31) then Ok (set_gpr id (u32 value) c)
  else if (32 <=? id) && (id <=? 63) then Ok (set_fpr_dw (id - 32) value c)
  else if id =? CR_ID then Ok (set_cr (u32 value) c)
  else if id =? FPSCR_ID then Ok (set_fpscr (u32 value) c)
  else if id =? XER_ID then Ok (set_xer (xer_set (u32 value)) c)
  else if id =? LR_ID then Ok (set_lr (u32 value) c)
  else if id =? CTR_ID then Ok (set_ctr (u32 value) c)
  else if (id =? basic_PC_ID) || (id =? PC_ID) then Ok (set_pc (u32 value) c)
  else if (id =? basic_SP_ID) || (id =? 1) then Ok (set_gpr 1 (u32 value) c)
  else Abort.

(** [cell] is what the local union holds before it is assigned. *)
Definition get_register (cell id : Z) (c : powerpc_cpu) : outcome Z :=
  if (0 <=? id) && (id <=? 31) then Ok (any_set_i (gpr c id) cell)
  else if (32 <=? id) && (id <=? 63) then Ok (fpr_dw c (id - 32))
  else if id =? CR_ID then Ok (any_set_i (cr c) cell)
  else if id =? FPSCR_ID then Ok (any_set_i (fpscr c) cell)
  else if id =? XER_ID then Ok (any_set_i (xer_get (xer c)) cell)
  else if id =? LR_ID then Ok (any_set_i (lr c) cell)
  else if id =? CTR_ID then Ok (any_set_i (ctr c) cell)
  else if (id =? basic_PC_ID) || (id =? PC_ID) then Ok (any_set_i (pc c) cell)
  else if (id =? basic_SP_ID) || (id =? 1) then Ok (any_set_i (gpr c 1) cell)
  else Abort.

(** [init_registers]: the loop over the two register files, then the rest. *)
Definition init_registers (c : powerpc_cpu) : powerpc_cpu :=
  let c := foldl (fun c i => set_fpr_dw i 0 (set_gpr i 0 c)) c (count_up 32) in
  set_pc 0 (set_ctr 0 (set_lr 0 (set_xer (xer_set 0) (set_fpscr 0 (set_cr 0 c))))).

(** [field2mask], as filled in by [initialize]. *)
Definition field2mask (i : Z) : Z :=
  let m := 0 in
  let m := if Zb (Z.land i 0x01) then Z.lor m 0x0000000f else m in
  let m := if Zb (Z.land i 0x02) then Z.lor m 0x000000f0 else m in
  let m := if Zb (Z.land i 0x04) then Z.lor m 0x00000f00 else m in
  let m := if Zb (Z.land i 0x08) then Z.lor m 0x0000f000 else m in
  let m := if Zb (Z.land i 0x10) then Z.lor m 0x000f0000 else m in
  let m := if Zb (Z.land i 0x20) then Z.lor m 0x00f00000 else m in
  let m := if Zb (Z.land i 0x40) then Z.lor m 0x0f000000 else m in
  if Zb (Z.land i 0x80) then Z.lor m 0xf0000000 else m.

(** ** Interrupt frames *)

(** [powerpc_registers::interrupt_copy(oregs, iregs)]: the loop walks the
    vector registers from 31 down to 0 while [vrsave] is shifted right. *)
Fixpoint copy_vrs (n : nat) (vrsave : Z) (ovr ivr : list Z) : list Z :=
  match n with
  | O => ovr
  | S n =>
      let i := Z.of_nat n in
      let ovr := if Zb (Z.land vrsave 1) then Zinsert i (Zlookup ivr i) ovr else ovr in
      copy_vrs n (Z.shiftr vrsave 1) ovr ivr
  end.

Definition interrupt_copy (oregs iregs : registers) : registers :=
  let '(og, of_) := foldl (fun '(og, of_) i =>
      (Zinsert i (Zlookup (r_gpr iregs) i) og, Zinsert i (Zlookup (r_fpr iregs) i) of_))
    (r_gpr oregs, r_fpr oregs) (count_up 32) in
  let vrsave := r_vrsave iregs in
  Regs og of_ (if Zb vrsave then copy_vrs 32 vrsave (r_vr oregs) (r_vr iregs) else r_vr oregs)
    (r_cr iregs) (r_xer iregs) (r_vscr oregs) vrsave (r_fpscr iregs) (r_lr iregs) (r_ctr iregs)
    (r_pc iregs) (r_spcflags oregs) (r_reserve_valid oregs) (r_reserve_addr oregs).

(** ** Cache invalidation *)

Definition invalidate_cache_range (start end_ : Z) (c : powerpc_cpu) : powerpc_cpu :=
  let c := set_spcflags (spcflags_set SPCFLAG_JIT_EXEC_RETURN (spcflags c)) c in
  set_block_cache (clear_range start end_ (my_block_cache c)) c.

Definition invalidate_cache (c : powerpc_cpu) : powerpc_cpu :=
  let c := set_block_cache (BlockCache.initialize (BlockCache.clear (my_block_cache c))) c in
  let c := set_spcflags (spcflags_set SPCFLAG_JIT_EXEC_RETURN (spcflags c)) c in
  set_decode_cache (decode_cache c) 0 c.

Definition trigger_interrupt (c : powerpc_cpu) : powerpc_cpu :=
  set_spcflags (spcflags_set SPCFLAG_CPU_TRIGGER_INTERRUPT (spcflags c)) c.

(** ** The rest of the emulator *)

(** [struct M68kRegisters]: the registers an EMUL_OP routine sees. *)
Record M68kRegisters := R68 { r68_d : list Z; r68_a : list Z }.

(** What the handlers need from the rest of SheepShaver and from the host: the
    preference [ignoreillegal], two machine constants, the clock (the [n]-th
    reading of it), the contents of uninitialised locals, the EMUL_OP and
    native routines, and the interrupt handler, which sees a copy of the
    registers and may run emulated code on the CPU. *)
Class Host := {
  ignoreillegal : bool;
  PVR : Z;
  TimebaseSpeed : Z;
  GetTicks_usec : Z -> Z;
  uninit : Z;
  uninit_registers : registers;
  EmulOp : M68kRegisters -> Z -> Z -> powerpc_cpu -> outcome (M68kRegisters * powerpc_cpu);
  execute_native_op : Z -> powerpc_cpu -> outcome powerpc_cpu;
  HandleInterrupt : registers -> powerpc_cpu -> outcome (registers * powerpc_cpu);
}.

(** The state after construction, with the given memory. *)
Definition zero_registers : registers :=
  Regs (replicate 32 0) (replicate 32 0) (replicate 32 0) 0 xer_init 0 0 0 0 0 0 0 0 0.

Definition cpu_init (m : memory) : powerpc_cpu :=
  init_registers (Cpu zero_registers m 0 0 FE_TONEAREST bc_empty ∅ 0 0 false 0 (Sheep 0 0 0)).

(** A host on which the external routines do nothing. *)
Definition null_host : Host := {|
  ignoreillegal := false; PVR := 0x000c0000; TimebaseSpeed := 25000000;
  GetTicks_usec n := u64 n; uninit := 0; uninit_registers := zero_registers;
  EmulOp r _ _ c := Ok (r, c);
  execute_native_op _ c := Ok c;
  HandleInterrupt r c := Ok (r, c);
|}.

(** ** Well-formed states *)

Record regs_wf (r : registers) : Prop := {
  wf_gpr : length (r_gpr r) = 32%nat /\ Forall (is_uint 32) (r_gpr r);
  wf_fpr : length (r_fpr r) = 32%nat /\ Forall (is_uint 64) (r_fpr r);
  wf_vr : length (r_vr r) = 32%nat /\ Forall (is_uint 128) (r_vr r);
  wf_cr : is_uint 32 (r_cr r);
  wf_xer : xer_wf (r_xer r);
  wf_vscr : is_uint 32 (r_vscr r);
  wf_vrsave : is_uint 32 (r_vrsave r);
  wf_fpscr : is_uint 32 (r_fpscr r);
  wf_lr : is_uint 32 (r_lr r);
  wf_ctr : is_uint 32 (r_ctr r);
  wf_pc : is_uint 32 (r_pc r);
}.

(** Every register holds a value of its C type, memory holds bytes. *)
Definition cpu_wf (c : powerpc_cpu) : Prop := regs_wf (regs c) /\ mem_wf (mem c).

(** The external routines, which are only called from emulated code, keep the
    state well formed. *)
Definition r68_wf (r : M68kRegisters) : Prop :=
  Forall (is_uint 32) (r68_d r) /\ Forall (is_uint 32) (r68_a r) /\
  length (r68_d r) = 8%nat /\ length (r68_a r) = 8%nat.

Class HostLaws (H : Host) := {
  PVR_range : is_uint 32 PVR;
  TimebaseSpeed_range : is_uint 32 TimebaseSpeed;
  GetTicks_usec_range n : is_uint 64 (GetTicks_usec n);
  uninit_range : is_uint 32 uninit;
  uninit_registers_wf : regs_wf uninit_registers;
  EmulOp_wf r pc68 op c : r68_wf r -> cpu_wf c -> 1 <= execute_depth c ->
    outcome_holds (fun '(r, c) => r68_wf r /\ cpu_wf c) (EmulOp r pc68 op c);
  execute_native_op_wf op c : cpu_wf c -> 1 <= execute_depth c ->
    outcome_holds cpu_wf (execute_native_op op c);
  HandleInterrupt_wf r c : cpu_wf c -> 1 <= execute_depth c ->
    outcome_holds (fun '(r', c) => (regs_wf r -> regs_wf r') /\ cpu_wf c) (HandleInterrupt r c);
}.

#[export] Hint Resolve PVR_range TimebaseSpeed_range uninit_range uninit_registers_wf : word.

(** ** Laws of the accessors *)

(** [simpl_cpu] computes reads of a state after writes to other fields. *)
Ltac simpl_cpu :=
  unfold gpr, fpr_dw, vr;
  cbn [regs mem cache_range_start cache_range_end fe_round my_block_cache decode_cache
    decode_cache_p execute_depth processing_interrupt clock sheep with_regs
    r_gpr r_fpr r_vr r_cr r_xer r_vscr r_vrsave r_fpscr r_lr r_ctr r_pc r_spcflags
    r_reserve_valid r_reserve_addr gpr fpr_dw vr cr xer vscr vrsave fpscr lr ctr pc spcflags
    set_gpr set_fpr_dw set_vr set_cr set_xer set_vscr set_vrsave set_fpscr set_lr set_ctr
    set_pc set_spcflags set_reserve set_mem set_cache_range fesetround set_block_cache
    set_decode_cache set_execute_depth set_processing_interrupt tick set_sheep
    increment_pc record_cr record_cr0 record_cr1 record_fpscr];
  repeat match goal with
  | |- context [Zlookup (r_gpr (regs ?c)) ?i] => change (Zlookup (r_gpr (regs c)) i) with (gpr c i)
  | |- context [Zlookup (r_fpr (regs ?c)) ?i] => change (Zlookup (r_fpr (regs c)) i) with (fpr_dw c i)
  | |- context [Zlookup (r_vr (regs ?c)) ?i] => change (Zlookup (r_vr (regs c)) i) with (vr c i)
  end.

(** Reading back the register just written. *)
Lemma gpr_index c i :
  cpu_wf c -> 0 <= i <= 31 -> 0 <= i < Z.of_nat (length (r_gpr (regs c))).
Proof. intros [[[-> _]] _] ?. lia. Qed.
Lemma fpr_index c i :
  cpu_wf c -> 0 <= i <= 31 -> 0 <= i < Z.of_nat (length (r_fpr (regs c))).
Proof. intros [[_ [-> _]] _] ?. lia. Qed.
Lemma vr_index c i :
  cpu_wf c -> 0 <= i <= 31 -> 0 <= i < Z.of_nat (length (r_vr (regs c))).
Proof. intros [[_ _ [-> _]] _] ?. lia. Qed.

Create HintDb cpu discriminated.
#[export] Hint Constants Opaque : cpu.
#[export] Hint Constants Opaque : word.

Section Wf.
Context (c : powerpc_cpu) (Hc : cpu_wf c).

Lemma gpr_range i : 0 <= i <= 31 -> is_uint 32 (gpr c i).
Proof using Hc.
  intros. destruct Hc as [[[Hl Hf]] _]. apply (Forall_Zlookup (is_uint 32)); [done|]. lia.
Qed.
Lemma fpr_range i : 0 <= i <= 31 -> is_uint 64 (fpr_dw c i).
Proof using Hc.
  intros. destruct Hc as [[_ [Hl Hf]] _]. apply (Forall_Zlookup (is_uint 64)); [done|]. lia.
Qed.
Lemma vr_range i : 0 <= i <= 31 -> is_uint 128 (vr c i).
Proof using Hc.
  intros. destruct Hc as [[_ _ [Hl Hf]] _]. apply (Forall_Zlookup (is_uint 128)); [done|]. lia.
Qed.
Lemma cr_range : is_uint 32 (cr c).
Proof using Hc. apply Hc. Qed.
Lemma xer_range : xer_wf (xer c).
Proof using Hc. apply Hc. Qed.
Lemma vscr_range : is_uint 32 (vscr c).
Proof using Hc. apply Hc. Qed.
Lemma vrsave_range : is_uint 32 (vrsave c).
Proof using Hc. apply Hc. Qed.
Lemma fpscr_range : is_uint 32 (fpscr c).
Proof using Hc. apply Hc. Qed.
Lemma lr_range : is_uint 32 (lr c).
Proof using Hc. apply Hc. Qed.
Lemma ctr_range : is_uint 32 (ctr c).
Proof using Hc. apply Hc. Qed.
Lemma pc_range : is_uint 32 (pc c).
Proof using Hc. apply Hc. Qed.
Lemma cpu_mem_wf : mem_wf (mem c).
Proof using Hc. apply Hc. Qed.

Ltac wf_tac :=
  destruct Hc as [[[? ?] [? ?] [? ?]] ?]; split; [split|]; simpl_cpu;
  rewrite ?length_Zinsert; auto using Forall_Zinsert.

Lemma set_gpr_wf i v : is_uint 32 v -> cpu_wf (set_gpr i v c).
Proof using Hc. intros. wf_tac. Qed.
Lemma set_fpr_dw_wf i v : is_uint 64 v -> cpu_wf (set_fpr_dw i v c).
Proof using Hc. intros. wf_tac. Qed.
Lemma set_vr_wf i v : is_uint 128 v -> cpu_wf (set_vr i v c).
Proof using Hc. intros. wf_tac. Qed.
Lemma set_cr_wf v : is_uint 32 v -> cpu_wf (set_cr v c).
Proof using Hc. intros. wf_tac. Qed.
Lemma set_xer_wf v : xer_wf v -> cpu_wf (set_xer v c).
Proof using Hc. intros. wf_tac. Qed.
Lemma set_vscr_wf v : is_uint 32 v -> cpu_wf (set_vscr v c).
Proof using Hc. intros. wf_tac. Qed.
Lemma set_vrsave_wf v : is_uint 32 v -> cpu_wf (set_vrsave v c).
Proof using Hc. intros. wf_tac. Qed.
Lemma set_fpscr_wf v : is_uint 32 v -> cpu_wf (set_fpscr v c).
Proof using Hc. intros. wf_tac. Qed.
Lemma set_lr_wf v : is_uint 32 v -> cpu_wf (set_lr v c).
Proof using Hc. intros. wf_tac. Qed.
Lemma set_ctr_wf v : is_uint 32 v -> cpu_wf (set_ctr v c).
Proof using Hc. intros. wf_tac. Qed.
Lemma set_pc_wf v : is_uint 32 v -> cpu_wf (set_pc v c).
Proof using Hc. intros. wf_tac. Qed.
Lemma set_spcflags_wf v : cpu_wf (set_spcflags v c).
Proof using Hc. wf_tac. Qed.
Lemma set_reserve_wf v a : cpu_wf (set_reserve v a c).
Proof using Hc. wf_tac. Qed.
Lemma set_mem_wf m : mem_wf m -> cpu_wf (set_mem m c).
Proof using Hc. intros. by split; [apply Hc|]. Qed.
Lemma set_cache_range_wf s e : cpu_wf (set_cache_range s e c).
Proof using Hc. done. Qed.
Lemma fesetround_wf m : cpu_wf (fesetround m c).
Proof using Hc. done. Qed.
Lemma tick_wf : cpu_wf (tick c).
Proof using Hc. done. Qed.

Lemma increment_pc_wf o : cpu_wf (increment_pc o c).
Proof using Hc. apply set_pc_wf. apply trunc_range. lia. Qed.
End Wf.

#[export] Hint Resolve gpr_range fpr_range vr_range cr_range xer_range vscr_range vrsave_range
  fpscr_range lr_range ctr_range pc_range : word.
#[export] Hint Resolve set_gpr_wf set_fpr_dw_wf set_vr_wf set_cr_wf set_xer_wf set_vscr_wf
  set_vrsave_wf set_fpscr_wf set_lr_wf set_ctr_wf set_pc_wf set_spcflags_wf set_reserve_wf
  set_mem_wf set_cache_range_wf fesetround_wf tick_wf increment_pc_wf : cpu.

(** Well-formedness of a state, and the range of a value, by the lemmas of
    the hint databases, one goal at a time. *)
Ltac syntactic_assumption :=
  match goal with H : ?P |- ?P => exact H end.
#[export] Hint Extern 0 (cpu_wf _) => syntactic_assumption : cpu.
#[export] Hint Extern 0 (is_uint _ _) => syntactic_assumption : word.
#[export] Hint Extern 0 (xer_wf _) => syntactic_assumption : word.
#[export] Hint Resolve xer_wf_set : word.
Ltac wf := cbn zeta; typeclasses eauto with cpu word.

Lemma record_cr_wf crfd v c : cpu_wf c -> cpu_wf (record_cr crfd v c).
Proof. intros. unfold record_cr. wf. Qed.
Lemma record_cr1_wf c : cpu_wf c -> cpu_wf (record_cr1 c).
Proof.
  intros. unfold record_cr1. apply set_cr_wf; [done|].
  apply is_uint_lor; [lia|eauto with word|apply is_uint_land_r; [lia|done]].
Qed.
Lemma record_cr6_wf v b c : cpu_wf c -> cpu_wf (record_cr6 v b c).
Proof. intros. unfold record_cr6. repeat case_match; wf. Qed.
Lemma invalidate_cache_range_wf s e c : cpu_wf c -> cpu_wf (invalidate_cache_range s e c).
Proof. intros H. apply (set_spcflags_wf c H). Qed.
Lemma invalidate_cache_wf c : cpu_wf c -> cpu_wf (invalidate_cache c).
Proof. intros H. apply (set_spcflags_wf c H). Qed.
#[export] Hint Resolve record_cr_wf record_cr1_wf record_cr6_wf invalidate_cache_range_wf
  invalidate_cache_wf : cpu.
#[export] Hint Extern 3 (cpu_wf (record_cr0 _ _)) => apply record_cr_wf : cpu.
#[export] Hint Extern 3 (cpu_wf (record_fpscr _ _)) => unfold record_fpscr : cpu.

Lemma zero_registers_wf : regs_wf zero_registers.
Proof.
  split; try done; (split; [done|]); apply Forall_replicate; done.
Qed.

Lemma cpu_init_wf m : mem_wf m -> cpu_wf (cpu_init m).
Proof.
  intros Hm. unfold cpu_init, init_registers.
  assert (H0 : cpu_wf (Cpu zero_registers m 0 0 FE_TONEAREST bc_empty ∅ 0 0 false 0 (Sheep 0 0 0)))
    by (split; [apply zero_registers_wf|done]).
  match goal with |- context [foldl ?f ?s ?l] => assert (cpu_wf (foldl f s l)) as H1 end.
  { apply foldl_invariant; [|done]. intros i c _ Hc. wf. }
  match goal with |- context [foldl ?f ?s ?l] => generalize dependent (foldl f s l) end.
  intros c Hc. wf.
Qed.

#[export] Instance null_host_laws : HostLaws null_host.
Proof.
  split; intros; cbn; try done; try apply zero_registers_wf.
  by apply trunc_range.
Qed.
