(* ===== verification/Operands.v ===== *)
(** Operand accessors (kpx_cpu/src/cpu/ppc/ppc-operands.hpp): what each
    operand class of the decode table reads from or writes to the CPU for a
    given opcode. *)
From S2P Require Import Prelude Bitfields Registers HostFPU Operations Memory Handlers BlockCache Cpu.

(** ** Scalar operands *)

(** [mask_operand::compute]: the mask of bits [mb] to [me], wrapping around
    when [mb > me]. *)
Definition mask_compute (mb me : Z) : Z :=
  let m := Z.lxor (Z.shiftr 0xffffffff mb)
             (if 31 <=? me then 0 else Z.shiftr 0xffffffff (me + 1)) in
  if me <? mb then u32 (Z.lnot m) else m.

(** [spr_operand] and [tbr_operand]: the two halves of the field are swapped. *)
Definition swap_halves (spr : Z) : Z :=
  Z.lor (Z.shiftl (Z.land spr 0x1f) 5) (Z.land (Z.shiftr spr 5) 0x1f).

(** [ev_mixed]: elements of a register loaded as four 32-bit words. *)
Definition mixed_byte_element (i : Z) : Z :=
  Zlookup [3; 2; 1; 0; 7; 6; 5; 4; 11; 10; 9; 8; 15; 14; 13; 12] i.
Definition mixed_half_element (i : Z) : Z := Zlookup [1; 0; 3; 2; 5; 4; 7; 6] i.

(** [OPERAND::get(cpu, opcode)]. *)
Definition operand_get (o : operand) (c : powerpc_cpu) (opcode : Z) : Z :=
  match o with
  | operand_NONE => 0
  | operand_CR => cr c
  | operand_PC => pc c
  | operand_LR => lr c
  | operand_CTR => ctr c
  | operand_RA_compl => u32 (Z.lnot (gpr c (extract rA_field opcode)))
  | operand_RA => gpr c (extract rA_field opcode)
  | operand_RB => gpr c (extract rB_field opcode)
  | operand_RS => gpr c (extract rS_field opcode)
  | operand_RD => gpr c (extract rD_field opcode)
  | operand_RA_or_0 =>
      let regno := extract rA_field opcode in if negb (regno =? 0) then gpr c regno else 0
  | immediate_value n => u32 n
  | operand_XER_CA => xer_ca (xer c)
  | operand_XER_COUNT => xer_byte_count (xer c)
  | operand_FPSCR_RN => extract FPSCR_RN_field (fpscr c)
  | operand_SPR => swap_halves (extract SPR_field opcode)
  | operand_TBR => swap_halves (extract TBR_field opcode)
  | operand_MASK => mask_compute (extract MB_field opcode) (extract ME_field opcode)
  | operand_LI => op_sign_extend_LI_32 (extract LI_field opcode)
  | operand_BO => u32 (extract BO_field opcode)
  | operand_BD => op_sign_extend_BD_32 (extract BD_field opcode)
  | operand_IMM => u32 (extract IMM_field opcode)
  | operand_UIMM => op_zero_extend_16_32 (extract UIMM_field opcode)
  | operand_UIMM_shifted => op_zero_extend_16_32_shifted (extract UIMM_field opcode)
  | operand_SIMM => op_sign_extend_16_32 (extract SIMM_field opcode)
  | operand_SIMM_shifted => op_sign_extend_16_32_shifted (extract SIMM_field opcode)
  | operand_D => op_sign_extend_16_32 (extract d_field opcode)
  | operand_NB => u32 (extract NB_field opcode)
  | operand_SH => u32 (extract SH_field opcode)
  | operand_FM => u32 (extract FM_field opcode)
  | operand_SHB => u32 (extract vSH_field opcode)
  | operand_SHBO =>
      Z.land (Z.shiftr (vr_get 8 (vr c (extract vB_field opcode)) (mixed_byte_element 15)) 3) 15
  end.

(** [OPERAND::set(cpu, opcode, value)], for the classes that have it. *)
Definition operand_set (o : operand) (opcode value : Z) (c : powerpc_cpu) : outcome powerpc_cpu :=
  match o with
  | operand_RA => Ok (set_gpr (extract rA_field opcode) value c)
  | operand_RB => Ok (set_gpr (extract rB_field opcode) value c)
  | operand_RS => Ok (set_gpr (extract rS_field opcode) value c)
  | operand_RD => Ok (set_gpr (extract rD_field opcode) value c)
  | operand_RA_or_0 =>
      let regno := extract rA_field opcode in
      if regno =? 0 then Abort else Ok (set_gpr regno value c)
  | _ => Ok c
  end.

(** ** Floating-point operands, as bit patterns *)

Definition fp_field (o : fp_operand) : bit_field :=
  match o with
  | operand_fp_NONE | operand_fp_RA => frA_field
  | operand_fp_RB => frB_field
  | operand_fp_RC => frC_field
  | operand_fp_RD => frD_field
  end.

Definition fp_operand_get (o : fp_operand) (c : powerpc_cpu) (opcode : Z) : Z :=
  match o with
  | operand_fp_NONE => 0
  | _ => fpr_dw c (extract (fp_field o) opcode)
  end.

(** ** Vector operands *)

(** [vector_numeric_limits]. *)
Definition limit_min (t : ctype) : Z :=
  match t with
  | int8 => - 2 ^ 7 | int16 => - 2 ^ 15 | int32 => - 2 ^ 31 | int64 => - 2 ^ 63
  | _ => 0
  end.
Definition limit_max (t : ctype) : Z :=
  match t with
  | int8 => 2 ^ 7 - 1 | int16 => 2 ^ 15 - 1 | int32 => 2 ^ 31 - 1 | int64 => 2 ^ 63 - 1
  | uint8 => 2 ^ 8 - 1 | uint16 => 2 ^ 16 - 1 | uint32 | cfloat => 2 ^ 32 - 1
  | uint64 => 2 ^ 64 - 1
  end.

(** [VD::saturate(d)]: the clamped element and whether it was clamped. *)
Definition saturate (o : vop) (d : Z) : Z * bool :=
  match o with
  | vec_sat_operand _ _ vt _ _ =>
      if limit_max vt <? d then (limit_max vt, true)
      else if d <? limit_min vt then (limit_min vt, true)
      else (d, false)
  | _ => (d, false)
  end.

(** The element order of the operand. *)
Definition ev_element (vw : Z) (mixed : bool) (i : Z) : Z :=
  if mixed then
    if vw =? 8 then mixed_byte_element i else if vw =? 16 then mixed_half_element i else i
  else i.

(** The register an operand designates. *)
Definition vop_regno (o : vop) (opcode : Z) : Z :=
  match o with
  | null_vector_operand => 0
  | vimm_operand f | vec_operand f _ _ _ | vec_sat_operand f _ _ _ _ | vec_float f =>
      extract f opcode
  end.

(** [V::get_element(V::const_ref(cpu, opcode), i)]: the reference is read at
    the time of the call, so that an output register that is also an input is
    seen as it has been written so far. *)
Definition get_element (o : vop) (opcode : Z) (c : powerpc_cpu) (i : Z) : Z :=
  match o with
  | null_vector_operand => 0
  | vimm_operand f => extract f opcode
  | vec_operand f vw vt mixed => conv vt (vr_get vw (vr c (extract f opcode)) (ev_element vw mixed i))
  | vec_sat_operand f vw vt vs mixed =>
      conv vs (conv vt (vr_get vw (vr c (extract f opcode)) (ev_element vw mixed i)))
  | vec_float f => vr_get 32 (vr c (extract f opcode)) i
  end.

Definition set_element (o : vop) (opcode i v : Z) (c : powerpc_cpu) : powerpc_cpu :=
  match o with
  | null_vector_operand | vimm_operand _ => c
  | vec_operand f vw _ mixed | vec_sat_operand f vw _ _ mixed =>
      let d := extract f opcode in set_vr d (vr_set vw (vr c d) (ev_element vw mixed i) v) c
  | vec_float f =>
      let d := extract f opcode in set_vr d (vr_set 32 (vr c d) i v) c
  end.

(** ** Laws *)

Lemma extract_5 f opcode : bf_wf f -> bf_len f = 5 -> 0 <= extract f opcode <= 31.
Proof.
  intros Hf Hl. pose proof (extract_range f opcode Hf) as H. rewrite Hl in H.
  unfold is_uint in H. change (2 ^ 5) with 32 in H. lia.
Qed.

#[export] Hint Extern 2 (0 <= extract _ _ <= 31) => apply extract_5; solve_bf : word.

Lemma extract_range_32 f opcode : bf_wf f -> is_uint 32 (extract f opcode).
Proof.
  intros Hf. eapply is_uint_mono; [|by apply extract_range].
  unfold bf_len. destruct Hf. lia.
Qed.
#[export] Hint Extern 2 (is_uint 32 (extract _ _)) => apply extract_range_32; solve_bf : word.

Lemma u32_range z : is_uint 32 (u32 z).
Proof. apply trunc_range. lia. Qed.
#[export] Hint Resolve u32_range : word.

Lemma testbit_mask_compute mb me i :
  0 <= mb <= 31 -> 0 <= me <= 31 -> 0 <= i ->
  Z.testbit (mask_compute mb me) i =
    (i <? 32) && (if mb <=? me then (mb <=? 31 - i) && (31 - i <=? me)
                  else (mb <=? 31 - i) || (31 - i <=? me)).
Proof.
  intros. unfold mask_compute. rewrite ones32. cbn zeta.
  destruct (Z.leb_spec 31 me); split_cmp; push_testbit; split_cmp; close_bits.
Qed.

Lemma mask_compute_range mb me :
  0 <= mb <= 31 -> 0 <= me <= 31 -> is_uint 32 (mask_compute mb me).
Proof.
  intros. unfold mask_compute. assert (is_uint 32 0xffffffff) by done.
  assert (is_uint 32 (if 31 <=? me then 0 else Z.shiftr 0xffffffff (me + 1))).
  { destruct (31 <=? me); [done|]. by apply is_uint_shiftr; [lia|]. }
  cbn zeta. destruct (me <? mb); [apply trunc_range; lia|].
  apply is_uint_lxor; [lia| |done]. by apply is_uint_shiftr; [lia|].
Qed.

Lemma swap_halves_range v : is_uint 32 (swap_halves v).
Proof.
  apply (is_uint_mono 10); [lia|]. unfold swap_halves. apply is_uint_lor; [lia| |].
  - pose proof (is_uint_land_r 5 v 0x1f ltac:(lia) ltac:(done)) as [? ?].
    split; [by apply Z.shiftl_nonneg|]. rewrite Z.shiftl_mul_pow2 by lia.
    change (2 ^ 5) with 32 in *. change (2 ^ 10) with 1024. lia.
  - apply (is_uint_mono 5); [lia|]. apply is_uint_land_r; [lia|done].
Qed.

Lemma operand_get_range o c opcode : cpu_wf c -> is_uint 32 (operand_get o c opcode).
Proof.
  intros Hc. destruct o; cbn [operand_get];
    unfold op_sign_extend_LI_32, op_sign_extend_BD_32, op_sign_extend_16_32_shifted,
      op_zero_extend_16_32_shifted, op_sign_extend_16_32, op_zero_extend_16_32; try by wf.
  - destruct (negb _); by wf.
  - destruct (xer_range c Hc) as (_ & _ & Hca & _). by apply (is_uint_mono 1); [lia|].
  - destruct (xer_range c Hc) as (_ & _ & _ & Hct). by apply (is_uint_mono 7); [lia|].
  - apply swap_halves_range.
  - apply swap_halves_range.
  - apply mask_compute_range; apply extract_5; solve_bf.
  - apply is_uint_land_r; [lia|done].
Qed.
#[export] Hint Resolve operand_get_range : word.

Lemma operand_set_wf o opcode v c :
  cpu_wf c -> is_uint 32 v -> outcome_holds cpu_wf (operand_set o opcode v c).
Proof.
  intros Hc Hv. destruct o; cbn [operand_set outcome_holds]; try wf.
  destruct (extract rA_field opcode =? 0); cbn [outcome_holds]; [done|wf].
Qed.

Lemma fp_operand_get_range o c opcode : cpu_wf c -> is_uint 64 (fp_operand_get o c opcode).
Proof.
  intros Hc. destruct o; cbn [fp_operand_get fp_field]; [done|apply fpr_range; [done|];
    apply extract_5; solve_bf..].
Qed.
#[export] Hint Resolve fp_operand_get_range : word.

(** The vector field of every operand is one of the 5-bit register fields. *)
Definition vop_field (o : vop) : option bit_field :=
  match o with
  | null_vector_operand => None
  | vimm_operand f | vec_operand f _ _ _ | vec_sat_operand f _ _ _ _ | vec_float f => Some f
  end.

(** Operands as the decode table builds them: a register field, a width that
    divides the register and an index below the number of elements. *)
Definition vop_wf (o : vop) : Prop :=
  match o with
  | null_vector_operand => True
  | vimm_operand f | vec_float f => bf_wf f /\ bf_len f = 5
  | vec_operand f vw t m =>
      bf_wf f /\ bf_len f = 5 /\ vw = 8 * csize t /\ (m = true -> vw = 8 \/ vw = 16)
  | vec_sat_operand f vw t _ m =>
      bf_wf f /\ bf_len f = 5 /\ vw = 8 * csize t /\ (m = true -> vw = 8 \/ vw = 16)
  end.
#[export] Instance vop_wf_dec o : Decision (vop_wf o).
Proof. destruct o; cbn; apply _. Defined.

Lemma mixed_byte_range i : 0 <= i < 16 -> 0 <= mixed_byte_element i < 16.
Proof.
  intros Hi. apply (Forall_Zlookup (fun x => 0 <= x < 16)); [|cbn; lia].
  repeat constructor; lia.
Qed.
Lemma mixed_half_range i : 0 <= i < 8 -> 0 <= mixed_half_element i < 8.
Proof.
  intros Hi. apply (Forall_Zlookup (fun x => 0 <= x < 8)); [|cbn; lia].
  repeat constructor; lia.
Qed.

Lemma ev_element_range vw m i :
  (m = true -> vw = 8 \/ vw = 16) -> 0 <= i < 128 / vw -> 0 <= ev_element vw m i < 128 / vw.
Proof.
  intros Hm Hi. unfold ev_element. destruct m; [|done].
  destruct (Hm eq_refl) as [->| ->]; cbn -[mixed_byte_element mixed_half_element].
  - by apply mixed_byte_range.
  - by apply mixed_half_range.
Qed.

Lemma csize_cases t : csize t = 1 \/ csize t = 2 \/ csize t = 4 \/ csize t = 8.
Proof. destruct t; auto. Qed.

(** The element an operand accesses lies inside the register. *)
Lemma element_fits t m i :
  (m = true -> 8 * csize t = 8 \/ 8 * csize t = 16) -> 0 <= i < 16 / csize t ->
  let e := ev_element (8 * csize t) m i in
  0 < 8 * csize t /\ 0 <= e /\ 8 * csize t * e + 8 * csize t <= 128.
Proof.
  intros Hm Hi e.
  assert (Hr : 0 <= e < 128 / (8 * csize t)).
  { apply ev_element_range; [done|]. destruct (csize_cases t) as [E|[E|[E|E]]]; rewrite E in *; done. }
  clearbody e. destruct (csize_cases t) as [E|[E|[E|E]]]; rewrite E in *;
    [change (128 / (8 * 1)) with 16 in Hr|change (128 / (8 * 2)) with 8 in Hr
    |change (128 / (8 * 4)) with 4 in Hr|change (128 / (8 * 8)) with 2 in Hr]; lia.
Qed.

(** Writing an element keeps the register a 128-bit value. *)
Lemma set_element_wf o opcode i v c :
  vop_wf o -> 0 <= i < 16 / element_size o -> cpu_wf c -> cpu_wf (set_element o opcode i v c).
Proof.
  intros Ho Hi Hc.
  assert (Hset : forall f w e, bf_wf f -> bf_len f = 5 -> 0 < w -> 0 <= e -> w * e + w <= 128 ->
    cpu_wf (set_vr (extract f opcode) (vr_set w (vr c (extract f opcode)) e v) c)).
  { intros. apply set_vr_wf; [done|]. apply vr_set_range; [done..|].
    apply vr_range; [done|by apply extract_5]. }
  destruct o as [|f|f vw t m|f vw t s m|f]; cbn [set_element]; try done; cbn [element_size] in Hi.
  - destruct Ho as (Hf & Hl & -> & Hm). destruct (element_fits t m i Hm Hi) as (? & ? & ?). by apply Hset.
  - destruct Ho as (Hf & Hl & -> & Hm). destruct (element_fits t m i Hm Hi) as (? & ? & ?). by apply Hset.
  - destruct Ho as [Hf Hl]. change (16 / 4) with 4 in Hi. apply Hset; done || lia.
Qed.

(** [mask_operand::compute] builds the mask of the rotate instructions:
    ones from bit [mb] to bit [me] in the PowerPC numbering, around the end of
    the word when [mb > me]. *)
Theorem mask_operand_spec mb me k :
  0 <= mb <= 31 -> 0 <= me <= 31 -> 0 <= k <= 31 ->
  Z.testbit (mask_compute mb me) (31 - k) =
    if mb <=? me then (mb <=? k) && (k <=? me) else (mb <=? k) || (k <=? me).
Proof.
  intros. rewrite testbit_mask_compute by lia.
  replace (31 - (31 - k)) with k by lia. by split_cmp.
Qed.

Lemma mask_operand_spec_witness :
  mask_compute 28 3 = 0xf000000f /\ Z.testbit (mask_compute 28 3) (31 - 30) = true.
Proof. split; [reflexivity|]. rewrite (mask_operand_spec 28 3 30); done || lia. Defined.
