(* ===== verification/ExecInt.v ===== *)
(** Integer, branch, condition-register and system-register handlers of the
    interpreter (kpx_cpu/src/cpu/ppc/ppc-execute.cpp), and the arithmetic
    helpers the translator shares with it (ppc-execute.hpp). *)
From S2P Require Import Prelude Bitfields Registers HostFPU Operations Memory Handlers BlockCache Cpu Operands.

Section Exec.
Context {FPU : HostFPU} {HOST : Host}.

(** ** Illegal and no-op instructions *)

Definition execute_illegal (opcode : Z) (c : powerpc_cpu) : outcome powerpc_cpu :=
  if ignoreillegal then Ok (increment_pc 4 c) else Abort.

Definition execute_nop (opcode : Z) (c : powerpc_cpu) : outcome powerpc_cpu :=
  Ok (increment_pc 4 c).

(** ** Arithmetic *)

(** [op_carry<op_add>] and [op_overflow<op_add>], [op_overflow<op_neg>]. *)
Definition op_carry_add (a b c : Z) : bool := Zb (Z.shiftr (u64 (a + b + c)) 32).
Definition op_overflow_add (a b c : Z) : bool :=
  let overflow := s64 (s32 a + s32 b + s32 c) in
  Zb (Z.lxor (Z.shiftr (u64 overflow) 63) (Z.shiftr (u32 overflow) 31)).
Definition op_overflow (o : op) (a b c : Z) : bool :=
  match o with
  | Op_neg => a =? 0x80000000
  | Op_add => op_overflow_add a b c
  | _ => false
  end.

Definition execute_addition (RA RB RC : operand) (CA OE Rc : bit_pred)
    (opcode : Z) (cpu : powerpc_cpu) : outcome powerpc_cpu :=
  let a := operand_get RA cpu opcode in
  let b := operand_get RB cpu opcode in
  let c := operand_get RC cpu opcode in
  let d := u32 (a + b + c) in
  let cpu := if bp_test CA opcode
             then set_xer (xer_set_ca (bZ (op_carry_add a b c)) (xer cpu)) cpu else cpu in
  let cpu := if bp_test OE opcode
             then set_xer (xer_set_ov (bZ (op_overflow_add a b c)) (xer cpu)) cpu else cpu in
  let cpu := if bp_test Rc opcode then record_cr0 (s32 d) cpu else cpu in
  cpu ← operand_set operand_RD opcode d cpu;
  Ok (increment_pc 4 cpu).

(** [op_apply<uint32, OP, RA, RB, RC>::apply]: the arity follows from the
    operands that are [operand_NONE]. *)
Definition op_apply_gpr (m : fe_mode) (o : op) (RB RC : operand) (a b c : Z) : Z :=
  match RC with
  | operand_NONE => match RB with
                    | operand_NONE => op_apply1 m o a
                    | _ => op_apply2 m o a b
                    end
  | _ => op_apply3 m o a b c
  end.

Definition execute_generic_arith (OP : op) (RD RA RB RC : operand) (OE Rc : bit_pred)
    (opcode : Z) (cpu : powerpc_cpu) : outcome powerpc_cpu :=
  let a := operand_get RA cpu opcode in
  let b := operand_get RB cpu opcode in
  let c := operand_get RC cpu opcode in
  let d := u32 (op_apply_gpr (fe_round cpu) OP RB RC a b c) in
  let cpu := if bp_test OE opcode
             then set_xer (xer_set_ov (bZ (op_overflow OP a b c)) (xer cpu)) cpu else cpu in
  let cpu := if bp_test Rc opcode then record_cr0 (s32 d) cpu else cpu in
  cpu ← operand_set RD opcode d cpu;
  Ok (increment_pc 4 cpu).

Definition execute_rlwimi (SH MA : operand) (Rc : bit_pred)
    (opcode : Z) (cpu : powerpc_cpu) : outcome powerpc_cpu :=
  let n := operand_get SH cpu opcode in
  let m := operand_get MA cpu opcode in
  let rs := operand_get operand_RS cpu opcode in
  let ra := operand_get operand_RA cpu opcode in
  let d := op_ppc_rlwimi rs n m ra in
  let cpu := if bp_test Rc opcode then record_cr0 (s32 d) cpu else cpu in
  cpu ← operand_set operand_RA opcode d cpu;
  Ok (increment_pc 4 cpu).

(** ** Shifts *)

Definition invalid_shift (o : op) (r : Z) : Z :=
  match o with Op_shra => u32 (0 - Z.shiftr r 31) | _ => 0 end.

Definition execute_shift (OP : op) (RD RA SH : operand) (SO : op) (CA Rc : bit_pred)
    (opcode : Z) (cpu : powerpc_cpu) : outcome powerpc_cpu :=
  let n := op_apply1 (fe_round cpu) SO (operand_get SH cpu opcode) in
  let r := operand_get RA cpu opcode in
  let '(d, cpu) :=
    if Zb (Z.land n 0x20) then
      let d := invalid_shift OP r in
      (d, if bp_test CA opcode then set_xer (xer_set_ca (Z.shiftr d 31) (xer cpu)) cpu else cpu)
    else
      let d := u32 (op_apply2 (fe_round cpu) OP r n) in
      (d, if bp_test CA opcode then
            let ca := bZ (Zb (Z.land r 0x80000000) &&
                          Zb (Z.land r (u32 (Z.lnot (shl32 0xffffffff n))))) in
            set_xer (xer_set_ca ca (xer cpu)) cpu
          else cpu) in
  let cpu := if bp_test Rc opcode then record_cr0 (s32 d) cpu else cpu in
  cpu ← operand_set RD opcode d cpu;
  Ok (increment_pc 4 cpu).

(** ** Branches and comparisons *)

Definition execute_branch (PC BO DP : operand) (AA LK : bit_pred)
    (opcode : Z) (cpu : powerpc_cpu) : outcome powerpc_cpu :=
  let bo := operand_get BO cpu opcode in
  let cond_ok :=
    if BO_CONDITIONAL_BRANCH bo then
      let t := cr_test (extract BI_field opcode) (cr cpu) in
      if BO_BRANCH_IF_TRUE bo then t else negb t
    else true in
  let '(ctr_ok, cpu) :=
    if BO_DECREMENT_CTR bo then
      let cpu := set_ctr (u32 (ctr cpu - 1)) cpu in
      let t := ctr cpu =? 0 in
      (if BO_BRANCH_IF_CTR_ZERO bo then t else negb t, cpu)
    else (true, cpu) in
  let npc := u32 (pc cpu + 4) in
  let cpu :=
    if ctr_ok && cond_ok then
      set_pc (Z.land (u32 ((if bp_test AA opcode then 0 else operand_get PC cpu opcode)
                           + operand_get DP cpu opcode)) (u32 (-4))) cpu
    else set_pc npc cpu in
  let cpu := if bp_test LK opcode then set_lr npc cpu else cpu in
  Ok cpu.

Definition execute_compare (RB : operand) (CT : ctype)
    (opcode : Z) (cpu : powerpc_cpu) : outcome powerpc_cpu :=
  let a := operand_get operand_RA cpu opcode in
  let b := operand_get RB cpu opcode in
  let crfd := extract crfD_field opcode in
  Ok (increment_pc 4 (record_cr crfd
    (if conv CT a <? conv CT b then -1 else if conv CT b <? conv CT a then 1 else 0) cpu)).

Definition execute_cr_op (OP : op) (opcode : Z) (cpu : powerpc_cpu) : outcome powerpc_cpu :=
  let crbA := extract crbA_field opcode in
  let a := Z.land (Z.shiftr (cr cpu) (31 - crbA)) 1 in
  let crbB := extract crbB_field opcode in
  let b := Z.land (Z.shiftr (cr cpu) (31 - crbB)) 1 in
  let crbD := extract crbD_field opcode in
  let d := Z.land (op_apply2 (fe_round cpu) OP a b) 1 in
  Ok (increment_pc 4 (set_cr
    (Z.lor (Z.land (cr cpu) (u32 (Z.lnot (Z.shiftl 1 (31 - crbD)))))
       (u32 (Z.shiftl d (31 - crbD)))) cpu)).

(** ** Multiplication and division *)

(** [do_execute_divide<SB, OE>]. *)
Definition do_execute_divide (SB OE : bool) (RA RB : Z) (cpu : powerpc_cpu) : Z * powerpc_cpu :=
  let a := if SB then s32 RA else RA in
  let b := if SB then s32 RB else RB in
  if (b =? 0) || (SB && (u32 a =? 0x80000000) && (b =? -1)) then
    (if SB then u32 (Z.shiftr (s32 RA) 31) else 0,
     if OE then set_xer (xer_set_ov 1 (xer cpu)) cpu else cpu)
  else
    (u32 (Z.quot a b),
     if OE then set_xer (xer_set_ov 0 (xer cpu)) cpu else cpu).

Definition execute_divide (SB : bool) (OE Rc : bit_pred)
    (opcode : Z) (cpu : powerpc_cpu) : outcome powerpc_cpu :=
  let a := operand_get operand_RA cpu opcode in
  let b := operand_get operand_RB cpu opcode in
  let '(d, cpu) := do_execute_divide SB (bp_test OE opcode) a b cpu in
  let cpu := if bp_test Rc opcode then record_cr0 (s32 d) cpu else cpu in
  cpu ← operand_set operand_RD opcode d cpu;
  Ok (increment_pc 4 cpu).

(** The overflow test of [execute_multiply]. *)
Definition multiply_overflow (d : Z) : bool :=
  let h := Z.land d 0xffffffff80000000 in
  negb (h =? 0) && negb (h =? 0xffffffff80000000).

Definition execute_multiply (HI SB : bool) (OE Rc : bit_pred)
    (opcode : Z) (cpu : powerpc_cpu) : outcome powerpc_cpu :=
  let a := operand_get operand_RA cpu opcode in
  let b := operand_get operand_RB cpu opcode in
  let d := if SB then u64 (s32 a * s32 b) else u64 (a * b) in
  let cpu := if bp_test OE opcode
             then set_xer (xer_set_ov (bZ (multiply_overflow d)) (xer cpu)) cpu else cpu in
  let d := if HI then Z.shiftr d 32 else d in
  let cpu := if bp_test Rc opcode then record_cr0 (s32 (u32 d)) cpu else cpu in
  cpu ← operand_set operand_RD opcode (u32 d) cpu;
  Ok (increment_pc 4 cpu).

(** ** System registers *)

Definition execute_syscall (opcode : Z) (cpu : powerpc_cpu) : outcome powerpc_cpu :=
  cpu ← execute_illegal opcode cpu;
  Ok (increment_pc 4 cpu).

Definition execute_mcrf (opcode : Z) (cpu : powerpc_cpu) : outcome powerpc_cpu :=
  let crfS := extract crfS_field opcode in
  let crfD := extract crfD_field opcode in
  Ok (increment_pc 4 (set_cr (cr_set crfD (cr_get crfS (cr cpu)) (cr cpu)) cpu)).

Definition execute_mcrxr (opcode : Z) (cpu : powerpc_cpu) : outcome powerpc_cpu :=
  let crfD := extract crfD_field opcode in
  let x := xer_get (xer cpu) in
  let cpu := set_cr (cr_set crfD (Z.shiftr x 28) (cr cpu)) cpu in
  Ok (increment_pc 4 (set_xer (xer_set (Z.land x 0x0fffffff)) cpu)).

Definition execute_mtcrf (opcode : Z) (cpu : powerpc_cpu) : outcome powerpc_cpu :=
  let m := field2mask (extract CRM_field opcode) in
  Ok (increment_pc 4 (set_cr
    (Z.lor (Z.land (operand_get operand_RS cpu opcode) m)
       (Z.land (cr cpu) (u32 (Z.lnot m)))) cpu)).

Definition execute_mfmsr (opcode : Z) (cpu : powerpc_cpu) : outcome powerpc_cpu :=
  cpu ← operand_set operand_RD opcode 0xf072 cpu;
  Ok (increment_pc 4 cpu).

Definition SPR_XER := 1.
Definition SPR_LR := 8.
Definition SPR_CTR := 9.
Definition SPR_SDR1 := 25.
Definition SPR_PVR := 287.
Definition SPR_VRSAVE := 256.

Definition execute_mfspr (SPR : operand) (opcode : Z) (cpu : powerpc_cpu) : outcome powerpc_cpu :=
  let spr := operand_get SPR cpu opcode in
  let d :=
    if spr =? SPR_XER then xer_get (xer cpu)
    else if spr =? SPR_LR then lr cpu
    else if spr =? SPR_CTR then ctr cpu
    else if spr =? SPR_VRSAVE then vrsave cpu
    else if spr =? SPR_SDR1 then 0xdead001f
    else if spr =? SPR_PVR then PVR
    else 0 in
  cpu ← operand_set operand_RD opcode d cpu;
  Ok (increment_pc 4 cpu).

Definition execute_mtspr (SPR : operand) (opcode : Z) (cpu : powerpc_cpu) : outcome powerpc_cpu :=
  let spr := operand_get SPR cpu opcode in
  let s := operand_get operand_RS cpu opcode in
  let cpu :=
    if spr =? SPR_XER then set_xer (xer_set s) cpu
    else if spr =? SPR_LR then set_lr s cpu
    else if spr =? SPR_CTR then set_ctr s cpu
    else if spr =? SPR_VRSAVE then set_vrsave s cpu
    else cpu in
  Ok (increment_pc 4 cpu).

(** ** Time base *)

(** [(a * b) / c] with a 96-bit intermediate result. *)
Definition muldiv64 (a b c : Z) : Z :=
  let u_low := u32 a in
  let u_high := Z.shiftr a 32 in
  let rl := u64 (u_low * b) in
  let rh := u64 (u_high * b) in
  let rh := u64 (rh + Z.shiftr rl 32) in
  let res_high := u32 (rh / c) in
  let res_low := u32 (u64 (u64 (Z.shiftl (rh mod c) 32) + Z.land rl 0xffffffff) / c) in
  Z.lor (Z.shiftl res_high 32) res_low.

Definition get_tb_ticks (cpu : powerpc_cpu) : Z * powerpc_cpu :=
  (muldiv64 (GetTicks_usec (clock cpu)) TimebaseSpeed 1000000, tick cpu).

Definition execute_mftbr (TBR : operand) (opcode : Z) (cpu : powerpc_cpu) : outcome powerpc_cpu :=
  let tbr := operand_get TBR cpu opcode in
  '(d, cpu) ←
    (if tbr =? 268 then let (t, cpu) := get_tb_ticks cpu in Ok (u32 t, cpu)
     else if tbr =? 269 then let (t, cpu) := get_tb_ticks cpu in Ok (u32 (Z.shiftr t 32), cpu)
     else cpu ← execute_illegal opcode cpu; Ok (uninit, cpu));
  cpu ← operand_set operand_RD opcode d cpu;
  Ok (increment_pc 4 cpu).

(** ** Instruction cache management *)

Definition execute_invalidate_cache_range (cpu : powerpc_cpu) : powerpc_cpu :=
  if negb (cache_range_start cpu =? cache_range_end cpu) then
    let cpu := invalidate_cache_range (cache_range_start cpu) (cache_range_end cpu) cpu in
    set_cache_range 0 0 cpu
  else cpu.

Definition execute_icbi (RA RB : operand) (opcode : Z) (cpu : powerpc_cpu) : outcome powerpc_cpu :=
  let ea := u32 (operand_get RA cpu opcode + operand_get RB cpu opcode) in
  let block_start := u32 (ea - ea mod 32) in
  let cpu :=
    if block_start =? cache_range_end cpu then
      set_cache_range (cache_range_start cpu) (u64 (cache_range_end cpu + 32)) cpu
    else
      let cpu := execute_invalidate_cache_range cpu in
      set_cache_range block_start (u64 (block_start + 32)) cpu in
  Ok (increment_pc 4 cpu).

Definition execute_isync (opcode : Z) (cpu : powerpc_cpu) : outcome powerpc_cpu :=
  Ok (increment_pc 4 (execute_invalidate_cache_range cpu)).

End Exec.

(** ** The translator's helpers ([ppc-execute.hpp])

    They compute the flags from the signs of 32-bit values instead of from a
    64-bit sum. *)

Definition do_execute_addition (EX CA OE : bool) (RA RB : Z) (cpu : powerpc_cpu)
  : Z * powerpc_cpu :=
  let RD := u32 (RA + RB + (if EX then xer_ca (xer cpu) else 0)) in
  let _RA := s32 RA <? 0 in
  let _RB := s32 RB <? 0 in
  let _RD := s32 RD <? 0 in
  let cpu :=
    if EX then
      set_xer (xer_set_ca (bZ (xorb _RB ((xorb _RB _RA) && (xorb _RA _RD)))) (xer cpu)) cpu
    else if CA then set_xer (xer_set_ca (bZ (RD <? RA)) (xer cpu)) cpu
    else cpu in
  let cpu :=
    if OE then set_xer (xer_set_ov (bZ ((xorb _RB _RD) && (xorb _RA _RD))) (xer cpu)) cpu
    else cpu in
  (RD, cpu).

Definition do_execute_subtract (CA OE : bool) (RA RB : Z) (cpu : powerpc_cpu) : Z * powerpc_cpu :=
  let RD := u32 (RB - RA) in
  let _RA := s32 RA <? 0 in
  let _RB := s32 RB <? 0 in
  let _RD := s32 RD <? 0 in
  let cpu := if CA then set_xer (xer_set_ca (bZ (RD <=? RB)) (xer cpu)) cpu else cpu in
  let cpu :=
    if OE then set_xer (xer_set_ov (bZ ((xorb _RA _RB) && (xorb _RD _RB))) (xer cpu)) cpu
    else cpu in
  (RD, cpu).

Definition do_execute_subtract_extended (OE : bool) (RA RB : Z) (cpu : powerpc_cpu)
  : Z * powerpc_cpu :=
  let RD := u32 (u32 (Z.lnot RA) + RB + xer_ca (xer cpu)) in
  let _RA := s32 RA <? 0 in
  let _RB := s32 RB <? 0 in
  let _RD := s32 RD <? 0 in
  let cpu :=
    set_xer (xer_set_ca (bZ (xorb (negb _RA) ((xorb _RA _RD) && (xorb _RB _RD)))) (xer cpu)) cpu in
  let cpu :=
    if OE then set_xer (xer_set_ov (bZ ((xorb _RA _RB) && (xorb _RD _RB))) (xer cpu)) cpu
    else cpu in
  (RD, cpu).

(** ** Well-formedness *)

Lemma xer_set_ca_wf v x : xer_wf x -> is_uint 1 v -> xer_wf (xer_set_ca v x).
Proof.
  intros (? & ? & ? & ?) Hv. unfold xer_wf, xer_set_ca; cbn.
  rewrite trunc_small; [done|]. by apply (is_uint_mono 1).
Qed.

Lemma xer_set_ov_wf v x : xer_wf x -> is_uint 1 v -> xer_wf (xer_set_ov v x).
Proof.
  intros (? & ? & ? & ?) Hv. unfold xer_wf, xer_set_ov; cbn.
  rewrite !trunc_small; [|by apply (is_uint_mono 1)|apply (is_uint_mono 1); [lia|]].
  - split_and!; auto. by apply is_uint_lor.
  - by apply is_uint_lor.
Qed.

Lemma xer_get_range x : is_uint 32 (xer_get x).
Proof. apply u32_range. Qed.

Lemma is_uint_if (b : bool) w x y : is_uint w x -> is_uint w y -> is_uint w (if b then x else y).
Proof. by destruct b. Qed.
Lemma cpu_wf_if (b : bool) x y : cpu_wf x -> cpu_wf y -> cpu_wf (if b then x else y).
Proof. by destruct b. Qed.

#[export] Hint Resolve xer_set_ca_wf xer_set_ov_wf xer_get_range is_uint_if : word.
#[export] Hint Resolve cpu_wf_if : cpu.

Ltac wf_outcome :=
  cbn zeta;
  repeat first
    [ apply outcome_holds_ret; wf
    | eapply outcome_holds_bind; [apply operand_set_wf; wf|intros ? ?] ].

Section WfHandlers.
Context {FPU : HostFPU} {HOST : Host} {HL : HostLaws HOST}.

Lemma execute_illegal_wf op c : cpu_wf c -> outcome_holds cpu_wf (execute_illegal op c).
Proof. intros. unfold execute_illegal. destruct ignoreillegal; [wf_outcome|done]. Qed.

Lemma execute_addition_wf RA RB RC CA OE Rc op c :
  cpu_wf c -> outcome_holds cpu_wf (execute_addition RA RB RC CA OE Rc op c).
Proof. intros. unfold execute_addition. wf_outcome. Qed.

Lemma execute_generic_arith_wf OP RD RA RB RC OE Rc op c :
  cpu_wf c -> outcome_holds cpu_wf (execute_generic_arith OP RD RA RB RC OE Rc op c).
Proof. intros. unfold execute_generic_arith. wf_outcome. Qed.

Lemma op_ppc_rlwimi_range x y z t : is_uint 32 (op_ppc_rlwimi x y z t).
Proof.
  unfold op_ppc_rlwimi. apply is_uint_lor; [lia| |]; apply is_uint_land_l; try lia;
    [apply op_rotl_range|apply u32_range].
Qed.
#[local] Hint Resolve op_ppc_rlwimi_range : word.

Lemma execute_rlwimi_wf SH MA Rc op c :
  cpu_wf c -> outcome_holds cpu_wf (execute_rlwimi SH MA Rc op c).
Proof. intros. unfold execute_rlwimi. wf_outcome. Qed.

Lemma invalid_shift_range o r : is_uint 32 (invalid_shift o r).
Proof. destruct o; by try apply u32_range. Qed.

Lemma shiftr_31_range x : is_uint 32 x -> is_uint 1 (Z.shiftr x 31).
Proof.
  intros Hx. apply is_uint_bits; [lia|apply Z.shiftr_nonneg, Hx|].
  intros i Hi. rewrite Z.shiftr_spec by lia. apply (testbit_above 32); done || lia.
Qed.
#[local] Hint Resolve invalid_shift_range shiftr_31_range : word.

Lemma execute_shift_wf OP RD RA SH SO CA Rc op c :
  cpu_wf c -> outcome_holds cpu_wf (execute_shift OP RD RA SH SO CA Rc op c).
Proof. intros. unfold execute_shift. cbn zeta. destruct (Zb _); wf_outcome. Qed.

Lemma execute_branch_wf PC BO DP AA LK op c :
  cpu_wf c -> outcome_holds cpu_wf (execute_branch PC BO DP AA LK op c).
Proof.
  intros. unfold execute_branch. cbn zeta. destruct (BO_DECREMENT_CTR _); wf_outcome.
Qed.

Lemma execute_compare_wf RB CT op c :
  cpu_wf c -> outcome_holds cpu_wf (execute_compare RB CT op c).
Proof. intros. unfold execute_compare. wf_outcome. Qed.

Lemma execute_cr_op_wf OP op c : cpu_wf c -> outcome_holds cpu_wf (execute_cr_op OP op c).
Proof. intros. unfold execute_cr_op. wf_outcome. Qed.

Lemma is_uint_1_lit n : n = 0 \/ n = 1 -> is_uint 1 n.
Proof. intros [->| ->]; done. Qed.

Lemma do_execute_divide_wf SB OE a b c :
  cpu_wf c -> is_uint 32 (fst (do_execute_divide SB OE a b c)) /\
  cpu_wf (snd (do_execute_divide SB OE a b c)).
Proof.
  intros. assert (is_uint 1 1) by done. assert (is_uint 1 0) by done.
  unfold do_execute_divide. cbn zeta. destruct (_ || _); cbn [fst snd]; split; wf.
Qed.

Lemma execute_divide_wf SB OE Rc op c :
  cpu_wf c -> outcome_holds cpu_wf (execute_divide SB OE Rc op c).
Proof.
  intros Hc. unfold execute_divide. cbn zeta.
  pose proof (do_execute_divide_wf SB (bp_test OE op) (operand_get operand_RA c op)
    (operand_get operand_RB c op) c Hc) as [? ?].
  destruct (do_execute_divide _ _ _ _ _) as [d c']. cbn [fst snd] in *. wf_outcome.
Qed.

Lemma execute_multiply_wf HI SB OE Rc op c :
  cpu_wf c -> outcome_holds cpu_wf (execute_multiply HI SB OE Rc op c).
Proof. intros. unfold execute_multiply. wf_outcome. Qed.

Lemma execute_syscall_wf op c : cpu_wf c -> outcome_holds cpu_wf (execute_syscall op c).
Proof.
  intros. unfold execute_syscall. eapply outcome_holds_bind; [by apply execute_illegal_wf|].
  intros; wf_outcome.
Qed.

Lemma execute_mcrf_wf op c : cpu_wf c -> outcome_holds cpu_wf (execute_mcrf op c).
Proof. intros. unfold execute_mcrf. wf_outcome. Qed.

Lemma execute_mcrxr_wf op c : cpu_wf c -> outcome_holds cpu_wf (execute_mcrxr op c).
Proof. intros. unfold execute_mcrxr. wf_outcome. Qed.

Lemma field2mask_range i : is_uint 32 (field2mask i).
Proof.
  unfold field2mask. cbn zeta.
  repeat match goal with |- context [Zb ?b] => destruct (Zb b) end; by vm_compute.
Qed.

Lemma execute_mtcrf_wf op c : cpu_wf c -> outcome_holds cpu_wf (execute_mtcrf op c).
Proof. intros. unfold execute_mtcrf. wf_outcome. Qed.

Lemma execute_mfmsr_wf op c : cpu_wf c -> outcome_holds cpu_wf (execute_mfmsr op c).
Proof. intros. unfold execute_mfmsr. assert (is_uint 32 0xf072) by done. wf_outcome. Qed.

Lemma execute_mfspr_wf SPR op c : cpu_wf c -> outcome_holds cpu_wf (execute_mfspr SPR op c).
Proof. intros. unfold execute_mfspr. assert (is_uint 32 0xdead001f) by done. wf_outcome. Qed.

Lemma execute_mtspr_wf SPR op c : cpu_wf c -> outcome_holds cpu_wf (execute_mtspr SPR op c).
Proof. intros. unfold execute_mtspr. wf_outcome. Qed.

Lemma execute_mftbr_wf TBR op c : cpu_wf c -> outcome_holds cpu_wf (execute_mftbr TBR op c).
Proof.
  intros. unfold execute_mftbr. cbn zeta.
  apply (outcome_holds_bind (fun '(d, c) => is_uint 32 d /\ cpu_wf c)).
  - destruct (_ =? 268); [|destruct (_ =? 269)]; cbn [get_tb_ticks outcome_holds].
    + split; wf.
    + split; wf.
    + eapply outcome_holds_bind; [by apply execute_illegal_wf|].
      intros c' ?. cbn [outcome_holds]. split; wf.
  - intros [d c'] [? ?]. wf_outcome.
Qed.

Lemma execute_invalidate_cache_range_wf c : cpu_wf c -> cpu_wf (execute_invalidate_cache_range c).
Proof. intros. unfold execute_invalidate_cache_range. wf. Qed.
#[local] Hint Resolve execute_invalidate_cache_range_wf : cpu.

Lemma execute_icbi_wf RA RB op c : cpu_wf c -> outcome_holds cpu_wf (execute_icbi RA RB op c).
Proof. intros. unfold execute_icbi. wf_outcome. Qed.

Lemma execute_isync_wf op c : cpu_wf c -> outcome_holds cpu_wf (execute_isync op c).
Proof. intros. unfold execute_isync. wf_outcome. Qed.

End WfHandlers.

(** ** Flags of an addition *)

Lemma Zb_spec z : Zb z = negb (z =? 0).
Proof. done. Qed.

Lemma op_carry_add_spec a b c :
  is_uint 32 a -> is_uint 32 b -> is_uint 32 c ->
  op_carry_add a b c = (2 ^ 32 <=? a + b + c).
Proof.
  intros [? ?] [? ?] [? ?]. unfold op_carry_add.
  rewrite trunc_small by (split; [lia|]; change (2 ^ 64) with 18446744073709551616;
    change (2 ^ 32) with 4294967296 in *; lia).
  rewrite Z.shiftr_div_pow2 by lia. unfold Zb.
  destruct (Z.leb_spec (2 ^ 32) (a + b + c)) as [Hle|Hlt].
  - assert (1 <= (a + b + c) / 2 ^ 32) by (apply Z.div_le_lower_bound; lia). lia.
  - rewrite Z.div_small by lia. done.
Qed.

Lemma shiftr_sign_bit w z : 1 <= w -> is_uint w z -> Z.shiftr z (w - 1) = bZ (2 ^ (w - 1) <=? z).
Proof.
  intros Hw [? ?]. rewrite Z.shiftr_div_pow2 by lia.
  assert (E : 2 ^ w = 2 * 2 ^ (w - 1)) by (rewrite <- Z.pow_succ_r by lia; f_equal; lia).
  destruct (Z.leb_spec (2 ^ (w - 1)) z); cbn [bZ].
  - symmetry. apply (Z.div_unique _ _ _ (z - 2 ^ (w - 1))); lia.
  - by apply Z.div_small.
Qed.

(** The signed overflow of a sum, for sums that fit 33 bits. *)
Definition signed_overflow (s : Z) : bool := negb ((- 2 ^ 31 <=? s) && (s <? 2 ^ 31)).

Lemma op_overflow_add_spec a b c :
  - 2 ^ 32 <= s32 a + s32 b + s32 c < 2 ^ 32 ->
  op_overflow_add a b c = signed_overflow (s32 a + s32 b + s32 c).
Proof.
  unfold op_overflow_add, signed_overflow. generalize (s32 a + s32 b + s32 c) as s. intros s Hs.
  cbn zeta. rewrite (sext_small 64 s) by (try lia; cbn in *; lia).
  rewrite (shiftr_sign_bit 64), (shiftr_sign_bit 32) by (lia || (apply trunc_range; lia)).
  change (64 - 1) with 63. change (32 - 1) with 31.
  assert (E64 : (2 ^ 63 <=? u64 s) = (s <? 0)).
  { unfold trunc. change (2 ^ 63) with 9223372036854775808. change (2 ^ 64) with 18446744073709551616.
    change (2 ^ 32) with 4294967296 in Hs.
    destruct (Z.ltb_spec s 0); [rewrite <- (Z_mod_plus_full s 1)|];
      rewrite Z.mod_small by lia; lia. }
  assert (E32 : u32 s = if s <? 0 then s + 2 ^ 32 else s).
  { unfold trunc. change (2 ^ 32) with 4294967296 in *.
    destruct (Z.ltb_spec s 0); [rewrite <- (Z_mod_plus_full s 1)|];
      rewrite Z.mod_small by lia; lia. }
  rewrite E64, E32. change (2 ^ 31) with 2147483648. change (2 ^ 32) with 4294967296 in *.
  destruct (Z.ltb_spec s 0), (Z.leb_spec (- 2147483648) s), (Z.ltb_spec s 2147483648);
    try lia; split_cmp; done.
Qed.

Lemma xer_set_ca_bool b x : xer_set_ca (bZ b) x = XER (xer_so x) (xer_ov x) (bZ b) (xer_byte_count x).
Proof. by destruct b. Qed.
Lemma xer_set_ov_bool b x :
  xer_wf x ->
  xer_set_ov (bZ b) x = XER (Z.lor (xer_so x) (bZ b)) (bZ b) (xer_ca x) (xer_byte_count x).
Proof.
  intros (Hso & _). destruct x as [so ov ca n]; cbn in *.
  apply bit_range in Hso as [-> | ->]; by destruct b.
Qed.

(** Integer additions.  For every addition of the table (the carry input
    is 0, 1, CA or -1, with one of the two last operands at most 1) the result
    is the sum modulo 2^32; CA is the carry out of bit 0 and OV says that the
    signed sum does not fit, when the instruction records them, and SO
    accumulates OV. *)
Theorem execute_addition_spec RA RB RC CA OE Rc opcode c :
  cpu_wf c ->
  let a := operand_get RA c opcode in
  let b := operand_get RB c opcode in
  let ci := operand_get RC c opcode in
  is_uint 1 b \/ is_uint 1 ci ->
  exists c', execute_addition RA RB RC CA OE Rc opcode c = Ok c' /\
    gpr c' (extract rD_field opcode) = (a + b + ci) mod 2 ^ 32 /\
    xer_ca (xer c') = (if bp_test CA opcode then bZ (2 ^ 32 <=? a + b + ci) else xer_ca (xer c)) /\
    xer_ov (xer c') = (if bp_test OE opcode
                       then bZ (signed_overflow (s32 a + s32 b + s32 ci)) else xer_ov (xer c)) /\
    xer_so (xer c') = (if bp_test OE opcode then Z.lor (xer_so (xer c)) (xer_ov (xer c'))
                       else xer_so (xer c)) /\
    pc c' = u32 (pc c + 4) /\ mem c' = mem c.
Proof.
  intros Hc a b ci Hbc.
  assert (Ha : is_uint 32 a) by (unfold a; wf).
  assert (Hb : is_uint 32 b) by (unfold b; wf).
  assert (Hci : is_uint 32 ci) by (unfold ci; wf).
  assert (Hs : - 2 ^ 32 <= s32 a + s32 b + s32 ci < 2 ^ 32).
  { pose proof (sext_range 32 a ltac:(lia)). pose proof (sext_range 32 b ltac:(lia)).
    pose proof (sext_range 32 ci ltac:(lia)).
    assert (H01 : forall x, is_uint 1 x -> s32 x = x).
    { intros x [-> | ->]%bit_range; done. }
    change (32 - 1) with 31 in *. change (2 ^ 31) with 2147483648 in *.
    change (2 ^ 32) with 4294967296 in *.
    destruct Hbc as [Hx|Hx]; rewrite (H01 _ Hx) in *; apply bit_range in Hx; lia. }
  pose proof (op_carry_add_spec a b ci Ha Hb Hci) as Hcar.
  pose proof (op_overflow_add_spec a b ci Hs) as Hov.
  eexists. split; [reflexivity|]. fold a b ci. rewrite Hcar, Hov.
  pose proof (gpr_index c (extract rD_field opcode) Hc ltac:(apply extract_5; solve_bf)) as Hlen.
  pose proof (xer_range c Hc) as Hx.
  destruct (bp_test CA opcode), (bp_test OE opcode), (bp_test Rc opcode);
    rewrite ?xer_set_ov_bool by wf; rewrite ?xer_set_ca_bool;
    simpl_cpu; rewrite Zlookup_insert_eq by done; done.
Qed.

(** A state to run single instructions on: r4 and r5 hold [x] and [y]. *)
Definition cpu_with (x y : Z) : powerpc_cpu := set_gpr 4 x (set_gpr 5 y (cpu_init ∅)).

Lemma cpu_with_wf x y : is_uint 32 x -> is_uint 32 y -> cpu_wf (cpu_with x y).
Proof.
  intros. assert (cpu_wf (cpu_init ∅)) by (apply cpu_init_wf; apply map_Forall_empty).
  unfold cpu_with. generalize dependent (cpu_init ∅). intros c Hc. wf.
Qed.

(** addo. r3,r4,r5 *)
Lemma execute_addition_spec_witness :
  exists c', execute_addition operand_RA operand_RB operand_NONE CA_BIT_0 OE_BIT_G RC_BIT_G
      0x7c642e15 (cpu_with 0x7fffffff 1) = Ok c' /\
    gpr c' 3 = 0x80000000 /\ xer_ov (xer c') = 1.
Proof.
  destruct (execute_addition_spec operand_RA operand_RB operand_NONE
      CA_BIT_0 OE_BIT_G RC_BIT_G 0x7c642e15 (cpu_with 0x7fffffff 1)) as (c' & H & Hd & _ & Hov & _).
  { by apply cpu_with_wf. }
  { right. done. }
  exists c'. split; [exact H|].
  replace (extract rD_field 0x7c642e15) with 3 in Hd by reflexivity.
  rewrite Hd, Hov. split; by vm_compute.
Defined.

(** ** The translator's flag formulas *)

Lemma sign_uint a : is_uint 32 a -> (s32 a <? 0) = (2 ^ 31 <=? a).
Proof.
  intros Ha. pose proof Ha as [? ?]. destruct (sext_cases 32 a ltac:(lia) Ha) as [[? ->]|[? ->]];
    change (32 - 1) with 31 in *; split_cmp; done.
Qed.

Lemma u32_cases s : 0 <= s < 2 ^ 33 -> u32 s = if 2 ^ 32 <=? s then s - 2 ^ 32 else s.
Proof.
  unfold trunc. change (2 ^ 33) with 8589934592. change (2 ^ 32) with 4294967296. intros Hs.
  destruct (Z.leb_spec 4294967296 s); [rewrite <- (Z_mod_plus_full s (-1))|];
    rewrite Z.mod_small by lia; lia.
Qed.

Lemma u32_lnot a : is_uint 32 a -> u32 (Z.lnot a) = 2 ^ 32 - 1 - a.
Proof.
  intros [? ?]. unfold trunc, Z.lnot. rewrite <- (Z_mod_plus_full _ 1).
  rewrite Z.mod_small by lia. lia.
Qed.

Ltac flag_arith :=
  change (2 ^ 31) with 2147483648 in *; change (2 ^ 32) with 4294967296 in *;
  repeat match goal with
  | |- context [if Z.leb ?x ?y then _ else _] => destruct (Z.leb_spec x y)
  end;
  repeat match goal with
  | |- context [Z.leb ?x ?y] => destruct (Z.leb_spec x y)
  | |- context [Z.ltb ?x ?y] => destruct (Z.ltb_spec x y)
  end; try done; exfalso; lia.

Section FlagFormulas.
Context (a b ci : Z) (Ha : is_uint 32 a) (Hb : is_uint 32 b) (Hci : is_uint 1 ci).

Lemma sum_range : 0 <= a + b + ci < 2 ^ 33.
Proof using Ha Hb Hci.
  destruct Ha, Hb. apply bit_range in Hci. change (2 ^ 33) with 8589934592.
  change (2 ^ 32) with 4294967296 in *. lia.
Qed.

Lemma carry_by_signs :
  let d := u32 (a + b + ci) in
  xorb (s32 b <? 0) ((xorb (s32 b <? 0) (s32 a <? 0)) && (xorb (s32 a <? 0) (s32 d <? 0))) =
  op_carry_add a b ci.
Proof using Ha Hb Hci.
  cbn zeta. rewrite op_carry_add_spec by (done || by apply (is_uint_mono 1)).
  rewrite !sign_uint by (done || apply u32_range).
  rewrite u32_cases by apply sum_range. destruct Ha, Hb. apply bit_range in Hci. flag_arith.
Qed.

Lemma overflow_by_signs :
  let d := u32 (a + b + ci) in
  (xorb (s32 b <? 0) (s32 d <? 0)) && (xorb (s32 a <? 0) (s32 d <? 0)) = op_overflow_add a b ci.
Proof using Ha Hb Hci.
  cbn zeta. assert (Hsc : s32 ci = ci) by (destruct (bit_range _ Hci) as [-> | ->]; done).
  rewrite op_overflow_add_spec; cycle 1.
  { rewrite Hsc. pose proof (sext_range 32 a ltac:(lia)). pose proof (sext_range 32 b ltac:(lia)).
    apply bit_range in Hci. change (32 - 1) with 31 in *. change (2 ^ 31) with 2147483648 in *.
    change (2 ^ 32) with 4294967296 in *. lia. }
  rewrite !sign_uint by (done || apply u32_range). rewrite Hsc, u32_cases by apply sum_range.
  unfold signed_overflow.
  destruct (sext_cases 32 a ltac:(lia) Ha) as [[? ->]|[? ->]],
    (sext_cases 32 b ltac:(lia) Hb) as [[? ->]|[? ->]];
    change (32 - 1) with 31 in *; destruct Ha, Hb; apply bit_range in Hci; flag_arith.
Qed.
End FlagFormulas.

Lemma carry_by_wrap a b :
  is_uint 32 a -> is_uint 32 b -> (u32 (a + b + 0) <? a) = op_carry_add a b 0.
Proof.
  intros Ha Hb. rewrite op_carry_add_spec by done. rewrite u32_cases by (by apply sum_range).
  destruct Ha, Hb. flag_arith.
Qed.

(** The flags the interpreter records for the sum [a + b + ci]. *)
Definition set_flags (CA OE : bool) (a b ci : Z) (cpu : powerpc_cpu) : powerpc_cpu :=
  let cpu := if CA then set_xer (xer_set_ca (bZ (op_carry_add a b ci)) (xer cpu)) cpu else cpu in
  if OE then set_xer (xer_set_ov (bZ (op_overflow_add a b ci)) (xer cpu)) cpu else cpu.

Lemma negb_sign a : is_uint 32 a -> (s32 (u32 (Z.lnot a)) <? 0) = negb (s32 a <? 0).
Proof.
  intros Ha. rewrite !sign_uint by (done || apply u32_range). rewrite u32_lnot by done.
  destruct Ha. flag_arith.
Qed.

(** The translator's helpers agree with the interpreter.  The additions
    and subtractions of [ppc-execute.hpp] derive carry and overflow from the
    signs of 32-bit values; result and flags are those of the 64-bit sums the
    interpreter forms, a subtraction being the sum with the complement. *)
Theorem helpers_agree (EX CA OE : bool) a b cpu :
  cpu_wf cpu -> is_uint 32 a -> is_uint 32 b ->
  let ci := if EX then xer_ca (xer cpu) else 0 in
  let na := u32 (Z.lnot a) in
  do_execute_addition EX CA OE a b cpu =
    (u32 (a + b + ci), set_flags (EX || CA) OE a b ci cpu) /\
  do_execute_subtract CA OE a b cpu = (u32 (na + b + 1), set_flags CA OE na b 1 cpu) /\
  do_execute_subtract_extended OE a b cpu =
    (u32 (na + b + xer_ca (xer cpu)), set_flags true OE na b (xer_ca (xer cpu)) cpu).
Proof.
  intros Hc Ha Hb ci na. destruct (xer_range cpu Hc) as (_ & _ & Hca & _).
  assert (Hci : is_uint 1 ci) by (unfold ci; by destruct EX).
  assert (Hna : is_uint 32 na) by apply u32_range.
  assert (Hn : (s32 na <? 0) = negb (s32 a <? 0)) by (by apply negb_sign).
  assert (Hov : forall x, is_uint 1 x -> let d := u32 (na + b + x) in
    (xorb (s32 a <? 0) (s32 b <? 0)) && (xorb (s32 d <? 0) (s32 b <? 0)) = op_overflow_add na b x).
  { intros x Hx d. rewrite <- (overflow_by_signs na b x), Hn by done. fold d.
    by destruct (s32 a <? 0), (s32 b <? 0), (s32 d <? 0). }
  split_and!.
  - unfold do_execute_addition, set_flags. fold ci. cbn zeta.
    rewrite carry_by_signs, overflow_by_signs by done.
    destruct EX; [done|]. destruct CA; [|done].
    unfold ci. by rewrite carry_by_wrap.
  - assert (Ed : u32 (b - a) = u32 (na + b + 1)).
    { unfold na. rewrite <- Z.add_assoc, trunc_add_l. f_equal. unfold Z.lnot. lia. }
    unfold do_execute_subtract, set_flags. cbn zeta. rewrite Ed, Hov by done.
    replace (u32 (na + b + 1) <=? b) with (op_carry_add na b 1); [done|].
    rewrite op_carry_add_spec, u32_cases by (done || by apply sum_range).
    unfold na. rewrite u32_lnot by done. destruct Ha, Hb. flag_arith.
  - unfold do_execute_subtract_extended, set_flags. cbn zeta. fold na. rewrite Hov by done.
    rewrite <- (carry_by_signs na b (xer_ca (xer cpu))), Hn by done. cbn zeta.
    do 2 f_equal. by destruct (s32 a <? 0), (s32 b <? 0), (s32 (u32 _) <? 0).
Qed.

Lemma helpers_agree_witness :
  fst (do_execute_subtract true true 1 0x80000000 (cpu_with 0 0)) = 0x7fffffff /\
  xer_ov (xer (snd (do_execute_subtract true true 1 0x80000000 (cpu_with 0 0)))) = 1.
Proof.
  destruct (helpers_agree false true true 1 0x80000000 (cpu_with 0 0)) as (_ & H & _);
    [by apply cpu_with_wf|done|done|].
  rewrite H. split; by vm_compute.
Defined.
