(* ===== verification/IntSpec.v ===== *)
(** What the integer, branch and system handlers of [ExecInt] compute: the
    arithmetic they implement, stated on the numbers the registers hold, and
    two places where the code does not do what it means to. *)
From S2P Require Import Prelude Bitfields Registers HostFPU Operations Memory Handlers BlockCache Cpu Operands ExecInt.

(** Reading the register a handler has just written. *)
Lemma gpr_result c i v :
  cpu_wf c -> 0 <= i <= 31 -> gpr (increment_pc 4 (set_gpr i v c)) i = v.
Proof.
  intros Hc Hi. simpl_cpu. apply Zlookup_insert_eq. by apply gpr_index.
Qed.

Lemma cpu_with_4 x y : gpr (cpu_with x y) 4 = x.
Proof. reflexivity. Qed.
Lemma cpu_with_5 x y : gpr (cpu_with x y) 5 = y.
Proof. reflexivity. Qed.

(** ** Multiplication *)

Lemma s32_bounds a : - 2147483648 <= s32 a < 2147483648.
Proof. pose proof (sext_range 32 a ltac:(lia)). change (2 ^ (32 - 1)) with 2147483648 in *. lia. Qed.

Lemma land_high_33 d :
  is_uint 64 d -> Z.land d 0xffffffff80000000 = Z.shiftl (Z.shiftr d 31) 31.
Proof.
  intros Hd. replace 0xffffffff80000000 with (Z.shiftl (Z.ones 33) 31) by reflexivity.
  apply Z.bits_inj'; intros i Hi. push_testbit. destruct (Z.ltb_spec i 64).
  - split_cmp; close_bits.
  - rewrite (testbit_above 64 d i) by (done || lia). split_cmp; close_bits.
Qed.

Lemma multiply_overflow_high d :
  is_uint 64 d -> multiply_overflow d = negb (d / 2 ^ 31 =? 0) && negb (d / 2 ^ 31 =? 2 ^ 33 - 1).
Proof.
  intros Hd. unfold multiply_overflow. rewrite land_high_33 by done.
  rewrite Z.shiftl_mul_pow2, Z.shiftr_div_pow2 by lia. generalize (d / 2 ^ 31) as q. intros q.
  replace (q * 2 ^ 31 =? 0) with (q =? 0) by (change (2 ^ 31) with 2147483648; lia).
  replace (q * 2 ^ 31 =? 0xffffffff80000000) with (q =? 2 ^ 33 - 1);
    [done|change (2 ^ 31) with 2147483648; change (2 ^ 33) with 8589934592; lia].
Qed.

(** A signed product overflows 32 bits exactly when its top 33 bits differ. *)
Lemma multiply_overflow_signed p :
  - 2 ^ 62 <= p <= 2 ^ 62 -> multiply_overflow (u64 p) = signed_overflow p.
Proof.
  intros Hp. rewrite multiply_overflow_high by (apply trunc_range; lia).
  assert (E : u64 p = if p <? 0 then p + 2 ^ 64 else p).
  { unfold trunc. change (2 ^ 62) with 4611686018427387904 in Hp.
    change (2 ^ 64) with 18446744073709551616.
    destruct (Z.ltb_spec p 0); [rewrite <- (Z_mod_plus_full p 1)|];
      rewrite Z.mod_small by lia; lia. }
  rewrite E. unfold signed_overflow.
  change (2 ^ 31) with 2147483648. change (2 ^ 33) with 8589934592.
  change (2 ^ 64) with 18446744073709551616. change (2 ^ 62) with 4611686018427387904 in Hp.
  destruct (Z.ltb_spec p 0).
  - replace ((p + 18446744073709551616) / 2147483648) with (p / 2147483648 + 8589934592).
    2:{ replace 18446744073709551616 with (8589934592 * 2147483648) by reflexivity.
        by rewrite Z_div_plus_full. }
    pose proof (Z.div_mod p 2147483648 ltac:(lia)). pose proof (Z.mod_pos_bound p 2147483648 ltac:(lia)).
    split_cmp; try done; lia.
  - pose proof (Z.div_mod p 2147483648 ltac:(lia)). pose proof (Z.mod_pos_bound p 2147483648 ltac:(lia)).
    split_cmp; try done; lia.
Qed.

(** Multiplication.  [mullw] leaves the low word of the product and sets
    OV exactly when the signed product does not fit 32 bits; [mulhw] and
    [mulhwu] leave the high word of the 64-bit signed or unsigned product. *)
Theorem execute_multiply_spec (HI SB : bool) OE Rc opcode c :
  cpu_wf c ->
  let a := gpr c (extract rA_field opcode) in
  let b := gpr c (extract rB_field opcode) in
  let p := if SB then s32 a * s32 b else a * b in
  exists c', execute_multiply HI SB OE Rc opcode c = Ok c' /\
    gpr c' (extract rD_field opcode) = u32 (if HI then p / 2 ^ 32 else p) /\
    (bp_test OE opcode = true -> SB = true -> xer_ov (xer c') = bZ (signed_overflow p)).
Proof.
  intros Hc a b p.
  assert (Ha : is_uint 32 a) by (unfold a; wf).
  assert (Hb : is_uint 32 b) by (unfold b; wf).
  assert (Hp : - 2 ^ 62 <= p < 2 ^ 64).
  { unfold p. destruct SB.
    - pose proof (s32_bounds a). pose proof (s32_bounds b). change (2 ^ 62) with (2147483648 * 2147483648).
      change (2 ^ 64) with 18446744073709551616. nia.
    - destruct Ha, Hb. change (2 ^ 32) with 4294967296 in *. change (2 ^ 62) with 4611686018427387904.
      change (2 ^ 64) with (4294967296 * 4294967296). nia. }
  eexists. split; [reflexivity|]. cbn [operand_get]. fold a b.
  replace (if SB then u64 (s32 a * s32 b) else u64 (a * b)) with (u64 p) by (unfold p; by destruct SB).
  set (c1 := if bp_test OE opcode then _ else c).
  assert (Hc1 : cpu_wf c1) by (unfold c1; wf).
  set (d := if HI then _ else u64 p).
  assert (Ed : u32 d = u32 (if HI then p / 2 ^ 32 else p)).
  { unfold d. destruct HI.
    - rewrite Z.shiftr_div_pow2 by lia. unfold trunc.
      rewrite (Z.mod_eq p (2 ^ 64)) by lia.
      replace (p - 2 ^ 64 * (p / 2 ^ 64)) with (p + (- 2 ^ 32 * (p / 2 ^ 64)) * 2 ^ 32)
        by (change (2 ^ 64) with (2 ^ 32 * 2 ^ 32); lia).
      rewrite Z_div_plus_full by lia.
      replace (- 2 ^ 32 * (p / 2 ^ 64)) with (- (p / 2 ^ 64) * 2 ^ 32) by lia.
      by rewrite Z_mod_plus_full.
    - by apply trunc_trunc. }
  split.
  - rewrite gpr_result; [done| |apply extract_5; solve_bf]. wf.
  - intros HOE HSB. unfold c1. rewrite HOE.
    rewrite xer_set_ov_bool by wf. destruct (bp_test Rc opcode); simpl_cpu; cbn [xer_ov];
      rewrite multiply_overflow_signed; try done; unfold p in *; rewrite HSB in *;
      pose proof (s32_bounds a); pose proof (s32_bounds b);
      change (2 ^ 62) with (2147483648 * 2147483648); nia.
Qed.

(** mullwo r3,r4,r5 *)
Lemma execute_multiply_spec_witness :
  exists c', execute_multiply false true OE_BIT_G RC_BIT_G 0x7c642dd6 (cpu_with 0x80000000 0xffffffff) = Ok c' /\
    gpr c' 3 = 0x80000000 /\ xer_ov (xer c') = 1.
Proof.
  destruct (execute_multiply_spec false true OE_BIT_G RC_BIT_G 0x7c642dd6
    (cpu_with 0x80000000 0xffffffff)) as (c' & H & Hd & Hov); [by apply cpu_with_wf|].
  exists c'. split; [exact H|]. replace (extract rD_field 0x7c642dd6) with 3 in Hd by reflexivity.
  rewrite Hd, Hov by done. split; by vm_compute.
Defined.

(** ** Division *)

Lemma s32_u32 q : - 2 ^ 31 <= q < 2 ^ 31 -> s32 (u32 q) = q.
Proof.
  intros Hq. unfold sext. rewrite trunc_trunc by lia.
  pose proof (sext_small 32 q ltac:(lia)) as H. unfold sext in H. by apply H.
Qed.

(** The quotient of two 32-bit signed numbers fits 32 bits but in one case. *)
Lemma quot_range x y :
  - 2 ^ 31 <= x < 2 ^ 31 -> y <> 0 -> (x = - 2 ^ 31 -> y <> -1) ->
  - 2 ^ 31 <= Z.quot x y < 2 ^ 31.
Proof.
  change (2 ^ 31) with 2147483648. intros Hx Hy Hxy.
  assert (Hq : Z.abs (Z.quot x y) = Z.abs x / Z.abs y).
  { rewrite <- Z.quot_abs by done. apply Z.quot_div_nonneg; lia. }
  destruct (decide (x = -2147483648)) as [->|Hne].
  - destruct (decide (y = 1)) as [->|]; [done|].
    assert (Z.abs (-2147483648) / Z.abs y <= 1073741824).
    { apply Z.div_le_upper_bound; [lia|]. specialize (Hxy eq_refl). lia. }
    lia.
  - assert (Z.abs x / Z.abs y <= Z.abs x) by (apply Z.div_le_upper_bound; nia). lia.
Qed.

(** Division.  With a divisor other than 0 (and other than -1 for the
    most negative dividend) the result is the quotient truncated towards
    zero: it leaves a remainder smaller than the divisor with the sign of the
    dividend; OV is cleared.  In the two excluded cases every bit of the
    result is the sign of the dividend (zero for [divwu]) and OV is set. *)
Theorem execute_divide_spec (SB : bool) OE Rc opcode c :
  cpu_wf c ->
  let a := gpr c (extract rA_field opcode) in
  let b := gpr c (extract rB_field opcode) in
  let x := if SB then s32 a else a in
  let y := if SB then s32 b else b in
  let bad := (y =? 0) || (SB && (x =? - 2 ^ 31) && (y =? -1)) in
  exists c', execute_divide SB OE Rc opcode c = Ok c' /\
    (bp_test OE opcode = true -> xer_ov (xer c') = bZ bad) /\
    (bad = true -> gpr c' (extract rD_field opcode) =
       if SB && (2 ^ 31 <=? a) then 0xffffffff else 0) /\
    (bad = false -> exists q r, x = q * y + r /\ Z.abs r < Z.abs y /\ 0 <= r * x /\
       (if SB then s32 (gpr c' (extract rD_field opcode)) else gpr c' (extract rD_field opcode)) = q).
Proof.
  intros Hc a b x y bad.
  assert (Ha : is_uint 32 a) by (unfold a; wf).
  assert (Hb : is_uint 32 b) by (unfold b; wf).
  assert (Ebad : (y =? 0) || (SB && (u32 x =? 0x80000000) && (y =? -1)) = bad).
  { unfold bad, x. destruct SB; [|done]. cbn [andb]. f_equal. f_equal.
    rewrite trunc_sext, trunc_small by (done || lia).
    destruct Ha. destruct (sext_cases 32 a ltac:(lia) ltac:(done)) as [[? ->]|[? ->]];
      change (2 ^ (32 - 1)) with 2147483648 in *; change (2 ^ 31) with 2147483648;
      change (2 ^ 32) with 4294967296 in *; lia. }
  pose proof (extract_5 rD_field opcode ltac:(solve_bf) ltac:(solve_bf)) as Hd.
  unfold execute_divide. cbn [operand_get]. fold a b. unfold do_execute_divide.
  change (if SB then s32 a else a) with x. change (if SB then s32 b else b) with y.
  cbn zeta. rewrite Ebad. clear Ebad. destruct bad eqn:Eb.
  - eexists. split; [reflexivity|].
    assert (is_uint 1 1) by done.
    split_and!.
    + intros ->. change 1 with (bZ true). rewrite xer_set_ov_bool by wf.
      destruct (bp_test Rc opcode); simpl_cpu; done.
    + intros _. rewrite gpr_result by (done || wf). destruct SB; [|done].
      cbn [andb]. rewrite Z.shiftr_div_pow2 by lia. pose proof (s32_bounds a). destruct Ha.
      destruct (sext_cases 32 a ltac:(lia) ltac:(done)) as [[? E]|[? E]]; rewrite E in *;
        change (2 ^ (32 - 1)) with 2147483648 in *; change (2 ^ 31) with 2147483648;
        change (2 ^ 32) with 4294967296 in *.
      * rewrite Z.div_small by lia. by split_cmp.
      * replace ((a - 4294967296) / 2147483648) with (-1); [by split_cmp|].
        apply (Z.div_unique _ _ _ (a - 2147483648)); lia.
    + done.
  - eexists. split; [reflexivity|].
    assert (is_uint 1 0) by done. split_and!.
    + intros ->. change 0 with (bZ false). rewrite xer_set_ov_bool by wf.
      destruct (bp_test Rc opcode); simpl_cpu; done.
    + done.
    + intros _. rewrite gpr_result by (done || wf).
      unfold bad in Eb. apply orb_false_iff in Eb as [Ey Eb]. apply Z.eqb_neq in Ey.
      exists (Z.quot x y), (Z.rem x y). split_and!.
      * pose proof (Z.quot_rem x y Ey). lia.
      * by apply Z.rem_bound_abs.
      * destruct (decide (Z.rem x y = 0)) as [->|Hr]; [lia|].
        pose proof (Z.rem_sign_nz x y Ey Hr). destruct x, (Z.rem _ y); cbn in *; lia.
      * unfold x, y in *. destruct SB.
        { apply s32_u32. apply quot_range; [by apply s32_bounds|done|].
          intros Ex Hy. rewrite Ex, Hy in Eb. done. }
        { apply trunc_small. destruct Ha, Hb.
          assert (0 <= Z.quot a b) by (apply Z.quot_pos; lia).
          assert (Z.quot a b <= a).
          { rewrite Z.quot_div_nonneg by lia. apply Z.div_le_upper_bound; nia. }
          split; lia. }
Qed.

(** divwo r3,r4,r5 *)
Lemma execute_divide_spec_witness :
  exists c', execute_divide true OE_BIT_G RC_BIT_G 0x7c642fd6 (cpu_with 0xfffffff9 2) = Ok c' /\
    xer_ov (xer c') = 0 /\
    exists q r, -7 = q * 2 + r /\ Z.abs r < Z.abs 2 /\ 0 <= r * -7 /\ s32 (gpr c' 3) = q.
Proof.
  destruct (execute_divide_spec true OE_BIT_G RC_BIT_G 0x7c642fd6 (cpu_with 0xfffffff9 2))
    as (c' & H & Hov & _ & Hq); [by apply cpu_with_wf|].
  exists c'. split; [exact H|]. split; [rewrite Hov by done; by vm_compute|].
  exact (Hq eq_refl).
Defined.

(** ** Shifts *)

Lemma low_mask n : 0 <= n < 32 -> u32 (Z.lnot (shl32 0xffffffff n)) = Z.ones n.
Proof.
  intros Hn. unfold shl32. rewrite Z.mod_small by lia. rewrite ones32. bits.
Qed.

Lemma s32_mod r n : is_uint 32 r -> 0 <= n <= 32 -> s32 r mod 2 ^ n = r mod 2 ^ n.
Proof.
  intros Hr Hn. destruct (sext_cases 32 r ltac:(lia) Hr) as [[_ ->]|[_ ->]]; [done|].
  replace (2 ^ 32) with (2 ^ (32 - n) * 2 ^ n) by (rewrite <- Z.pow_add_r by lia; f_equal; lia).
  replace (r - 2 ^ (32 - n) * 2 ^ n) with (r + (- 2 ^ (32 - n)) * 2 ^ n) by lia.
  by rewrite Z_mod_plus_full.
Qed.

Lemma sign_test r : is_uint 32 r -> Zb (Z.land r 0x80000000) = (s32 r <? 0).
Proof.
  intros Hr. rewrite sign_uint by done. replace 0x80000000 with (2 ^ 31) by reflexivity.
  rewrite Zb_land_pow2 by lia. destruct (Z.leb_spec (2 ^ 31) r) as [Hle|Hlt].
  - destruct Hr as [? Hr]. replace 31 with (Z.log2 r); [apply Z.bit_log2; lia|].
    apply Z.log2_unique; [lia|]. by split.
  - apply (testbit_above 31); [split; [apply Hr|done]|lia..].
Qed.

(** What a shift by 0 to 63 does to a 32-bit value. *)
Definition shift_result (OP : op) (r n : Z) : Z :=
  match OP with
  | Op_shll => u32 (r * 2 ^ n)
  | Op_shrl => r / 2 ^ n
  | _ => u32 (s32 r / 2 ^ n)
  end.

Lemma shift_in_range m OP r n :
  (OP = Op_shll \/ OP = Op_shrl \/ OP = Op_shra) -> is_uint 32 r -> 0 <= n < 32 ->
  u32 (@op_apply2 null_fpu m OP r n) = shift_result OP r n.
Proof.
  intros HOP Hr Hn.
  assert (Hn' : is_uint 32 n) by (split; lia).
  destruct HOP as [->|[->| ->]]; cbn [op_apply2 shift_result]; unfold on2, shl32, shr32; cbn [conv];
    rewrite !(trunc_small 32 n), ?(trunc_small 32 r) by done; rewrite Z.mod_small by lia.
  - rewrite !trunc_trunc by lia. by rewrite Z.shiftl_mul_pow2 by lia.
  - rewrite trunc_trunc by lia. rewrite trunc_small by (apply is_uint_shiftr; done || lia).
    by rewrite Z.shiftr_div_pow2 by lia.
  - rewrite trunc_trunc by lia. by rewrite Z.shiftr_div_pow2 by lia.
Qed.

Lemma big_pow n : 32 <= n -> 4294967296 <= 2 ^ n.
Proof. intros. change 4294967296 with (2 ^ 32). apply Z.pow_le_mono_r; lia. Qed.

Lemma shift_out_of_range OP r n :
  (OP = Op_shll \/ OP = Op_shrl \/ OP = Op_shra) -> is_uint 32 r -> 32 <= n ->
  invalid_shift OP r = shift_result OP r n.
Proof.
  intros HOP Hr Hn. pose proof (big_pow n Hn). pose proof Hr as [? Hr2].
  change (2 ^ 32) with 4294967296 in Hr2.
  destruct HOP as [->|[->| ->]]; cbn [invalid_shift shift_result].
  - symmetry. unfold trunc. replace (2 ^ n) with (2 ^ (n - 32) * 2 ^ 32)
      by (rewrite <- Z.pow_add_r by lia; f_equal; lia).
    rewrite Z.mul_assoc. apply Z_mod_mult.
  - symmetry. apply Z.div_small. lia.
  - f_equal. rewrite (shiftr_sign_bit 32) by (done || lia). change (32 - 1) with 31.
    rewrite <- sign_uint by done. pose proof (s32_bounds r).
    destruct (Z.ltb_spec (s32 r) 0); cbn [bZ].
    + symmetry. replace (0 - 1) with (-1) by lia. symmetry.
      apply (Z.div_unique _ _ _ (s32 r + 2 ^ n)); lia.
    + symmetry. apply Z.div_small. lia.
Qed.

(** CA of an algebraic right shift: a negative operand loses one bits. *)
Definition shift_carry (r n : Z) : bool := (s32 r <? 0) && negb (s32 r mod 2 ^ n =? 0).

(** Shifts.  [slw], [srw], [sraw] and [srawi] shift by any count from 0 to
    63 (the source masks the count and treats counts of 32 and more apart);
    the algebraic shift rounds down, and CA says that a negative operand lost
    one bits, so that adding CA ([addze]) gives the quotient rounded towards
    zero. *)
Theorem execute_shift_spec {FPU : HostFPU} OP SH k CA Rc opcode c :
  cpu_wf c -> 0 <= k <= 63 -> OP = Op_shll \/ OP = Op_shrl \/ OP = Op_shra ->
  (bp_test CA opcode = true -> OP = Op_shra) ->
  let r := gpr c (extract rS_field opcode) in
  let n := Z.land (operand_get SH c opcode) k in
  exists c', execute_shift OP operand_RA operand_RS SH (Op_andi k) CA Rc opcode c = Ok c' /\
    gpr c' (extract rA_field opcode) = shift_result OP r n /\
    xer_ca (xer c') = (if bp_test CA opcode then bZ (shift_carry r n) else xer_ca (xer c)).
Proof.
  intros Hc Hk HOP HCA r n.
  assert (Hr : is_uint 32 r) by (unfold r; wf).
  assert (Hn : is_uint 6 n) by (apply is_uint_land_r; [lia|split; lia]).
  assert (En : op_andi k (operand_get SH c opcode) = n).
  { unfold op_andi. rewrite trunc_small; [done|by wf]. }
  pose proof (extract_5 rA_field opcode ltac:(solve_bf) ltac:(solve_bf)) as Hd.
  assert (H5 : Zb (Z.land n 0x20) = (32 <=? n)).
  { assert (E5 : Zb (Z.land n 0x20) = Z.testbit n 5) by (apply (Zb_land_pow2 n 5); lia).
    rewrite E5. destruct (Z.leb_spec 32 n).
    - replace 5 with (Z.log2 n); [apply Z.bit_log2; lia|].
      destruct Hn. apply Z.log2_unique; [lia|]. split; done.
    - apply (testbit_above 5); [|lia..]. destruct Hn. split; done. }
  unfold execute_shift. cbn [op_apply1 operand_get]. rewrite En, H5. fold r. cbn zeta.
  destruct (Z.leb_spec 32 n) as [Hbig|Hsmall].
  - rewrite (shift_out_of_range OP r n) by done.
    eexists. split; [reflexivity|].
    assert (Hres : is_uint 32 (shift_result OP r n)).
    { rewrite <- (shift_out_of_range OP r n) by done. apply invalid_shift_range. }
    pose proof (shiftr_31_range _ Hres).
    split; [apply gpr_result; [wf|done]|].
    assert (Hca : OP = Op_shra -> Z.shiftr (shift_result OP r n) 31 = bZ (shift_carry r n)).
    { intros ->. rewrite (shiftr_sign_bit 32) by (done || lia). change (32 - 1) with 31.
      rewrite <- sign_uint by done. unfold shift_result, shift_carry. f_equal.
      pose proof (big_pow n Hbig). pose proof (s32_bounds r). destruct (Z.ltb_spec (s32 r) 0).
      - replace (s32 r / 2 ^ n) with (-1) by (apply (Z.div_unique _ _ _ (s32 r + 2 ^ n)); lia).
        replace (s32 r mod 2 ^ n) with (s32 r + 2 ^ n) by (apply (Z.mod_unique _ _ (-1)); lia).
        cbn -[Z.pow]. destruct (Z.eqb_spec (s32 r + 2 ^ n) 0); [lia|done].
      - rewrite Z.div_small by lia. done. }
    destruct (bp_test CA opcode); [rewrite Hca by auto|]; rewrite ?xer_set_ca_bool;
      destruct (bp_test Rc opcode); simpl_cpu; done.
  - replace (u32 (op_apply2 (fe_round c) OP r n)) with (shift_result OP r n).
    2:{ symmetry. rewrite <- (shift_in_range FE_TONEAREST) by (done || (destruct Hn; lia)).
        by destruct HOP as [->|[->| ->]]. }
    eexists. split; [reflexivity|].
    assert (Hres : is_uint 32 (shift_result OP r n)).
    { rewrite <- (shift_in_range FE_TONEAREST) by (done || (destruct Hn; lia)). apply u32_range. }
    split; [apply gpr_result; [wf|done]|].
    rewrite low_mask, sign_test by (done || (destruct Hn; lia)).
    rewrite Z.land_ones by (destruct Hn; lia). rewrite <- (s32_mod r n) by (done || (destruct Hn; lia)).
    change (Zb (s32 r mod 2 ^ n)) with (negb (s32 r mod 2 ^ n =? 0)).
    fold (shift_carry r n). rewrite xer_set_ca_bool.
    destruct (bp_test CA opcode), (bp_test Rc opcode); simpl_cpu; done.
Qed.

(** srawi r5,r4,2 *)
Lemma execute_shift_spec_witness :
  exists c', @execute_shift null_fpu Op_shra operand_RA operand_RS operand_SH (Op_andi 0x1f) CA_BIT_1 RC_BIT_G
      0x7c851670 (cpu_with 0xfffffff9 0) = Ok c' /\
    gpr c' 5 = u32 (-2) /\ xer_ca (xer c') = 1.
Proof.
  destruct (@execute_shift_spec null_fpu Op_shra operand_SH 0x1f CA_BIT_1 RC_BIT_G 0x7c851670
    (cpu_with 0xfffffff9 0)) as (c' & H & Hd & Hca); [by apply cpu_with_wf|lia|auto|done|].
  exists c'. split; [exact H|]. replace (extract rA_field 0x7c851670) with 5 in Hd by reflexivity.
  rewrite Hd, Hca. split; by vm_compute.
Defined.

(** ** Rotate instructions *)

(** Bit [k] (PowerPC numbering) is inside the mask [mb..me]. *)
Definition in_mask (mb me k : Z) : bool :=
  if mb <=? me then (mb <=? k) && (k <=? me) else (mb <=? k) || (k <=? me).

Lemma testbit_mask_opcode opcode k :
  0 <= k <= 31 ->
  Z.testbit (mask_compute (extract MB_field opcode) (extract ME_field opcode)) (31 - k) =
    in_mask (extract MB_field opcode) (extract ME_field opcode) k.
Proof.
  intros Hk.
  pose proof (extract_5 MB_field opcode ltac:(solve_bf) ltac:(solve_bf)).
  pose proof (extract_5 ME_field opcode ltac:(solve_bf) ltac:(solve_bf)).
  rewrite testbit_mask_compute by lia. unfold in_mask.
  replace (31 - (31 - k)) with k by lia. by split_cmp.
Qed.

(** Rotate and mask.  Bit [k] of the result of [rlwimi] is bit [k + SH]
    (modulo 32) of rS inside the mask and the old bit of rA outside; [rlwinm]
    clears the bits outside the mask. *)
Theorem execute_rotate_spec {FPU : HostFPU} Rc opcode c :
  cpu_wf c ->
  let rs := gpr c (extract rS_field opcode) in
  let ra := gpr c (extract rA_field opcode) in
  let sh := extract SH_field opcode in
  let inside := in_mask (extract MB_field opcode) (extract ME_field opcode) in
  exists c1 c2,
    execute_rlwimi operand_SH operand_MASK Rc opcode c = Ok c1 /\
    execute_generic_arith Op_ppc_rlwinm operand_RA operand_RS operand_SH operand_MASK
      OE_BIT_0 Rc opcode c = Ok c2 /\
    forall k, 0 <= k <= 31 ->
      Z.testbit (gpr c1 (extract rA_field opcode)) (31 - k) =
        (if inside k then Z.testbit rs (31 - (k + sh) mod 32) else Z.testbit ra (31 - k)) /\
      Z.testbit (gpr c2 (extract rA_field opcode)) (31 - k) =
        inside k && Z.testbit rs (31 - (k + sh) mod 32).
Proof.
  intros Hc rs ra sh inside.
  assert (Hrs : is_uint 32 rs) by (unfold rs; wf).
  assert (Hra : is_uint 32 ra) by (unfold ra; wf).
  assert (Hsh : is_uint 5 sh) by (apply (extract_range SH_field opcode); solve_bf).
  assert (Esh : u32 sh = sh) by (apply trunc_small, (is_uint_mono 5); [lia|done]).
  pose proof (mask_compute_range (extract MB_field opcode) (extract ME_field opcode)
    (extract_5 MB_field opcode ltac:(solve_bf) ltac:(solve_bf))
    (extract_5 ME_field opcode ltac:(solve_bf) ltac:(solve_bf))) as Hm.
  pose proof (extract_5 rA_field opcode ltac:(solve_bf) ltac:(solve_bf)) as Hd.
  assert (Hrot : forall k, 0 <= k <= 31 ->
    Z.testbit (op_rotl rs sh) (31 - k) = Z.testbit rs (31 - (k + sh) mod 32)).
  { intros k Hk. rewrite testbit_rotl by (done || lia). split_cmp. cbn [andb]. f_equal.
    destruct Hsh as [? Hs]. change (2 ^ 5) with 32 in Hs.
    destruct (Z.ltb_spec (k + sh) 32).
    - rewrite (Z.mod_small (k + sh)), Z.mod_small by lia. lia.
    - rewrite <- (Z_mod_plus_full (k + sh) (-1)), <- (Z_mod_plus_full (31 - k - sh) 1).
      rewrite !Z.mod_small by lia. lia. }
  eexists _, _. split; [reflexivity|]. split; [reflexivity|].
  cbn [operand_get]. fold rs ra sh. rewrite Esh. intros k Hk. split.
  - rewrite gpr_result; [|pose proof (op_ppc_rlwimi_range rs sh); wf|done].
    unfold op_ppc_rlwimi. rewrite !(trunc_small 32 (mask_compute _ _)), (trunc_small 32 ra) by done.
    push_testbit. rewrite testbit_mask_opcode, Hrot by done. fold inside.
    split_cmp. destruct (inside k); bool_simpl; done.
  - rewrite gpr_result; [|wf|done]. cbn [op_apply_gpr op_apply3]. unfold op_ppc_rlwinm.
    rewrite (trunc_small 32 (mask_compute _ _)) by done.
    rewrite trunc_small by (apply is_uint_land_l; [lia|apply op_rotl_range]).
    push_testbit. rewrite testbit_mask_opcode, Hrot by done. apply andb_comm.
Qed.

(** rlwimi r4,r5,8,16,23 and the same word read as rlwinm *)
Lemma execute_rotate_spec_witness :
  exists c1, execute_rlwimi operand_SH operand_MASK RC_BIT_G 0x50a4442e
      (cpu_with 0xffffffff 0x12345678) = Ok c1 /\
    Z.testbit (gpr c1 4) (31 - 16) = Z.testbit 0x12345678 (31 - 24).
Proof.
  destruct (@execute_rotate_spec null_fpu RC_BIT_G 0x50a4442e (cpu_with 0xffffffff 0x12345678))
    as (c1 & c2 & H1 & _ & Hb); [by apply cpu_with_wf|].
  exists c1. split; [exact H1|]. destruct (Hb 16 ltac:(lia)) as [Hk _].
  replace (extract rA_field 0x50a4442e) with 4 in Hk by reflexivity. rewrite Hk. by vm_compute.
Defined.

(** ** Branches *)

Lemma BO_bit opcode k :
  0 <= k <= 4 -> Z.testbit (extract BO_field opcode) (4 - k) = Z.testbit opcode (25 - k).
Proof.
  intros Hk. rewrite testbit_extract by solve_bf. unfold bf_len; cbn [FB FE BO_field].
  split_cmp. cbn [andb]. f_equal. lia.
Qed.

Lemma BO_tests opcode :
  let bo := u32 (extract BO_field opcode) in
  BO_CONDITIONAL_BRANCH bo = negb (Z.testbit opcode 25) /\
  BO_BRANCH_IF_TRUE bo = Z.testbit opcode 24 /\
  BO_DECREMENT_CTR bo = negb (Z.testbit opcode 23) /\
  BO_BRANCH_IF_CTR_ZERO bo = Z.testbit opcode 22.
Proof.
  cbn zeta. rewrite trunc_small by wf.
  unfold BO_CONDITIONAL_BRANCH, BO_BRANCH_IF_TRUE, BO_DECREMENT_CTR, BO_BRANCH_IF_CTR_ZERO.
  assert (H : forall n, 0 <= n -> (Z.land (extract BO_field opcode) (2 ^ n) =? 0) =
    negb (Z.testbit (extract BO_field opcode) n)).
  { intros n Hn. pose proof (Zb_land_pow2 (extract BO_field opcode) n Hn) as Hz.
    unfold Zb in Hz. rewrite <- Hz. by rewrite negb_involutive. }
  pose proof (H 4 ltac:(lia)) as E4. pose proof (H 3 ltac:(lia)) as E3.
  pose proof (H 2 ltac:(lia)) as E2. pose proof (H 1 ltac:(lia)) as E1.
  change (2 ^ 4) with 0x10 in E4. change (2 ^ 3) with 0x08 in E3.
  change (2 ^ 2) with 0x04 in E2. change (2 ^ 1) with 0x02 in E1.
  rewrite E4, E3, E2, E1, !negb_involutive.
  pose proof (BO_bit opcode 0 ltac:(lia)) as H0. pose proof (BO_bit opcode 1 ltac:(lia)) as H1.
  pose proof (BO_bit opcode 2 ltac:(lia)) as H2. pose proof (BO_bit opcode 3 ltac:(lia)) as H3.
  change (4 - 0) with 4 in H0. change (4 - 1) with 3 in H1. change (4 - 2) with 2 in H2.
  change (4 - 3) with 1 in H3. change (25 - 0) with 25 in H0. change (25 - 1) with 24 in H1.
  change (25 - 2) with 23 in H2. change (25 - 3) with 22 in H3. by rewrite H0, H1, H2, H3.
Qed.

(** C14: Conditional branches.  With [BO] bits b0..b4 of the opcode, CTR is
    decremented unless b2; the branch is taken when b2 or CTR is zero as b3
    asks, and b0 or the selected CR bit equals b1; the target is word aligned,
    relative unless AA, and LR receives the next address when LK is set,
    taken or not. *)
Theorem execute_branch_spec PC DP AA LK opcode c :
  cpu_wf c ->
  let b k := Z.testbit opcode (25 - k) in
  let ctr' := if b 2 then ctr c else u32 (ctr c - 1) in
  let c1 := set_ctr ctr' c in
  let taken := (b 2 || Bool.eqb (ctr' =? 0) (b 3)) &&
               (b 0 || Bool.eqb (Z.testbit (cr c) (31 - extract BI_field opcode)) (b 1)) in
  let target := u32 ((if bp_test AA opcode then 0 else operand_get PC c1 opcode)
                     + operand_get DP c1 opcode) in
  exists c', execute_branch PC operand_BO DP AA LK opcode c = Ok c' /\
    pc c' = (if taken then 4 * (target / 4) else u32 (pc c + 4)) /\
    ctr c' = ctr' /\ cr c' = cr c /\
    lr c' = (if bp_test LK opcode then u32 (pc c + 4) else lr c).
Proof.
  intros Hc b ctr' c1 taken target. unfold execute_branch. cbn [operand_get].
  destruct (BO_tests opcode) as (-> & -> & -> & ->).
  rewrite cr_test_spec by (apply extract_5; solve_bf).
  change (Z.testbit opcode 25) with (b 0). change (Z.testbit opcode 24) with (b 1).
  change (Z.testbit opcode 23) with (b 2). change (Z.testbit opcode 22) with (b 3).
  set (t := Z.testbit (cr c) _) in *.
  assert (Hal : forall z, is_uint 32 z -> Z.land z (u32 (-4)) = 4 * (z / 4)).
  { intros z Hz. replace (4 * (z / 4)) with (Z.shiftl (Z.shiftr z 2) 2)
      by (rewrite Z.shiftl_mul_pow2, Z.shiftr_div_pow2 by lia; change (2 ^ 2) with 4; lia).
    replace (u32 (-4)) with (Z.shiftl (Z.ones 30) 2) by reflexivity. bits. }
  assert (Hx : ctr c = ctr' -> c1 = c).
  { intros <-. destruct c as [[] ]; done. }
  destruct (b 2) eqn:E2; cbn [negb]; cbn zeta.
  - assert (E1 : c1 = c) by (by apply Hx).
    assert (Et : (if negb (b 0) then if b 1 then t else negb t else true) = taken).
    { unfold taken. by destruct (b 0), (b 1), t. }
    rewrite Et. cbn [andb]. eexists. split; [reflexivity|].
    unfold target. rewrite E1, Hal by apply u32_range.
    destruct taken, (bp_test LK opcode); simpl_cpu; done.
  - change (ctr (set_ctr (u32 (ctr c - 1)) c)) with ctr'. change (set_ctr (u32 (ctr c - 1)) c) with c1.
    assert (Et : (if b 3 then ctr' =? 0 else negb (ctr' =? 0)) &&
      (if negb (b 0) then if b 1 then t else negb t else true) = taken).
    { unfold taken. by destruct (b 0), (b 1), (b 3), t, (ctr' =? 0). }
    rewrite Et. eexists. split; [reflexivity|].
    unfold target. rewrite Hal by apply u32_range.
    destruct taken, (bp_test LK opcode); simpl_cpu; done.
Qed.

(** bdnz .-8, at address 0 with CTR = 2 *)
Lemma execute_branch_spec_witness :
  exists c', execute_branch operand_PC operand_BO operand_BD AA_BIT_G LK_BIT_G 0x4200fff8
      (set_ctr 2 (cpu_with 0 0)) = Ok c' /\
    pc c' = 0xfffffff8 /\ ctr c' = 1.
Proof.
  destruct (execute_branch_spec operand_PC operand_BD AA_BIT_G LK_BIT_G 0x4200fff8
    (set_ctr 2 (cpu_with 0 0))) as (c' & H & Hpc & Hctr & _).
  { apply set_ctr_wf; [by apply cpu_with_wf|done]. }
  exists c'. split; [exact H|]. rewrite Hpc, Hctr. split; by vm_compute.
Defined.

(** ** Condition register *)

(** The field of [field2mask] that bit [k] of the mask selects. *)
Lemma testbit_nibble k j :
  0 <= k -> 0 <= j ->
  Z.testbit (Z.shiftl (Z.ones 4) (4 * k)) j = (4 * k <=? j) && (j <? 4 * k + 4).
Proof. intros. push_testbit. split_cmp; done. Qed.

Lemma testbit_or_nibble (b : bool) m k j :
  0 <= k -> 0 <= j ->
  Z.testbit (if b then Z.lor m (Z.shiftl (Z.ones 4) (4 * k)) else m) j =
    Z.testbit m j || b && ((4 * k <=? j) && (j <? 4 * k + 4)).
Proof.
  intros. destruct b; [by rewrite Z.lor_spec, testbit_nibble|by rewrite orb_false_r].
Qed.

Lemma testbit_field2mask i k j :
  0 <= k <= 7 -> 4 * k <= j < 4 * k + 4 -> Z.testbit (field2mask i) j = Z.testbit i k.
Proof.
  intros Hk Hj. unfold field2mask. cbn zeta.
  pose proof (fun n Hn => Zb_land_pow2 i n Hn) as H.
  pose proof (H 0 ltac:(lia)) as E0. pose proof (H 1 ltac:(lia)) as E1.
  pose proof (H 2 ltac:(lia)) as E2. pose proof (H 3 ltac:(lia)) as E3.
  pose proof (H 4 ltac:(lia)) as E4. pose proof (H 5 ltac:(lia)) as E5.
  pose proof (H 6 ltac:(lia)) as E6. pose proof (H 7 ltac:(lia)) as E7. clear H.
  change (2 ^ 0) with 0x01 in E0. change (2 ^ 1) with 0x02 in E1.
  change (2 ^ 2) with 0x04 in E2. change (2 ^ 3) with 0x08 in E3.
  change (2 ^ 4) with 0x10 in E4. change (2 ^ 5) with 0x20 in E5.
  change (2 ^ 6) with 0x40 in E6. change (2 ^ 7) with 0x80 in E7.
  rewrite E0, E1, E2, E3, E4, E5, E6, E7.
  pose proof (testbit_or_nibble (Z.testbit i 0) 0 0 j ltac:(lia) ltac:(lia)) as F0.
  pose proof (fun m => testbit_or_nibble (Z.testbit i 1) m 1 j ltac:(lia) ltac:(lia)) as F1.
  pose proof (fun m => testbit_or_nibble (Z.testbit i 2) m 2 j ltac:(lia) ltac:(lia)) as F2.
  pose proof (fun m => testbit_or_nibble (Z.testbit i 3) m 3 j ltac:(lia) ltac:(lia)) as F3.
  pose proof (fun m => testbit_or_nibble (Z.testbit i 4) m 4 j ltac:(lia) ltac:(lia)) as F4.
  pose proof (fun m => testbit_or_nibble (Z.testbit i 5) m 5 j ltac:(lia) ltac:(lia)) as F5.
  pose proof (fun m => testbit_or_nibble (Z.testbit i 6) m 6 j ltac:(lia) ltac:(lia)) as F6.
  pose proof (fun m => testbit_or_nibble (Z.testbit i 7) m 7 j ltac:(lia) ltac:(lia)) as F7.
  change (Z.shiftl (Z.ones 4) (4 * 0)) with 0xf in F0. change (Z.shiftl (Z.ones 4) (4 * 1)) with 0xf0 in F1.
  change (Z.shiftl (Z.ones 4) (4 * 2)) with 0xf00 in F2. change (Z.shiftl (Z.ones 4) (4 * 3)) with 0xf000 in F3.
  change (Z.shiftl (Z.ones 4) (4 * 4)) with 0xf0000 in F4. change (Z.shiftl (Z.ones 4) (4 * 5)) with 0xf00000 in F5.
  change (Z.shiftl (Z.ones 4) (4 * 6)) with 0xf000000 in F6. change (Z.shiftl (Z.ones 4) (4 * 7)) with 0xf0000000 in F7.
  rewrite F7, F6, F5, F4, F3, F2, F1, F0. rewrite Z.bits_0.
  assert (k = 0 \/ k = 1 \/ k = 2 \/ k = 3 \/ k = 4 \/ k = 5 \/ k = 6 \/ k = 7) as Hcase by lia.
  destruct Hcase as [->|[->|[->|[->|[->|[->|[->| ->]]]]]]]; split_cmp; bool_simpl; done.
Qed.

(** [mtcrf] moves the fields its mask names, bit 0 of the mask being
    field 0, and keeps the others; [mcrf] copies one field to another. *)
Theorem execute_mtcrf_spec opcode c k :
  cpu_wf c -> 0 <= k <= 7 ->
  exists c1 c2, execute_mtcrf opcode c = Ok c1 /\ execute_mcrf opcode c = Ok c2 /\
    cr_get k (cr c1) = (if Z.testbit (extract CRM_field opcode) (7 - k)
                        then cr_get k (gpr c (extract rS_field opcode)) else cr_get k (cr c)) /\
    cr_get k (cr c2) = (if k =? extract crfD_field opcode
                        then cr_get (extract crfS_field opcode) (cr c) else cr_get k (cr c)).
Proof.
  intros Hc Hk. eexists _, _. split; [reflexivity|]. split; [reflexivity|]. split.
  - simpl_cpu. cbn [operand_get].
    set (rs := gpr c (extract rS_field opcode)). set (m := field2mask _).
    apply Z.bits_inj'; intros i Hi. rewrite testbit_cr_get by lia.
    assert (Ebit : i < 4 -> Z.testbit m (i + (28 - 4 * k)) = Z.testbit (extract CRM_field opcode) (7 - k)).
    { intros. unfold m. apply testbit_field2mask; lia. }
    destruct (Z.ltb_spec i 4) as [Hlt|Hge]; cbn [andb].
    + push_testbit. rewrite Ebit by done. pose proof (cr_range c Hc) as Hcr. unfold cr in Hcr.
      destruct (Z.testbit _ (7 - k)); rewrite testbit_cr_get by lia; split_cmp; bool_simpl; done.
    + destruct (Z.testbit _ (7 - k)); rewrite testbit_cr_get by lia; by split_cmp.
  - assert (Hf : forall f, bf_wf f -> bf_len f = 3 -> 0 <= extract f opcode <= 7).
    { intros f Hf Hl. pose proof (extract_range f opcode Hf) as H. rewrite Hl in H.
      destruct H as [? H]. change (2 ^ 3) with 8 in H. lia. }
    simpl_cpu. rewrite cr_get_set; [done|apply Hf; solve_bf|done|apply cr_get_range|by apply cr_range].
Qed.

(** mtcrf 0x81,r4 *)
Lemma execute_mtcrf_spec_witness :
  exists c1, execute_mtcrf 0x7c881120 (cpu_with 0x12345678 0) = Ok c1 /\
    cr_get 7 (cr c1) = 8 /\ cr_get 1 (cr c1) = 0.
Proof.
  destruct (execute_mtcrf_spec 0x7c881120 (cpu_with 0x12345678 0) 7) as (c1 & c2 & H1 & _ & H7 & _);
    [by apply cpu_with_wf|done|].
  destruct (execute_mtcrf_spec 0x7c881120 (cpu_with 0x12345678 0) 1) as (c1' & c2' & H1' & _ & H1b & _);
    [by apply cpu_with_wf|done|].
  exists c1. rewrite H1 in H1'. assert (c1 = c1') as <- by congruence.
  split; [exact H1|]. rewrite H7, H1b. split; by vm_compute.
Defined.

(** The boolean function of a condition register operation. *)
Definition cr_bool (OP : op) (a b : bool) : bool :=
  match OP with
  | Op_and => a && b | Op_andc => a && negb b | Op_or => a || b | Op_orc => a || negb b
  | Op_xor => xorb a b | Op_eqv => negb (xorb a b)
  | Op_nand => negb (a && b) | Op_nor => negb (a || b)
  | _ => false
  end.

Definition is_cr_op (OP : op) : Prop :=
  OP = Op_and \/ OP = Op_andc \/ OP = Op_or \/ OP = Op_orc \/ OP = Op_xor \/ OP = Op_eqv \/
  OP = Op_nand \/ OP = Op_nor.

Lemma land_1_bit x : Z.land x 1 = bZ (Z.testbit x 0).
Proof. change 1 with (Z.ones 1) at 1. rewrite Z.land_ones by lia. rewrite Z.bit0_mod. done. Qed.

Lemma cr_op_bit {FPU : HostFPU} m OP a b :
  is_cr_op OP -> Z.land (op_apply2 m OP (bZ a) (bZ b)) 1 = bZ (cr_bool OP a b).
Proof.
  intros HOP. destruct HOP as [->|[->|[->|[->|[->|[->|[->| ->]]]]]]]; by destruct a, b.
Qed.

(** Condition register operations set bit crbD to the boolean function of
    bits crbA and crbB and keep the 31 other bits. *)
Theorem execute_cr_op_spec {FPU : HostFPU} OP opcode c k :
  cpu_wf c -> is_cr_op OP -> 0 <= k <= 31 ->
  let bit i := Z.testbit (cr c) (31 - i) in
  exists c', execute_cr_op OP opcode c = Ok c' /\
    Z.testbit (cr c') (31 - k) =
      if k =? extract crbD_field opcode
      then cr_bool OP (bit (extract crbA_field opcode)) (bit (extract crbB_field opcode))
      else bit k.
Proof.
  intros Hc HOP Hk bit. eexists. split; [reflexivity|]. cbn zeta.
  assert (Hbit : forall f, bf_wf f -> bf_len f = 5 ->
    Z.land (Z.shiftr (cr c) (31 - extract f opcode)) 1 = bZ (bit (extract f opcode))).
  { intros f Hf Hl. pose proof (extract_5 f opcode Hf Hl). rewrite land_1_bit. f_equal.
    rewrite Z.shiftr_spec by lia. done. }
  rewrite !Hbit by solve_bf. rewrite cr_op_bit by done.
  pose proof (extract_5 crbD_field opcode ltac:(solve_bf) ltac:(solve_bf)) as Hd.
  set (d := extract crbD_field opcode) in *. set (v := cr_bool _ _ _). simpl_cpu.
  change (r_cr (regs c)) with (cr c). change (Z.shiftl 1 (31 - d)) with (Z.shiftl (bZ true) (31 - d)).
  push_testbit. unfold bit. destruct (Z.eqb_spec k d) as [->|Hne].
  - split_cmp. bool_simpl. done.
  - split_cmp; bool_simpl; done.
Qed.

(** crnor 31,0,2 on CR = 0 *)
Lemma execute_cr_op_spec_witness :
  exists c', @execute_cr_op null_fpu Op_nor 0x4fe01042 (cpu_with 0 0) = Ok c' /\
    Z.testbit (cr c') 0 = true.
Proof.
  destruct (@execute_cr_op_spec null_fpu Op_nor 0x4fe01042 (cpu_with 0 0) 31) as (c' & H & Hb);
    [by apply cpu_with_wf|unfold is_cr_op; tauto|done|].
  exists c'. split; [exact H|]. change 0 with (31 - 31). rewrite Hb. by vm_compute.
Defined.

(** ** The time base *)

(** The 96-bit multiply-and-divide is exact: [muldiv64 a b c] is the
    quotient of the full product whenever that quotient fits 64 bits, although
    the product itself may not. *)
Theorem muldiv64_correct a b c :
  is_uint 64 a -> is_uint 32 b -> 0 < c < 2 ^ 32 -> a * b / c < 2 ^ 64 ->
  muldiv64 a b c = a * b / c.
Proof.
  intros [Ha0 Ha] [Hb0 Hb] [Hc0 Hc] Hq. unfold muldiv64. cbn zeta.
  rewrite Z.shiftr_div_pow2 by lia.
  set (W := 2 ^ 32) in *. assert (HW : W = 4294967296) by reflexivity.
  assert (H64 : 2 ^ 64 = W * W) by reflexivity. rewrite H64 in *.
  assert (Hh : 0 <= a / W < W).
  { split; [apply Z.div_pos; lia|]. apply Z.div_lt_upper_bound; lia. }
  assert (Hl : 0 <= u32 a < W) by (apply Z.mod_pos_bound; lia).
  assert (Ea : a = a / W * W + u32 a) by (unfold trunc; fold W; pose proof (Z.div_mod a W); lia).
  set (ah := a / W) in *. set (al := u32 a) in *.
  assert (Erl : u64 (al * b) = al * b).
  { apply Z.mod_small. rewrite H64. nia. }
  assert (Erh : u64 (ah * b) = ah * b).
  { apply Z.mod_small. rewrite H64. nia. }
  rewrite Erl, Erh, Z.shiftr_div_pow2 by lia. fold W.
  assert (Hrl : 0 <= al * b / W < W).
  { split; [apply Z.div_pos; nia|]. apply Z.div_lt_upper_bound; nia. }
  assert (Er : u64 (ah * b + al * b / W) = ah * b + al * b / W).
  { apply Z.mod_small. rewrite H64. nia. }
  rewrite Er. set (rh := ah * b + al * b / W) in *.
  replace (Z.land (al * b) 0xffffffff) with ((al * b) mod W) by
    (symmetry; change 0xffffffff with (Z.ones 32); by rewrite Z.land_ones by lia).
  set (lo := (al * b) mod W) in *.
  assert (Hlo : 0 <= lo < W) by (apply Z.mod_pos_bound; lia).
  assert (Eab : a * b = rh * W + lo).
  { unfold rh, lo. pose proof (Z.div_mod (al * b) W ltac:(lia)). nia. }
  assert (Hrh0 : 0 <= rh) by (unfold rh; nia).
  pose proof (Z.div_mod rh c ltac:(lia)) as Ed. pose proof (Z.mod_pos_bound rh c ltac:(lia)) as Hm.
  set (qh := rh / c) in *. set (m := rh mod c) in *.
  assert (Eq : a * b / c = qh * W + (m * W + lo) / c).
  { rewrite Eab, Ed. replace ((c * qh + m) * W + lo) with ((m * W + lo) + (qh * W) * c) by lia.
    rewrite Z_div_plus_full by lia. lia. }
  assert (Hql : 0 <= (m * W + lo) / c < W).
  { split; [apply Z.div_pos; nia|]. apply Z.div_lt_upper_bound; nia. }
  assert (Hqh : 0 <= qh < W).
  { split; [apply Z.div_pos; lia|]. rewrite Eq in Hq. nia. }
  rewrite (Z.shiftl_mul_pow2 m) by lia. fold W.
  rewrite (trunc_small 64 (m * W)) by (split; [nia|rewrite H64; nia]).
  rewrite (trunc_small 64 (m * W + lo)) by (split; [nia|rewrite H64; nia]).
  rewrite (trunc_small 32 qh) by (split; [lia|fold W; lia]).
  rewrite (trunc_small 32 ((m * W + lo) / c)) by (split; [lia|fold W; lia]).
  rewrite lor_shiftl_add by (lia || (split; [lia|fold W; lia])). fold W. lia.
Qed.

(** An uptime of 2^50 microseconds at 25 MHz: the product needs 75 bits. *)
Lemma muldiv64_correct_witness : muldiv64 (2 ^ 50) 25000000 1000000 = 2 ^ 50 * 25.
Proof.
  rewrite (muldiv64_correct (2 ^ 50) 25000000 1000000);
    [reflexivity|by vm_compute|by vm_compute|by vm_compute|by vm_compute].
Defined.

(** ** System calls *)

(** With [ignoreillegal] set, a system call is handled as an illegal
    instruction, which advances the program counter, and the handler advances
    it again: the instruction after [sc] is skipped. *)
Theorem execute_syscall_skips_next {HOST : Host} opcode c :
  ignoreillegal = true ->
  exists c', execute_syscall opcode c = Ok c' /\ pc c' = u32 (pc c + 8).
Proof.
  intros Hi. unfold execute_syscall, execute_illegal. rewrite Hi.
  eexists. split; [reflexivity|]. simpl_cpu. rewrite trunc_add_l. f_equal. change (r_pc (regs c)) with (pc c). lia.
Qed.

Definition lenient_host : Host := {|
  ignoreillegal := true; PVR := 0; TimebaseSpeed := 25000000;
  GetTicks_usec n := u64 n; uninit := 0; uninit_registers := zero_registers;
  EmulOp r _ _ c := Ok (r, c); execute_native_op _ c := Ok c; HandleInterrupt r c := Ok (r, c);
|}.

Lemma execute_syscall_skips_next_witness :
  exists c', @execute_syscall lenient_host 0x44000002 (cpu_with 0 0) = Ok c' /\ pc c' = 8.
Proof.
  destruct (@execute_syscall_skips_next lenient_host 0x44000002 (cpu_with 0 0) eq_refl)
    as (c' & H & Hpc).
  exists c'. split; [exact H|]. rewrite Hpc. by vm_compute.
Defined.
