(* ===== verification/ExecMem.v ===== *)
(** Load and store handlers of the interpreter (ppc-execute.cpp): scalar,
    multiple, string, floating-point, reservation and cache-line accesses. *)
From S2P Require Import Prelude Bitfields Registers HostFPU Operations Memory Handlers BlockCache Cpu Operands.

Section Exec.
Context {FPU : HostFPU}.

(** ** Scalar loads and stores *)

(** [memory_helper<SZ, RX>]; a reversed byte is the byte. *)
Definition memory_helper_load (SZ : Z) (RX : bool) (ea : Z) (m : memory) : outcome Z :=
  if SZ =? 1 then vm_read_memory_1 m ea
  else if SZ =? 2 then
    if RX then vm_read_memory_2_reversed m ea else vm_read_memory_2 m ea
  else if RX then vm_read_memory_4_reversed m ea else vm_read_memory_4 m ea.

Definition memory_helper_store (SZ : Z) (RX : bool) (ea value : Z) (m : memory) : outcome memory :=
  if SZ =? 1 then vm_write_memory_1 ea value m
  else if SZ =? 2 then
    if RX then vm_write_memory_2_reversed ea value m else vm_write_memory_2 ea value m
  else if RX then vm_write_memory_4_reversed ea value m else vm_write_memory_4 ea value m.

Definition execute_loadstore (OP : op) (RA RB : operand) (LD : bool) (SZ : Z) (UP RX : bool)
    (opcode : Z) (cpu : powerpc_cpu) : outcome powerpc_cpu :=
  let a := operand_get RA cpu opcode in
  let b := operand_get RB cpu opcode in
  let ea := u32 (a + b) in
  cpu ← (if LD then
           v ← memory_helper_load SZ RX ea (mem cpu);
           operand_set operand_RD opcode (u32 (op_apply1 (fe_round cpu) OP v)) cpu
         else cpu_write (memory_helper_store SZ RX ea (operand_get operand_RS cpu opcode)) cpu);
  cpu ← (if UP then operand_set RA opcode ea cpu else Ok cpu);
  Ok (increment_pc 4 cpu).

(** ** Load and store multiple *)

(** The loop over registers [r] to 31; [n] is the number of registers left. *)
Fixpoint loadstore_multiple_loop (n : nat) (LD : bool) (r ea : Z) (cpu : powerpc_cpu)
  : outcome powerpc_cpu :=
  match n with
  | O => Ok cpu
  | S n =>
      cpu ← (if LD then v ← vm_read_memory_4 (mem cpu) ea; Ok (set_gpr r v cpu)
             else cpu_write (vm_write_memory_4 ea (gpr cpu r)) cpu);
      loadstore_multiple_loop n LD (r + 1) (u32 (ea + 4)) cpu
  end.

Definition execute_loadstore_multiple (RA DP : operand) (LD : bool)
    (opcode : Z) (cpu : powerpc_cpu) : outcome powerpc_cpu :=
  let a := operand_get RA cpu opcode in
  let d := operand_get DP cpu opcode in
  let ea := u32 (a + d) in
  if negb (Z.land ea 3 =? 0) then Ok (increment_pc 4 cpu)
  else
    let r := if LD then extract rD_field opcode else extract rS_field opcode in
    cpu ← loadstore_multiple_loop (Z.to_nat (32 - r)) LD r ea cpu;
    Ok (increment_pc 4 cpu).

(** ** Floating-point loads and stores *)

(** C.6 and C.7 of the architecture manual, with the host's conversions. *)
Definition fp_load_single_convert (v : Z) : Z := d_of_f v.
Definition fp_store_single_convert (m : fe_mode) (v : Z) : Z :=
  let exp := Z.land (Z.shiftr v 52) 0x7ff in
  if (exp <? 874) || (896 <? exp) then
    u32 (Z.lor (Z.land (Z.shiftr v 32) 0xc0000000) (Z.land (Z.shiftr v 29) 0x3fffffff))
  else f_of_d m v.

Definition execute_fp_loadstore (RA RB : operand) (LD DB UP : bool)
    (opcode : Z) (cpu : powerpc_cpu) : outcome powerpc_cpu :=
  let a := operand_get RA cpu opcode in
  let b := operand_get RB cpu opcode in
  let ea := u32 (a + b) in
  cpu ← (if LD then
           v ← (if DB then vm_read_memory_8 (mem cpu) ea
                else v ← vm_read_memory_4 (mem cpu) ea; Ok (fp_load_single_convert v));
           Ok (set_fpr_dw (extract frD_field opcode) v cpu)
         else
           let v := fpr_dw cpu (extract frS_field opcode) in
           if DB then cpu_write (vm_write_memory_8 ea v) cpu
           else cpu_write (vm_write_memory_4 ea (fp_store_single_convert (fe_round cpu) v)) cpu);
  cpu ← (if UP then operand_set RA opcode ea cpu else Ok cpu);
  Ok (increment_pc 4 cpu).

(** ** Load and store string *)

(** The number of bytes: [lswi] and [stswi] encode 32 as 0. *)
Definition string_length (IM : bool) (nb : Z) : Z := if IM && (nb =? 0) then 32 else nb.

(** The [switch] on the last one to three bytes of [execute_load_string]. *)
Definition load_string_tail (ea nb i rd : Z) (cpu : powerpc_cpu) : outcome powerpc_cpu :=
  if nb - i =? 1 then
    v ← vm_read_memory_1 (mem cpu) (u32 (ea + i));
    Ok (set_gpr rd (u32 (Z.shiftl v 24)) cpu)
  else if nb - i =? 2 then
    v ← vm_read_memory_2 (mem cpu) (u32 (ea + i));
    Ok (set_gpr rd (u32 (Z.shiftl v 16)) cpu)
  else if nb - i =? 3 then
    v ← vm_read_memory_2 (mem cpu) (u32 (ea + i));
    w ← vm_read_memory_1 (mem cpu) (u32 (ea + i + 2));
    Ok (set_gpr rd (u32 (Z.shiftl v 16 + Z.shiftl w 8)) cpu)
  else Ok cpu.

(** Its word loop; [n] bounds the number of whole words. *)
Fixpoint load_string_words (n : nat) (ea nb i rd : Z) (cpu : powerpc_cpu) : outcome powerpc_cpu :=
  match n with
  | O => load_string_tail ea nb i rd cpu
  | S n =>
      if 4 <=? nb - i then
        v ← vm_read_memory_4 (mem cpu) (u32 (ea + i));
        load_string_words n ea nb (i + 4) (Z.land (rd + 1) 0x1f) (set_gpr rd v cpu)
      else load_string_tail ea nb i rd cpu
  end.

Definition execute_load_string (RA : operand) (IM : bool) (NB : operand)
    (opcode : Z) (cpu : powerpc_cpu) : outcome powerpc_cpu :=
  let ea := operand_get RA cpu opcode in
  let ea := if IM then ea else u32 (ea + operand_get operand_RB cpu opcode) in
  let nb := string_length IM (operand_get NB cpu opcode) in
  let rd := extract rD_field opcode in
  cpu ← load_string_words (Z.to_nat (nb / 4)) ea nb 0 rd cpu;
  Ok (increment_pc 4 cpu).

(** The byte loop the source keeps as the reference ([#else] branch). *)
Fixpoint load_string_bytes (n : nat) (ea i rd : Z) (cpu : powerpc_cpu) : outcome powerpc_cpu :=
  match n with
  | O => Ok cpu
  | S n =>
      v ← vm_read_memory_1 (mem cpu) (u32 (ea + i));
      if Z.land i 3 =? 0 then
        load_string_bytes n ea (i + 1) rd (set_gpr rd (u32 (Z.shiftl v 24)) cpu)
      else if Z.land i 3 =? 1 then
        load_string_bytes n ea (i + 1) rd
          (set_gpr rd (Z.lor (Z.land (gpr cpu rd) 0xff00ffff) (u32 (Z.shiftl v 16))) cpu)
      else if Z.land i 3 =? 2 then
        load_string_bytes n ea (i + 1) rd
          (set_gpr rd (Z.lor (Z.land (gpr cpu rd) 0xffff00ff) (u32 (Z.shiftl v 8))) cpu)
      else
        load_string_bytes n ea (i + 1) (Z.land (rd + 1) 0x1f)
          (set_gpr rd (Z.lor (Z.land (gpr cpu rd) 0xffffff00) v) cpu)
  end.

Fixpoint store_string_loop (n : nat) (ea i rs sh : Z) (cpu : powerpc_cpu) : outcome powerpc_cpu :=
  match n with
  | O => Ok cpu
  | S n =>
      cpu ← cpu_write (vm_write_memory_1 (u32 (ea + i)) (Z.shiftr (gpr cpu rs) sh)) cpu;
      if sh - 8 <? 0 then store_string_loop n ea (i + 1) (Z.land (rs + 1) 0x1f) 24 cpu
      else store_string_loop n ea (i + 1) rs (sh - 8) cpu
  end.

Definition execute_store_string (RA : operand) (IM : bool) (NB : operand)
    (opcode : Z) (cpu : powerpc_cpu) : outcome powerpc_cpu :=
  let ea := operand_get RA cpu opcode in
  let ea := if IM then ea else u32 (ea + operand_get operand_RB cpu opcode) in
  let nb := string_length IM (operand_get NB cpu opcode) in
  let rs := extract rS_field opcode in
  cpu ← store_string_loop (Z.to_nat nb) ea 0 rs 24 cpu;
  Ok (increment_pc 4 cpu).

(** ** Reservations *)

Definition execute_lwarx (RA : operand) (opcode : Z) (cpu : powerpc_cpu) : outcome powerpc_cpu :=
  let ea := u32 (operand_get RA cpu opcode + operand_get operand_RB cpu opcode) in
  reserve_data ← vm_read_memory_4 (mem cpu) ea;
  let cpu := set_reserve 1 ea cpu in
  cpu ← operand_set operand_RD opcode reserve_data cpu;
  Ok (increment_pc 4 cpu).

Definition execute_stwcx (RA : operand) (opcode : Z) (cpu : powerpc_cpu) : outcome powerpc_cpu :=
  let ea := u32 (operand_get RA cpu opcode + operand_get operand_RB cpu opcode) in
  let cpu := set_cr (cr_clear 0 (cr cpu)) cpu in
  cpu ← (if Zb (r_reserve_valid (regs cpu)) then
           cpu ← (if r_reserve_addr (regs cpu) =? ea then
                    cpu ← cpu_write (vm_write_memory_4 ea (operand_get operand_RS cpu opcode)) cpu;
                    Ok (set_cr (cr_set 0 (mask standalone_CR_EQ_field) (cr cpu)) cpu)
                  else Ok cpu);
           Ok (set_reserve 0 (r_reserve_addr (regs cpu)) cpu)
         else Ok cpu);
  let cpu := set_cr (cr_set_so 0 (Zb (xer_so (xer cpu))) (cr cpu)) cpu in
  Ok (increment_pc 4 cpu).

(** ** Data cache block set to zero *)

Definition execute_dcbz (RA RB : operand) (opcode : Z) (cpu : powerpc_cpu) : outcome powerpc_cpu :=
  let ea := u32 (operand_get RA cpu opcode + operand_get RB cpu opcode) in
  cpu ← cpu_write (vm_memset (u32 (ea - ea mod 32)) 0 32) cpu;
  Ok (increment_pc 4 cpu).

End Exec.

(** ** Ranges of the accessors *)

Lemma vm_read_memory_2_reversed_range m a :
  mem_wf m -> outcome_holds (is_uint 16) (vm_read_memory_2_reversed m a).
Proof.
  intros Hm. unfold vm_read_memory_2_reversed, vm_do_read_memory_2_reversed.
  eapply outcome_holds_bind; [by apply load_1_wf|]. intros b0 H0.
  eapply outcome_holds_bind; [by apply load_1_wf|]. intros b1 [? H1].
  apply is_uint_lor; [lia|by apply (is_uint_mono 8)|].
  split; [by apply Z.shiftl_nonneg|]. rewrite Z.shiftl_mul_pow2 by lia.
  change (2 ^ 8) with 256 in *. change (2 ^ 16) with 65536. lia.
Qed.
Lemma vm_read_memory_4_reversed_range m a :
  mem_wf m -> outcome_holds (is_uint 32) (vm_read_memory_4_reversed m a).
Proof.
  intros Hm. unfold vm_read_memory_4_reversed, vm_do_read_memory_4_reversed.
  repeat (eapply outcome_holds_bind; [by apply load_1_wf|]; intros ? _). apply u32_range.
Qed.
Lemma vm_write_memory_2_reversed_wf a v m :
  mem_wf m -> outcome_holds mem_wf (vm_write_memory_2_reversed a v m).
Proof.
  intros Hm. unfold vm_write_memory_2_reversed, vm_do_write_memory_2_reversed.
  eapply outcome_holds_bind; [by apply store_1_wf|]. intros. by apply store_1_wf.
Qed.
Lemma vm_write_memory_4_reversed_wf a v m :
  mem_wf m -> outcome_holds mem_wf (vm_write_memory_4_reversed a v m).
Proof.
  intros Hm. unfold vm_write_memory_4_reversed, vm_do_write_memory_4_reversed.
  repeat (eapply outcome_holds_bind; [by apply store_1_wf|]; intros ? ?). by apply store_1_wf.
Qed.

Lemma vm_read_memory_1_range m a : mem_wf m -> outcome_holds (is_uint 8) (vm_read_memory_1 m a).
Proof. apply load_1_wf. Qed.
Lemma vm_read_memory_2_range m a : mem_wf m -> outcome_holds (is_uint 16) (vm_read_memory_2 m a).
Proof.
  intros. unfold vm_read_memory_2. rewrite vm_do_read_memory_2_be by done. by apply (load_be_range 2).
Qed.
Lemma vm_read_memory_4_range m a : mem_wf m -> outcome_holds (is_uint 32) (vm_read_memory_4 m a).
Proof.
  intros. unfold vm_read_memory_4. rewrite vm_do_read_memory_4_be by done. by apply (load_be_range 4).
Qed.
Lemma vm_read_memory_8_range m a : mem_wf m -> outcome_holds (is_uint 64) (vm_read_memory_8 m a).
Proof.
  intros. unfold vm_read_memory_8. rewrite vm_do_read_memory_8_be by done. by apply (load_be_range 8).
Qed.
Lemma vm_write_memory_1_wf a v m : mem_wf m -> outcome_holds mem_wf (vm_write_memory_1 a v m).
Proof. apply store_1_wf. Qed.
Lemma vm_write_memory_2_wf a v m : mem_wf m -> outcome_holds mem_wf (vm_write_memory_2 a v m).
Proof. unfold vm_write_memory_2. rewrite vm_do_write_memory_2_be. apply store_be_wf. Qed.
Lemma vm_write_memory_4_wf a v m : mem_wf m -> outcome_holds mem_wf (vm_write_memory_4 a v m).
Proof. unfold vm_write_memory_4. rewrite vm_do_write_memory_4_be. apply store_be_wf. Qed.
Lemma vm_write_memory_8_wf a v m : mem_wf m -> outcome_holds mem_wf (vm_write_memory_8 a v m).
Proof. unfold vm_write_memory_8. rewrite vm_do_write_memory_8_be. apply store_be_wf. Qed.

Lemma outcome_holds_weaken {A} (P Q : A -> Prop) m :
  outcome_holds P m -> (forall a, P a -> Q a) -> outcome_holds Q m.
Proof. destruct m; cbn; auto. Qed.

Lemma memory_helper_load_range SZ RX ea m :
  mem_wf m -> outcome_holds (is_uint 32) (memory_helper_load SZ RX ea m).
Proof.
  intros Hm. unfold memory_helper_load. destruct (SZ =? 1); [|destruct (SZ =? 2), RX].
  - eapply outcome_holds_weaken; [by apply vm_read_memory_1_range|].
    intros v Hv. by apply (is_uint_mono 8).
  - eapply outcome_holds_weaken; [by apply vm_read_memory_2_reversed_range|].
    intros v Hv. by apply (is_uint_mono 16).
  - eapply outcome_holds_weaken; [by apply vm_read_memory_2_range|].
    intros v Hv. by apply (is_uint_mono 16).
  - by apply vm_read_memory_4_reversed_range.
  - by apply vm_read_memory_4_range.
Qed.

Lemma memory_helper_store_wf SZ RX ea v m :
  mem_wf m -> outcome_holds mem_wf (memory_helper_store SZ RX ea v m).
Proof.
  intros Hm. unfold memory_helper_store. destruct (SZ =? 1); [|destruct (SZ =? 2), RX].
  - by apply vm_write_memory_1_wf.
  - by apply vm_write_memory_2_reversed_wf.
  - by apply vm_write_memory_2_wf.
  - by apply vm_write_memory_4_reversed_wf.
  - by apply vm_write_memory_4_wf.
Qed.

(** Memory with the bytes [bs] from address [a] on. *)
Fixpoint bytes_at (a : Z) (bs : list Z) : memory :=
  match bs with
  | [] => ∅
  | b :: bs => <[a := b]> (bytes_at (a + 1) bs)
  end.

Lemma bytes_at_wf a bs : Forall (is_uint 8) bs -> mem_wf (bytes_at a bs).
Proof.
  intros H. revert a. induction H as [|b bs Hb _ IH]; intros a; cbn; [apply map_Forall_empty|].
  apply map_Forall_insert_2; [exact Hb|apply IH].
Qed.

Lemma cpu_write_wf f c :
  cpu_wf c -> (mem_wf (mem c) -> outcome_holds mem_wf (f (mem c))) ->
  outcome_holds cpu_wf (cpu_write f c).
Proof.
  intros Hc Hf. unfold cpu_write. eapply outcome_holds_bind; [apply Hf, Hc|].
  intros m Hm. by apply set_mem_wf.
Qed.

(** Sequences of bind steps whose results are well formed. *)
Ltac wf_steps :=
  cbn zeta;
  repeat first
    [ apply outcome_holds_ret; wf
    | eapply outcome_holds_bind; [apply operand_set_wf; wf|intros ? ?]
    | eapply outcome_holds_bind;
        [apply cpu_write_wf; [wf|intros;
          first [ apply memory_helper_store_wf | apply vm_write_memory_1_wf
                | apply vm_write_memory_4_wf | apply vm_write_memory_8_wf ]; assumption]
        |intros ? ?] ].

Section Wf.
Context {FPU : HostFPU} {FL : HostFPULaws FPU}.

Lemma update_wf (UP : bool) RA opcode ea c :
  cpu_wf c -> is_uint 32 ea ->
  outcome_holds cpu_wf (if UP then operand_set RA opcode ea c else Ok c).
Proof. intros. destruct UP; [by apply operand_set_wf|done]. Qed.

Lemma execute_loadstore_wf OP RA RB LD SZ UP RX op c :
  cpu_wf c -> outcome_holds cpu_wf (execute_loadstore OP RA RB LD SZ UP RX op c).
Proof.
  intros Hc. unfold execute_loadstore. cbn zeta.
  eapply (outcome_holds_bind cpu_wf).
  - destruct LD.
    + eapply outcome_holds_bind; [apply memory_helper_load_range, Hc|].
      intros v Hv. apply operand_set_wf; wf.
    + apply cpu_write_wf; [done|]. intros. by apply memory_helper_store_wf.
  - intros c1 Hc1. eapply outcome_holds_bind; [by apply update_wf; [|wf]|].
    intros c2 Hc2. wf_steps.
Qed.

Lemma loadstore_multiple_loop_wf n : forall LD r ea c,
  cpu_wf c -> outcome_holds cpu_wf (loadstore_multiple_loop n LD r ea c).
Proof.
  induction n as [|n IH]; intros LD r ea c Hc; cbn [loadstore_multiple_loop]; [done|].
  eapply (outcome_holds_bind cpu_wf).
  - destruct LD.
    + eapply outcome_holds_bind; [apply vm_read_memory_4_range, Hc|].
      intros v Hv. cbn [outcome_holds]. wf.
    + apply cpu_write_wf; [done|]. intros. by apply vm_write_memory_4_wf.
  - intros c1 Hc1. by apply IH.
Qed.

Lemma execute_loadstore_multiple_wf RA DP LD op c :
  cpu_wf c -> outcome_holds cpu_wf (execute_loadstore_multiple RA DP LD op c).
Proof.
  intros Hc. unfold execute_loadstore_multiple. cbn zeta. destruct (negb _); [wf_steps|].
  eapply outcome_holds_bind; [by apply loadstore_multiple_loop_wf|]. intros; wf_steps.
Qed.

Lemma execute_fp_loadstore_wf RA RB LD DB UP op c :
  cpu_wf c -> outcome_holds cpu_wf (execute_fp_loadstore RA RB LD DB UP op c).
Proof.
  intros Hc. unfold execute_fp_loadstore. cbn zeta.
  eapply (outcome_holds_bind cpu_wf).
  - destruct LD.
    + eapply (outcome_holds_bind (is_uint 64)); [|intros v Hv; cbn [outcome_holds]; wf].
      destruct DB; [apply vm_read_memory_8_range, Hc|].
      eapply outcome_holds_bind; [apply vm_read_memory_4_range, Hc|].
      intros v Hv. apply d_of_f_range.
    + destruct DB; (apply cpu_write_wf; [done|]); intros;
        [by apply vm_write_memory_8_wf|by apply vm_write_memory_4_wf].
  - intros c1 Hc1. eapply outcome_holds_bind; [by apply update_wf; [|wf]|].
    intros c2 Hc2. wf_steps.
Qed.

Lemma load_string_tail_wf ea nb i rd c :
  cpu_wf c -> outcome_holds cpu_wf (load_string_tail ea nb i rd c).
Proof.
  intros Hc. unfold load_string_tail. destruct (_ =? 1); [|destruct (_ =? 2); [|destruct (_ =? 3); [|done]]].
  - eapply outcome_holds_bind; [apply vm_read_memory_1_range, Hc|]. intros; wf_steps.
  - eapply outcome_holds_bind; [apply vm_read_memory_2_range, Hc|]. intros; wf_steps.
  - eapply outcome_holds_bind; [apply vm_read_memory_2_range, Hc|]. intros ? ?.
    eapply outcome_holds_bind; [apply vm_read_memory_1_range, Hc|]. intros; wf_steps.
Qed.

Lemma load_string_words_wf n : forall ea nb i rd c,
  cpu_wf c -> outcome_holds cpu_wf (load_string_words n ea nb i rd c).
Proof.
  induction n as [|n IH]; intros ea nb i rd c Hc; cbn [load_string_words];
    [by apply load_string_tail_wf|]. destruct (4 <=? nb - i); [|by apply load_string_tail_wf].
  eapply outcome_holds_bind; [apply vm_read_memory_4_range, Hc|]. intros v Hv. apply IH. wf.
Qed.

Lemma execute_load_string_wf RA IM NB op c :
  cpu_wf c -> outcome_holds cpu_wf (execute_load_string RA IM NB op c).
Proof.
  intros Hc. unfold execute_load_string. cbn zeta.
  eapply outcome_holds_bind; [by apply load_string_words_wf|]. intros; wf_steps.
Qed.

Lemma store_string_loop_wf n : forall ea i rs sh c,
  cpu_wf c -> outcome_holds cpu_wf (store_string_loop n ea i rs sh c).
Proof.
  induction n as [|n IH]; intros ea i rs sh c Hc; cbn [store_string_loop]; [done|].
  eapply outcome_holds_bind; [apply cpu_write_wf; [done|intros; by apply vm_write_memory_1_wf]|].
  intros c1 Hc1. destruct (_ <? 0); by apply IH.
Qed.

Lemma execute_store_string_wf RA IM NB op c :
  cpu_wf c -> outcome_holds cpu_wf (execute_store_string RA IM NB op c).
Proof.
  intros Hc. unfold execute_store_string. cbn zeta.
  eapply outcome_holds_bind; [by apply store_string_loop_wf|]. intros; wf_steps.
Qed.

Lemma execute_lwarx_wf RA op c : cpu_wf c -> outcome_holds cpu_wf (execute_lwarx RA op c).
Proof.
  intros Hc. unfold execute_lwarx. cbn zeta.
  eapply outcome_holds_bind; [apply vm_read_memory_4_range, Hc|]. intros v Hv. wf_steps.
Qed.

Lemma cr_clear_range crfd x : is_uint 32 x -> is_uint 32 (cr_clear crfd x).
Proof. intros. by apply is_uint_land_l. Qed.
#[local] Hint Resolve cr_clear_range : word.

Lemma execute_stwcx_wf RA op c : cpu_wf c -> outcome_holds cpu_wf (execute_stwcx RA op c).
Proof.
  intros Hc. unfold execute_stwcx. cbn zeta.
  eapply (outcome_holds_bind cpu_wf); [|intros; wf_steps].
  destruct (Zb _); [|wf_steps].
  eapply (outcome_holds_bind cpu_wf); [|intros; wf_steps].
  destruct (_ =? _); wf_steps.
Qed.

Lemma memset_wf n : forall a v m, mem_wf m -> outcome_holds mem_wf (memset a v n m).
Proof.
  induction n as [|n IH]; intros a v m Hm; cbn [memset]; [done|].
  eapply outcome_holds_bind; [by apply store_1_wf|]. intros. by apply IH.
Qed.

Lemma execute_dcbz_wf RA RB op c : cpu_wf c -> outcome_holds cpu_wf (execute_dcbz RA RB op c).
Proof.
  intros Hc. unfold execute_dcbz. cbn zeta.
  eapply outcome_holds_bind; [apply cpu_write_wf; [done|intros; by apply memset_wf]|].
  intros; wf_steps.
Qed.

End Wf.
