(* ===== verification/MemSpec.v ===== *)
(** What the load and store handlers of [ExecMem] do to memory and registers. *)
From S2P Require Import Prelude Bitfields Registers HostFPU Operations Memory Handlers BlockCache Cpu Operands ExecMem ExecInt IntSpec.

Lemma vm_read_memory_4_be m a : mem_wf m -> vm_read_memory_4 m a = load_be 4 m a.
Proof. apply vm_do_read_memory_4_be. Qed.
Lemma vm_read_memory_2_be m a : mem_wf m -> vm_read_memory_2 m a = load_be 2 m a.
Proof. apply vm_do_read_memory_2_be. Qed.
Lemma vm_write_memory_4_be a v m : vm_write_memory_4 a v m = store_be 4 a v m.
Proof. apply vm_do_write_memory_4_be. Qed.

Lemma gpr_set_gpr c i j v :
  cpu_wf c -> 0 <= i <= 31 -> 0 <= j <= 31 ->
  gpr (set_gpr i v c) j = if j =? i then v else gpr c j.
Proof.
  intros Hc Hi Hj. simpl_cpu. destruct (Z.eqb_spec j i) as [->|].
  - apply Zlookup_insert_eq. by apply gpr_index.
  - apply Zlookup_insert_ne; lia.
Qed.

Lemma set_gpr_set_gpr c i v w : set_gpr i v (set_gpr i w c) = set_gpr i v c.
Proof.
  unfold set_gpr, with_regs; cbn. unfold Zinsert. by rewrite list_insert_insert_eq.
Qed.

(** ** Load and store multiple *)

Lemma store_multiple_spec n : forall r ea c c1,
  cpu_wf c -> 0 <= r -> r + Z.of_nat n <= 32 -> 0 <= ea -> ea + 4 * Z.of_nat n <= 2 ^ 32 ->
  loadstore_multiple_loop n false r ea c = Ok c1 ->
  regs c1 = regs c /\
  (forall i, ~ (ea <= i < ea + 4 * Z.of_nat n) -> mem c1 !! i = mem c !! i) /\
  (forall k, 0 <= k < Z.of_nat n -> load_be 4 (mem c1) (ea + 4 * k) = Ok (gpr c (r + k))).
Proof.
  induction n as [|n IH]; intros r ea c c1 Hc Hr Hn Hea Hlim H; cbn [loadstore_multiple_loop] in H.
  { injection H as <-. split_and!; [done..|lia]. }
  apply outcome_bind_Ok in H as (c0 & H0 & H).
  unfold cpu_write in H0. apply outcome_bind_Ok in H0 as (m & Hm & [= <-]).
  rewrite vm_write_memory_4_be in Hm.
  assert (Hgr : is_uint 32 (gpr c r)) by (apply gpr_range; [done|lia]).
  assert (Hc0 : cpu_wf (set_mem m c)).
  { apply set_mem_wf; [done|]. pose proof (store_be_wf 4 ea (gpr c r) (mem c) ltac:(apply Hc)) as Hw.
    by rewrite Hm in Hw. }
  destruct n as [|n'] eqn:En.
  { cbn in H. injection H as <-. cbn [mem regs set_mem]. split_and!; [done| |].
    - intros i Hi. eapply store_be_frame; [done|]. lia.
    - intros k Hk. assert (k = 0) as -> by lia. rewrite !Z.add_0_r.
      rewrite (load_store_be 4 _ _ _ _ Hm). by rewrite trunc_small. }
  rewrite <- En in *. assert (Eea : u32 (ea + 4) = ea + 4) by (apply trunc_small; split; lia).
  rewrite Eea in H. destruct (IH (r + 1) (ea + 4) _ _ Hc0 ltac:(lia) ltac:(lia) ltac:(lia) ltac:(lia) H)
    as (Hregs & Hframe & Hload).
  split_and!.
  - done.
  - intros i Hi. rewrite Hframe by lia. cbn [mem set_mem]. eapply store_be_frame; [done|]. lia.
  - intros k Hk. destruct (decide (k = 0)) as [->|].
    + rewrite !Z.add_0_r. rewrite (load_be_cong 4 m (mem c1)).
      * rewrite (load_store_be 4 _ _ _ _ Hm). by rewrite trunc_small.
      * intros i Hi. by rewrite Hframe by lia.
    + replace (ea + 4 * k) with (ea + 4 + 4 * (k - 1)) by lia.
      rewrite Hload by lia. f_equal. change (gpr (set_mem m c)) with (gpr c). f_equal. lia.
Qed.

Lemma load_multiple_spec n : forall r ea c (v : Z -> Z),
  cpu_wf c -> 0 <= r -> r + Z.of_nat n <= 32 -> 0 <= ea -> ea + 4 * Z.of_nat n <= 2 ^ 32 ->
  (forall k, 0 <= k < Z.of_nat n -> load_be 4 (mem c) (ea + 4 * k) = Ok (v (r + k))) ->
  exists c1, loadstore_multiple_loop n true r ea c = Ok c1 /\
    cpu_wf c1 /\ mem c1 = mem c /\
    forall j, 0 <= j <= 31 ->
      gpr c1 j = if (r <=? j) && (j <? r + Z.of_nat n) then v j else gpr c j.
Proof.
  induction n as [|n IH]; intros r ea c v Hc Hr Hn Hea Hlim Hv; cbn [loadstore_multiple_loop].
  { exists c. split_and!; [done..|]. intros j Hj. by split_cmp. }
  rewrite vm_read_memory_4_be by apply Hc.
  pose proof (Hv 0 ltac:(lia)) as H0. rewrite !Z.add_0_r in H0.
  pose proof (load_be_range 4 (mem c) ea ltac:(apply Hc)) as Hrg. rewrite H0 in Hrg. cbn in Hrg.
  rewrite H0. cbn.
  assert (Hc1 : cpu_wf (set_gpr r (v r) c)) by wf.
  destruct n as [|n'] eqn:En.
  { cbn. exists (set_gpr r (v r) c). split_and!; [done..|]. intros j Hj.
    rewrite gpr_set_gpr by (done || lia). destruct (Z.eqb_spec j r) as [->|]; by split_cmp. }
  rewrite <- En in *. assert (Eea : u32 (ea + 4) = ea + 4) by (apply trunc_small; split; lia).
  rewrite Eea. destruct (IH (r + 1) (ea + 4) (set_gpr r (v r) c) v Hc1)
    as (c1 & H1 & Hw & Hm & Hg); try lia.
  { intros k Hk. replace (ea + 4 + 4 * k) with (ea + 4 * (k + 1)) by lia.
    replace (r + 1 + k) with (r + (k + 1)) by lia. apply Hv. lia. }
  exists c1. split_and!; [done..|]. intros j Hj. rewrite Hg by done.
  rewrite gpr_set_gpr by (done || lia). destruct (Z.eqb_spec j r) as [->|]; by split_cmp.
Qed.

(** [stmw] and [lmw] round-trip.  What [stmw] stores from register r on,
    [lmw] with the same first register and effective address reads back into
    the registers r to 31, whatever the state has become in between, as long
    as memory is the one the store left; the registers below r are kept. *)
Theorem multiple_roundtrip RA DP op1 op2 c c1 c2 :
  cpu_wf c -> cpu_wf c2 ->
  let ea := u32 (operand_get RA c op1 + operand_get DP c op1) in
  let r := extract rS_field op1 in
  Z.land ea 3 = 0 -> ea + 4 * (32 - r) <= 2 ^ 32 ->
  execute_loadstore_multiple RA DP false op1 c = Ok c1 ->
  mem c2 = mem c1 -> u32 (operand_get RA c2 op2 + operand_get DP c2 op2) = ea ->
  extract rD_field op2 = r ->
  exists c3, execute_loadstore_multiple RA DP true op2 c2 = Ok c3 /\
    forall j, 0 <= j <= 31 -> gpr c3 j = if r <=? j then gpr c j else gpr c2 j.
Proof.
  intros Hc Hc2 ea r Hal Hlim H Hmem Hea2 Hr2. unfold execute_loadstore_multiple in *.
  rewrite Hea2, Hr2. fold ea r in H |- *. cbn zeta in *. rewrite Hal in *. cbn [Z.eqb negb] in *.
  pose proof (extract_5 rS_field op1 ltac:(solve_bf) ltac:(solve_bf)) as Hr. fold r in Hr.
  assert (Hea0 : 0 <= ea) by (unfold ea; pose proof (u32_range (operand_get RA c op1 + operand_get DP c op1)) as [? ?]; done).
  assert (En : Z.of_nat (Z.to_nat (32 - r)) = 32 - r) by lia.
  apply outcome_bind_Ok in H as (c' & H & [= <-]).
  destruct (store_multiple_spec (Z.to_nat (32 - r)) r ea c c' Hc) as (Hregs & _ & Hload); try lia; [done|].
  destruct (load_multiple_spec (Z.to_nat (32 - r)) r ea c2 (gpr c) Hc2) as (c3 & H3 & _ & _ & Hg);
    try lia.
  { intros k Hk. rewrite Hmem. change (mem (increment_pc 4 c')) with (mem c'). by apply Hload. }
  rewrite H3. eexists. split; [reflexivity|]. intros j Hj.
  change (gpr (increment_pc 4 c3) j) with (gpr c3 j). rewrite Hg by done. by split_cmp.
Qed.

(** A state with [n] mapped zero bytes at address 0x1000, and r1 there. *)
Fixpoint map_zeros (n : nat) (a : Z) (m : memory) : memory :=
  match n with O => m | S n => <[a := 0]> (map_zeros n (a + 1) m) end.
Definition cpu_mem (n : nat) : powerpc_cpu := set_gpr 1 0x1000 (cpu_init (map_zeros n 0x1000 ∅)).

Lemma map_zeros_wf n : forall a m, mem_wf m -> mem_wf (map_zeros n a m).
Proof.
  induction n as [|n IH]; intros a m Hm; cbn; [done|].
  apply map_Forall_insert_2; [done|]. by apply IH.
Qed.

Lemma cpu_mem_init_wf n : cpu_wf (cpu_mem n).
Proof.
  assert (cpu_wf (cpu_init (map_zeros n 0x1000 ∅))) as Hc.
  { apply cpu_init_wf, map_zeros_wf, map_Forall_empty. }
  unfold cpu_mem. revert Hc. generalize (cpu_init (map_zeros n 4096 ∅)). intros c Hc.
  assert (is_uint 32 0x1000) by done. wf.
Qed.

(** stmw r30,0(r1); lmw r30,0(r1) *)
Lemma multiple_roundtrip_witness :
  exists c1 c3,
    execute_loadstore_multiple operand_RA_or_0 operand_D false 0xbfc10000
      (set_gpr 30 0x11223344 (cpu_mem 8)) = Ok c1 /\
    execute_loadstore_multiple operand_RA_or_0 operand_D true 0xbbc10000
      (set_gpr 30 0 c1) = Ok c3 /\ gpr c3 30 = 0x11223344.
Proof.
  assert (Hw : cpu_wf (set_gpr 30 0x11223344 (cpu_mem 8))).
  { pose proof (cpu_mem_init_wf 8) as Hc. revert Hc. generalize (cpu_mem 8). intros c Hc.
    assert (is_uint 32 0x11223344) by done. wf. }
  destruct (execute_loadstore_multiple operand_RA_or_0 operand_D false 0xbfc10000
    (set_gpr 30 0x11223344 (cpu_mem 8))) as [c1| | | |] eqn:E1; [|by vm_compute in E1..].
  pose proof (execute_loadstore_multiple_wf operand_RA_or_0 operand_D false 0xbfc10000 _ Hw) as Hw1.
  rewrite E1 in Hw1. cbn [outcome_holds] in Hw1.
  assert (Hw2 : cpu_wf (set_gpr 30 0 c1)) by (assert (is_uint 32 0) by done; wf).
  assert (Hea : u32 (operand_get operand_RA_or_0 (set_gpr 30 0 c1) 0xbbc10000 +
    operand_get operand_D (set_gpr 30 0 c1) 0xbbc10000) = 0x1000).
  { vm_compute in E1. injection E1 as <-. by vm_compute. }
  destruct (multiple_roundtrip operand_RA_or_0 operand_D 0xbfc10000 0xbbc10000
    (set_gpr 30 0x11223344 (cpu_mem 8)) c1 (set_gpr 30 0 c1) Hw Hw2) as (c3 & H3 & Hg);
    [by vm_compute|by vm_compute|exact E1|reflexivity| |by vm_compute|].
  - rewrite Hea. by vm_compute.
  - exists c1, c3. split; [done|]. split; [exact H3|]. rewrite Hg by lia. by vm_compute.
Defined.

(** ** Load string: the word loop and the byte loop *)

Lemma load_1_range m a b : mem_wf m -> load_1 m a = Ok b -> is_uint 8 b.
Proof. intros Hm E. pose proof (load_1_wf m a Hm) as H. by rewrite E in H. Qed.

(** Merging the next byte into the register that holds the previous ones. *)
Lemma merge_byte_1 b0 b1 :
  is_uint 8 b0 -> is_uint 8 b1 ->
  Z.lor (Z.land (u32 (Z.shiftl b0 24)) 0xff00ffff) (u32 (Z.shiftl b1 16)) =
    u32 (Z.shiftl (b0 * 2 ^ 8 + b1) 16).
Proof.
  intros H0 H1. rewrite <- (lor_shiftl_add b0 b1 8) by (done || lia).
  replace 0xff00ffff with (Z.lor (Z.shiftl (Z.ones 8) 24) (Z.ones 16)) by reflexivity. bits.
Qed.
Lemma disjoint_bytes x b2 : is_uint 8 b2 -> Z.land (Z.shiftl x 16) (Z.shiftl b2 8) = 0.
Proof.
  intros H2. apply Z.bits_inj'; intros i Hi. push_testbit.
  destruct (Z.ltb_spec i 16); split_cmp; close_bits.
Qed.
Lemma merge_byte_2 x b2 :
  is_uint 16 x -> is_uint 8 b2 ->
  Z.lor (Z.land (u32 (Z.shiftl x 16)) 0xffff00ff) (u32 (Z.shiftl b2 8)) =
    u32 (Z.shiftl x 16 + Z.shiftl b2 8).
Proof.
  intros Hx H2. rewrite <- (lor_add_disjoint (Z.shiftl x 16) (Z.shiftl b2 8)).
  - replace 0xffff00ff with (Z.lor (Z.shiftl (Z.ones 16) 16) (Z.ones 8)) by reflexivity. bits.
  - by apply disjoint_bytes.
Qed.
Lemma merge_byte_3 x b2 b3 :
  is_uint 16 x -> is_uint 8 b2 -> is_uint 8 b3 ->
  Z.lor (Z.land (u32 (Z.shiftl x 16 + Z.shiftl b2 8)) 0xffffff00) b3 =
    x * 2 ^ 16 + (b2 * 2 ^ 8 + b3).
Proof.
  intros Hx H2 H3.
  assert (is_uint 16 (b2 * 2 ^ 8 + b3)).
  { destruct H2, H3. unfold is_uint. change (2 ^ 8) with 256 in *. change (2 ^ 16) with 65536. lia. }
  rewrite <- (lor_shiftl_add x) by (done || lia). rewrite <- (lor_shiftl_add b2) by (done || lia).
  rewrite <- (lor_add_disjoint (Z.shiftl x 16) (Z.shiftl b2 8)) by (by apply disjoint_bytes).
  replace 0xffffff00 with (Z.shiftl (Z.ones 24) 8) by reflexivity. bits.
Qed.

Lemma be2_eq b0 b1 :
  b0 * 2 ^ (8 * Z.of_nat 1) + (b1 * 2 ^ (8 * Z.of_nat 0) + 0) = b0 * 2 ^ 8 + b1.
Proof.
  change (2 ^ (8 * Z.of_nat 1)) with 256. change (2 ^ (8 * Z.of_nat 0)) with 1.
  change (2 ^ 8) with 256. lia.
Qed.

Lemma u32_succ ea i k :
  0 <= ea -> 0 <= i -> 0 <= k -> ea + i + k < 2 ^ 32 -> u32 (ea + (i + k)) = u32 (ea + i) + k.
Proof.
  intros. rewrite !trunc_small by (split; lia). lia.
Qed.

Lemma land_3 i : Z.land i 3 = i mod 4.
Proof. change 3 with (Z.ones 2). by rewrite Z.land_ones by lia. Qed.

Section LoadString.
Context (c : powerpc_cpu) (Hc : cpu_wf c).
Context (ea i rd : Z) (Hea : 0 <= ea) (Hi : 0 <= i) (Hi4 : i mod 4 = 0) (Hrd : 0 <= rd <= 31).

(** The register the byte loop has built after its first bytes. *)
Lemma gpr_set_same v : gpr (set_gpr rd v c) rd = v.
Proof using Hc Hrd. rewrite gpr_set_gpr by done. by rewrite Z.eqb_refl. Qed.

Lemma byte_phase k : 0 <= k < 4 -> Z.land (i + k) 3 = k.
Proof using Hi4. intros. rewrite land_3, <- Z.add_mod_idemp_l, Hi4 by lia. by rewrite Z.mod_small by lia. Qed.

(** One byte; two bytes; three bytes; a whole word. *)
Lemma bytes_1 n :
  load_string_bytes (S n) ea i rd c =
    (b0 ← load_1 (mem c) (u32 (ea + i));
     load_string_bytes n ea (i + 1) rd (set_gpr rd (u32 (Z.shiftl b0 24)) c)).
Proof using Hi4.
  cbn [load_string_bytes]. pose proof (byte_phase 0 ltac:(lia)) as E. rewrite Z.add_0_r in E.
  rewrite E. done.
Qed.

Lemma bytes_2 n :
  ea + i + 1 < 2 ^ 32 ->
  load_string_bytes (S (S n)) ea i rd c =
    (x ← vm_read_memory_2 (mem c) (u32 (ea + i));
     load_string_bytes n ea (i + 2) rd (set_gpr rd (u32 (Z.shiftl x 16)) c)).
Proof using Hc Hea Hi Hi4 Hrd.
  intros Hlim. rewrite bytes_1, vm_read_memory_2_be by apply Hc. cbn [load_be].
  set (a := u32 (ea + i)). destruct (load_1_cases (mem c) a ltac:(apply Hc)) as [(b0 & -> & H0)| ->];
    cbn [mbind outcome_bind]; [|done].
  cbn [load_string_bytes]. rewrite (byte_phase 1) by lia.
  unfold vm_read_memory_1, vm_do_read_memory_1, vm_do_get_real_address.
  rewrite (u32_succ ea i 1) by lia. fold a. change (mem (set_gpr _ _ c)) with (mem c).
  destruct (load_1_cases (mem c) (a + 1) ltac:(apply Hc)) as [(b1 & -> & H1)| ->];
    cbn [mbind outcome_bind]; [|done].
  cbn [Z.eqb Pos.eqb]. rewrite gpr_set_same, set_gpr_set_gpr, merge_byte_1 by done.
  replace (i + 1 + 1) with (i + 2) by lia. by rewrite be2_eq.
Qed.

Lemma bytes_3 n :
  ea + i + 2 < 2 ^ 32 ->
  load_string_bytes (S (S (S n))) ea i rd c =
    (x ← vm_read_memory_2 (mem c) (u32 (ea + i));
     b2 ← vm_read_memory_1 (mem c) (u32 (ea + i + 2));
     load_string_bytes n ea (i + 3) rd (set_gpr rd (u32 (Z.shiftl x 16 + Z.shiftl b2 8)) c)).
Proof using Hc Hea Hi Hi4 Hrd.
  intros Hlim. rewrite bytes_2 by lia.
  pose proof (vm_read_memory_2_range (mem c) (u32 (ea + i)) ltac:(apply Hc)) as Hx.
  destruct (vm_read_memory_2 _ _) as [x| | | |]; cbn [mbind outcome_bind outcome_holds] in *; try done.
  cbn [load_string_bytes]. rewrite (byte_phase 2) by lia. rewrite Z.add_assoc.
  change (mem (set_gpr _ _ c)) with (mem c).
  unfold vm_read_memory_1, vm_do_read_memory_1, vm_do_get_real_address.
  destruct (load_1_cases (mem c) (u32 (ea + i + 2)) ltac:(apply Hc)) as [(b2 & -> & H2)| ->];
    cbn [mbind outcome_bind]; [|done].
  cbn [Z.eqb Pos.eqb]. rewrite gpr_set_same, set_gpr_set_gpr, merge_byte_2 by done.
  by replace (i + 2 + 1) with (i + 3) by lia.
Qed.

Lemma bytes_4 n :
  ea + i + 3 < 2 ^ 32 ->
  load_string_bytes (S (S (S (S n)))) ea i rd c =
    (v ← vm_read_memory_4 (mem c) (u32 (ea + i));
     load_string_bytes n ea (i + 4) (Z.land (rd + 1) 0x1f) (set_gpr rd v c)).
Proof using Hc Hea Hi Hi4 Hrd.
  intros Hlim. rewrite bytes_3 by lia.
  rewrite vm_read_memory_2_be, vm_read_memory_4_be by apply Hc. cbn [load_be].
  set (a := u32 (ea + i)).
  replace (u32 (ea + i + 2)) with (a + 2) by (unfold a; rewrite !trunc_small by (split; lia); lia).
  destruct (load_1_cases (mem c) a ltac:(apply Hc)) as [(b0 & -> & H0)| ->];
    cbn [mbind outcome_bind]; [|done].
  destruct (load_1_cases (mem c) (a + 1) ltac:(apply Hc)) as [(b1 & -> & H1)| ->];
    cbn [mbind outcome_bind]; [|done].
  unfold vm_read_memory_1, vm_do_read_memory_1, vm_do_get_real_address.
  replace (a + 1 + 1) with (a + 2) by lia.
  destruct (load_1_cases (mem c) (a + 2) ltac:(apply Hc)) as [(b2 & -> & H2)| ->];
    cbn [mbind outcome_bind]; [|done].
  cbn [load_string_bytes]. rewrite (byte_phase 3) by lia.
  unfold vm_read_memory_1, vm_do_read_memory_1, vm_do_get_real_address.
  replace (u32 (ea + (i + 3))) with (a + 2 + 1) by (unfold a; rewrite !trunc_small by (split; lia); lia).
  change (mem (set_gpr _ _ c)) with (mem c).
  destruct (load_1_cases (mem c) (a + 2 + 1) ltac:(apply Hc)) as [(b3 & -> & H3)| ->];
    cbn [mbind outcome_bind]; [|done].
  cbn [Z.eqb Pos.eqb]. rewrite gpr_set_same, set_gpr_set_gpr.
  change (Z.of_nat 3) with 3. change (Z.of_nat 2) with 2. change (Z.of_nat 1) with 1. change (Z.of_nat 0) with 0.
  assert (Hx : is_uint 16 (b0 * 2 ^ (8 * 1) + (b1 * 2 ^ (8 * 0) + 0))).
  { destruct H0, H1. unfold is_uint. change (2 ^ (8 * 1)) with 256. change (2 ^ (8 * 0)) with 1.
    change (2 ^ 8) with 256 in *. change (2 ^ 16) with 65536. lia. }
  rewrite merge_byte_3 by done. replace (i + 3 + 1) with (i + 4) by lia. do 2 f_equal.
  change (2 ^ (8 * 3)) with (65536 * 256). change (2 ^ (8 * 2)) with 65536.
  change (2 ^ (8 * 1)) with 256. change (2 ^ (8 * 0)) with 1. change (2 ^ 16) with 65536.
  change (2 ^ 8) with 256. lia.
Qed.
End LoadString.

(** C16: The word-at-a-time [lswi]/[lswx] loop is equivalent to the byte loop
    the source keeps as a reference: same registers, same memory accesses
    that fault at the same address, for every length and start register (the
    registers wrap from 31 to 0), unless the string wraps around the end of
    the address space. *)
Theorem load_string_equiv nb ea rd c :
  cpu_wf c -> 0 <= nb -> 0 <= rd <= 31 -> 0 <= ea -> ea + nb <= 2 ^ 32 ->
  load_string_words (Z.to_nat (nb / 4)) ea nb 0 rd c = load_string_bytes (Z.to_nat nb) ea 0 rd c.
Proof.
  intros Hc Hnb Hrd Hea Hlim.
  assert (Hgen : forall n i rd c, cpu_wf c -> 0 <= rd <= 31 -> 0 <= i -> i mod 4 = 0 -> i <= nb ->
    Z.of_nat n = (nb - i) / 4 ->
    load_string_words n ea nb i rd c = load_string_bytes (Z.to_nat (nb - i)) ea i rd c).
  { clear dependent rd c. induction n as [|n IH]; intros i rd c Hc Hrd Hi Hi4 Hin Hn.
    - assert (nb - i < 4) by (Z.div_mod_to_equations; lia).
      cbn [load_string_words]. unfold load_string_tail.
      assert (nb - i = 0 \/ nb - i = 1 \/ nb - i = 2 \/ nb - i = 3) as Hcase by lia.
      destruct Hcase as [E|[E|[E|E]]]; rewrite E; cbn [Z.eqb Pos.eqb].
      + done.
      + change (Z.to_nat 1) with 1%nat. by rewrite bytes_1.
      + change (Z.to_nat 2) with 2%nat. rewrite bytes_2 by (done || lia). done.
      + change (Z.to_nat 3) with 3%nat. rewrite bytes_3 by (done || lia). done.
    - assert (4 <= nb - i) by (Z.div_mod_to_equations; lia).
      cbn [load_string_words]. split_cmp.
      replace (Z.to_nat (nb - i)) with (S (S (S (S (Z.to_nat (nb - (i + 4))))))) by lia.
      rewrite bytes_4 by (done || lia).
      pose proof (vm_read_memory_4_range (mem c) (u32 (ea + i)) ltac:(apply Hc)) as Hv.
      destruct (vm_read_memory_4 _ _) as [v| | | |]; cbn [mbind outcome_bind outcome_holds] in *; try done.
      apply IH; try lia.
      + wf.
      + change (Z.land (rd + 1) 0x1f) with (Z.land (rd + 1) (Z.ones 5)). rewrite Z.land_ones by lia.
        pose proof (Z.mod_pos_bound (rd + 1) (2 ^ 5) ltac:(lia)). change (2 ^ 5) with 32 in *. lia.
      + rewrite <- Z.add_mod_idemp_l, Hi4 by lia. done.
      + Z.div_mod_to_equations; lia. }
  rewrite (Hgen _ 0) by (done || lia || (rewrite Z.sub_0_r, Z2Nat.id; [done|apply Z.div_pos; lia])).
  by rewrite Z.sub_0_r.
Qed.

Lemma load_string_equiv_witness :
  load_string_words (Z.to_nat (7 / 4)) 0x1000 7 0 31 (cpu_mem 7) =
    load_string_bytes (Z.to_nat 7) 0x1000 0 31 (cpu_mem 7).
Proof.
  apply (load_string_equiv 7 0x1000 31 (cpu_mem 7)); [apply cpu_mem_init_wf|done..].
Defined.

(** ** Reservations *)

(** [lwarx] and [stwcx.].  A load-and-reserve records the address; a
    conditional store writes memory exactly when a reservation for its address
    is pending, reports it in the EQ bit of CR0 (LT and GT clear, SO copied),
    leaves memory alone otherwise, and in every case no reservation is left:
    of two conditional stores the second fails. *)
Theorem reservation_spec RA opcode c :
  cpu_wf c ->
  let ea := u32 (operand_get RA c opcode + operand_get operand_RB c opcode) in
  let success := Zb (r_reserve_valid (regs c)) && (r_reserve_addr (regs c) =? ea) in
  mapped 4 ea (mem c) ->
  (exists c1, execute_lwarx RA opcode c = Ok c1 /\
     r_reserve_valid (regs c1) = 1 /\ r_reserve_addr (regs c1) = ea /\ mem c1 = mem c /\
     load_be 4 (mem c) ea = Ok (gpr c1 (extract rD_field opcode))) /\
  (exists c2, execute_stwcx RA opcode c = Ok c2 /\
     r_reserve_valid (regs c2) = 0 /\
     cr_get 0 (cr c2) = (if success then 2 else 0) + xer_so (xer c) /\
     (forall k, 1 <= k <= 7 -> cr_get k (cr c2) = cr_get k (cr c)) /\
     (success = true -> load_be 4 (mem c2) ea = Ok (gpr c (extract rS_field opcode))) /\
     (success = false -> mem c2 = mem c)).
Proof.
  intros Hc ea success Hmap. split.
  - destruct (load_be_total 4 (mem c) ea Hmap) as [v Hv].
    unfold execute_lwarx. fold ea. cbn zeta. rewrite vm_read_memory_4_be by apply Hc. rewrite Hv.
    cbn [mbind outcome_bind operand_set]. eexists. split; [reflexivity|].
    pose proof (load_be_range 4 (mem c) ea ltac:(apply Hc)) as Hr. rewrite Hv in Hr. cbn in Hr.
    split_and!; [done..|]. f_equal. symmetry. apply gpr_result; [wf|]. apply extract_5; solve_bf.
  - set (rs := gpr c (extract rS_field opcode)).
    assert (Hrs : is_uint 32 rs) by (unfold rs; wf).
    assert (Hcr : is_uint 32 (cr c)) by wf.
    destruct (xer_range c Hc) as (Hso & _).
    assert (Hcr0 : forall v b, is_uint 4 v ->
      let x := cr_set_so 0 b (cr_set 0 v (cr_clear 0 (cr c))) in
      cr_get 0 x = Z.lor (Z.land v 14) (bZ b) /\ forall k, 1 <= k <= 7 -> cr_get k x = cr_get k (cr c)).
    { intros v b Hv x. assert (is_uint 32 (cr_clear 0 (cr c))) by (by apply cr_clear_range).
      assert (Hclr : forall i, 0 <= i -> Z.testbit (cr_clear 0 (cr c)) i = (i <? 28) && Z.testbit (cr c) i).
      { intros i Hi. unfold cr_clear. replace 0xf with (Z.ones 4) by reflexivity. push_testbit.
        split_cmp; close_bits. }
      assert (Hx : forall i, 0 <= i -> Z.testbit x i =
        if i =? 28 then b else if 28 <=? i then (i <? 32) && Z.testbit v (i - 28) else Z.testbit (cr c) i).
      { intros i Hi. unfold x. rewrite testbit_cr_set_so by (done || lia || wf).
        rewrite testbit_cr_set, Hclr by (done || lia). split_cmp; close_bits. }
      split; [|intros k Hk]; apply Z.bits_inj'; intros i Hi; rewrite !testbit_cr_get by lia;
        rewrite Hx by lia.
      - replace 14 with (Z.shiftl (Z.ones 3) 1) by reflexivity. push_testbit. split_cmp; close_bits.
      - split_cmp; close_bits. }
    assert (Hcr1 : forall b,
      let x := cr_set_so 0 b (cr_clear 0 (cr c)) in
      cr_get 0 x = bZ b /\ forall k, 1 <= k <= 7 -> cr_get k x = cr_get k (cr c)).
    { intros b x. assert (Ex : cr_set 0 0 (cr_clear 0 (cr c)) = cr_clear 0 (cr c)).
      { unfold cr_set, cr_clear. rewrite Z.shiftl_0_l. change (u32 0) with 0. rewrite Z.lor_0_r.
        rewrite <- Z.land_assoc. by rewrite Z.land_diag. }
      destruct (Hcr0 0 b ltac:(done)) as [H1 H2]. rewrite Ex in *.
      split; [etransitivity; [exact H1|done]|done]. }
    assert (Eso : bZ (Zb (xer_so (xer c))) = xer_so (xer c))
      by (destruct (bit_range _ Hso) as [-> | ->]; done).
    unfold execute_stwcx. fold ea. cbn zeta. unfold success.
    change (r_reserve_valid (regs (set_cr (cr_clear 0 (cr c)) c))) with (r_reserve_valid (regs c)).
    change (r_reserve_addr (regs (set_cr (cr_clear 0 (cr c)) c))) with (r_reserve_addr (regs c)).
    destruct (Zb (r_reserve_valid (regs c))) eqn:Ev; cbn [andb];
      [destruct (r_reserve_addr (regs c) =? ea)|].
    + destruct (store_be_total 4 ea rs (mem c) Hmap) as [m Hm].
      unfold cpu_write. rewrite vm_write_memory_4_be.
      change (operand_get operand_RS (set_cr (cr_clear 0 (cr c)) c) opcode) with rs.
      change (mem (set_cr (cr_clear 0 (cr c)) c)) with (mem c). rewrite Hm.
      cbn [mbind outcome_bind]. eexists. split; [reflexivity|].
      destruct (Hcr0 (mask standalone_CR_EQ_field) (Zb (xer_so (xer c))) ltac:(done)) as [H0 Hk].
      split_and!; [done| |exact Hk| |done].
      * etransitivity; [exact H0|]. rewrite Eso. destruct (bit_range _ Hso) as [-> | ->]; done.
      * intros _. etransitivity; [exact (load_store_be 4 _ _ _ _ Hm)|]. by rewrite trunc_small.
    + cbn [mbind outcome_bind]. eexists. split; [reflexivity|].
      destruct (Hcr1 (Zb (xer_so (xer c)))) as [H0 Hk].
      split_and!; [done| |exact Hk|done|done]. etransitivity; [exact H0|exact Eso].
    + cbn [mbind outcome_bind]. eexists. split; [reflexivity|].
      destruct (Hcr1 (Zb (xer_so (xer c)))) as [H0 Hk].
      split_and!; [|etransitivity; [exact H0|exact Eso]|exact Hk|done|done].
      unfold Zb in Ev. simpl_cpu. lia.
Qed.

(** stwcx. r4,0,r1 with a reservation at 0x1000 *)
Lemma reservation_spec_witness :
  exists c2, execute_stwcx operand_RA_or_0 0x7c80092d (set_reserve 1 0x1000 (cpu_mem 4)) = Ok c2 /\
    r_reserve_valid (regs c2) = 0 /\ cr_get 0 (cr c2) = 2.
Proof.
  destruct (reservation_spec operand_RA_or_0 0x7c80092d (set_reserve 1 0x1000 (cpu_mem 4)))
    as (_ & c2 & H & Hv & Hcr & _).
  - apply set_reserve_wf, cpu_mem_init_wf.
  - intros i Hi.
    replace (u32 _) with 0x1000 in Hi by (by vm_compute).
    assert (i = 0x1000 \/ i = 0x1001 \/ i = 0x1002 \/ i = 0x1003) as Hcase by lia.
    destruct Hcase as [->|[->|[->| ->]]]; vm_compute; by eexists.
  - exists c2. split; [exact H|]. split; [exact Hv|]. rewrite Hcr. by vm_compute.
Defined.

(** ** Data cache block zero *)

Lemma memset_spec n : forall a v m,
  mapped n a m ->
  exists m', memset a v n m = Ok m' /\
    forall i, m' !! i = if (a <=? i) && (i <? a + Z.of_nat n) then Some (u8 v) else m !! i.
Proof.
  induction n as [|n IH]; intros a v m Hm; cbn [memset].
  { exists m. split; [done|]. intros i. by split_cmp. }
  destruct (Hm a ltac:(lia)) as [b Hb]. unfold store_1. rewrite Hb. cbn [mbind outcome_bind].
  destruct (IH (a + 1) v (<[a := u8 v]> m)) as (m' & H & Hl).
  { intros i Hi. rewrite lookup_insert_ne by lia. apply Hm. lia. }
  exists m'. split; [done|]. intros i. rewrite Hl.
  destruct (decide (i = a)) as [->|].
  - rewrite lookup_insert_eq. by split_cmp.
  - rewrite lookup_insert_ne by done. by split_cmp.
Qed.

(** [dcbz] zeroes the 32-byte line that contains the effective address
    and no other byte. *)
Theorem execute_dcbz_spec RA RB opcode c :
  cpu_wf c ->
  let ea := u32 (operand_get RA c opcode + operand_get RB c opcode) in
  let line := 32 * (ea / 32) in
  mapped 32 line (mem c) ->
  exists c', execute_dcbz RA RB opcode c = Ok c' /\
    forall a, mem c' !! a = if a / 32 =? ea / 32 then Some 0 else mem c !! a.
Proof.
  intros Hc ea line Hm. unfold execute_dcbz. fold ea. cbn zeta.
  assert (El : u32 (ea - ea mod 32) = line).
  { assert (is_uint 32 ea) as [? ?] by apply u32_range.
    pose proof (Z.div_mod ea 32 ltac:(lia)). pose proof (Z.mod_pos_bound ea 32 ltac:(lia)).
    unfold line. rewrite trunc_small by (split; lia). lia. }
  rewrite El. destruct (memset_spec 32 line 0 (mem c) Hm) as (m' & Hm' & Hl).
  unfold cpu_write, vm_memset, vm_do_get_real_address. rewrite Hm'. cbn [mbind outcome_bind].
  eexists. split; [reflexivity|]. intros a. cbn [mem increment_pc set_pc with_regs set_mem].
  rewrite Hl. unfold line. change (Z.of_nat 32) with 32. change (u8 0) with 0.
  pose proof (Z.div_mod a 32 ltac:(lia)). pose proof (Z.mod_pos_bound a 32 ltac:(lia)).
  destruct (Z.eqb_spec (a / 32) (ea / 32)); split_cmp; done || lia.
Qed.

(** dcbz 0,r1 with r1 = 0x1000 *)
Lemma execute_dcbz_spec_witness :
  exists c', execute_dcbz operand_RA_or_0 operand_RB 0x7c000fec (cpu_mem 32) = Ok c' /\
    mem c' !! 0x101f = Some 0 /\ mem c' !! 0x1020 = None.
Proof.
  destruct (execute_dcbz_spec operand_RA_or_0 operand_RB 0x7c000fec (cpu_mem 32)) as (c' & H & Ha).
  - apply cpu_mem_init_wf.
  - intros i Hi.
    replace (32 * _) with 0x1000 in Hi by (by vm_compute).
    assert (Hx : forall n a j m, a <= j < a + Z.of_nat n -> is_Some (map_zeros n a m !! j)).
    { induction n as [|n IH]; intros a j m Hj; cbn [map_zeros]; [lia|].
      destruct (decide (j = a)) as [->|]; [rewrite lookup_insert_eq; by eexists|].
      rewrite lookup_insert_ne by done. apply IH. lia. }
    change (mem (cpu_mem 32)) with (map_zeros 32 0x1000 ∅). by apply Hx.
  - exists c'. split; [exact H|]. rewrite !Ha. split; by vm_compute.
Defined.
