(* ===== verification/ExecFP.v ===== *)
(** Floating-point handlers of the interpreter (ppc-execute.cpp).  A double is
    its 64-bit pattern, a float its 32-bit pattern; the exception bits of
    FPSCR are compiled out ([PPC_ENABLE_FPU_EXCEPTIONS] is 0 by default). *)
From S2P Require Import Prelude Bitfields Registers HostFPU Operations Memory Handlers BlockCache Cpu Operands ExecMem ExecInt IntSpec.

(** ** Rounding modes *)

Definition ppc_to_native_rounding_mode (round : Z) : fe_mode :=
  if round =? 0 then FE_TONEAREST
  else if round =? 1 then FE_TOWARDZERO
  else if round =? 2 then FE_UPWARD
  else if round =? 3 then FE_DOWNWARD
  else FE_TONEAREST.

Definition native_to_ppc_rounding_mode (round : fe_mode) : Z :=
  match round with
  | FE_TONEAREST => 0 | FE_TOWARDZERO => 1 | FE_UPWARD => 2 | FE_DOWNWARD => 3
  end.

(** ** Classification *)

Inductive fp_class := FP_NAN | FP_INFINITE | FP_ZERO | FP_SUBNORMAL | FP_NORMAL.

(** [fpclassify] of a pattern with [e] exponent bits and [m] mantissa bits. *)
Definition fpclassify (e m x : Z) : fp_class :=
  let ex := Z.land (Z.shiftr x m) (Z.ones e) in
  let mt := Z.land x (Z.ones m) in
  if ex =? Z.ones e then if mt =? 0 then FP_INFINITE else FP_NAN
  else if ex =? 0 then if mt =? 0 then FP_ZERO else FP_SUBNORMAL
  else FP_NORMAL.

Definition is_NaN (x : Z) : bool :=
  (Z.land x 0x7ff0000000000000 =? 0x7ff0000000000000) &&
  negb (Z.land x 0x000fffffffffffff =? 0).

(** The classification and the sign tests in either format. *)
Definition class_of (FP : fp_type) (x : Z) : fp_class :=
  match FP with fp_double => fpclassify 11 52 x | fp_float => fpclassify 8 23 x end.
Definition fp_signbit (FP : fp_type) (x : Z) : bool :=
  match FP with fp_double => d_signbit x | fp_float => Z.testbit x 31 end.
Definition fp_negative (FP : fp_type) (x : Z) : bool :=
  match FP with fp_double => d_lt x 0 | fp_float => f_lt x 0 end.

(** [powerpc_cpu::fp_classify]: the FPRF field for the value [x]. *)
Definition fp_classify (FP : fp_type) (x : Z) (cpu : powerpc_cpu) : powerpc_cpu :=
  let c := Z.land (fpscr cpu) (u32 (Z.lnot (mask FPSCR_FPRF_field))) in
  let FL_FG c :=
    if fp_negative FP x then Z.lor c (mask FPSCR_FPRF_FL_field)
    else Z.lor c (mask FPSCR_FPRF_FG_field) in
  let c :=
    match class_of FP x with
    | FP_NAN => Z.lor c (Z.lor (mask FPSCR_FPRF_FU_field) (mask FPSCR_FPRF_C_field))
    | FP_ZERO =>
        let c := Z.lor c (mask FPSCR_FPRF_FE_field) in
        if fp_signbit FP x then Z.lor c (mask FPSCR_FPRF_C_field) else c
    | FP_INFINITE => FL_FG (Z.lor c (mask FPSCR_FPRF_FU_field))
    | FP_SUBNORMAL => FL_FG (Z.lor c (mask FPSCR_FPRF_C_field))
    | FP_NORMAL => FL_FG c
    end in
  set_fpscr c cpu.

Section Exec.
Context {FPU : HostFPU}.

(** ** Arithmetic *)

(** [op_apply<double, OP, RA, RB, RC>::apply], on doubles. *)
Definition fp_op_apply (m : fe_mode) (OP : fp_op) (a b c : Z) : Z :=
  match OP with
  | op_fnop => a
  | op_fabs => d_fabs a
  | op_fnabs => d_neg (d_fabs a)
  | op_fneg => d_neg a
  | op_fadd => d_add m a b
  | op_fsub => d_sub m a b
  | op_fmul => d_mul m a b
  | op_fdiv => d_div m a b
  | op_fmadd => mathlib_fmadd m a b c
  | op_fmsub => mathlib_fmsub m a b c
  | op_fnmadd => d_neg (mathlib_fmadd m a b c)
  | op_fnmsub => d_neg (mathlib_fmsub m a b c)
  | op_fnmadds => d_of_f (f_neg (f_of_d m (mathlib_fmadd m a b c)))
  | op_fnmsubs => d_of_f (f_neg (f_of_d m (mathlib_fmsub m a b c)))
  | op_fsel => if d_le 0 a then b else c
  end.

Definition execute_fp_arith (FP : fp_type) (OP : fp_op) (RD RA RB RC : fp_operand)
    (Rc : bit_pred) (FPSCR : bool) (opcode : Z) (cpu : powerpc_cpu) : outcome powerpc_cpu :=
  let a := fp_operand_get RA cpu opcode in
  let b := fp_operand_get RB cpu opcode in
  let c := fp_operand_get RC cpu opcode in
  let r := fp_op_apply (fe_round cpu) OP a b c in
  let d := match FP with fp_double => r | fp_float => f_of_d (fe_round cpu) r end in
  let cpu := if FPSCR && negb (test FPSCR_VE_field (fpscr cpu)) then fp_classify FP d cpu else cpu in
  let cpu := if bp_test Rc opcode then record_cr1 cpu else cpu in
  let d := match FP with fp_double => d | fp_float => d_of_f d end in
  Ok (increment_pc 4 (set_fpr_dw (extract (fp_field RD) opcode) d cpu)).

Definition execute_fp_round (Rc : bit_pred) (opcode : Z) (cpu : powerpc_cpu)
  : outcome powerpc_cpu :=
  let b := fp_operand_get operand_fp_RB cpu opcode in
  let d := f_of_d (fe_round cpu) b in
  let cpu := if negb (test FPSCR_VE_field (fpscr cpu)) then fp_classify fp_float d cpu else cpu in
  let cpu := if bp_test Rc opcode then record_cr1 cpu else cpu in
  Ok (increment_pc 4 (set_fpr_dw (extract frD_field opcode) (d_of_f d) cpu)).

(** ** Comparison *)

Definition fp_compare_code (a b : Z) : Z :=
  if is_NaN a || is_NaN b then 1
  else if d_lt a b then 8
  else if d_lt b a then 4
  else 2.

Definition execute_fp_compare (OC : bool) (opcode : Z) (cpu : powerpc_cpu) : outcome powerpc_cpu :=
  let a := fp_operand_get operand_fp_RA cpu opcode in
  let b := fp_operand_get operand_fp_RB cpu opcode in
  let crfd := extract crfD_field opcode in
  let c := fp_compare_code a b in
  let cpu := set_fpscr (insert FPSCR_FPCC_field (fpscr cpu) c) cpu in
  Ok (increment_pc 4 (set_cr (cr_set crfd c (cr cpu)) cpu)).

(** ** Conversion to integer *)

(** [-(double)0x80000000] and [(double)0x7fffffff]. *)
Definition d_minus_2_31 := 0xc1e0000000000000.
Definition d_max_int := 0x41dfffffffc00000.

(** The conversion rounds in the host's current mode ([mathlib_lrint]), which
    is set for it and restored after it. *)
Definition execute_fp_int_convert (RN : operand) (Rc : bit_pred) (opcode : Z) (cpu : powerpc_cpu)
  : outcome powerpc_cpu :=
  let b := fp_operand_get operand_fp_RB cpu opcode in
  let r := operand_get RN cpu opcode in
  let '(d, cpu) :=
    if d_le d_minus_2_31 b && d_le b d_max_int then
      let old_round := fe_round cpu in
      let cpu := fesetround (ppc_to_native_rounding_mode r) cpu in
      let d := u64 (s32 (d_lrint (fe_round cpu) b)) in
      (d, fesetround old_round cpu)
    else if d_lt 0 b then (0x7fffffff, cpu)
    else (0x80000000, cpu) in
  let cpu := if bp_test Rc opcode then record_cr1 cpu else cpu in
  Ok (increment_pc 4 (set_fpr_dw (extract frD_field opcode) d cpu)).

(** ** The status and control register *)

Definition fp_exception_fields : list bit_field :=
  [FPSCR_FX_field; FPSCR_OX_field; FPSCR_UX_field; FPSCR_ZX_field; FPSCR_XX_field;
   FPSCR_VXSNAN_field; FPSCR_VXISI_field; FPSCR_VXIDI_field; FPSCR_VXZDZ_field;
   FPSCR_VXIMZ_field; FPSCR_VXVC_field; FPSCR_VXSOFT_field; FPSCR_VXSQRT_field;
   FPSCR_VXCVI_field].

Definition execute_mcrfs (opcode : Z) (cpu : powerpc_cpu) : outcome powerpc_cpu :=
  let crfS := extract crfS_field opcode in
  let crfD := extract crfD_field opcode in
  let m := u32 (Z.shiftl 0xf (28 - 4 * crfS)) in
  let cpu := set_cr (cr_set crfD (Z.shiftr (Z.land (fpscr cpu) m) (28 - 4 * crfS)) (cr cpu)) cpu in
  let exceptions := foldr (fun f m => Z.lor (mask f) m) 0 fp_exception_fields in
  Ok (increment_pc 4 (set_fpscr (Z.land (fpscr cpu) (u32 (Z.lnot (Z.land m exceptions)))) cpu)).

(** FEX and VX, which the move instructions must not set. *)
Definition FEX_VX : Z := Z.lor (mask FPSCR_FEX_field) (mask FPSCR_VX_field).

(** [fesetround] when the mask covers a bit of the RN field. *)
Definition update_rounding (m : Z) (cpu : powerpc_cpu) : powerpc_cpu :=
  if Zb (Z.land m (mask FPSCR_RN_field))
  then fesetround (ppc_to_native_rounding_mode (extract FPSCR_RN_field (fpscr cpu))) cpu
  else cpu.

Definition execute_mtfsf (FM : operand) (RB : fp_operand) (Rc : bit_pred)
    (opcode : Z) (cpu : powerpc_cpu) : outcome powerpc_cpu :=
  let fsf := fp_operand_get RB cpu opcode in
  let f := operand_get FM cpu opcode in
  let m := field2mask f in
  let m := if Z.land f 0x80 =? 0 then Z.land m (u32 (Z.lnot (mask FPSCR_FX_field))) else m in
  let exceptions := u32 (Z.land fsf m) in
  let exceptions := Z.land exceptions (u32 (Z.lnot FEX_VX)) in
  let cpu := set_fpscr (Z.lor (Z.land (fpscr cpu) (u32 (Z.lnot m))) exceptions) cpu in
  let cpu := record_fpscr 0 cpu in
  let cpu := update_rounding m cpu in
  let cpu := if bp_test Rc opcode then record_cr1 cpu else cpu in
  Ok (increment_pc 4 cpu).

Definition execute_mtfsfi (RB : operand) (Rc : bit_pred) (opcode : Z) (cpu : powerpc_cpu)
  : outcome powerpc_cpu :=
  let crfD := extract crfD_field opcode in
  let m := u32 (Z.shiftl 0xf (4 * (7 - crfD))) in
  let m := if crfD =? 0 then Z.land m (u32 (Z.lnot (mask FPSCR_FX_field))) else m in
  let exceptions := Z.land (operand_get RB cpu opcode) m in
  let exceptions := Z.land exceptions (u32 (Z.lnot FEX_VX)) in
  let cpu := set_fpscr (Z.lor (Z.land (fpscr cpu) (u32 (Z.lnot m))) exceptions) cpu in
  let cpu := update_rounding m cpu in
  let cpu := record_fpscr 0 cpu in
  let cpu := if bp_test Rc opcode then record_cr1 cpu else cpu in
  Ok (increment_pc 4 cpu).

Definition execute_mtfsb (RB : operand) (Rc : bit_pred) (opcode : Z) (cpu : powerpc_cpu)
  : outcome powerpc_cpu :=
  let set_bit := Zb (operand_get RB cpu opcode) in
  let m := u32 (Z.shiftl 1 (31 - extract crbD_field opcode)) in
  let m := Z.land m (u32 (Z.lnot FEX_VX)) in
  let cpu := set_fpscr (Z.land (fpscr cpu) (u32 (Z.lnot m))) cpu in
  let cpu := record_fpscr (if set_bit then m else 0) cpu in
  let cpu := update_rounding m cpu in
  let cpu := if bp_test Rc opcode then record_cr1 cpu else cpu in
  Ok (increment_pc 4 cpu).

Definition execute_mffs (Rc : bit_pred) (opcode : Z) (cpu : powerpc_cpu) : outcome powerpc_cpu :=
  let cpu := set_fpr_dw (extract frD_field opcode) (fpscr cpu) cpu in
  let cpu := if bp_test Rc opcode then record_cr1 cpu else cpu in
  Ok (increment_pc 4 cpu).

End Exec.

(** ** Well-formedness *)

Lemma mask_field_range f : bf_wf f -> is_uint 32 (mask f).
Proof. apply mask_range. Qed.
#[export] Hint Extern 2 (is_uint 32 (mask _)) => apply mask_field_range; solve_bf : word.
#[export] Hint Extern 2 (is_uint 32 (insert _ _ _)) => apply insert_range; [solve_bf|] : word.

Lemma fp_classify_wf FP x c : cpu_wf c -> cpu_wf (fp_classify FP x c).
Proof.
  intros Hc. unfold fp_classify. cbn zeta.
  destruct (class_of FP x); destruct (fp_negative FP x), (fp_signbit FP x); wf.
Qed.
#[export] Hint Resolve fp_classify_wf : cpu.

Lemma update_rounding_wf m c : cpu_wf c -> cpu_wf (update_rounding m c).
Proof. intros. unfold update_rounding. wf. Qed.
#[export] Hint Resolve update_rounding_wf : cpu.

Lemma is_uint_64_lit w z : is_uint w z -> w <=? 64 = true -> 0 <= w -> is_uint 64 z.
Proof. intros. apply (is_uint_mono w); [lia|done]. Qed.

Section Wf.
Context {FPU : HostFPU} {FL : HostFPULaws FPU}.

Lemma fp_op_apply_range m OP a b c :
  is_uint 64 a -> is_uint 64 b -> is_uint 64 c -> is_uint 64 (fp_op_apply m OP a b c).
Proof.
  intros. destruct OP; cbn [fp_op_apply]; unfold mathlib_fmadd, mathlib_fmsub; by wf.
Qed.

Lemma execute_fp_arith_wf FP OP RD RA RB RC Rc FPSCR op c :
  cpu_wf c -> outcome_holds cpu_wf (execute_fp_arith FP OP RD RA RB RC Rc FPSCR op c).
Proof.
  intros Hc. unfold execute_fp_arith. cbn zeta. cbn [outcome_holds].
  set (r := fp_op_apply _ _ _ _ _).
  assert (Hr : is_uint 64 r) by (apply fp_op_apply_range; wf). clearbody r.
  apply increment_pc_wf, set_fpr_dw_wf; [wf|]. destruct FP; [done|apply d_of_f_range].
Qed.

Lemma execute_fp_round_wf Rc op c : cpu_wf c -> outcome_holds cpu_wf (execute_fp_round Rc op c).
Proof. intros Hc. unfold execute_fp_round. cbn [outcome_holds]. wf. Qed.

Lemma execute_fp_compare_wf OC op c :
  cpu_wf c -> outcome_holds cpu_wf (execute_fp_compare OC op c).
Proof. intros Hc. unfold execute_fp_compare. cbn [outcome_holds]. wf. Qed.

Lemma execute_fp_int_convert_wf RN Rc op c :
  cpu_wf c -> outcome_holds cpu_wf (execute_fp_int_convert RN Rc op c).
Proof.
  intros Hc. unfold execute_fp_int_convert. cbn zeta.
  destruct (_ && _); [|destruct (d_lt _ _)]; cbn [outcome_holds];
    (apply increment_pc_wf, set_fpr_dw_wf; [wf|]); [apply trunc_range; lia|done..].
Qed.

Lemma execute_mcrfs_wf op c : cpu_wf c -> outcome_holds cpu_wf (execute_mcrfs op c).
Proof. intros Hc. unfold execute_mcrfs. cbn [outcome_holds]. wf. Qed.
Lemma execute_mtfsf_wf FM RB Rc op c :
  cpu_wf c -> outcome_holds cpu_wf (execute_mtfsf FM RB Rc op c).
Proof. intros Hc. unfold execute_mtfsf, record_fpscr. cbn [outcome_holds]. wf. Qed.
Lemma execute_mtfsfi_wf RB Rc op c : cpu_wf c -> outcome_holds cpu_wf (execute_mtfsfi RB Rc op c).
Proof. intros Hc. unfold execute_mtfsfi, record_fpscr. cbn [outcome_holds]. wf. Qed.
Lemma execute_mtfsb_wf RB Rc op c : cpu_wf c -> outcome_holds cpu_wf (execute_mtfsb RB Rc op c).
Proof. intros Hc. unfold execute_mtfsb, record_fpscr. cbn [outcome_holds]. wf. Qed.
Lemma execute_mffs_wf Rc op c : cpu_wf c -> outcome_holds cpu_wf (execute_mffs Rc op c).
Proof.
  intros Hc. unfold execute_mffs. cbn zeta. cbn [outcome_holds].
  assert (is_uint 64 (fpscr c)) by (apply (is_uint_mono 32); [lia|wf]). wf.
Qed.

End Wf.
