(* ===== verification/FpSpec.v ===== *)
(** What the floating-point handlers of [ExecFP] do to the registers, the
    status word and the host's rounding mode. *)
From S2P Require Import Prelude Bitfields Registers HostFPU Operations Memory Handlers BlockCache Cpu Operands ExecMem ExecInt IntSpec ExecFP.

(** ** The rounding mode *)

(** The host rounds the way the RN field of FPSCR says. *)
Definition rounding_synced (c : powerpc_cpu) : Prop :=
  fe_round c = ppc_to_native_rounding_mode (extract FPSCR_RN_field (fpscr c)).

Lemma rounding_mode_inverse m :
  ppc_to_native_rounding_mode (native_to_ppc_rounding_mode m) = m.
Proof. by destruct m. Qed.

Lemma extract_RN_cong x y :
  (forall i, 0 <= i <= 1 -> Z.testbit x i = Z.testbit y i) ->
  extract FPSCR_RN_field x = extract FPSCR_RN_field y.
Proof.
  intros H. apply Z.bits_inj'; intros i Hi. rewrite !testbit_extract by solve_bf.
  unfold bf_len; cbn [FB FE FPSCR_RN_field]. destruct (Z.ltb_spec i (31 - 30 + 1)); [|done].
  rewrite H by lia. done.
Qed.

Lemma synced_frame c c' :
  fe_round c' = fe_round c ->
  (forall i, 0 <= i <= 1 -> Z.testbit (fpscr c') i = Z.testbit (fpscr c) i) ->
  rounding_synced c -> rounding_synced c'.
Proof. unfold rounding_synced. intros -> H ->. f_equal. symmetry. by apply extract_RN_cong. Qed.

Lemma fpscr_record_cr1 c : fpscr (record_cr1 c) = fpscr c.
Proof. done. Qed.
Lemma fpscr_update_rounding m c : fpscr (update_rounding m c) = fpscr c.
Proof. unfold update_rounding. by destruct (Zb _). Qed.

(** [fesetround] is only called when the mask covers RN, which is enough. *)
Lemma synced_update m c c' :
  fe_round c' = fe_round c ->
  (forall i, 0 <= i <= 1 -> Z.testbit m i = false -> Z.testbit (fpscr c') i = Z.testbit (fpscr c) i) ->
  rounding_synced c -> rounding_synced (update_rounding m c').
Proof.
  intros Hr Hb Hs. unfold update_rounding.
  destruct (Zb (Z.land m (mask FPSCR_RN_field))) eqn:E; [done|].
  apply (synced_frame c); [done| |done]. intros i Hi. apply Hb; [done|].
  unfold Zb in E. apply negb_false_iff, Z.eqb_eq in E.
  apply (f_equal (fun z => Z.testbit z i)) in E. rewrite Z.land_spec, Z.bits_0 in E.
  rewrite testbit_mask in E by solve_bf. cbn [FB FE FPSCR_RN_field] in E. revert E.
  split_cmp. by rewrite andb_true_r.
Qed.

(** The merge of new bits under a mask. *)
Lemma testbit_merge f m e i :
  0 <= i < 32 ->
  Z.testbit (Z.lor (Z.land f (u32 (Z.lnot m))) (Z.land e m)) i =
    if Z.testbit m i then Z.testbit e i else Z.testbit f i.
Proof.
  intros. push_testbit. split_cmp. destruct (Z.testbit m i); bool_simpl; done.
Qed.

Lemma fp_classify_low FP x c i :
  0 <= i <= 1 -> Z.testbit (fpscr (fp_classify FP x c)) i = Z.testbit (fpscr c) i.
Proof.
  intros Hi. unfold fp_classify. cbn zeta. simpl_cpu.
  assert (H : forall f k, bf_wf f -> FE f <= 29 -> Z.testbit (Z.lor k (mask f)) i = Z.testbit k i).
  { intros f k Hf Hle. rewrite Z.lor_spec, testbit_mask by done. split_cmp; by bool_simpl. }
  assert (H0 : Z.testbit (Z.land (r_fpscr (regs c)) (u32 (Z.lnot (mask FPSCR_FPRF_field)))) i =
               Z.testbit (r_fpscr (regs c)) i).
  { push_testbit. rewrite testbit_mask by solve_bf. cbn [FB FE FPSCR_FPRF_field].
    split_cmp; by bool_simpl. }
  destruct (class_of FP x); destruct (fp_negative FP x), (fp_signbit FP x);
    rewrite ?Z.lor_assoc, ?H by solve_bf; exact H0.
Qed.

Section Steps.
Context {FPU : HostFPU}.

(** The floating-point instructions, as steps of the CPU. *)
Inductive fp_step (opcode : Z) (c : powerpc_cpu) : powerpc_cpu -> Prop :=
| fp_step_arith FP OP RD RA RB RC Rc F c' :
    execute_fp_arith FP OP RD RA RB RC Rc F opcode c = Ok c' -> fp_step opcode c c'
| fp_step_round Rc c' : execute_fp_round Rc opcode c = Ok c' -> fp_step opcode c c'
| fp_step_compare OC c' : execute_fp_compare OC opcode c = Ok c' -> fp_step opcode c c'
| fp_step_convert RN Rc c' : execute_fp_int_convert RN Rc opcode c = Ok c' -> fp_step opcode c c'
| fp_step_mcrfs c' : execute_mcrfs opcode c = Ok c' -> fp_step opcode c c'
| fp_step_mtfsf FM RB Rc c' : execute_mtfsf FM RB Rc opcode c = Ok c' -> fp_step opcode c c'
| fp_step_mtfsfi RB Rc c' : execute_mtfsfi RB Rc opcode c = Ok c' -> fp_step opcode c c'
| fp_step_mtfsb RB Rc c' : execute_mtfsb RB Rc opcode c = Ok c' -> fp_step opcode c c'
| fp_step_mffs Rc c' : execute_mffs Rc opcode c = Ok c' -> fp_step opcode c c'.

(** Sequences of such instructions. *)
Inductive fp_steps : powerpc_cpu -> powerpc_cpu -> Prop :=
| fp_steps_refl c : fp_steps c c
| fp_steps_step opcode c c1 c2 : fp_step opcode c c1 -> fp_steps c1 c2 -> fp_steps c c2.

Lemma synced_if (b : bool) c c' :
  rounding_synced c -> rounding_synced c' -> rounding_synced (if b then c else c').
Proof. by destruct b. Qed.

Lemma synced_classify FP x c : rounding_synced c -> rounding_synced (fp_classify FP x c).
Proof. apply synced_frame; [done|]. apply fp_classify_low. Qed.

Lemma testbit_lor_merge f m e i :
  0 <= i <= 1 -> Z.testbit m i = false -> Z.testbit e i = false ->
  Z.testbit (Z.lor (Z.land f (u32 (Z.lnot m))) e) i = Z.testbit f i.
Proof. intros Hi Hm He. push_testbit. rewrite Hm, He. split_cmp. by bool_simpl. Qed.

Lemma mtfsf_synced FM RB Rc opcode c :
  rounding_synced c -> outcome_holds rounding_synced (execute_mtfsf FM RB Rc opcode c).
Proof.
  intros Hs. unfold execute_mtfsf, record_fpscr. cbn zeta. cbn [outcome_holds].
  set (m := if _ =? _ then _ else _). clearbody m.
  set (x := update_rounding _ _). assert (Hx : rounding_synced x).
  { apply (synced_update _ c); [done| |done]. intros i Hi Hm. simpl_cpu.
    apply testbit_lor_merge; [done..|]. push_testbit. rewrite Hm. by bool_simpl. }
  clearbody x. by destruct (bp_test Rc opcode).
Qed.

Lemma mtfsfi_synced RB Rc opcode c :
  rounding_synced c -> outcome_holds rounding_synced (execute_mtfsfi RB Rc opcode c).
Proof.
  intros Hs. unfold execute_mtfsfi, record_fpscr. cbn zeta. cbn [outcome_holds].
  set (m := if _ =? _ then _ else _). clearbody m.
  set (x := update_rounding _ _). assert (Hx : rounding_synced x).
  { apply (synced_update _ c); [done| |done]. intros i Hi Hm. simpl_cpu.
    apply testbit_lor_merge; [done..|]. push_testbit. rewrite Hm. by bool_simpl. }
  clearbody x. by destruct (bp_test Rc opcode).
Qed.

Lemma mtfsb_synced RB Rc opcode c :
  rounding_synced c -> outcome_holds rounding_synced (execute_mtfsb RB Rc opcode c).
Proof.
  intros Hs. unfold execute_mtfsb, record_fpscr. cbn zeta. cbn [outcome_holds].
  set (m := Z.land (u32 (Z.shiftl _ _)) _). clearbody m.
  set (x := update_rounding _ _). assert (Hx : rounding_synced x).
  { apply (synced_update _ c); [done| |done]. intros i Hi Hm. simpl_cpu. push_testbit.
    rewrite Hm. split_cmp. by bool_simpl. }
  clearbody x. by destruct (bp_test Rc opcode).
Qed.

Lemma mcrfs_synced opcode c :
  rounding_synced c -> outcome_holds rounding_synced (execute_mcrfs opcode c).
Proof.
  intros Hs. unfold execute_mcrfs. cbn zeta. cbn [outcome_holds].
  apply (synced_frame c); [done| |done]. intros i Hi. simpl_cpu.
  set (e := foldr _ _ _). assert (He : Z.testbit e i = false).
  { subst e. assert (i = 0 \/ i = 1) as [->| ->] by lia; by vm_compute. }
  push_testbit. rewrite He. split_cmp. by bool_simpl.
Qed.

Lemma fp_step_synced opcode c c' :
  fp_step opcode c c' -> rounding_synced c -> rounding_synced c'.
Proof.
  intros Hstep Hs.
  assert (Hh : forall m, outcome_holds rounding_synced m -> m = Ok c' -> rounding_synced c')
    by (intros m Hm ->; done).
  destruct Hstep as [FP OP RD RA RB RC Rc F c' H|Rc c' H|OC c' H|RN Rc c' H|c' H
                    |FM RB Rc c' H|RB Rc c' H|RB Rc c' H|Rc c' H];
    (eapply Hh; [clear Hh H|exact H]).
  - unfold execute_fp_arith. cbn zeta. cbn [outcome_holds].
    set (b := F && _). clearbody b. set (x := if b then _ else c).
    assert (Hx : rounding_synced x) by (destruct b; [by apply synced_classify|done]).
    clearbody x. by destruct (bp_test Rc opcode).
  - unfold execute_fp_round. cbn zeta. cbn [outcome_holds].
    set (b := negb _). clearbody b. set (x := if b then _ else c).
    assert (Hx : rounding_synced x) by (destruct b; [by apply synced_classify|done]).
    clearbody x. by destruct (bp_test Rc opcode).
  - unfold execute_fp_compare. cbn zeta. cbn [outcome_holds].
    apply (synced_frame c); [done| |done]. intros i Hi. simpl_cpu.
    rewrite testbit_insert by (solve_bf || lia). cbn [FB FE FPSCR_FPCC_field]. by split_cmp.
  - unfold execute_fp_int_convert. cbn zeta.
    destruct (_ && _); [|destruct (d_lt _ _)]; cbn [outcome_holds]; by destruct (bp_test Rc opcode).
  - by apply mcrfs_synced.
  - by apply mtfsf_synced.
  - by apply mtfsfi_synced.
  - by apply mtfsb_synced.
  - unfold execute_mffs. cbn zeta. cbn [outcome_holds]. by destruct (bp_test Rc opcode).
Qed.

(** C17: No floating-point instruction separates the host's rounding mode from
    the RN field of FPSCR: starting from a state where they agree (as after
    construction), they agree after any sequence of floating-point
    instructions, although [fesetround] is called only when the written mask
    covers RN, and although the conversions to integer set the mode of the
    instruction and then the one they had saved. *)
Theorem rounding_mode_synced c c' :
  fp_steps c c' -> rounding_synced c -> rounding_synced c'.
Proof. induction 1; eauto using fp_step_synced. Qed.

Lemma rounding_synced_init m : rounding_synced (cpu_init m).
Proof. reflexivity. Qed.

End Steps.

(** mtfsfi 7,3 and then fctiwz f1,f2: the mode of the first step, which the
    conversion leaves while it rounds to zero, is the host's again at the end. *)
Lemma rounding_mode_synced_witness :
  exists c', fp_steps (FPU := null_fpu) (cpu_init ∅) c' /\ rounding_synced c' /\ fe_round c' = FE_DOWNWARD.
Proof.
  destruct (execute_mtfsfi operand_IMM RC_BIT_G 0xff80310c (cpu_init ∅)) as [c1| | | |] eqn:E1;
    [|discriminate E1..].
  destruct (execute_fp_int_convert (FPU := null_fpu) operand_ONE RC_BIT_G 0xfc20101e c1)
    as [c'| | | |] eqn:E2; [|by vm_compute in E1; injection E1 as <-; discriminate E2..].
  assert (Hs : fp_steps (FPU := null_fpu) (cpu_init ∅) c').
  { eapply fp_steps_step; [eapply fp_step_mtfsfi, E1|].
    eapply fp_steps_step; [eapply fp_step_convert, E2|apply fp_steps_refl]. }
  exists c'. split; [exact Hs|]. split.
  - exact (rounding_mode_synced _ _ Hs (rounding_synced_init ∅)).
  - apply (f_equal (fun o => match o with Ok c => fe_round c | _ => FE_TONEAREST end)) in E2.
    rewrite <- E2. vm_compute in E1. injection E1 as <-. by vm_compute.
Defined.

(** ** The status register moves *)

Lemma fpscr_bit_range c i : cpu_wf c -> 32 <= i -> Z.testbit (fpscr c) i = false.
Proof. intros Hc Hi. apply (testbit_above 32); [by apply fpscr_range|lia..]. Qed.

Lemma testbit_FEX_VX i : Z.testbit FEX_VX i = (i =? 30) || (i =? 29).
Proof.
  unfold FEX_VX. rewrite Z.lor_spec, !testbit_mask by solve_bf.
  cbn [FB FE FPSCR_FEX_field FPSCR_VX_field]. split_cmp; done.
Qed.

(** The end of every status handler: CR1 and the program counter. *)
Lemma fpscr_finish (b : bool) c :
  fpscr (increment_pc 4 (if b then record_cr1 c else c)) = fpscr c.
Proof. by destruct b. Qed.
Lemma fe_round_finish (b : bool) c :
  fe_round (increment_pc 4 (if b then record_cr1 c else c)) = fe_round c.
Proof. by destruct b. Qed.

(** [mtfsb1] does what [mtfsb0] does.  With the exception bits compiled
    out, [record_fpscr] is the only code that would set the bit and it is
    empty: both instructions clear bit crbD of FPSCR (except FEX and VX, bits
    1 and 2, which they keep), and leave the rest of FPSCR alone. *)
Theorem execute_mtfsb_spec Rc opcode c :
  cpu_wf c ->
  exists c', execute_mtfsb operand_ONE Rc opcode c = Ok c' /\
    execute_mtfsb operand_ZERO Rc opcode c = Ok c' /\
    forall k, 0 <= k <= 31 ->
      Z.testbit (fpscr c') (31 - k) =
        if (k =? extract crbD_field opcode) && negb ((k =? 1) || (k =? 2)) then false
        else Z.testbit (fpscr c) (31 - k).
Proof.
  intros Hc. unfold execute_mtfsb, record_fpscr. cbn zeta.
  eexists. split; [reflexivity|]. split; [reflexivity|]. intros k Hk.
  rewrite fpscr_finish, fpscr_update_rounding. simpl_cpu.
  pose proof (extract_5 crbD_field opcode ltac:(solve_bf) eq_refl) as Hd.
  set (d := extract crbD_field opcode) in *. change (Z.shiftl 1 (31 - d)) with (Z.shiftl (2 ^ 0) (31 - d)).
  push_testbit. rewrite testbit_FEX_VX. split_cmp; by bool_simpl.
Qed.

(** mtfsb1 7 on the initial state: the bit stays clear. *)
Lemma execute_mtfsb_spec_witness :
  exists c', execute_mtfsb operand_ONE RC_BIT_G 0xfce0004c (cpu_init ∅) = Ok c' /\
    Z.testbit (fpscr c') (31 - 7) = false.
Proof.
  destruct (execute_mtfsb_spec RC_BIT_G 0xfce0004c (cpu_init ∅) (cpu_init_wf ∅ (map_Forall_empty _)))
    as (c' & H & _ & Hk).
  exists c'. split; [exact H|]. rewrite Hk by lia. by vm_compute.
Defined.

(** The field [crfD] an immediate is moved to. *)
Lemma extract_3 f opcode : bf_wf f -> bf_len f = 3 -> 0 <= extract f opcode <= 7.
Proof.
  intros Hf Hl. pose proof (extract_range f opcode Hf) as H. rewrite Hl in H.
  unfold is_uint in H. change (2 ^ 3) with 8 in H. lia.
Qed.

(** [mtfsfi] clears the field it names, unless that is field 7.  The
    immediate is masked where it stands, in the low four bits, and never
    shifted to field crfD: for fields 0 to 6 every bit of the field (FX
    excepted) becomes 0 whatever the immediate, and only for field 7 does the
    immediate reach FPSCR. *)
Theorem execute_mtfsfi_spec Rc opcode c :
  cpu_wf c ->
  exists c', execute_mtfsfi operand_IMM Rc opcode c = Ok c' /\
    forall k, 0 <= k <= 31 ->
      Z.testbit (fpscr c') (31 - k) =
        if (k / 4 =? extract crfD_field opcode) && negb (k =? 0) then
          (extract crfD_field opcode =? 7) && Z.testbit (extract IMM_field opcode) (31 - k)
        else Z.testbit (fpscr c) (31 - k).
Proof.
  intros Hc. unfold execute_mtfsfi, record_fpscr. cbn zeta. cbn [operand_get].
  eexists. split; [reflexivity|]. intros k Hk.
  rewrite fpscr_finish, fpscr_update_rounding. simpl_cpu.
  pose proof (extract_3 crfD_field opcode ltac:(solve_bf) eq_refl) as Hd.
  set (d := extract crfD_field opcode) in *.
  pose proof (extract_range IMM_field opcode ltac:(solve_bf)) as Himm.
  set (v := extract IMM_field opcode) in *. clearbody d v. change (bf_len IMM_field) with 4 in Himm.
  set (m := if d =? 0 then _ else _).
  assert (Hm : Z.testbit m (31 - k) = (k / 4 =? d) && negb (k =? 0)).
  { subst m. change 0xf with (Z.ones 4). pose proof (Z.div_mod k 4). pose proof (Z.mod_pos_bound k 4).
    destruct (Z.eqb_spec d 0); push_testbit; rewrite ?testbit_mask by solve_bf;
      cbn [FB FE FPSCR_FX_field]; split_cmp; try done; lia. }
  clearbody m. push_testbit. rewrite Hm, testbit_FEX_VX.
  pose proof (Z.div_mod k 4). pose proof (Z.mod_pos_bound k 4).
  destruct ((k / 4 =? d) && negb (k =? 0)) eqn:E; [|split_cmp; by bool_simpl].
  apply andb_true_iff in E as [E%Z.eqb_eq _].
  destruct (Z.eqb_spec d 7).
  - split_cmp; by bool_simpl.
  - rewrite (testbit_above 4 v) by (done || lia). split_cmp; by bool_simpl.
Qed.

(** mtfsfi 2,15 on the initial state: the field is still zero. *)
Lemma execute_mtfsfi_spec_witness :
  exists c', execute_mtfsfi operand_IMM RC_BIT_G 0xfd00f10c (cpu_init ∅) = Ok c' /\
    Z.testbit (fpscr c') (31 - 9) = false.
Proof.
  destruct (execute_mtfsfi_spec RC_BIT_G 0xfd00f10c (cpu_init ∅) (cpu_init_wf ∅ (map_Forall_empty _)))
    as (c' & H & Hk).
  exists c'. split; [exact H|]. rewrite Hk by lia. by vm_compute.
Defined.

(** ** Comparison *)

(** The magnitude of a double is its exponent and mantissa fields. *)
Lemma d_fabs_fields x :
  d_fabs x = Z.land (Z.shiftr x 52) (Z.ones 11) * 2 ^ 52 + Z.land x (Z.ones 52).
Proof.
  rewrite <- lor_shiftl_add by (lia || (apply is_uint_land_r; [lia|done])).
  unfold d_fabs. apply Z.bits_inj'; intros i Hi. push_testbit. split_cmp; close_bits.
Qed.

(** The bit test of the source is the NaN test of the format. *)
Lemma is_NaN_isnan x : is_NaN x = d_isnan x.
Proof.
  unfold is_NaN, d_isnan. rewrite d_fabs_fields.
  set (e := Z.land (Z.shiftr x 52) (Z.ones 11)). set (t := Z.land x (Z.ones 52)).
  assert (He : is_uint 11 e) by (apply is_uint_land_r; [lia|done]).
  assert (Ht : is_uint 52 t) by (apply is_uint_land_r; [lia|done]).
  change 0x000fffffffffffff with (Z.ones 52). fold t.
  assert (E : Z.land x 0x7ff0000000000000 = e * 2 ^ 52).
  { subst e. rewrite <- Z.shiftl_mul_pow2 by lia.
    replace 0x7ff0000000000000 with (Z.shiftl (Z.ones 11) 52) by reflexivity.
    apply Z.bits_inj'; intros i Hi. push_testbit. split_cmp; close_bits. }
  rewrite E. unfold is_uint in *.
  change (2 ^ 11) with 2048 in He. change (2 ^ 52) with 4503599627370496 in *.
  destruct (Z.eqb_spec (e * 4503599627370496) 0x7ff0000000000000),
    (Z.eqb_spec t 0), (Z.ltb_spec 0x7ff0000000000000 (e * 4503599627370496 + t)); cbn; lia.
Qed.

(** The order relation of two values: unordered, or the order of the
    sign-magnitude readings. *)
Definition fp_order (a b : Z) : Z :=
  if d_isnan a || d_isnan b then 1
  else match d_key a ?= d_key b with Lt => 8 | Gt => 4 | Eq => 2 end.

Lemma fp_compare_code_spec a b : fp_compare_code a b = fp_order a b.
Proof.
  unfold fp_compare_code, fp_order. rewrite !is_NaN_isnan. unfold d_lt.
  destruct (d_isnan a), (d_isnan b); try done. cbn [orb negb andb].
  destruct (Z.compare_spec (d_key a) (d_key b)); split_cmp; done.
Qed.

Lemma fp_compare_code_range a b : is_uint 4 (fp_compare_code a b).
Proof. unfold fp_compare_code. by repeat case_match. Qed.

(** [fcmpu] and [fcmpo] set exactly one of LT, GT, EQ and UN, the one
    that holds of the two doubles (NaN, order of the sign-magnitude readings,
    so that +0 and -0 are equal), in CR field crfD and in FPSCR[FPCC]; the
    other CR fields and the other bits of FPSCR are kept. *)
Theorem execute_fp_compare_spec OC opcode c :
  cpu_wf c ->
  let a := fpr_dw c (extract frA_field opcode) in
  let b := fpr_dw c (extract frB_field opcode) in
  exists c', execute_fp_compare OC opcode c = Ok c' /\
    (forall k, 0 <= k <= 7 ->
      cr_get k (cr c') = if k =? extract crfD_field opcode then fp_order a b else cr_get k (cr c)) /\
    extract FPSCR_FPCC_field (fpscr c') = fp_order a b /\
    (forall i, 0 <= i < 32 -> ~ (12 <= i <= 15) -> Z.testbit (fpscr c') i = Z.testbit (fpscr c) i).
Proof.
  intros Hc a b. unfold execute_fp_compare. cbn zeta. cbn [fp_operand_get fp_field]. fold a b.
  pose proof (fp_compare_code_range a b) as Hr. rewrite fp_compare_code_spec in *.
  pose proof (extract_3 crfD_field opcode ltac:(solve_bf) eq_refl) as Hd.
  pose proof (cr_range c Hc) as Hcr.
  eexists. split; [reflexivity|]. split_and!; simpl_cpu.
  - intros k Hk. by rewrite cr_get_set by done.
  - apply extract_of_bits; [solve_bf|done|]. intros i Hi. change (bf_len FPSCR_FPCC_field) with 4 in Hi.
    rewrite testbit_insert by (solve_bf || cbn; lia). cbn [FB FE FPSCR_FPCC_field].
    split_cmp. cbn [andb]. f_equal. lia.
  - intros i Hi Hne. rewrite testbit_insert by (solve_bf || lia). cbn [FB FE FPSCR_FPCC_field].
    split_cmp; by bool_simpl.
Qed.

(** fcmpu cr1,f1,f2 with -0 in f1 and +0 in f2. *)
Lemma execute_fp_compare_spec_witness :
  exists c', execute_fp_compare false 0xfc811000 (set_fpr_dw 1 (2 ^ 63) (cpu_init ∅)) = Ok c' /\
    cr_get 1 (cr c') = 2.
Proof.
  destruct (execute_fp_compare_spec false 0xfc811000 (set_fpr_dw 1 (2 ^ 63) (cpu_init ∅)))
    as (c' & H & Hk & _).
  { apply set_fpr_dw_wf; [|done]. apply cpu_init_wf, map_Forall_empty. }
  exists c'. split; [exact H|]. rewrite Hk by lia. by vm_compute.
Defined.

(** ** Moves *)

(** The sign bit of the result of a move. *)
Definition move_sign (OP : fp_op) (s : bool) : option bool :=
  match OP with
  | op_fnop => Some s
  | op_fabs => Some false
  | op_fnabs => Some true
  | op_fneg => Some (negb s)
  | _ => None
  end.

Lemma fpr_finish (b : bool) d v c :
  0 <= d < Z.of_nat (length (r_fpr (regs c))) ->
  fpr_dw (increment_pc 4 (set_fpr_dw d v (if b then record_cr1 c else c))) d = v.
Proof. intros. destruct b; by apply Zlookup_insert_eq. Qed.

(** The moves [fmr], [fabs], [fnabs] and [fneg] copy the 63 low bits of
    the register as they are, NaN payloads included, change the sign bit only,
    and touch neither FPSCR nor (without Rc) CR. *)
Theorem execute_fp_move_spec {FPU : HostFPU} OP Rc opcode c s :
  cpu_wf c ->
  let b := fpr_dw c (extract frB_field opcode) in
  move_sign OP (d_signbit b) = Some s ->
  exists c', execute_fp_arith fp_double OP operand_fp_RD operand_fp_RB operand_fp_NONE
               operand_fp_NONE Rc false opcode c = Ok c' /\
    (forall i, 0 <= i < 64 ->
      Z.testbit (fpr_dw c' (extract frD_field opcode)) i = if i =? 63 then s else Z.testbit b i) /\
    fpscr c' = fpscr c /\ (bp_test Rc opcode = false -> cr c' = cr c) /\ pc c' = u32 (pc c + 4).
Proof.
  intros Hc b Hs. unfold execute_fp_arith. cbn [andb]. cbn zeta.
  eexists. split; [reflexivity|]. cbn [fp_operand_get fp_field]. fold b.
  pose proof (extract_5 frD_field opcode ltac:(solve_bf) eq_refl) as Hd.
  assert (Hlen : 0 <= extract frD_field opcode < Z.of_nat (length (r_fpr (regs c)))) by by apply fpr_index.
  split_and!; [|by destruct (bp_test Rc opcode)|by intros ->|by destruct (bp_test Rc opcode)].
  intros i Hi. rewrite fpr_finish by done.
  destruct OP; try discriminate Hs; injection Hs as <-; cbn [fp_op_apply];
    unfold d_neg, d_fabs, d_signbit; push_testbit; split_cmp; subst; by bool_simpl.
Qed.

(** fneg f1,f2 of a signalling NaN. *)
Lemma execute_fp_move_spec_witness :
  let c := set_fpr_dw 2 0x7ff0000000000001 (cpu_init ∅) in
  exists c', execute_fp_arith (FPU := null_fpu) fp_double op_fneg operand_fp_RD operand_fp_RB
      operand_fp_NONE operand_fp_NONE RC_BIT_G false 0xfc201050 c = Ok c' /\
    Z.testbit (fpr_dw c' 1) 63 = true /\ Z.testbit (fpr_dw c' 1) 0 = true.
Proof.
  intros c. destruct (execute_fp_move_spec (FPU := null_fpu) op_fneg RC_BIT_G 0xfc201050 c true)
    as (c' & H & Hb & _).
  { apply set_fpr_dw_wf; [|done]. apply cpu_init_wf, map_Forall_empty. }
  { by vm_compute. }
  exists c'. split; [exact H|].
  change (fpr_dw c' 1) with (fpr_dw c' (extract frD_field 0xfc201050)).
  split; rewrite Hb by lia; by vm_compute.
Defined.
