(* ===== verification/ExecVec.v ===== *)
(** AltiVec handlers of the interpreter (ppc-execute.cpp).

    The source takes references to the registers and writes the output
    element by element, so that an output register that is also an input
    changes under the loop.  The loops are modelled the same way: every
    element is read from the current state ([get_element]) and written to it
    ([set_element]). *)
From S2P Require Import Prelude Bitfields Registers HostFPU Operations Memory Handlers BlockCache Cpu Operands ExecMem ExecInt.

(** [for (int i = 0; i < n; i++) cpu = body(i, cpu)] *)
Definition for_each {S} (n : Z) (body : Z -> S -> S) (s : S) : S :=
  foldl (fun s i => body i s) s (count_up (Z.to_nat n)).

(** Conversion unfolds a loop only as a last resort. *)
#[global] Strategy 1000 [for_each].

(** Direct access to the views [b], [h], [w] of a register. *)
Definition vr_elem (w : Z) (r i : Z) (cpu : powerpc_cpu) : Z := vr_get w (vr cpu r) i.
Definition set_vr_elem (w : Z) (r i v : Z) (cpu : powerpc_cpu) : powerpc_cpu :=
  set_vr r (vr_set w (vr cpu r) i v) cpu.

Definition n_elements (VD : vop) : Z := 16 / element_size VD.

(** [VD::set_element] of a result, after saturation; [vscr().set_sat(1)] when
    the element was clamped. *)
Definition commit_element (VD : vop) (opcode i d : Z) (cpu : powerpc_cpu) : powerpc_cpu :=
  let '(d, sat) := saturate VD d in
  let cpu := if sat : bool then set_vscr (vscr_set_sat true (vscr cpu)) cpu else cpu in
  set_element VD opcode i d cpu.

Section Exec.
Context {FPU : HostFPU}.

(** ** Load and store *)

Definition execute_vector_load_for_shift (SL : bool) (opcode : Z) (cpu : powerpc_cpu)
  : outcome powerpc_cpu :=
  let ra := operand_get operand_RA_or_0 cpu opcode in
  let rb := operand_get operand_RB cpu opcode in
  let ea := u32 (ra + rb) in
  let vD := extract vD_field opcode in
  let j := if SL then Z.land ea 0xf else 0x10 - Z.land ea 0xf in
  let '(cpu, _) := for_each 16 (fun i '(cpu, j) =>
      (set_vr_elem 8 vD (mixed_byte_element i) j cpu, j + 1)) (cpu, j) in
  Ok (increment_pc 4 cpu).

Definition execute_vector_load (VD : vop) (RA RB : operand) (opcode : Z) (cpu : powerpc_cpu)
  : outcome powerpc_cpu :=
  let ea := u32 (operand_get RA cpu opcode + operand_get RB cpu opcode) in
  let vD := vop_regno VD opcode in
  cpu ← (let size := element_size VD in
    if size =? 1 then
      v ← cpu_read (fun m => vm_read_memory_1 m ea) cpu;
      Ok (set_element VD opcode (Z.land ea 0x0f) v cpu)
    else if size =? 2 then
      v ← cpu_read (fun m => vm_read_memory_2 m (Z.land ea (u32 (Z.lnot 1)))) cpu;
      Ok (set_element VD opcode (Z.land (Z.shiftr ea 1) 0x07) v cpu)
    else if size =? 4 then
      v ← cpu_read (fun m => vm_read_memory_4 m (Z.land ea (u32 (Z.lnot 3)))) cpu;
      Ok (set_element VD opcode (Z.land (Z.shiftr ea 2) 0x03) v cpu)
    else if size =? 8 then
      let ea := Z.land ea (u32 (Z.lnot 15)) in
      v ← cpu_read (fun m => vm_read_memory_4 m (u32 (ea + 0))) cpu;
      let cpu := set_vr_elem 32 vD 0 v cpu in
      v ← cpu_read (fun m => vm_read_memory_4 m (u32 (ea + 4))) cpu;
      let cpu := set_vr_elem 32 vD 1 v cpu in
      v ← cpu_read (fun m => vm_read_memory_4 m (u32 (ea + 8))) cpu;
      let cpu := set_vr_elem 32 vD 2 v cpu in
      v ← cpu_read (fun m => vm_read_memory_4 m (u32 (ea + 12))) cpu;
      Ok (set_vr_elem 32 vD 3 v cpu)
    else Ok cpu);
  Ok (increment_pc 4 cpu).

Definition execute_vector_store (VS : vop) (RA RB : operand) (opcode : Z) (cpu : powerpc_cpu)
  : outcome powerpc_cpu :=
  let ea := u32 (operand_get RA cpu opcode + operand_get RB cpu opcode) in
  let vS := vop_regno VS opcode in
  cpu ← (let size := element_size VS in
    if size =? 1 then
      cpu_write (vm_write_memory_1 ea (u32 (get_element VS opcode cpu (Z.land ea 0x0f)))) cpu
    else if size =? 2 then
      cpu_write (vm_write_memory_2 (Z.land ea (u32 (Z.lnot 1)))
        (u32 (get_element VS opcode cpu (Z.land (Z.shiftr ea 1) 0x07)))) cpu
    else if size =? 4 then
      cpu_write (vm_write_memory_4 (Z.land ea (u32 (Z.lnot 3)))
        (u32 (get_element VS opcode cpu (Z.land (Z.shiftr ea 2) 0x03)))) cpu
    else if size =? 8 then
      let ea := Z.land ea (u32 (Z.lnot 15)) in
      cpu ← cpu_write (vm_write_memory_4 (u32 (ea + 0)) (vr_elem 32 vS 0 cpu)) cpu;
      cpu ← cpu_write (vm_write_memory_4 (u32 (ea + 4)) (vr_elem 32 vS 1 cpu)) cpu;
      cpu ← cpu_write (vm_write_memory_4 (u32 (ea + 8)) (vr_elem 32 vS 2 cpu)) cpu;
      cpu_write (vm_write_memory_4 (u32 (ea + 12)) (vr_elem 32 vS 3 cpu)) cpu
    else Ok cpu);
  Ok (increment_pc 4 cpu).

(** ** Arithmetic *)

(** [op_apply<RT, OP, VA, VB, VC>::apply]: operands that are
    [null_vector_operand] select the arity; the result is converted to [RT]. *)
Definition op_apply_vec (m : fe_mode) (RT : ctype) (OP : op) (VA VB VC : vop) (a b c : Z) : Z :=
  conv RT
    match VC with
    | null_vector_operand =>
        match VB with
        | null_vector_operand => op_apply1 m OP a
        | _ => match VA with
               | null_vector_operand => op_apply1 m OP b
               | _ => op_apply2 m OP a b
               end
        end
    | _ => op_apply3 m OP a b c
    end.

Definition execute_vector_arith (OP : op) (VD VA VB VC : vop) (Rc : bit_pred) (C1 : bool)
    (opcode : Z) (cpu : powerpc_cpu) : outcome powerpc_cpu :=
  let cpu := for_each (n_elements VD) (fun i cpu =>
    let a := get_element VA opcode cpu i in
    let b := get_element VB opcode cpu i in
    let c := get_element VC opcode cpu i in
    let d := op_apply_vec (fe_round cpu) (element_type VD) OP VA VB VC a b c in
    commit_element VD opcode i d cpu) cpu in
  let cpu := if bp_test Rc opcode then record_cr6 (vr cpu (vop_regno VD opcode)) C1 cpu else cpu in
  Ok (increment_pc 4 cpu).

Definition execute_vector_arith_mixed (OP : op) (VD VA VB VC : vop)
    (opcode : Z) (cpu : powerpc_cpu) : outcome powerpc_cpu :=
  let n_sub_elements := 4 / element_size VA in
  let cpu := for_each (n_elements VD) (fun i cpu =>
    let c := get_element VC opcode cpu i in
    let d := for_each n_sub_elements (fun j d =>
        let a := get_element VA opcode cpu (i * n_sub_elements + j) in
        let b := get_element VB opcode cpu (i * n_sub_elements + j) in
        conv (element_type VD)
          (d + op_apply_vec (fe_round cpu) (element_type VD) OP VA VB null_vector_operand a b c))
      (conv (element_type VD) c) in
    commit_element VD opcode i d cpu) cpu in
  Ok (increment_pc 4 cpu).

Definition execute_vector_arith_odd (ODD : Z) (OP : op) (VD VA VB VC : vop)
    (opcode : Z) (cpu : powerpc_cpu) : outcome powerpc_cpu :=
  let cpu := for_each (n_elements VD) (fun i cpu =>
    let a := get_element VA opcode cpu (i * 2 + ODD) in
    let b := get_element VB opcode cpu (i * 2 + ODD) in
    let c := get_element VC opcode cpu (i * 2 + ODD) in
    let d := op_apply_vec (fe_round cpu) (element_type VD) OP VA VB VC a b c in
    commit_element VD opcode i d cpu) cpu in
  Ok (increment_pc 4 cpu).

(** ** Merge, pack and unpack *)

Definition execute_vector_merge (VD VA VB : vop) (LO : Z) (opcode : Z) (cpu : powerpc_cpu)
  : outcome powerpc_cpu :=
  let n := n_elements VD in
  let cpu := for_each (n / 2) (fun k cpu =>
    let i := 2 * k in
    let cpu := set_element VD opcode i (get_element VA opcode cpu (i / 2 + LO * (n / 2))) cpu in
    set_element VD opcode (i + 1) (get_element VB opcode cpu (i / 2 + LO * (n / 2))) cpu) cpu in
  Ok (increment_pc 4 cpu).

Definition execute_vector_pack (VD VA VB : vop) (opcode : Z) (cpu : powerpc_cpu)
  : outcome powerpc_cpu :=
  let n_pivot := n_elements VD / 2 in
  let cpu := for_each (n_elements VD) (fun i cpu =>
    let d := conv (element_type VD)
      (if i <? n_pivot then get_element VA opcode cpu i
       else get_element VB opcode cpu (i - n_pivot)) in
    commit_element VD opcode i d cpu) cpu in
  Ok (increment_pc 4 cpu).

Definition execute_vector_unpack (LO : Z) (VD VA : vop) (opcode : Z) (cpu : powerpc_cpu)
  : outcome powerpc_cpu :=
  let n := n_elements VD in
  let cpu := for_each n (fun i cpu =>
    set_element VD opcode i (get_element VA opcode cpu (i + LO * n)) cpu) cpu in
  Ok (increment_pc 4 cpu).

Definition pack_pixel (a : Z) : Z :=
  Z.lor (Z.lor (Z.land (Z.shiftr a 9) 0xfc00) (Z.land (Z.shiftr a 6) 0x03e0))
    (Z.land (Z.shiftr a 3) 0x001f).

Definition execute_vector_pack_pixel (opcode : Z) (cpu : powerpc_cpu) : outcome powerpc_cpu :=
  let vA := extract vA_field opcode in
  let vB := extract vB_field opcode in
  let vD := extract vD_field opcode in
  let cpu := for_each 4 (fun i cpu =>
    let a := vr_elem 32 vA i cpu in
    let cpu := set_vr_elem 16 vD (mixed_half_element i) (pack_pixel a) cpu in
    let b := vr_elem 32 vB i cpu in
    set_vr_elem 16 vD (mixed_half_element (i + 4)) (pack_pixel b) cpu) cpu in
  Ok (increment_pc 4 cpu).

Definition unpack_pixel (h : Z) : Z :=
  Z.lor (Z.lor (Z.lor (if Zb (Z.land h 0x8000) then 0xff000000 else 0)
    (Z.shiftl (Z.land h 0x7c00) 6)) (Z.shiftl (Z.land h 0x03e0) 3)) (Z.land h 0x001f).

Definition execute_vector_unpack_pixel (LO : Z) (opcode : Z) (cpu : powerpc_cpu)
  : outcome powerpc_cpu :=
  let vB := extract vB_field opcode in
  let vD := extract vD_field opcode in
  let cpu := for_each 4 (fun i cpu =>
    let h := vr_elem 16 vB (mixed_half_element (i + LO * 4)) cpu in
    set_vr_elem 32 vD i (unpack_pixel h) cpu) cpu in
  Ok (increment_pc 4 cpu).

(** ** Shifts *)

(** The loops carry the bits that cross from one word to the next. *)
Definition shift_left_body (vA vD sh i : Z) '((cpu, prev_bits) : powerpc_cpu * Z)
  : powerpc_cpu * Z :=
  let next_bits := Z.shiftr (vr_elem 32 vA i cpu) (32 - sh) in
  (set_vr_elem 32 vD i (Z.lor (u32 (Z.shiftl (vr_elem 32 vA i cpu) sh)) prev_bits) cpu, next_bits).

Definition shift_right_body (vA vD sh i : Z) '((cpu, prev_bits) : powerpc_cpu * Z)
  : powerpc_cpu * Z :=
  let next_bits := u32 (Z.shiftl (vr_elem 32 vA i cpu) (32 - sh)) in
  (set_vr_elem 32 vD i (Z.lor (Z.shiftr (vr_elem 32 vA i cpu) sh) prev_bits) cpu, next_bits).

Definition execute_vector_shift (SD : Z) (opcode : Z) (cpu : powerpc_cpu) : outcome powerpc_cpu :=
  let vA := extract vA_field opcode in
  let vB := extract vB_field opcode in
  let vD := extract vD_field opcode in
  let sh := Z.land (vr_elem 8 vB (mixed_byte_element 15) cpu) 7 in
  let cpu :=
    if sh =? 0 then for_each 4 (fun i cpu => set_vr_elem 32 vD i (vr_elem 32 vA i cpu) cpu) cpu
    else if SD <? 0 then
      fst (for_each 4 (fun i s => shift_left_body vA vD sh (3 - i) s) (cpu, 0))
    else if 0 <? SD then
      fst (for_each 4 (fun i s => shift_right_body vA vD sh i s) (cpu, 0))
    else cpu in
  Ok (increment_pc 4 cpu).

Definition execute_vector_shift_octet (SD : Z) (VD VA VB : vop) (SH : operand)
    (opcode : Z) (cpu : powerpc_cpu) : outcome powerpc_cpu :=
  let sh := operand_get SH cpu opcode in
  let cpu :=
    if SD <? 0 then
      for_each 16 (fun i cpu =>
        if i + sh <? 16 then set_element VD opcode i (get_element VA opcode cpu (i + sh)) cpu
        else set_element VD opcode i (get_element VB opcode cpu (i - (16 - sh))) cpu) cpu
    else if 0 <? SD then
      for_each 16 (fun i cpu =>
        if i <? sh then set_element VD opcode i (get_element VB opcode cpu (16 - (i - sh))) cpu
        else set_element VD opcode i (get_element VA opcode cpu (i - sh)) cpu) cpu
    else cpu in
  Ok (increment_pc 4 cpu).

(** ** Splat and sum *)

Definition execute_vector_splat (OP : op) (VD VB : vop) (IM : bool)
    (opcode : Z) (cpu : powerpc_cpu) : outcome powerpc_cpu :=
  let value :=
    if IM then op_apply1 (fe_round cpu) OP (extract vUIMM_field opcode)
    else
      let n := Z.land (extract vUIMM_field opcode) (n_elements VD - 1) in
      op_apply1 (fe_round cpu) OP (get_element VB opcode cpu n) in
  let cpu := for_each (n_elements VD) (fun i cpu => set_element VD opcode i value cpu) cpu in
  Ok (increment_pc 4 cpu).

(** [d = VB[b]; for (j = 0; j < n; j++) d += VA[a + j];] *)
Definition vector_sum (VD VA VB : vop) (opcode b a n : Z) (cpu : powerpc_cpu) : Z :=
  for_each n (fun j d => conv (element_type VD) (d + get_element VA opcode cpu (a + j)))
    (conv (element_type VD) (get_element VB opcode cpu b)).

(** The saturation of a sum, apart from the write of the element. *)
Definition saturate_sum (VD : vop) (d : Z) (cpu : powerpc_cpu) : Z * powerpc_cpu :=
  let '(d, sat) := saturate VD d in
  (d, if sat : bool then set_vscr (vscr_set_sat true (vscr cpu)) cpu else cpu).

Definition execute_vector_sum (SZ : Z) (VD VA VB : vop) (opcode : Z) (cpu : powerpc_cpu)
  : outcome powerpc_cpu :=
  let cpu :=
    if SZ =? 1 then
      let '(d, cpu) := saturate_sum VD (vector_sum VD VA VB opcode 3 0 4 cpu) cpu in
      let cpu := set_element VD opcode 0 0 cpu in
      let cpu := set_element VD opcode 1 0 cpu in
      let cpu := set_element VD opcode 2 0 cpu in
      set_element VD opcode 3 d cpu
    else if SZ =? 2 then
      for_each 2 (fun k cpu =>
        let i := 2 * k in
        let '(d, cpu) := saturate_sum VD (vector_sum VD VA VB opcode (i + 1) i 2 cpu) cpu in
        let cpu := set_element VD opcode (i + 0) 0 cpu in
        set_element VD opcode (i + 1) d cpu) cpu
    else if SZ =? 4 then
      let n := 4 / element_size VA in
      for_each 4 (fun i cpu =>
        commit_element VD opcode i (vector_sum VD VA VB opcode i (i * n) n cpu) cpu) cpu
    else cpu in
  Ok (increment_pc 4 cpu).

(** ** Permute and VSCR *)

Definition execute_vector_permute (opcode : Z) (cpu : powerpc_cpu) : outcome powerpc_cpu :=
  let vA := extract vA_field opcode in
  let vB := extract vB_field opcode in
  let vC := extract vC_field opcode in
  let vD := extract vD_field opcode in
  let cpu := for_each 16 (fun i cpu =>
    let ei := mixed_byte_element i in
    let n := Z.land (vr_elem 8 vC ei cpu) 0x1f in
    let en := mixed_byte_element (Z.land n 0xf) in
    set_vr_elem 8 vD ei
      (if Zb (Z.land n 0x10) then vr_elem 8 vB en cpu else vr_elem 8 vA en cpu) cpu) cpu in
  Ok (increment_pc 4 cpu).

Definition execute_mfvscr (opcode : Z) (cpu : powerpc_cpu) : outcome powerpc_cpu :=
  let vD := extract vD_field opcode in
  let cpu := set_vr_elem 32 vD 0 0 cpu in
  let cpu := set_vr_elem 32 vD 1 0 cpu in
  let cpu := set_vr_elem 32 vD 2 0 cpu in
  let cpu := set_vr_elem 32 vD 3 (vscr cpu) cpu in
  Ok (increment_pc 4 cpu).

Definition execute_mtvscr (opcode : Z) (cpu : powerpc_cpu) : outcome powerpc_cpu :=
  Ok (increment_pc 4 (set_vscr (vr_elem 32 (extract vB_field opcode) 3 cpu) cpu)).

End Exec.

(** ** Well-formedness *)

Lemma for_each_invariant {S} (P : S -> Prop) n body s :
  (forall i s, 0 <= i < n -> P s -> P (body i s)) -> P s -> P (for_each n body s).
Proof.
  intros Hb Hs. unfold for_each. apply foldl_invariant; [|done].
  intros i s' Hi Hs'. apply Hb; [|done]. apply elem_of_count_up in Hi. lia.
Qed.

Lemma set_vr_elem_wf w r i v c :
  cpu_wf c -> 0 <= r <= 31 -> 0 < w -> 0 <= i -> w * i + w <= 128 -> cpu_wf (set_vr_elem w r i v c).
Proof.
  intros. apply set_vr_wf; [done|]. apply vr_set_range; [done..|]. by apply vr_range.
Qed.

Lemma vscr_set_sat_wf b c : cpu_wf c -> cpu_wf (set_vscr (vscr_set_sat b (vscr c)) c).
Proof.
  intros Hc. apply set_vscr_wf; [done|]. apply insert_range; [solve_bf|]. by apply vscr_range.
Qed.

Lemma commit_element_wf VD opcode i d c :
  vop_wf VD -> 0 <= i < n_elements VD -> cpu_wf c -> cpu_wf (commit_element VD opcode i d c).
Proof.
  intros Hv Hi Hc. unfold commit_element. destruct (saturate VD d) as [d' s].
  apply set_element_wf; [done..|]. destruct s; [by apply vscr_set_sat_wf|done].
Qed.

Lemma saturate_sum_wf VD d c : cpu_wf c -> cpu_wf (saturate_sum VD d c).2.
Proof.
  intros Hc. unfold saturate_sum. destruct (saturate VD d) as [d' s].
  destruct s; [by apply vscr_set_sat_wf|done].
Qed.

Lemma element_size_cases o :
  element_size o = 1 \/ element_size o = 2 \/ element_size o = 4 \/ element_size o = 8.
Proof. destruct o; cbn; auto using csize_cases. Qed.

Lemma n_elements_even o : exists k, n_elements o = 2 * k /\ n_elements o / 2 = k /\ 1 <= k.
Proof.
  unfold n_elements. destruct (element_size_cases o) as [->|[->|[->| ->]]];
    [exists 8|exists 4|exists 2|exists 1]; done.
Qed.

Section Wf.
Context {FPU : HostFPU}.

Lemma execute_vector_load_for_shift_wf SL op c :
  cpu_wf c -> outcome_holds cpu_wf (execute_vector_load_for_shift SL op c).
Proof.
  intros Hc. unfold execute_vector_load_for_shift.
  set (j := if SL then _ else _). clearbody j.
  match goal with |- context [for_each 16 ?b ?s] =>
    assert (H : cpu_wf (for_each 16 b s).1); [|destruct (for_each 16 b s) as [c' j']] end.
  { apply (for_each_invariant (fun s => cpu_wf s.1)); [|done]. intros i [c0 j0] Hi Hc0.
    apply set_vr_elem_wf; [done|apply extract_5; solve_bf|lia|..];
      pose proof (mixed_byte_range i Hi); lia. }
  by apply increment_pc_wf.
Qed.

Lemma cpu_read_holds {A B} (f : memory -> outcome A) (k : A -> outcome B) (P : B -> Prop) c :
  (forall v, outcome_holds P (k v)) -> outcome_holds P (v ← cpu_read f c; k v).
Proof. intros Hk. unfold cpu_read. destruct (f (mem c)); cbn; auto. Qed.

Lemma vop_regno_range VD opcode : vop_wf VD -> 0 <= vop_regno VD opcode <= 31.
Proof. destruct VD; cbn; [lia|..]; intros (? & ? & ?) || intros [? ?]; by apply extract_5. Qed.

Lemma land_bound x n : 0 <= n -> 0 <= Z.land x (2 ^ n - 1) < 2 ^ n.
Proof. intros. replace (2 ^ n - 1) with (Z.ones n) by (rewrite Z.ones_equiv; lia).
  rewrite Z.land_ones by done. by apply Z.mod_pos_bound, Z.pow_pos_nonneg. Qed.

Lemma execute_vector_load_wf VD RA RB op c :
  vop_wf VD -> cpu_wf c -> outcome_holds cpu_wf (execute_vector_load VD RA RB op c).
Proof.
  intros Hv Hc. unfold execute_vector_load. cbn zeta.
  eapply (outcome_holds_bind cpu_wf); [|intros c' Hc'; by apply increment_pc_wf].
  pose proof (vop_regno_range VD op Hv) as Hr.
  destruct (Z.eqb_spec (element_size VD) 1) as [E|]; [|destruct (Z.eqb_spec (element_size VD) 2) as [E|];
    [|destruct (Z.eqb_spec (element_size VD) 4) as [E|]; [|destruct (_ =? 8); [|done]]]].
  1-3: apply cpu_read_holds; intros v; apply set_element_wf; [done| |done]; rewrite E.
  - apply (land_bound _ 4). lia.
  - apply (land_bound _ 3). lia.
  - apply (land_bound _ 2). lia.
  - do 4 (apply cpu_read_holds; intros ?). cbn [outcome_holds].
    do 4 (apply set_vr_elem_wf; [|done || lia..]). done.
Qed.

Lemma execute_vector_store_wf VS RA RB op c :
  cpu_wf c -> outcome_holds cpu_wf (execute_vector_store VS RA RB op c).
Proof.
  intros Hc. unfold execute_vector_store. cbn zeta.
  eapply (outcome_holds_bind cpu_wf); [|intros c' Hc'; by apply increment_pc_wf].
  assert (Hw4 : forall a v c, cpu_wf c -> outcome_holds cpu_wf (cpu_write (vm_write_memory_4 a v) c)).
  { intros a v c0 Hc0. apply cpu_write_wf; [done|]. apply vm_write_memory_4_wf. }
  destruct (_ =? 1); [|destruct (_ =? 2); [|destruct (_ =? 4); [|destruct (_ =? 8); [|done]]]].
  - apply cpu_write_wf; [done|]. apply vm_write_memory_1_wf.
  - apply cpu_write_wf; [done|]. apply vm_write_memory_2_wf.
  - by apply Hw4.
  - do 3 (eapply (outcome_holds_bind cpu_wf); [by apply Hw4|intros ? ?]). by apply Hw4.
Qed.

Lemma execute_vector_arith_wf OP VD VA VB VC Rc C1 op c :
  vop_wf VD -> cpu_wf c -> outcome_holds cpu_wf (execute_vector_arith OP VD VA VB VC Rc C1 op c).
Proof.
  intros Hv Hc. unfold execute_vector_arith. cbn zeta. cbn [outcome_holds].
  match goal with |- context [for_each ?n ?b ?s] => assert (H : cpu_wf (for_each n b s)) end.
  { apply for_each_invariant; [|done]. intros. by apply commit_element_wf. }
  apply increment_pc_wf. destruct (bp_test Rc op); [by apply record_cr6_wf|done].
Qed.

Ltac vec_loop := cbn zeta; cbn [outcome_holds]; apply increment_pc_wf; apply for_each_invariant; [|done].

Lemma execute_vector_arith_mixed_wf OP VD VA VB VC op c :
  vop_wf VD -> cpu_wf c -> outcome_holds cpu_wf (execute_vector_arith_mixed OP VD VA VB VC op c).
Proof.
  intros Hv Hc. unfold execute_vector_arith_mixed. vec_loop. intros. by apply commit_element_wf.
Qed.

Lemma execute_vector_arith_odd_wf ODD OP VD VA VB VC op c :
  vop_wf VD -> cpu_wf c -> outcome_holds cpu_wf (execute_vector_arith_odd ODD OP VD VA VB VC op c).
Proof.
  intros Hv Hc. unfold execute_vector_arith_odd. vec_loop. intros. by apply commit_element_wf.
Qed.

Lemma execute_vector_merge_wf VD VA VB LO op c :
  vop_wf VD -> cpu_wf c -> outcome_holds cpu_wf (execute_vector_merge VD VA VB LO op c).
Proof.
  intros Hv Hc. unfold execute_vector_merge. vec_loop. intros i s Hi Hs.
  destruct (n_elements_even VD) as (k & En & Ek & ?). unfold n_elements in *.
  apply set_element_wf; [done|lia|]. apply set_element_wf; done || lia.
Qed.

Lemma execute_vector_pack_wf VD VA VB op c :
  vop_wf VD -> cpu_wf c -> outcome_holds cpu_wf (execute_vector_pack VD VA VB op c).
Proof. intros Hv Hc. unfold execute_vector_pack. vec_loop. intros. by apply commit_element_wf. Qed.

Lemma execute_vector_unpack_wf LO VD VA op c :
  vop_wf VD -> cpu_wf c -> outcome_holds cpu_wf (execute_vector_unpack LO VD VA op c).
Proof. intros Hv Hc. unfold execute_vector_unpack. vec_loop. intros. by apply set_element_wf. Qed.

Lemma half_element_fits i : 0 <= i < 8 -> 0 < 16 /\ 0 <= mixed_half_element i /\ 16 * mixed_half_element i + 16 <= 128.
Proof. intros Hi. pose proof (mixed_half_range i Hi). lia. Qed.
Lemma byte_element_fits i : 0 <= i < 16 -> 0 < 8 /\ 0 <= mixed_byte_element i /\ 8 * mixed_byte_element i + 8 <= 128.
Proof. intros Hi. pose proof (mixed_byte_range i Hi). lia. Qed.

Lemma execute_vector_pack_pixel_wf op c :
  cpu_wf c -> outcome_holds cpu_wf (execute_vector_pack_pixel op c).
Proof.
  intros Hc. unfold execute_vector_pack_pixel. vec_loop. intros i s Hi Hs.
  pose proof (half_element_fits i ltac:(lia)) as (? & ? & ?).
  pose proof (half_element_fits (i + 4) ltac:(lia)) as (? & ? & ?).
  pose proof (extract_5 vD_field op ltac:(solve_bf) eq_refl).
  apply set_vr_elem_wf; [|done..]. by apply set_vr_elem_wf.
Qed.

Lemma execute_vector_unpack_pixel_wf LO op c :
  cpu_wf c -> outcome_holds cpu_wf (execute_vector_unpack_pixel LO op c).
Proof.
  intros Hc. unfold execute_vector_unpack_pixel. vec_loop. intros i s Hi Hs.
  apply set_vr_elem_wf; [done|apply extract_5; solve_bf|lia..].
Qed.

Lemma execute_vector_shift_wf SD op c :
  cpu_wf c -> outcome_holds cpu_wf (execute_vector_shift SD op c).
Proof.
  intros Hc. unfold execute_vector_shift. cbn zeta. cbn [outcome_holds]. apply increment_pc_wf.
  pose proof (extract_5 vD_field op ltac:(solve_bf) eq_refl).
  destruct (_ =? 0); [|destruct (SD <? 0); [|destruct (0 <? SD); [|done]]].
  - apply for_each_invariant; [|done]. intros. apply set_vr_elem_wf; done || lia.
  - apply (for_each_invariant (fun s => cpu_wf s.1)); [|done].
    intros i [s p] Hi Hs. cbn. apply set_vr_elem_wf; done || lia.
  - apply (for_each_invariant (fun s => cpu_wf s.1)); [|done].
    intros i [s p] Hi Hs. cbn. apply set_vr_elem_wf; done || lia.
Qed.

Lemma execute_vector_shift_octet_wf SD VD VA VB SH op c :
  vop_wf VD -> n_elements VD = 16 -> cpu_wf c ->
  outcome_holds cpu_wf (execute_vector_shift_octet SD VD VA VB SH op c).
Proof.
  unfold n_elements. intros Hv Hn Hc. unfold execute_vector_shift_octet. cbn zeta. cbn [outcome_holds].
  apply increment_pc_wf. destruct (SD <? 0); [|destruct (0 <? SD); [|done]];
    (apply for_each_invariant; [|done]; intros; destruct (_ <? _); apply set_element_wf; done || lia).
Qed.

Lemma execute_vector_splat_wf OP VD VB IM op c :
  vop_wf VD -> cpu_wf c -> outcome_holds cpu_wf (execute_vector_splat OP VD VB IM op c).
Proof. intros Hv Hc. unfold execute_vector_splat. vec_loop. intros. by apply set_element_wf. Qed.

Lemma execute_vector_sum_wf SZ VD VA VB op c :
  vop_wf VD -> n_elements VD = 4 -> cpu_wf c ->
  outcome_holds cpu_wf (execute_vector_sum SZ VD VA VB op c).
Proof.
  intros Hv Hn Hc. pose proof Hn as Hn'. unfold n_elements in Hn'.
  unfold execute_vector_sum. cbn zeta. cbn [outcome_holds]. apply increment_pc_wf.
  destruct (SZ =? 1); [|destruct (SZ =? 2); [|destruct (SZ =? 4); [|done]]].
  - pose proof (saturate_sum_wf VD (vector_sum VD VA VB op 3 0 4 c) c Hc) as Hs.
    destruct (saturate_sum _ _ _) as [d s]. cbn in Hs.
    do 4 (apply set_element_wf; [done|lia|]). done.
  - apply for_each_invariant; [|done]. intros i s Hi Hs.
    pose proof (saturate_sum_wf VD (vector_sum VD VA VB op (2 * i + 1) (2 * i) 2 s) s Hs) as Hs'.
    destruct (saturate_sum _ _ _) as [d s']. cbn in Hs'.
    do 2 (apply set_element_wf; [done|lia|]). done.
  - apply for_each_invariant; [|done]. intros i s Hi Hs. apply commit_element_wf; done || lia.
Qed.

Lemma execute_vector_permute_wf op c :
  cpu_wf c -> outcome_holds cpu_wf (execute_vector_permute op c).
Proof.
  intros Hc. unfold execute_vector_permute. vec_loop. intros i s Hi Hs.
  pose proof (byte_element_fits i Hi) as (? & ? & ?).
  apply set_vr_elem_wf; [done|apply extract_5; solve_bf|done..].
Qed.

Lemma execute_mfvscr_wf op c : cpu_wf c -> outcome_holds cpu_wf (execute_mfvscr op c).
Proof.
  intros Hc. unfold execute_mfvscr. cbn zeta. cbn [outcome_holds]. apply increment_pc_wf.
  pose proof (extract_5 vD_field op ltac:(solve_bf) eq_refl).
  do 4 (apply set_vr_elem_wf; [|done || lia..]). done.
Qed.

Lemma execute_mtvscr_wf op c : cpu_wf c -> outcome_holds cpu_wf (execute_mtvscr op c).
Proof.
  intros Hc. unfold execute_mtvscr. cbn [outcome_holds]. apply increment_pc_wf, set_vscr_wf; [done|].
  by apply vr_get_range.
Qed.

End Wf.
