(* ===== verification/VecSpec.v ===== *)
(** What the AltiVec handlers of [ExecVec] compute, aliasing of input and
    output registers included. *)
From S2P Require Import Prelude Bitfields Registers HostFPU Operations Memory Handlers BlockCache Cpu Operands ExecMem ExecInt IntSpec MemSpec ExecVec.

(** ** Loops *)

Lemma for_each_S {S} n (body : Z -> S -> S) s :
  0 <= n -> for_each (n + 1) body s = body n (for_each n body s).
Proof.
  intros Hn. unfold for_each, count_up.
  replace (Z.to_nat (n + 1)) with (Datatypes.S (Z.to_nat n)) by lia.
  rewrite seq_S, fmap_app, foldl_app. cbn. by rewrite Z2Nat.id.
Qed.

Lemma for_each_ind {S} (P : Z -> S -> Prop) n body s :
  0 <= n -> P 0 s -> (forall i s, 0 <= i < n -> P i s -> P (i + 1) (body i s)) ->
  P n (for_each n body s).
Proof.
  intros Hn H0 Hstep.
  assert (H : forall m, 0 <= m <= n -> P m (for_each m body s)); [|apply H; lia].
  intros m Hm. assert (E : exists k, m = Z.of_nat k) by (exists (Z.to_nat m); lia).
  destruct E as [k ->]. induction k as [|k IH]; [done|].
  rewrite Nat2Z.inj_succ, <- Z.add_1_r, for_each_S by lia. apply Hstep; [lia|]. apply IH. lia.
Qed.

Lemma for_each_ext {S} n (b1 b2 : Z -> S -> S) s :
  0 <= n -> (forall i s, 0 <= i < n -> b1 i s = b2 i s) -> for_each n b1 s = for_each n b2 s.
Proof.
  intros Hn Hb. apply (for_each_ind (fun i s' => s' = for_each i b2 s) n); [done..|].
  intros i s' Hi ->. rewrite for_each_S by lia. by apply Hb.
Qed.

(** ** Lanes *)

Lemma vr_set_vr c r s v :
  cpu_wf c -> 0 <= r <= 31 -> 0 <= s <= 31 -> vr (set_vr r v c) s = if s =? r then v else vr c s.
Proof.
  intros Hc Hr Hs. simpl_cpu. destruct (Z.eqb_spec s r) as [->|].
  - apply Zlookup_insert_eq. by apply vr_index.
  - apply Zlookup_insert_ne; lia.
Qed.

Lemma vr_elem_set c w r s i j v :
  cpu_wf c -> 0 <= r <= 31 -> 0 <= s <= 31 -> 0 < w -> 0 <= i -> 0 <= j ->
  vr_elem w s j (set_vr_elem w r i v c) =
    if (s =? r) && (j =? i) then trunc w v else vr_elem w s j c.
Proof.
  intros Hc Hr Hs Hw Hi Hj. unfold vr_elem, set_vr_elem. rewrite vr_set_vr by done.
  destruct (Z.eqb_spec s r) as [->|]; [|done]. destruct (Z.eqb_spec j i) as [->|]; cbn [andb].
  - by apply vr_get_set_eq.
  - apply vr_get_set_ne; lia.
Qed.

Lemma mixed_byte_involutive i :
  0 <= i < 16 -> mixed_byte_element (mixed_byte_element i) = i.
Proof.
  intros Hi. assert (H : i ∈ count_up 16) by (apply elem_of_count_up; lia).
  clear Hi. revert i H. apply Forall_forall. vm_compute; repeat constructor.
Qed.
Lemma mixed_half_involutive i :
  0 <= i < 8 -> mixed_half_element (mixed_half_element i) = i.
Proof.
  intros Hi. assert (H : i ∈ count_up 8) by (apply elem_of_count_up; lia).
  clear Hi. revert i H. apply Forall_forall. vm_compute; repeat constructor.
Qed.

(** The element order is a permutation of the elements. *)
Lemma ev_element_inj w m i j :
  (m = true -> w = 8 \/ w = 16) -> 0 <= i < 128 / w -> 0 <= j < 128 / w ->
  ev_element w m i = ev_element w m j -> i = j.
Proof.
  intros Hm Hi Hj. unfold ev_element. destruct m; [|done]. destruct (Hm eq_refl) as [->| ->]; cbn [Z.eqb Pos.eqb].
  - change (128 / 8) with 16 in *. intros E%(f_equal mixed_byte_element).
    by rewrite !mixed_byte_involutive in E.
  - change (128 / 16) with 8 in *. intros E%(f_equal mixed_half_element).
    by rewrite !mixed_half_involutive in E.
Qed.

(** The width and the element order of an operand that is a register. *)
Definition lanes (o : vop) : option (Z * bool) :=
  match o with
  | null_vector_operand | vimm_operand _ => None
  | vec_operand _ vw _ mixed | vec_sat_operand _ vw _ _ mixed => Some (vw, mixed)
  | vec_float _ => Some (32, false)
  end.

(** [V] is cut into the same elements as [VD], or is no register. *)
Definition same_lanes (VD V : vop) : Prop := lanes V = None \/ lanes V = lanes VD.
#[export] Instance same_lanes_dec VD V : Decision (same_lanes VD V).
Proof. unfold same_lanes. apply _. Defined.

(** The bits of element [i]. *)
Definition lane (o : vop) (opcode : Z) (c : powerpc_cpu) (i : Z) : Z :=
  match lanes o with
  | Some (w, mixed) => vr_get w (vr c (vop_regno o opcode)) (ev_element w mixed i)
  | None => 0
  end.

Lemma lane_increment_pc o opcode k c i :
  lane o opcode (increment_pc k c) i = lane o opcode c i.
Proof. done. Qed.

Lemma get_element_lane V opcode c c' i :
  lane V opcode c' i = lane V opcode c i -> get_element V opcode c' i = get_element V opcode c i.
Proof.
  unfold lane. destruct V; cbn [lanes get_element vop_regno]; try done.
  - by intros ->.
  - by intros ->.
Qed.

Lemma lanes_element_size o w m :
  vop_wf o -> lanes o = Some (w, m) ->
  w = 8 * element_size o /\ (m = true -> w = 8 \/ w = 16) /\ 128 / w = n_elements o /\ 0 < w.
Proof.
  unfold n_elements. destruct o as [|f|f vw t m'|f vw t s m'|f]; cbn [lanes vop_wf element_size];
    try done; [intros (_ & _ & -> & Hm) [= <- <-]..|by intros _ [= <- <-]].
  all: (split; [done|]; split; [exact Hm|]); by destruct (csize_cases t) as [->|[->|[->| ->]]].
Qed.

(** Writing an element changes that element and no other. *)
Lemma lane_set_element VD V opcode c i j v w m :
  cpu_wf c -> vop_wf VD -> vop_wf V -> lanes VD = Some (w, m) -> same_lanes VD V ->
  0 <= i < n_elements VD -> 0 <= j < n_elements VD ->
  lane V opcode (set_element VD opcode i v c) j =
    if bool_decide (lanes V <> None) && (vop_regno V opcode =? vop_regno VD opcode) && (j =? i)
    then trunc w v else lane V opcode c j.
Proof.
  intros Hc HVD HV Hl Hsame Hi Hj.
  destruct (lanes_element_size VD w m HVD Hl) as (Hw & Hm & Hn & Hw0).
  assert (Eset : set_element VD opcode i v c =
    set_vr (vop_regno VD opcode) (vr_set w (vr c (vop_regno VD opcode)) (ev_element w m i) v) c).
  { destruct VD; cbn [lanes] in Hl; try done; by injection Hl as <- <-. }
  rewrite Eset. unfold lane. destruct Hsame as [E|E]; rewrite E; [done|]. rewrite Hl. cbn [andb].
  rewrite bool_decide_true by done. cbn [andb].
  pose proof (vop_regno_range VD opcode HVD) as Hr. pose proof (vop_regno_range V opcode HV) as Hr'.
  rewrite <- Hn in Hi, Hj.
  pose proof (ev_element_range w m i Hm Hi). pose proof (ev_element_range w m j Hm Hj).
  rewrite vr_set_vr by done. destruct (Z.eqb_spec (vop_regno V opcode) (vop_regno VD opcode)) as [->|];
    [|done]. cbn [andb]. destruct (Z.eqb_spec j i) as [->|Hne].
  - apply vr_get_set_eq; lia.
  - apply vr_get_set_ne; [lia..|]. intros E'. apply Hne. symmetry. by apply (ev_element_inj w m).
Qed.

(** ** Saturation *)

(** [saturate] clamps to the limits of the element type and reports whether
    it changed the value. *)
Lemma saturate_clamp f vw vt vs mx d :
  saturate (vec_sat_operand f vw vt vs mx) d =
    (Z.max (limit_min vt) (Z.min (limit_max vt) d),
     negb ((limit_min vt <=? d) && (d <=? limit_max vt))).
Proof.
  unfold saturate. assert (limit_min vt <= limit_max vt) by (destruct vt; cbn; lia).
  destruct (Z.ltb_spec (limit_max vt) d); [|destruct (Z.ltb_spec d (limit_min vt))];
    split_cmp; cbn; f_equal; lia.
Qed.

Definition sat_bit (c : powerpc_cpu) : bool := test VSCR_SAT_field (vscr c).

Lemma test_set_sat v : test VSCR_SAT_field (vscr_set_sat true v) = true.
Proof.
  rewrite test_bit by solve_bf. unfold vscr_set_sat. by rewrite testbit_insert by (solve_bf || done).
Qed.

Lemma vr_set_element VD opcode i v c r :
  cpu_wf c -> vop_wf VD -> 0 <= r <= 31 -> r <> vop_regno VD opcode ->
  vr (set_element VD opcode i v c) r = vr c r.
Proof.
  intros Hc HVD Hr Hne. pose proof (vop_regno_range VD opcode HVD) as Hr'.
  destruct VD; cbn [set_element vop_regno] in *; try done; rewrite vr_set_vr by done;
    destruct (Z.eqb_spec r (extract f opcode)); done.
Qed.

Lemma set_element_regs VD opcode i v c :
  vscr (set_element VD opcode i v c) = vscr c /\ fe_round (set_element VD opcode i v c) = fe_round c /\
  pc (set_element VD opcode i v c) = pc c /\ mem (set_element VD opcode i v c) = mem c.
Proof. by destruct VD. Qed.

Section Commit.
Context (VD : vop) (opcode : Z) (HVD : vop_wf VD).

Lemma lane_commit V c i j d w m :
  cpu_wf c -> vop_wf V -> lanes VD = Some (w, m) -> same_lanes VD V ->
  0 <= i < n_elements VD -> 0 <= j < n_elements VD ->
  lane V opcode (commit_element VD opcode i d c) j =
    if bool_decide (lanes V <> None) && (vop_regno V opcode =? vop_regno VD opcode) && (j =? i)
    then trunc w (saturate VD d).1 else lane V opcode c j.
Proof using HVD.
  intros. unfold commit_element. destruct (saturate VD d) as [d' s]. cbn [fst].
  set (c' := if s then _ else c).
  assert (Hc' : cpu_wf c') by (subst c'; destruct s; [by apply vscr_set_sat_wf|done]).
  rewrite (lane_set_element VD V opcode c' i j d' w m) by done.
  assert (E : lane V opcode c' j = lane V opcode c j) by (subst c'; by destruct s).
  by rewrite E.
Qed.

Lemma commit_frame c i d :
  cpu_wf c ->
  let c' := commit_element VD opcode i d c in
  sat_bit c' = sat_bit c || (saturate VD d).2 /\ fe_round c' = fe_round c /\
  pc c' = pc c /\ mem c' = mem c /\
  forall r, 0 <= r <= 31 -> r <> vop_regno VD opcode -> vr c' r = vr c r.
Proof using HVD.
  intros Hc. unfold commit_element. destruct (saturate VD d) as [d' s]. cbn [snd].
  set (c0 := if s then _ else c).
  assert (Hc0 : cpu_wf c0) by (subst c0; destruct s; [by apply vscr_set_sat_wf|done]).
  destruct (set_element_regs VD opcode i d' c0) as (Hs & Hf & Hp & Hm).
  unfold sat_bit. rewrite Hs, Hf, Hp, Hm. subst c0. split_and!.
  - destruct s; simpl_cpu; [by rewrite test_set_sat, orb_true_r|by rewrite orb_false_r].
  - by destruct s.
  - by destruct s.
  - by destruct s.
  - intros r Hr Hne. rewrite vr_set_element by done. by destruct s.
Qed.
End Commit.

(** ** Element-wise arithmetic *)

Section Arith.
Context {FPU : HostFPU}.

(** The result of element [i], on the values the registers had before. *)
Definition arith_element (OP : op) (VD VA VB VC : vop) (opcode : Z) (c : powerpc_cpu) (i : Z) : Z * bool :=
  saturate VD (op_apply_vec (fe_round c) (element_type VD) OP VA VB VC
    (get_element VA opcode c i) (get_element VB opcode c i) (get_element VC opcode c i)).

(** Some of the first [n] elements saturate. *)
Definition any_sat (f : Z -> Z * bool) (n : Z) : bool := existsb (fun i => (f i).2) (count_up (Z.to_nat n)).

Lemma any_sat_S f n : 0 <= n -> any_sat f (n + 1) = any_sat f n || (f n).2.
Proof.
  intros Hn. unfold any_sat, count_up. replace (Z.to_nat (n + 1)) with (Datatypes.S (Z.to_nat n)) by lia.
  rewrite seq_S, fmap_app, existsb_app. cbn. rewrite Z2Nat.id by lia. by rewrite orb_false_r.
Qed.

(** C15: Element-wise vector arithmetic.  Every element of vD is the operation
    applied to the elements of the inputs as they were before the instruction,
    clamped to the element type, whether or not vD is one of the inputs; the
    sticky bit VSCR[SAT] is set exactly when some element was clamped; and no
    other vector register, nor memory, changes. *)
Theorem execute_vector_arith_spec OP VD VA VB VC C1 opcode c w m :
  cpu_wf c -> vop_wf VD -> vop_wf VA -> vop_wf VB -> vop_wf VC ->
  lanes VD = Some (w, m) -> same_lanes VD VA -> same_lanes VD VB -> same_lanes VD VC ->
  exists c', execute_vector_arith OP VD VA VB VC RC_BIT_0 C1 opcode c = Ok c' /\
    (forall i, 0 <= i < n_elements VD ->
      lane VD opcode c' i = trunc w (arith_element OP VD VA VB VC opcode c i).1) /\
    sat_bit c' = sat_bit c || any_sat (arith_element OP VD VA VB VC opcode c) (n_elements VD) /\
    (forall r, 0 <= r <= 31 -> r <> vop_regno VD opcode -> vr c' r = vr c r) /\
    mem c' = mem c /\ pc c' = u32 (pc c + 4).
Proof.
  intros Hc HVD HVA HVB HVC Hl HA HB HC. unfold execute_vector_arith. cbn zeta. cbn [bp_test RC_BIT_0].
  set (f := arith_element OP VD VA VB VC opcode c).
  set (P := fun n s => cpu_wf s /\
    (forall j, 0 <= j < n_elements VD ->
      lane VD opcode s j = if j <? n then trunc w (f j).1 else lane VD opcode c j) /\
    sat_bit s = sat_bit c || any_sat f n /\
    (forall r, 0 <= r <= 31 -> r <> vop_regno VD opcode -> vr s r = vr c r) /\
    fe_round s = fe_round c /\ mem s = mem c /\ pc s = pc c).
  destruct (n_elements_even VD) as (k & En & _ & ?).
  match goal with |- context [for_each ?n ?b c] => assert (H0 : P n (for_each n b c)) end.
  { apply for_each_ind; [lia| |].
    - split_and!; try done. intros j Hj. by split_cmp. by rewrite orb_false_r.
    - intros i s Hi (Hs & Hlane & Hsat & Hvr & Hr & Hm & Hpc). cbn beta.
      assert (Hget : forall V, vop_wf V -> same_lanes VD V ->
        get_element V opcode s i = get_element V opcode c i).
      { intros V HV HsV. apply get_element_lane.
        destruct HsV as [E|E]; [unfold lane; by rewrite E|].
        pose proof (vop_regno_range V opcode HV) as HrV.
        destruct (decide (vop_regno V opcode = vop_regno VD opcode)) as [Er|Hne].
        - specialize (Hlane i Hi). revert Hlane. rewrite Z.ltb_irrefl.
          unfold lane. by rewrite E, Er.
        - unfold lane. by rewrite Hvr by done. }
      rewrite !Hget, Hr by done. fold (f i).
      match goal with |- context [commit_element VD opcode i ?d s] => set (d0 := d) end.
      change (f i) with (saturate VD d0) in *.
      destruct (commit_frame VD opcode HVD s i d0 Hs) as (Hsat' & Hr' & Hpc' & Hm' & Hvr').
      split_and!.
      + apply commit_element_wf; done.
      + intros j Hj. rewrite (lane_commit VD opcode HVD VD s i j d0 w m) by (done || by right).
        rewrite bool_decide_true by (by rewrite Hl). rewrite Z.eqb_refl. cbn [andb].
        rewrite Hlane by done. destruct (Z.eqb_spec j i) as [->|]; [by split_cmp|]. by split_cmp.
      + rewrite Hsat', Hsat, any_sat_S by lia. by rewrite orb_assoc.
      + intros r Hr0 Hne. rewrite Hvr' by done. by apply Hvr.
      + by rewrite Hr'.
      + by rewrite Hm'.
      + by rewrite Hpc'. }
  destruct H0 as (Hs & Hlane & Hsat & Hvr & Hr & Hm & Hpc).
  eexists. split; [reflexivity|].
  match goal with |- context [increment_pc 4 ?s] => generalize dependent s end.
  intros s Hs Hlane Hsat Hvr Hr Hm Hpc. split_and!; [|done..|simpl_cpu; by rewrite <- Hpc].
  intros i Hi. specialize (Hlane i Hi). rewrite (proj2 (Z.ltb_lt i _)) in Hlane by lia. exact Hlane.
Qed.
End Arith.

(** A state with the given contents of v1 and v2. *)
Definition cpu_with_vr (x y : Z) : powerpc_cpu := set_vr 1 x (set_vr 2 y (cpu_init ∅)).

Lemma cpu_with_vr_wf x y : is_uint 128 x -> is_uint 128 y -> cpu_wf (cpu_with_vr x y).
Proof.
  intros. unfold cpu_with_vr. pose proof (cpu_init_wf ∅ (map_Forall_empty _)) as H1.
  generalize dependent (cpu_init ∅). intros c Hc. wf.
Qed.

(** vaddubs v1,v1,v2: 0xf0 + 0x20 saturates, in place. *)
Lemma execute_vector_arith_spec_witness :
  exists c', execute_vector_arith (FPU := null_fpu) Op_add (V16QI_SAT uint8 vD_field)
      (V16QI_SAT uint8 vA_field) (V16QI_SAT uint8 vB_field) (NONE vC_field) RC_BIT_0 false
      0x10211200 (cpu_with_vr 0xf0 0x20) = Ok c' /\
    lane (V16QI_SAT uint8 vD_field) 0x10211200 c' 0 = 255 /\ sat_bit c' = true.
Proof.
  destruct (execute_vector_arith_spec (FPU := null_fpu) Op_add (V16QI_SAT uint8 vD_field)
    (V16QI_SAT uint8 vA_field) (V16QI_SAT uint8 vB_field) (NONE vC_field) false
    0x10211200 (cpu_with_vr 0xf0 0x20) 8 false) as (c' & H & Hl & Hs & _);
    [by apply cpu_with_vr_wf|done..|by right|by right|by left|].
  exists c'. split; [exact H|]. rewrite Hl by done. rewrite Hs. split; by vm_compute.
Defined.

(** ** The 128-bit shifts *)

(** The register as a 128-bit number, word 0 being the most significant. *)
Definition vr_number (r : Z) : Z :=
  Z.lor (Z.shiftl (vr_get 32 r 0) 96) (Z.lor (Z.shiftl (vr_get 32 r 1) 64)
    (Z.lor (Z.shiftl (vr_get 32 r 2) 32) (vr_get 32 r 3))).

Lemma is_uint_shiftl w a k : 0 <= k -> 0 <= w -> is_uint w a -> is_uint (w + k) (Z.shiftl a k).
Proof.
  intros Hk Hw [? ?]. rewrite Z.shiftl_mul_pow2 by done. unfold is_uint. rewrite Z.pow_add_r by done.
  pose proof (Z.pow_pos_nonneg 2 k). split; [nia|]. apply Z.mul_lt_mono_pos_r; lia.
Qed.

Lemma number_range w0 w1 w2 w3 :
  is_uint 32 w0 -> is_uint 32 w1 -> is_uint 32 w2 -> is_uint 32 w3 ->
  is_uint 128 (Z.lor (Z.shiftl w0 96) (Z.lor (Z.shiftl w1 64) (Z.lor (Z.shiftl w2 32) w3))).
Proof.
  intros. repeat apply is_uint_lor; try lia.
  - by apply (is_uint_shiftl 32).
  - apply (is_uint_mono 96); [lia|]. by apply (is_uint_shiftl 32).
  - apply (is_uint_mono 64); [lia|]. by apply (is_uint_shiftl 32).
  - by apply (is_uint_mono 32); [lia|].
Qed.

Lemma shl_words w0 w1 w2 w3 sh :
  is_uint 32 w0 -> is_uint 32 w1 -> is_uint 32 w2 -> is_uint 32 w3 -> 1 <= sh <= 7 ->
  let L a := u32 (Z.shiftl a sh) in let C a := Z.shiftr a (32 - sh) in
  Z.lor (Z.shiftl (Z.lor (L w0) (C w1)) 96) (Z.lor (Z.shiftl (Z.lor (L w1) (C w2)) 64)
    (Z.lor (Z.shiftl (Z.lor (L w2) (C w3)) 32) (Z.lor (L w3) 0))) =
  trunc 128 (Z.shiftl (Z.lor (Z.shiftl w0 96) (Z.lor (Z.shiftl w1 64)
    (Z.lor (Z.shiftl w2 32) w3))) sh).
Proof.
  intros H0 H1 H2 H3 Hs. cbn zeta.
  apply Z.bits_inj'; intros i Hi. push_testbit. split_cmp; close_bits.
Qed.

Lemma shr_words w0 w1 w2 w3 sh :
  is_uint 32 w0 -> is_uint 32 w1 -> is_uint 32 w2 -> is_uint 32 w3 -> 1 <= sh <= 7 ->
  let R a := Z.shiftr a sh in let C a := u32 (Z.shiftl a (32 - sh)) in
  Z.lor (Z.shiftl (Z.lor (R w0) 0) 96) (Z.lor (Z.shiftl (Z.lor (R w1) (C w0)) 64)
    (Z.lor (Z.shiftl (Z.lor (R w2) (C w1)) 32) (Z.lor (R w3) (C w2)))) =
  Z.shiftr (Z.lor (Z.shiftl w0 96) (Z.lor (Z.shiftl w1 64)
    (Z.lor (Z.shiftl w2 32) w3))) sh.
Proof.
  intros H0 H1 H2 H3 Hs. cbn zeta.
  apply Z.bits_inj'; intros i Hi. push_testbit. split_cmp; close_bits.
Qed.

Lemma trunc32_lor a b : is_uint 32 b -> u32 (Z.lor (u32 a) b) = Z.lor (u32 a) b.
Proof. intros. apply trunc_small, is_uint_lor; [lia|apply trunc_range; lia|done]. Qed.
Lemma trunc32_lor_r a b : is_uint 32 a -> u32 (Z.lor a (u32 b)) = Z.lor a (u32 b).
Proof. intros. apply trunc_small, is_uint_lor; [lia|done|apply trunc_range; lia]. Qed.

Lemma vr_elem_range c w r i : 0 <= w -> is_uint w (vr_elem w r i c).
Proof. apply vr_get_range. Qed.

Lemma vr_elem_set_eq c w r i v :
  cpu_wf c -> 0 <= r <= 31 -> 0 < w -> 0 <= i ->
  vr_elem w r i (set_vr_elem w r i v c) = trunc w v.
Proof. intros. rewrite vr_elem_set by done. by rewrite !Z.eqb_refl. Qed.

Lemma vr_elem_set_ne c w r s i j v :
  cpu_wf c -> 0 <= r <= 31 -> 0 <= s <= 31 -> 0 < w -> 0 <= i -> 0 <= j -> i <> j ->
  vr_elem w s j (set_vr_elem w r i v c) = vr_elem w s j c.
Proof.
  intros. rewrite vr_elem_set by done. destruct (Z.eqb_spec j i); [lia|]. by rewrite andb_false_r.
Qed.

(** Reads of elements after writes of elements, on well-formed states. *)
Ltac elem_wf :=
  match goal with
  | H : ?P |- ?P => exact H
  | |- cpu_wf (set_vr_elem _ _ _ _ _) => apply set_vr_elem_wf; elem_wf
  | |- _ /\ _ => split; elem_wf
  | |- _ => first [lia | done]
  end.
Ltac read_elems :=
  repeat match goal with
  | |- context [vr_elem ?w ?s ?j (set_vr_elem ?w ?r ?i ?v ?c)] =>
      first [ rewrite (vr_elem_set_eq c w r i v) by elem_wf
            | rewrite (vr_elem_set_ne c w r s i j v) by elem_wf ]
  end.

(** [vsl] and [vsr] shift the register as one 128-bit number, by the
    count in the low three bits of vB, also when vD is vA or vB: the loop
    that carries the bits from word to word implements the shift. *)
Theorem execute_vector_shift_spec SD opcode c :
  cpu_wf c -> SD = -1 \/ SD = 1 ->
  let x := vr_number (vr c (extract vA_field opcode)) in
  let sh := Z.land (vr_elem 8 (extract vB_field opcode) (mixed_byte_element 15) c) 7 in
  exists c', execute_vector_shift SD opcode c = Ok c' /\
    vr_number (vr c' (extract vD_field opcode)) =
      (if SD <? 0 then trunc 128 (Z.shiftl x sh) else Z.shiftr x sh).
Proof.
  intros Hc HSD x sh. unfold execute_vector_shift. cbn zeta. fold sh.
  pose proof (extract_5 vA_field opcode ltac:(solve_bf) eq_refl) as HA.
  pose proof (extract_5 vD_field opcode ltac:(solve_bf) eq_refl) as HD.
  assert (Hsh : 0 <= sh <= 7).
  { pose proof (land_bound (vr_elem 8 (extract vB_field opcode) (mixed_byte_element 15) c) 3 ltac:(lia)) as Hb.
    change (2 ^ 3 - 1) with 7 in Hb. change (2 ^ 3) with 8 in Hb. fold sh in Hb. lia. }
  eexists. split; [reflexivity|]. change (vr (increment_pc 4 ?s)) with (vr s).
  set (vA := extract vA_field opcode) in *. set (vD := extract vD_field opcode) in *.
  clearbody vA vD sh. unfold vr_number in *.
  change (vr_get 32 (vr ?c ?r) ?i) with (vr_elem 32 r i c) in *.
  pose proof (fun i => vr_elem_range c 32 vA i ltac:(lia)) as Hw.
  destruct (Z.eqb_spec sh 0) as [->|Hne].
  - change (for_each 4 ?b c) with (b 3 (b 2 (b 1 (b 0 c)))). cbn beta.
    change (vr_get 32 (vr ?c ?r) ?i) with (vr_elem 32 r i c). read_elems.
    rewrite !trunc_small by done. fold x. rewrite Z.shiftl_0_r, Z.shiftr_0_r.
    destruct (SD <? 0); [|done]. rewrite trunc_small; [done|].
    subst x. apply number_range; apply Hw.
  - destruct HSD as [->| ->]; cbn [Z.ltb Z.compare].
    + change (for_each 4 ?b ?s) with (b 3 (b 2 (b 1 (b 0 s)))). cbn [shift_left_body fst].
      change (3 - 0) with 3. change (3 - 1) with 2. change (3 - 2) with 1. change (3 - 3) with 0.
      change (vr_get 32 (vr ?c ?r) ?i) with (vr_elem 32 r i c). read_elems.
      rewrite !trunc32_lor by (apply is_uint_shiftr; [lia|apply Hw]) || done.
      apply shl_words; apply Hw || lia.
    + change (for_each 4 ?b ?s) with (b 3 (b 2 (b 1 (b 0 s)))). cbn [shift_right_body fst].
      change (vr_get 32 (vr ?c ?r) ?i) with (vr_elem 32 r i c). read_elems.
      rewrite !trunc32_lor_r by (apply is_uint_shiftr; [lia|apply Hw]).
      rewrite (trunc_small 32 (Z.lor _ 0)) by (rewrite Z.lor_0_r; apply is_uint_shiftr; [lia|apply Hw]).
      apply shr_words; apply Hw || lia.
Qed.

(** vsl v1,v1,v2 by 4 bits, in place. *)
Lemma execute_vector_shift_spec_witness :
  exists c', execute_vector_shift (-1) 0x102111c4 (cpu_with_vr (Z.ones 32) (Z.shiftl 4 96)) = Ok c' /\
    vr_number (vr c' 1) = Z.shiftl (Z.ones 28) 100.
Proof.
  destruct (execute_vector_shift_spec (-1) 0x102111c4 (cpu_with_vr (Z.ones 32) (Z.shiftl 4 96)))
    as (c' & H & E); [by apply cpu_with_vr_wf|by left|].
  exists c'. split; [exact H|]. change (vr c' 1) with (vr c' (extract vD_field 0x102111c4)).
  rewrite E. by vm_compute.
Defined.

(** ** Element moves

    The moves write the elements of vD in order, each from one element of
    some input.  The result is the intended one as long as no element is read
    after it has been overwritten. *)
Definition move_elements (VD : vop) (src : Z -> vop) (idx : Z -> Z) (opcode n : Z)
    (c : powerpc_cpu) : powerpc_cpu :=
  for_each n (fun i c => set_element VD opcode i (get_element (src i) opcode c (idx i)) c) c.

(** Element [i] is read before the loop gets to overwrite it. *)
Definition reads_in_time (VD : vop) (src : Z -> vop) (idx : Z -> Z) (opcode i : Z) : Prop :=
  lanes (src i) = None \/ vop_regno (src i) opcode <> vop_regno VD opcode \/ i <= idx i.

Lemma move_elements_spec VD src idx opcode n c w m :
  cpu_wf c -> vop_wf VD -> lanes VD = Some (w, m) -> 0 <= n <= n_elements VD ->
  (forall i, 0 <= i < n -> vop_wf (src i) /\ same_lanes VD (src i) /\
     (lanes (src i) = None \/ 0 <= idx i < n_elements VD) /\ reads_in_time VD src idx opcode i) ->
  let c' := move_elements VD src idx opcode n c in
  cpu_wf c' /\
  (forall i, 0 <= i < n_elements VD ->
    lane VD opcode c' i =
      if i <? n then trunc w (get_element (src i) opcode c (idx i)) else lane VD opcode c i) /\
  (forall r, 0 <= r <= 31 -> r <> vop_regno VD opcode -> vr c' r = vr c r).
Proof.
  intros Hc HVD Hl Hn Hsrc. cbn zeta. unfold move_elements.
  set (P := fun n s => cpu_wf s /\
    (forall j, 0 <= j < n_elements VD -> lane VD opcode s j =
       if j <? n then trunc w (get_element (src j) opcode c (idx j)) else lane VD opcode c j) /\
    (forall r, 0 <= r <= 31 -> r <> vop_regno VD opcode -> vr s r = vr c r)).
  change (P n (for_each n (fun i c => set_element VD opcode i (get_element (src i) opcode c (idx i)) c) c)).
  apply for_each_ind; [lia| |].
  - split_and!; [done| |done]. intros j Hj. by split_cmp.
  - intros i s Hi (Hs & Hlane & Hvr). destruct (Hsrc i Hi) as (HV & Hsame & Hidx & Hr).
    assert (Hget : get_element (src i) opcode s (idx i) = get_element (src i) opcode c (idx i)).
    { apply get_element_lane. destruct Hsame as [E|E]; [unfold lane; by rewrite E|].
      pose proof (vop_regno_range _ opcode HV) as HrV.
      destruct (decide (vop_regno (src i) opcode = vop_regno VD opcode)) as [Er|Hne].
      - destruct Hr as [?|[?|Hr]]; [congruence|done|]. destruct Hidx as [?|Hidx]; [congruence|].
        specialize (Hlane (idx i) Hidx). rewrite (proj2 (Z.ltb_ge _ _)) in Hlane by lia.
        revert Hlane. unfold lane. by rewrite E, Er.
      - unfold lane. by rewrite Hvr by done. }
    rewrite Hget. split_and!.
    + apply set_element_wf; [done| |done]. unfold n_elements in *. lia.
    + intros j Hj. rewrite (lane_set_element VD VD opcode s i j _ w m) by (done || lia || by right).
      rewrite bool_decide_true by (by rewrite Hl). rewrite Z.eqb_refl. cbn [andb].
      rewrite Hlane by done. destruct (Z.eqb_spec j i) as [->|]; by split_cmp.
    + intros r Hr0 Hne. rewrite vr_set_element by done. by apply Hvr.
Qed.

Lemma for_each_pairs {S} k (body : Z -> S -> S) s :
  0 <= k -> for_each (2 * k) body s = for_each k (fun i s => body (2 * i + 1) (body (2 * i) s)) s.
Proof.
  intros Hk. apply (for_each_ind (fun k s' => for_each (2 * k) body s = s') k); [done..|].
  intros i s' Hi IH. replace (2 * (i + 1)) with (2 * i + 1 + 1) by lia.
  rewrite !for_each_S by lia. by rewrite IH.
Qed.

(** The merge of two registers is such a move. *)
Lemma execute_vector_merge_moves VD VA VB LO opcode c :
  0 <= LO -> exists k, n_elements VD = 2 * k /\ 1 <= k /\
    execute_vector_merge VD VA VB LO opcode c =
      Ok (increment_pc 4 (move_elements VD (fun i => if Z.even i then VA else VB)
        (fun i => i / 2 + LO * k) opcode (n_elements VD) c)).
Proof.
  intros HLO. destruct (n_elements_even VD) as (k & En & Ek & Hk). exists k. split; [done|]. split; [done|].
  unfold execute_vector_merge. cbn zeta. rewrite Ek. do 2 f_equal. rewrite En.
  unfold move_elements. rewrite for_each_pairs by lia.
  apply for_each_ext; [lia|]. intros i s Hi. cbn beta.
  rewrite Z.even_add, Z.even_mul. cbn [Z.even orb Bool.eqb xorb].
  replace ((2 * i + 1) / 2) with i by (symmetry; rewrite Z.add_comm, Z.mul_comm, Z.div_add by lia; done).
  replace (2 * i / 2) with i by (symmetry; rewrite Z.mul_comm; by apply Z.div_mul). done.
Qed.

(** The merges interleave the halves of vA and vB.  The low merges do so
    whatever the registers; the high merges when vD is neither vA nor vB. *)
Theorem execute_vector_merge_spec VD VA VB LO opcode c w m :
  cpu_wf c -> vop_wf VD -> vop_wf VA -> vop_wf VB -> lanes VD = Some (w, m) ->
  lanes VA = lanes VD -> lanes VB = lanes VD -> LO = 0 \/ LO = 1 ->
  (LO = 0 -> vop_regno VA opcode <> vop_regno VD opcode /\ vop_regno VB opcode <> vop_regno VD opcode) ->
  let half := n_elements VD / 2 in
  exists c', execute_vector_merge VD VA VB LO opcode c = Ok c' /\
    (forall k, 0 <= k < half ->
      lane VD opcode c' (2 * k) = trunc w (get_element VA opcode c (k + LO * half)) /\
      lane VD opcode c' (2 * k + 1) = trunc w (get_element VB opcode c (k + LO * half))) /\
    (forall r, 0 <= r <= 31 -> r <> vop_regno VD opcode -> vr c' r = vr c r).
Proof.
  intros Hc HVD HVA HVB Hl HA HB HLO Halias half.
  destruct (execute_vector_merge_moves VD VA VB LO opcode c ltac:(lia)) as (n2 & En & Hn2 & E).
  assert (Eh : half = n2) by (subst half; rewrite En, Z.mul_comm; by apply Z.div_mul).
  rewrite Eh in *. clear half Eh. eexists. split; [exact E|]. clear E.
  pose proof (fun H => move_elements_spec VD (fun i => if Z.even i then VA else VB)
    (fun i => i / 2 + LO * n2) opcode (n_elements VD) c w m Hc HVD Hl ltac:(lia) H) as H.
  destruct H as (_ & Hlane & Hvr).
  { intros i Hi. assert (Hdiv : i = 2 * (i / 2) + i mod 2 /\ 0 <= i mod 2 < 2)
      by (split; [apply Z.div_mod; lia|apply Z.mod_pos_bound; lia]).
    assert (Hidx : 0 <= i / 2 + LO * n2 < n_elements VD) by (destruct HLO as [->| ->]; lia).
    assert (Hr : forall V, V = VA \/ V = VB -> lanes V = None \/
      vop_regno V opcode <> vop_regno VD opcode \/ i <= i / 2 + LO * n2).
    { intros V HV. right. destruct HLO as [->| ->]; [left|right; lia].
      destruct (Halias eq_refl). by destruct HV as [->| ->]. }
    unfold reads_in_time, same_lanes. destruct (Z.even i); split_and!; auto. }
  split; [|exact Hvr]. intros k Hk.
  assert (E0 : 2 * k / 2 = k) by (rewrite Z.mul_comm; by apply Z.div_mul).
  assert (E1 : (2 * k + 1) / 2 = k) by (rewrite Z.add_comm, Z.mul_comm, Z.div_add by lia; done).
  pose proof (Hlane (2 * k) ltac:(lia)) as H0. pose proof (Hlane (2 * k + 1) ltac:(lia)) as H1.
  rewrite E0, (proj2 (Z.ltb_lt _ _)), Z.even_mul in H0 by lia.
  rewrite E1, (proj2 (Z.ltb_lt _ _)), Z.even_add, Z.even_mul in H1 by lia. done.
Qed.

(** vmrglw v1,v1,v2, in place. *)
Lemma execute_vector_merge_spec_witness :
  exists c', execute_vector_merge (V4SI vD_field) (V4SI vA_field) (V4SI vB_field) 1 0x1021118c
      (cpu_with_vr (Z.shiftl 7 64) (Z.shiftl 9 64)) = Ok c' /\
    lane (V4SI vD_field) 0x1021118c c' (2 * 0) = 7 /\ lane (V4SI vD_field) 0x1021118c c' (2 * 0 + 1) = 9.
Proof.
  destruct (execute_vector_merge_spec (V4SI vD_field) (V4SI vA_field) (V4SI vB_field) 1 0x1021118c
      (cpu_with_vr (Z.shiftl 7 64) (Z.shiftl 9 64)) 32 false) as (c' & H & Hk & _);
    [by apply cpu_with_vr_wf|done..|by right|done|].
  exists c'. split; [exact H|]. destruct (Hk 0 ltac:(done)) as [H0 H1].
  rewrite H0, H1. split; by vm_compute.
Defined.

(** The left octet shift is a move of elements. *)
Lemma shift_octet_left_moves VD VA VB SH opcode c :
  let sh := operand_get SH c opcode in
  execute_vector_shift_octet (-1) VD VA VB SH opcode c =
    Ok (increment_pc 4 (move_elements VD (fun i => if i + sh <? 16 then VA else VB)
      (fun i => if i + sh <? 16 then i + sh else i - (16 - sh)) opcode 16 c)).
Proof.
  intros sh. unfold execute_vector_shift_octet. fold sh. clearbody sh. cbn zeta.
  replace (-1 <? 0) with true by done. apply (f_equal (fun s => Ok (increment_pc 4 s))).
  unfold move_elements. apply for_each_ext; [done|]. intros i s Hi. cbn beta. by destruct (i + sh <? 16).
Qed.

(** [vsldoi] selects 16 bytes of the concatenation of vA and vB starting
    at byte SHB, when vD is not vB (it may be vA). *)
Theorem execute_vsldoi_spec opcode c :
  cpu_wf c -> extract vB_field opcode <> extract vD_field opcode ->
  let sh := extract vSH_field opcode in
  exists c', execute_vector_shift_octet (-1) (V16QIm vD_field) (V16QIm vA_field) (V16QIm vB_field)
               operand_SHB opcode c = Ok c' /\
    (forall i, 0 <= i < 16 ->
      lane (V16QIm vD_field) opcode c' i =
        if i + sh <? 16 then lane (V16QIm vA_field) opcode c (i + sh)
        else lane (V16QIm vB_field) opcode c (i + sh - 16)) /\
    (forall r, 0 <= r <= 31 -> r <> extract vD_field opcode -> vr c' r = vr c r).
Proof.
  intros Hc Hne sh.
  pose proof (extract_range vSH_field opcode ltac:(solve_bf)) as Hsh. fold sh in Hsh.
  unfold is_uint in Hsh. change (2 ^ bf_len vSH_field) with 16 in Hsh.
  rewrite shift_octet_left_moves. cbn zeta. change (operand_get operand_SHB c opcode) with (u32 sh).
  rewrite (trunc_small 32 sh) by (split; lia). clearbody sh.
  set (src := fun i => if i + sh <? 16 then V16QIm vA_field else V16QIm vB_field).
  set (idx := fun i => if i + sh <? 16 then i + sh else i - (16 - sh)).
  destruct (move_elements_spec (V16QIm vD_field) src idx opcode 16 c 8 true) as (_ & Hlane & Hvr);
    [done|by apply (bool_decide_unpack _)|done|done| |].
  { intros i Hi. subst src idx. unfold reads_in_time, same_lanes. cbn beta.
    destruct (Z.ltb_spec (i + sh) 16); (split; [by apply (bool_decide_unpack _)|]);
      (split; [by right|]); (split; [right; change (n_elements _) with 16; lia|]); right.
    - right. lia.
    - by left. }
  generalize dependent (move_elements (V16QIm vD_field) src idx opcode 16 c). intros c1 Hlane Hvr.
  exists (increment_pc 4 c1). split; [done|]. split; [|exact Hvr].
  intros i Hi. rewrite lane_increment_pc, Hlane, (proj2 (Z.ltb_lt i 16)) by (done || lia). subst src idx. cbn beta.
  replace (i + sh - 16) with (i - (16 - sh)) by lia.
  destruct (i + sh <? 16); unfold lane; cbn [lanes V16QIm get_element vop_regno conv];
    rewrite trunc_trunc by lia; by rewrite trunc_small by (apply vr_get_range; lia).
Qed.

(** vsldoi v1,v1,v2,4. *)
Lemma execute_vsldoi_spec_witness :
  exists c', execute_vector_shift_octet (-1) (V16QIm vD_field) (V16QIm vA_field) (V16QIm vB_field)
      operand_SHB 0x1021112c (cpu_with_vr 0 0x11223344) = Ok c' /\
    lane (V16QIm vD_field) 0x1021112c c' 12 = 0x11.
Proof.
  destruct (execute_vsldoi_spec 0x1021112c (cpu_with_vr 0 0x11223344)) as (c' & H & Hl & _);
    [by apply cpu_with_vr_wf|done|].
  exists c'. split; [exact H|]. rewrite Hl by done. by vm_compute.
Defined.

(** ** Moves whose output is an input *)

Section Hazard.
Context (VD : vop) (src : Z -> vop) (idx : Z -> Z) (opcode n : Z) (c : powerpc_cpu) (w : Z) (m : bool).
Context (Hc : cpu_wf c) (HVD : vop_wf VD) (Hl : lanes VD = Some (w, m)) (Hn : 0 <= n <= n_elements VD).

Let body := fun i c => set_element VD opcode i (get_element (src i) opcode c (idx i)) c.

Lemma move_body_lane i j s V :
  cpu_wf s -> vop_wf V -> lanes V = lanes VD -> vop_regno V opcode = vop_regno VD opcode ->
  0 <= i < n -> 0 <= j < n ->
  lane V opcode (body i s) j =
    if j =? i then trunc w (get_element (src i) opcode s (idx i)) else lane V opcode s j.
Proof using Hc HVD Hl Hn.
  intros Hs HV HlV Hr Hi Hj. unfold body.
  rewrite (lane_set_element VD V opcode s i j _ w m) by (done || lia || by right).
  rewrite bool_decide_true by (by rewrite HlV, Hl). by rewrite Hr, Z.eqb_refl.
Qed.

Lemma move_body_wf i s : cpu_wf s -> 0 <= i < n -> cpu_wf (body i s).
Proof using HVD Hn. intros Hs Hi. apply set_element_wf; [done| |done]. unfold n_elements in *. lia. Qed.

(** The first element is moved from the original input. *)
Lemma move_elements_first :
  1 <= n -> lane VD opcode (move_elements VD src idx opcode n c) 0 = trunc w (get_element (src 0) opcode c (idx 0)).
Proof using Hc HVD Hl Hn.
  intros H1. unfold move_elements. fold body.
  assert (H : (fun k s => cpu_wf s /\ (if k =? 0 then s = c else
      lane VD opcode s 0 = trunc w (get_element (src 0) opcode c (idx 0)))) n (for_each n body c)).
  { apply for_each_ind; [lia|done|]. intros i s Hi [Hs Hlane]. split; [by apply move_body_wf|].
    rewrite (proj2 (Z.eqb_neq (i + 1) 0)) by lia. rewrite move_body_lane by (done || lia).
    rewrite Z.eqb_sym. destruct (Z.eqb_spec i 0) as [->|]; [by subst s|done]. }
  destruct H as [_ H]. rewrite (proj2 (Z.eqb_neq n 0)) in H by lia. exact H.
Qed.

(** An element whose source is an element of vD written before is a copy of
    the new value of that element. *)
Lemma move_elements_hazard j :
  0 <= idx j < j -> j < n -> vop_wf (src j) -> lanes (src j) = lanes VD ->
  vop_regno (src j) opcode = vop_regno VD opcode ->
  let c' := move_elements VD src idx opcode n c in
  lane VD opcode c' j = trunc w (get_element (src j) opcode c' (idx j)).
Proof using Hc HVD Hl Hn.
  intros Hidx Hj HV HlV Hr. cbn zeta. unfold move_elements. fold body.
  assert (H : (fun k s => cpu_wf s /\ (j < k ->
      lane VD opcode s j = trunc w (get_element (src j) opcode s (idx j)))) n (for_each n body c)).
  { apply for_each_ind; [lia|split; [done|lia]|]. intros i s Hi [Hs Hlane].
    split; [by apply move_body_wf|]. intros Hlt. rewrite move_body_lane by (done || lia).
    assert (Hget : i <> idx j -> get_element (src j) opcode (body i s) (idx j) = get_element (src j) opcode s (idx j)).
    { intros Hne. apply get_element_lane. rewrite move_body_lane by (done || lia).
      destruct (Z.eqb_spec (idx j) i); [lia|done]. }
    rewrite Hget by lia. destruct (Z.eqb_spec j i) as [->|]; [done|]. apply Hlane. lia. }
  apply H. lia.
Qed.
End Hazard.

(** The element loops write vD while they read it.  When vD is vB, a high
    byte merge puts byte 0 of vA, not of vB, in byte 1, and [vsldoi] by a
    non-zero count fills byte 16 - SHB from byte SHB of vA instead of byte 0
    of vB. *)
Theorem in_place_hazards opcode c :
  cpu_wf c -> extract vB_field opcode = extract vD_field opcode ->
  let VD := V16QIm vD_field in let VA := V16QIm vA_field in let VB := V16QIm vB_field in
  let sh := extract vSH_field opcode in
  (exists c', execute_vector_merge VD VA VB 0 opcode c = Ok c' /\
     lane VD opcode c' 1 = lane VA opcode c 0) /\
  (exists c', execute_vector_shift_octet (-1) VD VA VB operand_SHB opcode c = Ok c' /\
     (0 < sh -> lane VD opcode c' (16 - sh) = lane VA opcode c sh)).
Proof.
  intros Hc Halias VD VA VB sh. subst VD VA VB.
  assert (HVD : vop_wf (V16QIm vD_field)) by by apply (bool_decide_unpack _).
  assert (HVB : vop_wf (V16QIm vB_field)) by by apply (bool_decide_unpack _).
  assert (Hget : forall f s i, u8 (get_element (V16QIm f) opcode s i) = lane (V16QIm f) opcode s i).
  { intros f s i. unfold lane; cbn [lanes V16QIm get_element vop_regno conv].
    rewrite trunc_trunc by lia. by rewrite trunc_small by (apply vr_get_range; lia). }
  assert (Hsame : forall s i, lane (V16QIm vB_field) opcode s i = lane (V16QIm vD_field) opcode s i).
  { intros s i. unfold lane. cbn [lanes V16QIm vop_regno]. by rewrite Halias. }
  assert (H16 : 0 <= 16 <= n_elements (V16QIm vD_field)) by done.
  split.
  - destruct (execute_vector_merge_moves (V16QIm vD_field) (V16QIm vA_field) (V16QIm vB_field) 0
      opcode c ltac:(lia)) as (k & _ & Hk & E).
    eexists. split; [exact E|]. change (n_elements (V16QIm vD_field)) with 16.
    rewrite lane_increment_pc.
    pose proof (move_elements_hazard (V16QIm vD_field)
      (fun i => if Z.even i then V16QIm vA_field else V16QIm vB_field)
      (fun i => i / 2 + 0 * k) opcode 16 c 8 true Hc HVD eq_refl H16 1
      ltac:(change (0 <= 0 < 1); lia) ltac:(lia) HVB eq_refl Halias)
      as Hz.
    pose proof (move_elements_first (V16QIm vD_field)
      (fun i => if Z.even i then V16QIm vA_field else V16QIm vB_field)
      (fun i => i / 2 + 0 * k) opcode 16 c 8 true Hc HVD eq_refl H16 ltac:(done)) as Hf.
    cbn beta zeta in Hz, Hf. change (Z.even 1) with false in Hz. change (Z.even 0) with true in Hf.
    cbn match in Hz, Hf. rewrite Hget in Hz, Hf. rewrite Hz, Hsame. exact Hf.
  - rewrite shift_octet_left_moves. cbn zeta. change (operand_get operand_SHB c opcode) with (u32 sh).
    pose proof (extract_range vSH_field opcode ltac:(solve_bf)) as Hsh. fold sh in Hsh.
    unfold is_uint in Hsh. change (2 ^ bf_len vSH_field) with 16 in Hsh.
    rewrite (trunc_small 32 sh) by (split; lia). clearbody sh.
    set (src := fun i => if i + sh <? 16 then V16QIm vA_field else V16QIm vB_field).
    set (idx := fun i => if i + sh <? 16 then i + sh else i - (16 - sh)).
    eexists. split; [reflexivity|]. intros Hpos. rewrite lane_increment_pc.
    assert (Es : src (16 - sh) = V16QIm vB_field /\ idx (16 - sh) = 0).
    { subst src idx. cbn beta. rewrite (proj2 (Z.ltb_ge (16 - sh + sh) 16)) by lia. split; [done|lia]. }
    assert (E0 : src 0 = V16QIm vA_field /\ idx 0 = sh).
    { subst src idx. cbn beta. by rewrite (proj2 (Z.ltb_lt (0 + sh) 16)) by lia. }
    destruct Es as [Es Ei], E0 as [E0 Ei0].
    pose proof (move_elements_hazard (V16QIm vD_field) src idx opcode 16 c 8 true Hc HVD eq_refl H16
      (16 - sh)) as Hz. cbn zeta in Hz. rewrite Es, Ei, Hget in Hz.
    rewrite Hz by (done || lia). rewrite Hsame.
    pose proof (move_elements_first (V16QIm vD_field) src idx opcode 16 c 8 true Hc HVD eq_refl H16
      ltac:(done)) as Hf. by rewrite E0, Ei0, Hget in Hf.
Qed.

(** vmrghb v2,v1,v2 and vsldoi v2,v1,v2,12. *)
Lemma in_place_hazards_witness :
  (exists c', execute_vector_merge (V16QIm vD_field) (V16QIm vA_field) (V16QIm vB_field) 0 0x1041100c
      (cpu_with_vr 0x11000000 0x22000000) = Ok c' /\ lane (V16QIm vD_field) 0x1041100c c' 1 = 0x11) /\
  (exists c', execute_vector_shift_octet (-1) (V16QIm vD_field) (V16QIm vA_field) (V16QIm vB_field)
      operand_SHB 0x1041132c (cpu_with_vr (Z.shiftl 0x11 120) 0x22000000) = Ok c' /\
    lane (V16QIm vD_field) 0x1041132c c' (16 - 12) = 0x11).
Proof.
  split.
  - destruct (in_place_hazards 0x1041100c (cpu_with_vr 0x11000000 0x22000000)) as [(c' & H & E) _];
      [by apply cpu_with_vr_wf|done|].
    exists c'. split; [exact H|]. rewrite E. by vm_compute.
  - destruct (in_place_hazards 0x1041132c (cpu_with_vr (Z.shiftl 0x11 120) 0x22000000)) as [_ (c' & H & E)];
      [by apply cpu_with_vr_wf|done|].
    exists c'. split; [exact H|].
    change (16 - 12) with (16 - extract vSH_field 0x1041132c). rewrite E by by vm_compute. by vm_compute.
Defined.
