(* ===== verification/ExecSys.v ===== *)
(** The instructions of SheepShaver's own (kpx_cpu/sheepshaver_glue.cpp):
    primary opcode 6 leaves emulated code for an EMUL_OP routine, a native
    routine, or the caller of [execute]. *)
From S2P Require Import Prelude Bitfields Registers HostFPU Operations Memory Handlers BlockCache Cpu Operands ExecInt ExecMem.

(** ** Low-memory globals (include/xlowmem.h) and opcode fields *)

Definition MODE_68K := 0.
Definition MODE_NATIVE := 1.
Definition MODE_EMUL_OP := 2.
Definition XLM_RUN_MODE := 0x2810.
Definition XLM_68K_R25 := 0x2814.

Definition FN_field := BF 19 19.
Definition NATIVE_OP_field := BF 20 25.
Definition EMUL_OP_field := BF 26 31.

Definition ReadMacInt16 (addr : Z) (c : powerpc_cpu) : outcome Z := vm_read_memory_2 (mem c) addr.
Definition ReadMacInt32 (addr : Z) (c : powerpc_cpu) : outcome Z := vm_read_memory_4 (mem c) addr.
Definition WriteMacInt16 (addr v : Z) : powerpc_cpu -> outcome powerpc_cpu :=
  cpu_write (vm_write_memory_2 addr v).
Definition WriteMacInt32 (addr v : Z) : powerpc_cpu -> outcome powerpc_cpu :=
  cpu_write (vm_write_memory_4 addr v).

(** [gpr(base + i) = l[i]] and [l[i] = gpr(base + i)] for [i < n]. *)
Definition load_gprs (base : Z) (n : nat) (l : list Z) (c : powerpc_cpu) : powerpc_cpu :=
  foldl (fun c i => set_gpr (base + i) (Zlookup l i) c) c (count_up n).
Definition read_gprs (base : Z) (n : nat) (c : powerpc_cpu) : list Z :=
  (fun i => gpr c (base + i)) <$> count_up n.

Section Exec.
Context {HOST : Host}.

Definition execute_emul_op (emul_op : Z) (c : powerpc_cpu) : outcome powerpc_cpu :=
  c ← WriteMacInt32 XLM_68K_R25 (gpr c 25) c;
  c ← WriteMacInt32 XLM_RUN_MODE MODE_EMUL_OP c;
  let r68 := R68 (read_gprs 8 8 c) (read_gprs 16 7 c ++ [gpr c 1]) in
  let saved_cr := Z.land (cr c) 0xff9fffff in
  let saved_xer := xer_get (xer c) in
  '(r68, c) ← EmulOp r68 (gpr c 24) emul_op c;
  let c := set_xer (xer_set saved_xer) (set_cr saved_cr c) in
  let c := load_gprs 16 7 (r68_a r68) (load_gprs 8 8 (r68_d r68) c) in
  let c := set_gpr 1 (Zlookup (r68_a r68) 7) c in
  WriteMacInt32 XLM_RUN_MODE MODE_68K c.

Definition execute_sheep (opcode : Z) (c : powerpc_cpu) : outcome powerpc_cpu :=
  let k := Z.land opcode 0x3f in
  if k =? 0 then Quit
  else if k =? 1 then Ok (set_spcflags (spcflags_set SPCFLAG_CPU_EXEC_RETURN (spcflags c)) c)
  else if k =? 2 then
    c ← execute_native_op (extract NATIVE_OP_field opcode) c;
    Ok (if test FN_field opcode then set_pc (lr c) c else increment_pc 4 c)
  else
    c ← execute_emul_op (u32 (extract EMUL_OP_field opcode - 3)) c;
    Ok (increment_pc 4 c).
End Exec.

(** ** Register transfers *)

Lemma load_gprs_S base n l c :
  load_gprs base (S n) l c = set_gpr (base + Z.of_nat n) (Zlookup l (Z.of_nat n)) (load_gprs base n l c).
Proof. unfold load_gprs, count_up. by rewrite seq_S, fmap_app, foldl_app. Qed.

Lemma load_gprs_inv base n l c (P : powerpc_cpu -> Prop) :
  P c -> (forall i c, 0 <= i < Z.of_nat n -> P c -> P (set_gpr (base + i) (Zlookup l i) c)) ->
  P (load_gprs base n l c).
Proof.
  intros H0 Hs. unfold load_gprs. apply foldl_invariant; [|done]. intros i c' Hi. apply Hs.
  by apply elem_of_count_up.
Qed.

(** The state with another register file. *)
Definition set_gprs (g : list Z) : powerpc_cpu -> powerpc_cpu := with_regs (fun r =>
  Regs g (r_fpr r) (r_vr r) (r_cr r) (r_xer r) (r_vscr r) (r_vrsave r)
    (r_fpscr r) (r_lr r) (r_ctr r) (r_pc r) (r_spcflags r) (r_reserve_valid r) (r_reserve_addr r)).

Lemma load_gprs_frame base n l c : exists g, load_gprs base n l c = set_gprs g c.
Proof.
  apply (load_gprs_inv base n l c (fun c' => exists g, c' = set_gprs g c)).
  - exists (r_gpr (regs c)). by destruct c as [[]].
  - intros i c' _ [g ->]. by eexists.
Qed.

Lemma load_gprs_gpr base n l c i :
  length (r_gpr (regs c)) = 32%nat -> 0 <= base -> base + Z.of_nat n <= 32 -> 0 <= i <= 31 ->
  length (r_gpr (regs (load_gprs base n l c))) = 32%nat /\
  gpr (load_gprs base n l c) i =
    if (base <=? i) && (i <? base + Z.of_nat n) then Zlookup l (i - base) else gpr c i.
Proof.
  intros Hc Hb. revert i. induction n as [|n IH]; intros i Hn Hi.
  { split; [done|]. destruct (Z.leb_spec base i), (Z.ltb_spec i (base + Z.of_nat 0)); done || lia. }
  rewrite load_gprs_S. destruct (IH i) as [Hl Hg]; [lia..|]. split.
  { simpl_cpu. by rewrite length_Zinsert. }
  unfold gpr at 1. cbn [set_gpr with_regs regs r_gpr].
  destruct (decide (i = base + Z.of_nat n)) as [->|Hne].
  - rewrite Zlookup_insert_eq by lia.
    destruct (Z.leb_spec base (base + Z.of_nat n)); [|lia].
    destruct (Z.ltb_spec (base + Z.of_nat n) (base + Z.of_nat (S n))); [|lia]. cbn. f_equal. lia.
  - rewrite Zlookup_insert_ne by lia. fold (gpr (load_gprs base n l c) i). rewrite Hg.
    destruct (Z.ltb_spec i (base + Z.of_nat n)), (Z.ltb_spec i (base + Z.of_nat (S n))); done || lia.
Qed.

(** The 68k registers in the register file: D0-D7 in r8-r15, A0-A6 in r16-r22. *)
Lemma load_68k_gpr d a c i :
  length (r_gpr (regs c)) = 32%nat -> 0 <= i <= 31 ->
  let c' := load_gprs 16 7 a (load_gprs 8 8 d c) in
  length (r_gpr (regs c')) = 32%nat /\
  gpr c' i = if (8 <=? i) && (i <=? 15) then Zlookup d (i - 8)
             else if (16 <=? i) && (i <=? 22) then Zlookup a (i - 16)
             else gpr c i.
Proof.
  intros Hl Hi. cbn zeta.
  destruct (load_gprs_gpr 8 8 d c i Hl) as [Hl1 Hd]; [lia..|].
  destruct (load_gprs_gpr 16 7 a (load_gprs 8 8 d c) i Hl1) as [Hl2 Ha]; [lia..|].
  split; [done|]. rewrite Ha, Hd. change (8 + Z.of_nat 8) with 16. change (16 + Z.of_nat 7) with 23.
  destruct (Z.leb_spec 8 i), (Z.leb_spec i 15), (Z.leb_spec 16 i), (Z.leb_spec i 22),
    (Z.ltb_spec i 16), (Z.ltb_spec i 23); cbn [andb]; done || lia.
Qed.

Lemma load_68k_frame d a c : exists g, load_gprs 16 7 a (load_gprs 8 8 d c) = set_gprs g c.
Proof.
  destruct (load_gprs_frame 8 8 d c) as [g1 ->].
  destruct (load_gprs_frame 16 7 a (set_gprs g1 c)) as [g2 ->]. by exists g2.
Qed.

Lemma load_gprs_wf base n l c :
  cpu_wf c -> Forall (is_uint 32) l -> (n <= length l)%nat -> cpu_wf (load_gprs base n l c).
Proof.
  intros Hc Hl Hn. apply load_gprs_inv; [done|]. intros i c' Hi Hc'. apply set_gpr_wf; [done|].
  apply (Forall_Zlookup (is_uint 32)); [done|]. lia.
Qed.

Lemma read_gprs_wf base n c :
  cpu_wf c -> 0 <= base -> base + Z.of_nat n <= 32 -> Forall (is_uint 32) (read_gprs base n c).
Proof.
  intros Hc Hb Hn. apply Forall_fmap, Forall_forall. intros i Hi%elem_of_count_up. cbn.
  apply gpr_range; [done|lia].
Qed.

(** ** Well-formedness *)

Lemma WriteMacInt32_be a v c :
  WriteMacInt32 a v c = (m ← store_be 4 a v (mem c); Ok (set_mem m c)).
Proof.
  unfold WriteMacInt32, cpu_write, vm_write_memory_4. by rewrite vm_do_write_memory_4_be.
Qed.
Lemma WriteMacInt32_wf a v c : cpu_wf c -> outcome_holds cpu_wf (WriteMacInt32 a v c).
Proof. intros. apply cpu_write_wf; [done|]. apply vm_write_memory_4_wf. Qed.
Lemma WriteMacInt16_wf a v c : cpu_wf c -> outcome_holds cpu_wf (WriteMacInt16 a v c).
Proof. intros. apply cpu_write_wf; [done|]. apply vm_write_memory_2_wf. Qed.
Lemma WriteMacInt32_wf_depth a v c :
  cpu_wf c ->
  outcome_holds (fun c' => cpu_wf c' /\ execute_depth c' = execute_depth c) (WriteMacInt32 a v c).
Proof.
  intros Hc. pose proof (WriteMacInt32_wf a v c Hc) as H. unfold WriteMacInt32, cpu_write in *.
  by destruct (vm_write_memory_4 a v (mem c)).
Qed.
Lemma ReadMacInt32_range a c : cpu_wf c -> outcome_holds (is_uint 32) (ReadMacInt32 a c).
Proof. intros [_ ?]. by apply vm_read_memory_4_range. Qed.
Lemma ReadMacInt16_range a c : cpu_wf c -> outcome_holds (is_uint 16) (ReadMacInt16 a c).
Proof. intros [_ ?]. by apply vm_read_memory_2_range. Qed.

Lemma r68_args_wf c :
  cpu_wf c -> r68_wf (R68 (read_gprs 8 8 c) (read_gprs 16 7 c ++ [gpr c 1])).
Proof.
  intros Hc. split_and!; cbn [r68_d r68_a]; try done.
  - by apply read_gprs_wf.
  - apply Forall_app. split; [by apply read_gprs_wf|]. apply Forall_singleton. by apply gpr_range.
Qed.

Section Wf.
Context {HOST : Host} {HL : HostLaws HOST}.

Lemma execute_emul_op_wf op c :
  cpu_wf c -> 1 <= execute_depth c -> outcome_holds cpu_wf (execute_emul_op op c).
Proof using HL.
  intros Hc Hd0. unfold execute_emul_op.
  eapply outcome_holds_bind; [by apply WriteMacInt32_wf_depth|intros c1 [H1 E1]].
  eapply outcome_holds_bind; [by apply WriteMacInt32_wf_depth|intros c2 [H2 E2]]. cbn zeta.
  eapply outcome_holds_bind; [apply EmulOp_wf; [by apply r68_args_wf|exact H2|lia]|].
  intros [r' c3] [(Hd & Ha & Ld & La) H3]. apply WriteMacInt32_wf.
  assert (is_uint 32 (Zlookup (r68_a r') 7)) by (apply (Forall_Zlookup (is_uint 32)); [done|lia]).
  apply set_gpr_wf; [|done].
  assert (cpu_wf (set_xer (xer_set (xer_get (xer c2))) (set_cr (Z.land (cr c2) 0xff9fffff) c3)))
    as H4 by wf.
  apply load_gprs_inv; [apply load_gprs_wf; [done..|lia]|].
  intros i c' Hi Hc'. apply set_gpr_wf; [done|].
  apply (Forall_Zlookup (is_uint 32)); [done|lia].
Qed.

Lemma execute_sheep_wf op c :
  cpu_wf c -> 1 <= execute_depth c -> outcome_holds cpu_wf (execute_sheep op c).
Proof using HL.
  intros Hc Hd. unfold execute_sheep. cbn zeta.
  destruct (_ =? 0); [done|]. destruct (_ =? 1); [by apply set_spcflags_wf|].
  destruct (_ =? 2); (apply (outcome_holds_bind cpu_wf); [|intros c' Hc'; cbn; wf]).
  - by apply execute_native_op_wf.
  - by apply execute_emul_op_wf.
Qed.
End Wf.

(** ** The EMUL_OP protocol *)

Lemma extract_EMUL_OP opcode : is_uint 32 opcode -> extract EMUL_OP_field opcode = Z.land opcode 0x3f.
Proof.
  intros Hop. change 0x3f with (Z.ones 6). apply Z.bits_inj'; intros i Hi.
  rewrite testbit_extract by solve_bf. unfold bf_len; cbn. push_testbit. split_cmp; close_bits.
Qed.

(** C11: An EMUL_OP instruction runs the routine with the 68k registers of the
    emulated machine (D0-D7 in r8-r15, A0-A6 in r16-r22, A7 in r1), with the
    run mode and the 68k interrupt level published in low memory; the
    registers the routine returns go back to the same places, XER and CR
    (less the two bits 9 and 10) are as before whatever the routine did to
    them, the run mode is 68k again and execution continues at the next
    instruction. *)
Theorem execute_emul_op_spec `{HOST : Host} opcode c m1 m2 r' c2 :
  cpu_wf c -> is_uint 32 opcode -> 3 <= Z.land opcode 0x3f ->
  store_be 4 XLM_68K_R25 (gpr c 25) (mem c) = Ok m1 ->
  store_be 4 XLM_RUN_MODE MODE_EMUL_OP m1 = Ok m2 ->
  EmulOp (R68 (read_gprs 8 8 c) (read_gprs 16 7 c ++ [gpr c 1])) (gpr c 24)
    (Z.land opcode 0x3f - 3) (set_mem m2 c) = Ok (r', c2) ->
  cpu_wf c2 -> mapped 4 XLM_RUN_MODE (mem c2) ->
  exists c', execute_sheep opcode c = Ok c' /\
    (forall i, 0 <= i <= 31 -> gpr c' i =
       if i =? 1 then Zlookup (r68_a r') 7
       else if (8 <=? i) && (i <=? 15) then Zlookup (r68_d r') (i - 8)
       else if (16 <=? i) && (i <=? 22) then Zlookup (r68_a r') (i - 16)
       else gpr c2 i) /\
    cr c' = Z.land (cr c) 0xff9fffff /\ xer c' = xer c /\
    pc c' = u32 (pc c2 + 4) /\ lr c' = lr c2 /\ ctr c' = ctr c2 /\
    load_be 4 (mem c') XLM_RUN_MODE = Ok MODE_68K.
Proof.
  intros Hc Hop Hk Hm1 Hm2 HE Hc2 Hmap. set (k := Z.land opcode 0x3f) in *.
  assert (Hk3 : u32 (k - 3) = k - 3).
  { apply trunc_small. assert (is_uint 32 k) by (by apply is_uint_land_l). unfold is_uint in *. lia. }
  unfold execute_sheep, execute_emul_op. fold k. rewrite extract_EMUL_OP by done. fold k.
  rewrite Hk3, !WriteMacInt32_be, Hm1. cbn [mbind outcome_bind].
  rewrite WriteMacInt32_be. cbn [mem set_mem]. rewrite Hm2. cbn [mbind outcome_bind].
  destruct (Z.eqb_spec k 0), (Z.eqb_spec k 1), (Z.eqb_spec k 2); try lia.
  change (set_mem m2 (set_mem m1 c)) with (set_mem m2 c).
  change (read_gprs ?b ?n (set_mem m2 c)) with (read_gprs b n c).
  change (gpr (set_mem m2 c) ?i) with (gpr c i). rewrite HE. cbn [mbind outcome_bind].
  change (xer (set_mem m2 c)) with (xer c). rewrite (xer_set_get (xer c)) by (by apply xer_range).
  change (cr (set_mem m2 c)) with (cr c).
  set (c3 := set_xer _ (set_cr _ c2)).
  assert (Hl3 : length (r_gpr (regs c3)) = 32%nat) by apply Hc2.
  pose proof (load_68k_gpr (r68_d r') (r68_a r') c3) as Hg.
  destruct (load_68k_frame (r68_d r') (r68_a r') c3) as [g E]. cbn zeta in Hg. rewrite E in *.
  destruct (store_be_total 4 XLM_RUN_MODE MODE_68K (mem c2) Hmap) as [m3 Hm3].
  eexists. split.
  { rewrite WriteMacInt32_be. change (mem (set_gpr _ _ _)) with (mem c2). rewrite Hm3. reflexivity. }
  split_and!; try reflexivity; [|exact (load_store_be _ _ _ _ _ Hm3)].
  intros i Hi. destruct (Hg i Hl3 Hi) as [Hl Hgi].
  transitivity (gpr (set_gpr 1 (Zlookup (r68_a r') 7) (set_gprs g c3)) i); [done|].
  unfold gpr at 1. cbn [set_gpr with_regs regs r_gpr].
  destruct (Z.eqb_spec i 1) as [->|]; [by apply Zlookup_insert_eq; rewrite Hl|].
  rewrite Zlookup_insert_ne by lia. exact Hgi.
Qed.

(** A host whose EMUL_OP routines return their number in D0 and clobber CR. *)
Definition emul_op_host : Host := {|
  ignoreillegal := false; PVR := 0x000c0000; TimebaseSpeed := 25000000;
  GetTicks_usec n := u64 n; uninit := 0; uninit_registers := zero_registers;
  EmulOp r _ op c := Ok (R68 (Zinsert 0 op (r68_d r)) (r68_a r), set_cr 0 c);
  execute_native_op _ c := Ok c;
  HandleInterrupt r c := Ok (r, c);
|}.

Definition low_mem : memory := bytes_at 0x2810 (replicate 8 0).
Definition emul_op_cpu : powerpc_cpu := set_cr 0xffffffff (set_gpr 22 7 (cpu_init low_mem)).

Lemma emul_op_cpu_wf m : mem_wf m -> cpu_wf (set_cr 0xffffffff (set_gpr 22 7 (cpu_init m))).
Proof.
  intros Hm%cpu_init_wf. generalize dependent (cpu_init m). intros c Hc.
  assert (is_uint 32 0xffffffff /\ is_uint 32 7) as [? ?] by done. wf.
Qed.

Lemma low_mem_wf : mem_wf low_mem.
Proof. by apply bytes_at_wf, Forall_replicate. Qed.

Lemma execute_emul_op_spec_witness :
  exists c', execute_sheep (HOST := emul_op_host) 0x18000009 emul_op_cpu = Ok c' /\
    gpr c' 8 = 6 /\ gpr c' 22 = 7 /\ cr c' = 0xff9fffff /\ pc c' = 4.
Proof.
  pose (m2 := bytes_at 0x2810 [0; 0; 0; 2; 0; 0; 0; 0]).
  destruct (execute_emul_op_spec (HOST := emul_op_host) 0x18000009 emul_op_cpu low_mem m2
    (R68 [6; 0; 0; 0; 0; 0; 0; 0] [0; 0; 0; 0; 0; 0; 7; 0])
    (set_cr 0 (set_mem m2 emul_op_cpu))) as (c' & H & Hg & Hcr & _ & Hpc & _);
    try by vm_compute.
  - apply emul_op_cpu_wf, low_mem_wf.
  - apply (set_cr_wf (set_mem m2 emul_op_cpu)); [|done].
    apply set_mem_wf; [apply emul_op_cpu_wf, low_mem_wf|].
    apply bytes_at_wf. by repeat constructor.
  - intros i Hi. assert (Hl : i ∈ dom m2); [|by apply elem_of_dom in Hl].
    assert (i = 0x2810 \/ i = 0x2811 \/ i = 0x2812 \/ i = 0x2813) as [-> | [-> | [-> | -> ]]]
      by (unfold XLM_RUN_MODE in Hi; lia); by apply elem_of_dom; eexists.
  - exists c'. split; [exact H|]. rewrite !Hg, Hcr, Hpc by done. by vm_compute.
Defined.
