(* ===== verification/Dispatch.v ===== *)
(** From the decode table's entries to the handlers: what calling
    [ii->execute] does (the pointers to member functions that the [EXECUTE_*]
    macros of kpx_cpu/src/cpu/ppc/ppc-decode.cpp build). *)
From S2P Require Import Prelude Bitfields Registers HostFPU Operations Memory Handlers BlockCache Cpu Operands ExecInt ExecMem ExecFP ExecVec ExecSys.

Section Run.
Context {FPU : HostFPU} {HOST : Host}.

Definition run_handler (h : handler) : Z -> powerpc_cpu -> outcome powerpc_cpu :=
  match h with
  | execute_illegal_h => execute_illegal
  | execute_nop_h => execute_nop
  | execute_addition_h RA RB RC CA OE Rc => execute_addition RA RB RC CA OE Rc
  | execute_generic_arith_h OP RD RA RB RC OE Rc => execute_generic_arith OP RD RA RB RC OE Rc
  | execute_rlwimi_h SH MA Rc => execute_rlwimi SH MA Rc
  | execute_shift_h OP RD RA SH SO CA Rc => execute_shift OP RD RA SH SO CA Rc
  | execute_branch_h PC BO DP AA LK => execute_branch PC BO DP AA LK
  | execute_compare_h RB CT => execute_compare RB CT
  | execute_cr_op_h OP => execute_cr_op OP
  | execute_divide_h SB OE Rc => execute_divide SB OE Rc
  | execute_multiply_h HI SB OE Rc => execute_multiply HI SB OE Rc
  | execute_fp_arith_h FP OP RD RA RB RC Rc FPSCR => execute_fp_arith FP OP RD RA RB RC Rc FPSCR
  | execute_loadstore_h OP RA RB LD SZ UP RX => execute_loadstore OP RA RB LD SZ UP RX
  | execute_loadstore_multiple_h RA DP LD => execute_loadstore_multiple RA DP LD
  | execute_fp_loadstore_h RA RB LD DB UP => execute_fp_loadstore RA RB LD DB UP
  | execute_load_string_h RA IM NB => execute_load_string RA IM NB
  | execute_store_string_h RA IM NB => execute_store_string RA IM NB
  | execute_lwarx_h RA => execute_lwarx RA
  | execute_stwcx_h RA => execute_stwcx RA
  | execute_fp_compare_h OC => execute_fp_compare OC
  | execute_fp_int_convert_h RN Rc => execute_fp_int_convert RN Rc
  | execute_fp_round_h Rc => execute_fp_round Rc
  | execute_syscall_h => execute_syscall
  | execute_mcrf_h => execute_mcrf
  | execute_mcrfs_h => execute_mcrfs
  | execute_mcrxr_h => execute_mcrxr
  | execute_mtcrf_h => execute_mtcrf
  | execute_mtfsf_h FM RB Rc => execute_mtfsf FM RB Rc
  | execute_mtfsfi_h RB Rc => execute_mtfsfi RB Rc
  | execute_mtfsb_h RB Rc => execute_mtfsb RB Rc
  | execute_mffs_h Rc => execute_mffs Rc
  | execute_mfmsr_h => execute_mfmsr
  | execute_mfspr_h SPR => execute_mfspr SPR
  | execute_mtspr_h SPR => execute_mtspr SPR
  | execute_mftbr_h TBR => execute_mftbr TBR
  | execute_icbi_h RA RB => execute_icbi RA RB
  | execute_isync_h => execute_isync
  | execute_dcbz_h RA RB => execute_dcbz RA RB
  | execute_vector_load_for_shift_h SL => execute_vector_load_for_shift SL
  | execute_vector_load_h VD RA RB => execute_vector_load VD RA RB
  | execute_vector_store_h VS RA RB => execute_vector_store VS RA RB
  | execute_vector_arith_h OP VD VA VB VC Rc C1 => execute_vector_arith OP VD VA VB VC Rc C1
  | execute_vector_arith_mixed_h OP VD VA VB VC => execute_vector_arith_mixed OP VD VA VB VC
  | execute_vector_arith_odd_h ODD OP VD VA VB VC => execute_vector_arith_odd ODD OP VD VA VB VC
  | execute_vector_merge_h VD VA VB LO => execute_vector_merge VD VA VB LO
  | execute_vector_pack_h VD VA VB => execute_vector_pack VD VA VB
  | execute_vector_unpack_h LO VD VA => execute_vector_unpack LO VD VA
  | execute_vector_pack_pixel_h => execute_vector_pack_pixel
  | execute_vector_unpack_pixel_h LO => execute_vector_unpack_pixel LO
  | execute_vector_shift_h SD => execute_vector_shift SD
  | execute_vector_shift_octet_h SD VD VA VB SH => execute_vector_shift_octet SD VD VA VB SH
  | execute_vector_splat_h OP VD VB IM => execute_vector_splat OP VD VB IM
  | execute_vector_sum_h SZ VD VA VB => execute_vector_sum SZ VD VA VB
  | execute_vector_permute_h => execute_vector_permute
  | execute_mfvscr_h => execute_mfvscr
  | execute_mtvscr_h => execute_mtvscr
  | execute_sheep_h => execute_sheep
  end.
End Run.

(** ** Well-formed entries and states *)

(** The vector operands a handler writes through fit their registers. *)
Definition handler_ok (h : handler) : bool :=
  match h with
  | execute_vector_load_h VD _ _ | execute_vector_arith_h _ VD _ _ _ _ _
  | execute_vector_arith_mixed_h _ VD _ _ _ | execute_vector_arith_odd_h _ _ VD _ _ _
  | execute_vector_merge_h VD _ _ _ | execute_vector_pack_h VD _ _ | execute_vector_unpack_h _ VD _
  | execute_vector_splat_h _ VD _ _ => bool_decide (vop_wf VD)
  | execute_vector_shift_octet_h _ VD _ _ _ => bool_decide (vop_wf VD) && (n_elements VD =? 16)
  | execute_vector_sum_h _ VD _ _ => bool_decide (vop_wf VD) && (n_elements VD =? 4)
  | _ => true
  end.

Create HintDb handlers.
#[local] Hint Constants Opaque : handlers.
#[local] Hint Variables Opaque : handlers.

Section Wf.
Context {FPU : HostFPU} {FL : HostFPULaws FPU} {HOST : Host} {HL : HostLaws HOST}.

Lemma execute_nop_wf op c : cpu_wf c -> outcome_holds cpu_wf (execute_nop op c).
Proof using. intros. unfold execute_nop. cbn [outcome_holds]. wf. Qed.

#[local] Hint Resolve execute_nop_wf execute_illegal_wf execute_addition_wf execute_generic_arith_wf
  execute_rlwimi_wf execute_shift_wf execute_branch_wf execute_compare_wf execute_cr_op_wf
  execute_divide_wf execute_multiply_wf execute_fp_arith_wf execute_loadstore_wf
  execute_loadstore_multiple_wf execute_fp_loadstore_wf execute_load_string_wf
  execute_store_string_wf execute_lwarx_wf execute_stwcx_wf execute_fp_compare_wf
  execute_fp_int_convert_wf execute_fp_round_wf execute_syscall_wf execute_mcrf_wf execute_mcrfs_wf
  execute_mcrxr_wf execute_mtcrf_wf execute_mtfsf_wf execute_mtfsfi_wf execute_mtfsb_wf
  execute_mffs_wf execute_mfmsr_wf execute_mfspr_wf execute_mtspr_wf execute_mftbr_wf
  execute_icbi_wf execute_isync_wf execute_dcbz_wf execute_vector_load_for_shift_wf
  execute_vector_load_wf execute_vector_store_wf execute_vector_arith_wf
  execute_vector_arith_mixed_wf execute_vector_arith_odd_wf execute_vector_merge_wf
  execute_vector_pack_wf execute_vector_unpack_wf execute_vector_pack_pixel_wf
  execute_vector_unpack_pixel_wf execute_vector_shift_wf execute_vector_shift_octet_wf
  execute_vector_splat_wf execute_vector_sum_wf execute_vector_permute_wf execute_mfvscr_wf
  execute_mtvscr_wf execute_sheep_wf : handlers.

Lemma run_handler_wf h op c :
  handler_ok h = true -> cpu_wf c -> 1 <= execute_depth c ->
  outcome_holds cpu_wf (run_handler h op c).
Proof using FL HL.
  intros Hh Hc Hd. destruct h; cbn [handler_ok] in Hh; cbn [run_handler];
    try (apply andb_prop in Hh as [Hh Hn%Z.eqb_eq]);
    try (apply bool_decide_eq_true in Hh);
    auto with handlers nocore.
Qed.
End Wf.
