(* ===== verification/DecodeTable.v ===== *)
(** The decode table (kpx_cpu/src/cpu/ppc/ppc-decode.cpp,
    [powerpc_ii_table]), entry by entry and in the order of the source.  The
    chunks keep the definitions readable; [powerpc_ii_table] is their
    concatenation. *)
From S2P Require Import Prelude Bitfields Operations Handlers.

#[local] Open Scope string_scope.
#[local] Open Scope Z_scope.

Definition ii_table_1 : list instr_info := [
  II "invalid" (execute_illegal_h)
    INVALID_form 0 0 CFLOW_TRAP;
  II "add" (execute_addition_h operand_RA operand_RB operand_NONE CA_BIT_0 OE_BIT_G RC_BIT_G)
    XO_form 31 266 CFLOW_NORMAL;
  II "addc" (execute_addition_h operand_RA operand_RB operand_NONE CA_BIT_1 OE_BIT_G RC_BIT_G)
    XO_form 31 10 CFLOW_NORMAL;
  II "adde" (execute_addition_h operand_RA operand_RB operand_XER_CA CA_BIT_1 OE_BIT_G RC_BIT_G)
    XO_form 31 138 CFLOW_NORMAL;
  II "addi" (execute_addition_h operand_RA_or_0 operand_SIMM operand_NONE CA_BIT_0 OE_BIT_0 RC_BIT_0)
    D_form 14 0 CFLOW_NORMAL;
  II "addic" (execute_addition_h operand_RA operand_SIMM operand_NONE CA_BIT_1 OE_BIT_0 RC_BIT_0)
    D_form 12 0 CFLOW_NORMAL;
  II "addic." (execute_addition_h operand_RA operand_SIMM operand_NONE CA_BIT_1 OE_BIT_0 RC_BIT_1)
    D_form 13 0 CFLOW_NORMAL;
  II "addis" (execute_addition_h operand_RA_or_0 operand_SIMM_shifted operand_NONE CA_BIT_0 OE_BIT_0 RC_BIT_0)
    D_form 15 0 CFLOW_NORMAL;
  II "addme" (execute_addition_h operand_RA operand_MINUS_ONE operand_XER_CA CA_BIT_1 OE_BIT_G RC_BIT_G)
    XO_form 31 234 CFLOW_NORMAL;
  II "addze" (execute_addition_h operand_RA operand_ZERO operand_XER_CA CA_BIT_1 OE_BIT_G RC_BIT_G)
    XO_form 31 202 CFLOW_NORMAL;
  II "and" (execute_generic_arith_h Op_and operand_RA operand_RS operand_RB operand_NONE OE_BIT_0 RC_BIT_G)
    X_form 31 28 CFLOW_NORMAL;
  II "andc" (execute_generic_arith_h Op_andc operand_RA operand_RS operand_RB operand_NONE OE_BIT_0 RC_BIT_G)
    X_form 31 60 CFLOW_NORMAL;
  II "andi." (execute_generic_arith_h Op_and operand_RA operand_RS operand_UIMM operand_NONE OE_BIT_0
      RC_BIT_1)
    D_form 28 0 CFLOW_NORMAL;
  II "andis." (execute_generic_arith_h Op_and operand_RA operand_RS operand_UIMM_shifted operand_NONE
      OE_BIT_0 RC_BIT_1)
    D_form 29 0 CFLOW_NORMAL;
  II "b" (execute_branch_h operand_PC (immediate_value (BO_MAKE false false false false)) operand_LI
      AA_BIT_G LK_BIT_G)
    I_form 18 0 CFLOW_BRANCH;
  II "bc" (execute_branch_h operand_PC operand_BO operand_BD AA_BIT_G LK_BIT_G)
    B_form 16 0 CFLOW_BRANCH;
  II "bcctr" (execute_branch_h operand_CTR operand_BO operand_ZERO AA_BIT_0 LK_BIT_G)
    XL_form 19 528 CFLOW_BRANCH;
  II "bclr" (execute_branch_h operand_LR operand_BO operand_ZERO AA_BIT_0 LK_BIT_G)
    XL_form 19 16 CFLOW_BRANCH;
  II "cmp" (execute_compare_h operand_RB int32)
    X_form 31 0 CFLOW_NORMAL;
  II "cmpi" (execute_compare_h operand_SIMM int32)
    D_form 11 0 CFLOW_NORMAL;
  II "cmpl" (execute_compare_h operand_RB uint32)
    X_form 31 32 CFLOW_NORMAL;
  II "cmpli" (execute_compare_h operand_UIMM uint32)
    D_form 10 0 CFLOW_NORMAL;
  II "cntlzw" (execute_generic_arith_h Op_cntlzw operand_RA operand_RS operand_NONE operand_NONE OE_BIT_0
      RC_BIT_G)
    X_form 31 26 CFLOW_NORMAL;
  II "crand" (execute_cr_op_h Op_and)
    XL_form 19 257 CFLOW_NORMAL;
  II "crandc" (execute_cr_op_h Op_andc)
    XL_form 19 129 CFLOW_NORMAL;
  II "creqv" (execute_cr_op_h Op_eqv)
    XL_form 19 289 CFLOW_NORMAL;
  II "crnand" (execute_cr_op_h Op_nand)
    XL_form 19 225 CFLOW_NORMAL;
  II "crnor" (execute_cr_op_h Op_nor)
    XL_form 19 33 CFLOW_NORMAL;
  II "cror" (execute_cr_op_h Op_or)
    XL_form 19 449 CFLOW_NORMAL
].

Definition ii_table_2 : list instr_info := [
  II "crorc" (execute_cr_op_h Op_orc)
    XL_form 19 417 CFLOW_NORMAL;
  II "crxor" (execute_cr_op_h Op_xor)
    XL_form 19 193 CFLOW_NORMAL;
  II "dcba" (execute_nop_h)
    X_form 31 758 CFLOW_NORMAL;
  II "dcbf" (execute_nop_h)
    X_form 31 86 CFLOW_NORMAL;
  II "dcbi" (execute_nop_h)
    X_form 31 470 CFLOW_NORMAL;
  II "dcbst" (execute_nop_h)
    X_form 31 54 CFLOW_NORMAL;
  II "dcbt" (execute_nop_h)
    X_form 31 278 CFLOW_NORMAL;
  II "dcbtst" (execute_nop_h)
    X_form 31 246 CFLOW_NORMAL;
  II "dcbz" (execute_dcbz_h operand_RA_or_0 operand_RB)
    X_form 31 1014 CFLOW_NORMAL;
  II "divw" (execute_divide_h true OE_BIT_G RC_BIT_G)
    XO_form 31 491 CFLOW_NORMAL;
  II "divwu" (execute_divide_h false OE_BIT_G RC_BIT_G)
    XO_form 31 459 CFLOW_NORMAL;
  II "dss" (execute_nop_h)
    X_form 31 822 CFLOW_NORMAL;
  II "dst" (execute_nop_h)
    X_form 31 342 CFLOW_NORMAL;
  II "dstst" (execute_nop_h)
    X_form 31 374 CFLOW_NORMAL;
  II "eciwx" (execute_nop_h)
    X_form 31 310 CFLOW_NORMAL;
  II "ecowx" (execute_nop_h)
    X_form 31 438 CFLOW_NORMAL;
  II "eieio" (execute_nop_h)
    X_form 31 854 CFLOW_NORMAL;
  II "eqv" (execute_generic_arith_h Op_eqv operand_RA operand_RS operand_RB operand_NONE OE_BIT_0 RC_BIT_G)
    X_form 31 284 CFLOW_NORMAL;
  II "extsb" (execute_generic_arith_h Op_sign_extend_8_32 operand_RA operand_RS operand_NONE operand_NONE
      OE_BIT_0 RC_BIT_G)
    X_form 31 954 CFLOW_NORMAL;
  II "extsh" (execute_generic_arith_h Op_sign_extend_16_32 operand_RA operand_RS operand_NONE
      operand_NONE OE_BIT_0 RC_BIT_G)
    X_form 31 922 CFLOW_NORMAL;
  II "fabs" (execute_fp_arith_h fp_double op_fabs operand_fp_RD operand_fp_RB operand_fp_NONE
      operand_fp_NONE RC_BIT_G false)
    X_form 63 264 CFLOW_NORMAL;
  II "fadd" (execute_fp_arith_h fp_double op_fadd operand_fp_RD operand_fp_RA operand_fp_RB
      operand_fp_NONE RC_BIT_G true)
    A_form 63 21 CFLOW_NORMAL;
  II "fadds" (execute_fp_arith_h fp_float op_fadd operand_fp_RD operand_fp_RA operand_fp_RB
      operand_fp_NONE RC_BIT_G true)
    A_form 59 21 CFLOW_NORMAL;
  II "fcmpo" (execute_fp_compare_h true)
    X_form 63 32 CFLOW_NORMAL;
  II "fcmpu" (execute_fp_compare_h false)
    X_form 63 0 CFLOW_NORMAL;
  II "fctiw" (execute_fp_int_convert_h operand_FPSCR_RN RC_BIT_G)
    X_form 63 14 CFLOW_NORMAL;
  II "fctiwz" (execute_fp_int_convert_h operand_ONE RC_BIT_G)
    X_form 63 15 CFLOW_NORMAL;
  II "fdiv" (execute_fp_arith_h fp_double op_fdiv operand_fp_RD operand_fp_RA operand_fp_RB
      operand_fp_NONE RC_BIT_G true)
    A_form 63 18 CFLOW_NORMAL;
  II "fdivs" (execute_fp_arith_h fp_float op_fdiv operand_fp_RD operand_fp_RA operand_fp_RB
      operand_fp_NONE RC_BIT_G true)
    A_form 59 18 CFLOW_NORMAL
].

Definition ii_table_3 : list instr_info := [
  II "fmadd" (execute_fp_arith_h fp_double op_fmadd operand_fp_RD operand_fp_RA operand_fp_RC
      operand_fp_RB RC_BIT_G true)
    A_form 63 29 CFLOW_NORMAL;
  II "fmadds" (execute_fp_arith_h fp_float op_fmadd operand_fp_RD operand_fp_RA operand_fp_RC
      operand_fp_RB RC_BIT_G true)
    A_form 59 29 CFLOW_NORMAL;
  II "fmr" (execute_fp_arith_h fp_double op_fnop operand_fp_RD operand_fp_RB operand_fp_NONE
      operand_fp_NONE RC_BIT_G false)
    X_form 63 72 CFLOW_NORMAL;
  II "fmsub" (execute_fp_arith_h fp_double op_fmsub operand_fp_RD operand_fp_RA operand_fp_RC
      operand_fp_RB RC_BIT_G true)
    A_form 63 28 CFLOW_NORMAL;
  II "fmsubs" (execute_fp_arith_h fp_float op_fmsub operand_fp_RD operand_fp_RA operand_fp_RC
      operand_fp_RB RC_BIT_G true)
    A_form 59 28 CFLOW_NORMAL;
  II "fmul" (execute_fp_arith_h fp_double op_fmul operand_fp_RD operand_fp_RA operand_fp_RC
      operand_fp_NONE RC_BIT_G true)
    A_form 63 25 CFLOW_NORMAL;
  II "fmuls" (execute_fp_arith_h fp_float op_fmul operand_fp_RD operand_fp_RA operand_fp_RC
      operand_fp_NONE RC_BIT_G true)
    A_form 59 25 CFLOW_NORMAL;
  II "fnabs" (execute_fp_arith_h fp_double op_fnabs operand_fp_RD operand_fp_RB operand_fp_NONE
      operand_fp_NONE RC_BIT_G false)
    X_form 63 136 CFLOW_NORMAL;
  II "fneg" (execute_fp_arith_h fp_double op_fneg operand_fp_RD operand_fp_RB operand_fp_NONE
      operand_fp_NONE RC_BIT_G false)
    X_form 63 40 CFLOW_NORMAL;
  II "fnmadd" (execute_fp_arith_h fp_double op_fnmadd operand_fp_RD operand_fp_RA operand_fp_RC
      operand_fp_RB RC_BIT_G true)
    A_form 63 31 CFLOW_NORMAL;
  II "fnmadds" (execute_fp_arith_h fp_double op_fnmadds operand_fp_RD operand_fp_RA operand_fp_RC
      operand_fp_RB RC_BIT_G true)
    A_form 59 31 CFLOW_NORMAL;
  II "fnmsub" (execute_fp_arith_h fp_double op_fnmsub operand_fp_RD operand_fp_RA operand_fp_RC
      operand_fp_RB RC_BIT_G true)
    A_form 63 30 CFLOW_NORMAL;
  II "fnmsubs" (execute_fp_arith_h fp_double op_fnmsubs operand_fp_RD operand_fp_RA operand_fp_RC
      operand_fp_RB RC_BIT_G true)
    A_form 59 30 CFLOW_NORMAL;
  II "frsp" (execute_fp_round_h RC_BIT_G)
    X_form 63 12 CFLOW_NORMAL;
  II "fsel" (execute_fp_arith_h fp_double op_fsel operand_fp_RD operand_fp_RA operand_fp_RC operand_fp_RB
      RC_BIT_G false)
    A_form 63 23 CFLOW_NORMAL;
  II "fsub" (execute_fp_arith_h fp_double op_fsub operand_fp_RD operand_fp_RA operand_fp_RB
      operand_fp_NONE RC_BIT_G true)
    A_form 63 20 CFLOW_NORMAL;
  II "fsubs" (execute_fp_arith_h fp_float op_fsub operand_fp_RD operand_fp_RA operand_fp_RB
      operand_fp_NONE RC_BIT_G true)
    A_form 59 20 CFLOW_NORMAL;
  II "icbi" (execute_icbi_h operand_RA_or_0 operand_RB)
    X_form 31 982 CFLOW_NORMAL;
  II "isync" (execute_isync_h)
    X_form 19 150 CFLOW_NORMAL;
  II "lbz" (execute_loadstore_h Op_nop operand_RA_or_0 operand_D true 1 false false)
    D_form 34 0 CFLOW_NORMAL;
  II "lbzu" (execute_loadstore_h Op_nop operand_RA operand_D true 1 true false)
    D_form 35 0 CFLOW_NORMAL;
  II "lbzux" (execute_loadstore_h Op_nop operand_RA operand_RB true 1 true false)
    X_form 31 119 CFLOW_NORMAL;
  II "lbzx" (execute_loadstore_h Op_nop operand_RA_or_0 operand_RB true 1 false false)
    X_form 31 87 CFLOW_NORMAL;
  II "lfd" (execute_fp_loadstore_h operand_RA_or_0 operand_D true true false)
    D_form 50 0 CFLOW_NORMAL;
  II "lfdu" (execute_fp_loadstore_h operand_RA operand_D true true true)
    D_form 51 0 CFLOW_NORMAL;
  II "lfdux" (execute_fp_loadstore_h operand_RA operand_RB true true true)
    X_form 31 631 CFLOW_NORMAL;
  II "lfdx" (execute_fp_loadstore_h operand_RA_or_0 operand_RB true true false)
    X_form 31 599 CFLOW_NORMAL;
  II "lfs" (execute_fp_loadstore_h operand_RA_or_0 operand_D true false false)
    D_form 48 0 CFLOW_NORMAL;
  II "lfsu" (execute_fp_loadstore_h operand_RA operand_D true false true)
    D_form 49 0 CFLOW_NORMAL
].

Definition ii_table_4 : list instr_info := [
  II "lfsux" (execute_fp_loadstore_h operand_RA operand_RB true false true)
    X_form 31 567 CFLOW_NORMAL;
  II "lfsx" (execute_fp_loadstore_h operand_RA_or_0 operand_RB true false false)
    X_form 31 535 CFLOW_NORMAL;
  II "lha" (execute_loadstore_h Op_sign_extend_16_32 operand_RA_or_0 operand_D true 2 false false)
    D_form 42 0 CFLOW_NORMAL;
  II "lhau" (execute_loadstore_h Op_sign_extend_16_32 operand_RA operand_D true 2 true false)
    D_form 43 0 CFLOW_NORMAL;
  II "lhaux" (execute_loadstore_h Op_sign_extend_16_32 operand_RA operand_RB true 2 true false)
    X_form 31 375 CFLOW_NORMAL;
  II "lhax" (execute_loadstore_h Op_sign_extend_16_32 operand_RA_or_0 operand_RB true 2 false false)
    X_form 31 343 CFLOW_NORMAL;
  II "lhbrx" (execute_loadstore_h Op_nop operand_RA_or_0 operand_RB true 2 false true)
    X_form 31 790 CFLOW_NORMAL;
  II "lhz" (execute_loadstore_h Op_nop operand_RA_or_0 operand_D true 2 false false)
    D_form 40 0 CFLOW_NORMAL;
  II "lhzu" (execute_loadstore_h Op_nop operand_RA operand_D true 2 true false)
    D_form 41 0 CFLOW_NORMAL;
  II "lhzux" (execute_loadstore_h Op_nop operand_RA operand_RB true 2 true false)
    X_form 31 311 CFLOW_NORMAL;
  II "lhzx" (execute_loadstore_h Op_nop operand_RA_or_0 operand_RB true 2 false false)
    X_form 31 279 CFLOW_NORMAL;
  II "lmw" (execute_loadstore_multiple_h operand_RA_or_0 operand_D true)
    D_form 46 0 CFLOW_NORMAL;
  II "lswi" (execute_load_string_h operand_RA_or_0 true operand_NB)
    X_form 31 597 CFLOW_NORMAL;
  II "lswx" (execute_load_string_h operand_RA_or_0 false operand_XER_COUNT)
    X_form 31 533 CFLOW_NORMAL;
  II "lvebx" (EXECUTE_VECTOR_LOADSTORE_load V16QIm operand_RA_or_0 operand_RB)
    X_form 31 7 CFLOW_NORMAL;
  II "lvehx" (EXECUTE_VECTOR_LOADSTORE_load V8HIm operand_RA_or_0 operand_RB)
    X_form 31 39 CFLOW_NORMAL;
  II "lvewx" (EXECUTE_VECTOR_LOADSTORE_load V4SI operand_RA_or_0 operand_RB)
    X_form 31 71 CFLOW_NORMAL;
  II "lvsl" (execute_vector_load_for_shift_h true)
    X_form 31 6 CFLOW_NORMAL;
  II "lvsr" (execute_vector_load_for_shift_h false)
    X_form 31 38 CFLOW_NORMAL;
  II "lvx" (EXECUTE_VECTOR_LOADSTORE_load V2DI operand_RA_or_0 operand_RB)
    X_form 31 103 CFLOW_NORMAL;
  II "lvxl" (EXECUTE_VECTOR_LOADSTORE_load V2DI operand_RA_or_0 operand_RB)
    X_form 31 359 CFLOW_NORMAL;
  II "lwarx" (execute_lwarx_h operand_RA_or_0)
    X_form 31 20 CFLOW_NORMAL;
  II "lwbrx" (execute_loadstore_h Op_nop operand_RA_or_0 operand_RB true 4 false true)
    X_form 31 534 CFLOW_NORMAL;
  II "lwz" (execute_loadstore_h Op_nop operand_RA_or_0 operand_D true 4 false false)
    D_form 32 0 CFLOW_NORMAL;
  II "lwzu" (execute_loadstore_h Op_nop operand_RA operand_D true 4 true false)
    D_form 33 0 CFLOW_NORMAL;
  II "lwzux" (execute_loadstore_h Op_nop operand_RA operand_RB true 4 true false)
    X_form 31 55 CFLOW_NORMAL;
  II "lwzx" (execute_loadstore_h Op_nop operand_RA_or_0 operand_RB true 4 false false)
    X_form 31 23 CFLOW_NORMAL;
  II "mcrf" (execute_mcrf_h)
    XL_form 19 0 CFLOW_NORMAL;
  II "mcrfs" (execute_mcrfs_h)
    X_form 63 64 CFLOW_NORMAL
].

Definition ii_table_5 : list instr_info := [
  II "mcrxr" (execute_mcrxr_h)
    X_form 31 512 CFLOW_NORMAL;
  II "mfcr" (execute_generic_arith_h Op_nop operand_RD operand_CR operand_NONE operand_NONE OE_BIT_0 RC_BIT_0)
    X_form 31 19 CFLOW_NORMAL;
  II "mffs" (execute_mffs_h RC_BIT_G)
    X_form 63 583 CFLOW_NORMAL;
  II "mfmsr" (execute_mfmsr_h)
    X_form 31 83 CFLOW_NORMAL;
  II "mfspr" (execute_mfspr_h operand_SPR)
    XFX_form 31 339 CFLOW_NORMAL;
  II "mftb" (execute_mftbr_h operand_TBR)
    XFX_form 31 371 CFLOW_NORMAL;
  II "mfvscr" (execute_mfvscr_h)
    VX_form 4 1540 CFLOW_NORMAL;
  II "mtcrf" (execute_mtcrf_h)
    XFX_form 31 144 CFLOW_NORMAL;
  II "mtfsb0" (execute_mtfsb_h (immediate_value 0) RC_BIT_G)
    X_form 63 70 CFLOW_NORMAL;
  II "mtfsb1" (execute_mtfsb_h (immediate_value 1) RC_BIT_G)
    X_form 63 38 CFLOW_NORMAL;
  II "mtfsf" (execute_mtfsf_h operand_FM operand_fp_RB RC_BIT_G)
    XFL_form 63 711 CFLOW_NORMAL;
  II "mtfsfi" (execute_mtfsfi_h operand_IMM RC_BIT_G)
    X_form 63 134 CFLOW_NORMAL;
  II "mtspr" (execute_mtspr_h operand_SPR)
    XFX_form 31 467 CFLOW_NORMAL;
  II "mtvscr" (execute_mtvscr_h)
    VX_form 4 1604 CFLOW_NORMAL;
  II "mulhw" (execute_multiply_h true true OE_BIT_0 RC_BIT_G)
    XO_form 31 75 CFLOW_NORMAL;
  II "mulhwu" (execute_multiply_h true false OE_BIT_0 RC_BIT_G)
    XO_form 31 11 CFLOW_NORMAL;
  II "mulli" (execute_generic_arith_h Op_smul operand_RD operand_RA operand_SIMM operand_NONE OE_BIT_0
      RC_BIT_0)
    D_form 7 0 CFLOW_NORMAL;
  II "mullw" (execute_multiply_h false true OE_BIT_G RC_BIT_G)
    XO_form 31 235 CFLOW_NORMAL;
  II "nand" (execute_generic_arith_h Op_nand operand_RA operand_RS operand_RB operand_NONE OE_BIT_0 RC_BIT_G)
    X_form 31 476 CFLOW_NORMAL;
  II "neg" (execute_generic_arith_h Op_neg operand_RD operand_RA operand_NONE operand_NONE OE_BIT_G RC_BIT_G)
    XO_form 31 104 CFLOW_NORMAL;
  II "nor" (execute_generic_arith_h Op_nor operand_RA operand_RS operand_RB operand_NONE OE_BIT_0 RC_BIT_G)
    XO_form 31 124 CFLOW_NORMAL;
  II "or" (execute_generic_arith_h Op_or operand_RA operand_RS operand_RB operand_NONE OE_BIT_0 RC_BIT_G)
    XO_form 31 444 CFLOW_NORMAL;
  II "orc" (execute_generic_arith_h Op_orc operand_RA operand_RS operand_RB operand_NONE OE_BIT_0 RC_BIT_G)
    XO_form 31 412 CFLOW_NORMAL;
  II "ori" (execute_generic_arith_h Op_or operand_RA operand_RS operand_UIMM operand_NONE OE_BIT_0 RC_BIT_0)
    D_form 24 0 CFLOW_NORMAL;
  II "oris" (execute_generic_arith_h Op_or operand_RA operand_RS operand_UIMM_shifted operand_NONE
      OE_BIT_0 RC_BIT_0)
    D_form 25 0 CFLOW_NORMAL;
  II "rlwimi" (execute_rlwimi_h operand_SH operand_MASK RC_BIT_G)
    M_form 20 0 CFLOW_NORMAL;
  II "rlwinm" (execute_generic_arith_h Op_ppc_rlwinm operand_RA operand_RS operand_SH operand_MASK
      OE_BIT_0 RC_BIT_G)
    M_form 21 0 CFLOW_NORMAL;
  II "rlwnm" (execute_generic_arith_h Op_ppc_rlwnm operand_RA operand_RS operand_RB operand_MASK OE_BIT_0
      RC_BIT_G)
    M_form 23 0 CFLOW_NORMAL;
  II "sc" (execute_syscall_h)
    SC_form 17 0 CFLOW_NORMAL
].

Definition ii_table_6 : list instr_info := [
  II "slw" (execute_shift_h Op_shll operand_RA operand_RS operand_RB (Op_andi 0x3f) CA_BIT_0 RC_BIT_G)
    X_form 31 24 CFLOW_NORMAL;
  II "sraw" (execute_shift_h Op_shra operand_RA operand_RS operand_RB (Op_andi 0x3f) CA_BIT_1 RC_BIT_G)
    X_form 31 792 CFLOW_NORMAL;
  II "srawi" (execute_shift_h Op_shra operand_RA operand_RS operand_SH (Op_andi 0x1f) CA_BIT_1 RC_BIT_G)
    X_form 31 824 CFLOW_NORMAL;
  II "srw" (execute_shift_h Op_shrl operand_RA operand_RS operand_RB (Op_andi 0x3f) CA_BIT_0 RC_BIT_G)
    X_form 31 536 CFLOW_NORMAL;
  II "stb" (execute_loadstore_h Op_nop operand_RA_or_0 operand_D false 1 false false)
    D_form 38 0 CFLOW_NORMAL;
  II "stbu" (execute_loadstore_h Op_nop operand_RA operand_D false 1 true false)
    D_form 39 0 CFLOW_NORMAL;
  II "stbux" (execute_loadstore_h Op_nop operand_RA operand_RB false 1 true false)
    X_form 31 247 CFLOW_NORMAL;
  II "stbx" (execute_loadstore_h Op_nop operand_RA_or_0 operand_RB false 1 false false)
    X_form 31 215 CFLOW_NORMAL;
  II "stfd" (execute_fp_loadstore_h operand_RA_or_0 operand_D false true false)
    D_form 54 0 CFLOW_NORMAL;
  II "stfdu" (execute_fp_loadstore_h operand_RA operand_D false true true)
    D_form 55 0 CFLOW_NORMAL;
  II "stfdux" (execute_fp_loadstore_h operand_RA operand_RB false true true)
    X_form 31 759 CFLOW_NORMAL;
  II "stfdx" (execute_fp_loadstore_h operand_RA_or_0 operand_RB false true false)
    X_form 31 727 CFLOW_NORMAL;
  II "stfs" (execute_fp_loadstore_h operand_RA_or_0 operand_D false false false)
    D_form 52 0 CFLOW_NORMAL;
  II "stfsu" (execute_fp_loadstore_h operand_RA operand_D false false true)
    D_form 53 0 CFLOW_NORMAL;
  II "stfsux" (execute_fp_loadstore_h operand_RA operand_RB false false true)
    X_form 31 695 CFLOW_NORMAL;
  II "stfsx" (execute_fp_loadstore_h operand_RA_or_0 operand_RB false false false)
    X_form 31 663 CFLOW_NORMAL;
  II "sth" (execute_loadstore_h Op_nop operand_RA_or_0 operand_D false 2 false false)
    D_form 44 0 CFLOW_NORMAL;
  II "sthbrx" (execute_loadstore_h Op_nop operand_RA_or_0 operand_RB false 2 false true)
    X_form 31 918 CFLOW_NORMAL;
  II "sthu" (execute_loadstore_h Op_nop operand_RA operand_D false 2 true false)
    D_form 45 0 CFLOW_NORMAL;
  II "sthux" (execute_loadstore_h Op_nop operand_RA operand_RB false 2 true false)
    X_form 31 439 CFLOW_NORMAL;
  II "sthx" (execute_loadstore_h Op_nop operand_RA_or_0 operand_RB false 2 false false)
    X_form 31 407 CFLOW_NORMAL;
  II "stmw" (execute_loadstore_multiple_h operand_RA_or_0 operand_D false)
    D_form 47 0 CFLOW_NORMAL;
  II "stswi" (execute_store_string_h operand_RA_or_0 true operand_NB)
    X_form 31 725 CFLOW_NORMAL;
  II "stswx" (execute_store_string_h operand_RA_or_0 false operand_XER_COUNT)
    X_form 31 661 CFLOW_NORMAL;
  II "stvebx" (EXECUTE_VECTOR_LOADSTORE_store V16QIm operand_RA_or_0 operand_RB)
    X_form 31 135 CFLOW_NORMAL;
  II "stvehx" (EXECUTE_VECTOR_LOADSTORE_store V8HIm operand_RA_or_0 operand_RB)
    X_form 31 167 CFLOW_NORMAL;
  II "stvewx" (EXECUTE_VECTOR_LOADSTORE_store V4SI operand_RA_or_0 operand_RB)
    X_form 31 199 CFLOW_NORMAL;
  II "stvx" (EXECUTE_VECTOR_LOADSTORE_store V2DI operand_RA_or_0 operand_RB)
    X_form 31 231 CFLOW_NORMAL;
  II "stvxl" (EXECUTE_VECTOR_LOADSTORE_store V2DI operand_RA_or_0 operand_RB)
    X_form 31 487 CFLOW_NORMAL
].

Definition ii_table_7 : list instr_info := [
  II "stw" (execute_loadstore_h Op_nop operand_RA_or_0 operand_D false 4 false false)
    D_form 36 0 CFLOW_NORMAL;
  II "stwbrx" (execute_loadstore_h Op_nop operand_RA_or_0 operand_RB false 4 false true)
    X_form 31 662 CFLOW_NORMAL;
  II "stwcx." (execute_stwcx_h operand_RA_or_0)
    X_form 31 150 CFLOW_NORMAL;
  II "stwu" (execute_loadstore_h Op_nop operand_RA operand_D false 4 true false)
    D_form 37 0 CFLOW_NORMAL;
  II "stwux" (execute_loadstore_h Op_nop operand_RA operand_RB false 4 true false)
    X_form 31 183 CFLOW_NORMAL;
  II "stwx" (execute_loadstore_h Op_nop operand_RA_or_0 operand_RB false 4 false false)
    X_form 31 151 CFLOW_NORMAL;
  II "subf" (execute_addition_h operand_RA_compl operand_RB operand_ONE CA_BIT_0 OE_BIT_G RC_BIT_G)
    XO_form 31 40 CFLOW_NORMAL;
  II "subfc" (execute_addition_h operand_RA_compl operand_RB operand_ONE CA_BIT_1 OE_BIT_G RC_BIT_G)
    XO_form 31 8 CFLOW_NORMAL;
  II "subfe" (execute_addition_h operand_RA_compl operand_RB operand_XER_CA CA_BIT_1 OE_BIT_G RC_BIT_G)
    XO_form 31 136 CFLOW_NORMAL;
  II "subfic" (execute_addition_h operand_RA_compl operand_SIMM operand_ONE CA_BIT_1 OE_BIT_0 RC_BIT_0)
    D_form 8 0 CFLOW_NORMAL;
  II "subfme" (execute_addition_h operand_RA_compl operand_XER_CA operand_MINUS_ONE CA_BIT_1 OE_BIT_G
      RC_BIT_G)
    XO_form 31 232 CFLOW_NORMAL;
  II "subfze" (execute_addition_h operand_RA_compl operand_XER_CA operand_ZERO CA_BIT_1 OE_BIT_G RC_BIT_G)
    XO_form 31 200 CFLOW_NORMAL;
  II "sync" (execute_nop_h)
    X_form 31 598 CFLOW_NORMAL;
  II "xor" (execute_generic_arith_h Op_xor operand_RA operand_RS operand_RB operand_NONE OE_BIT_0 RC_BIT_G)
    X_form 31 316 CFLOW_NORMAL;
  II "xori" (execute_generic_arith_h Op_xor operand_RA operand_RS operand_UIMM operand_NONE OE_BIT_0 RC_BIT_0)
    D_form 26 0 CFLOW_NORMAL;
  II "xoris" (execute_generic_arith_h Op_xor operand_RA operand_RS operand_UIMM_shifted operand_NONE
      OE_BIT_0 RC_BIT_0)
    D_form 27 0 CFLOW_NORMAL;
  II "vaddcuw" (EXECUTE_VECTOR_ARITH Op_addcuw V4SI V4SI V4SI NONE)
    VX_form 4 384 CFLOW_NORMAL;
  II "vaddfp" (EXECUTE_VECTOR_ARITH Op_fadds V4SF V4SF V4SF NONE)
    VX_form 4 10 CFLOW_NORMAL;
  II "vaddsbs" (EXECUTE_VECTOR_ARITH Op_add (V16QI_SAT int8) (V16QI_SAT int8) (V16QI_SAT int8) NONE)
    VX_form 4 768 CFLOW_NORMAL;
  II "vaddshs" (EXECUTE_VECTOR_ARITH Op_add (V8HI_SAT int16) (V8HI_SAT int16) (V8HI_SAT int16) NONE)
    VX_form 4 832 CFLOW_NORMAL;
  II "vaddsws" (EXECUTE_VECTOR_ARITH Op_add_64 (V4SI_SAT int32) (V4SI_SAT int32) (V4SI_SAT int32) NONE)
    VX_form 4 896 CFLOW_NORMAL;
  II "vaddubm" (EXECUTE_VECTOR_ARITH Op_add V16QI V16QI V16QI NONE)
    VX_form 4 0 CFLOW_NORMAL;
  II "vaddubs" (EXECUTE_VECTOR_ARITH Op_add (V16QI_SAT uint8) (V16QI_SAT uint8) (V16QI_SAT uint8) NONE)
    VX_form 4 512 CFLOW_NORMAL;
  II "vadduhm" (EXECUTE_VECTOR_ARITH Op_add V8HI V8HI V8HI NONE)
    VX_form 4 64 CFLOW_NORMAL;
  II "vadduhs" (EXECUTE_VECTOR_ARITH Op_add (V8HI_SAT uint16) (V8HI_SAT uint16) (V8HI_SAT uint16) NONE)
    VX_form 4 576 CFLOW_NORMAL;
  II "vadduwm" (EXECUTE_VECTOR_ARITH Op_add V4SI V4SI V4SI NONE)
    VX_form 4 128 CFLOW_NORMAL;
  II "vadduws" (EXECUTE_VECTOR_ARITH Op_add_64 (V4SI_SAT uint32) (V4SI_SAT uint32) (V4SI_SAT uint32) NONE)
    VX_form 4 640 CFLOW_NORMAL;
  II "vand" (EXECUTE_VECTOR_ARITH Op_and_64 V2DI V2DI V2DI NONE)
    VX_form 4 1028 CFLOW_NORMAL;
  II "vandc" (EXECUTE_VECTOR_ARITH Op_andc_64 V2DI V2DI V2DI NONE)
    VX_form 4 1092 CFLOW_NORMAL
].

Definition ii_table_8 : list instr_info := [
  II "vavgsb" (EXECUTE_VECTOR_ARITH Op_avgsb V16QI V16QI V16QI NONE)
    VX_form 4 1282 CFLOW_NORMAL;
  II "vavgsh" (EXECUTE_VECTOR_ARITH Op_avgsh V8HI V8HI V8HI NONE)
    VX_form 4 1346 CFLOW_NORMAL;
  II "vavgsw" (EXECUTE_VECTOR_ARITH Op_avgsw V4SI V4SI V4SI NONE)
    VX_form 4 1410 CFLOW_NORMAL;
  II "vavgub" (EXECUTE_VECTOR_ARITH Op_avgub V16QI V16QI V16QI NONE)
    VX_form 4 1026 CFLOW_NORMAL;
  II "vavguh" (EXECUTE_VECTOR_ARITH Op_avguh V8HI V8HI V8HI NONE)
    VX_form 4 1090 CFLOW_NORMAL;
  II "vavguw" (EXECUTE_VECTOR_ARITH Op_avguw V4SI V4SI V4SI NONE)
    VX_form 4 1154 CFLOW_NORMAL;
  II "vcfsx" (EXECUTE_VECTOR_ARITH (Op_cvt_si2fp int32) V4SF UIMM V4SIs NONE)
    VX_form 4 842 CFLOW_NORMAL;
  II "vcfux" (EXECUTE_VECTOR_ARITH (Op_cvt_si2fp uint32) V4SF UIMM V4SI NONE)
    VX_form 4 778 CFLOW_NORMAL;
  II "vcmpbfp" (EXECUTE_VECTOR_COMPARE Op_cmpbfp V4SI V4SF V4SF false)
    VXR_form 4 966 CFLOW_NORMAL;
  II "vcmpeqfp" (EXECUTE_VECTOR_COMPARE (Op_cmp_eq cfloat) V4SI V4SF V4SF true)
    VXR_form 4 198 CFLOW_NORMAL;
  II "vcmpequb" (EXECUTE_VECTOR_COMPARE (Op_cmp_eq uint8) V16QI V16QI V16QI true)
    VXR_form 4 6 CFLOW_NORMAL;
  II "vcmpequh" (EXECUTE_VECTOR_COMPARE (Op_cmp_eq uint16) V8HI V8HI V8HI true)
    VXR_form 4 70 CFLOW_NORMAL;
  II "vcmpequw" (EXECUTE_VECTOR_COMPARE (Op_cmp_eq uint32) V4SI V4SI V4SI true)
    VXR_form 4 134 CFLOW_NORMAL;
  II "vcmpgefp" (EXECUTE_VECTOR_COMPARE (Op_cmp_ge cfloat) V4SI V4SF V4SF true)
    VXR_form 4 454 CFLOW_NORMAL;
  II "vcmpgtfp" (EXECUTE_VECTOR_COMPARE (Op_cmp_gt cfloat) V4SI V4SF V4SF true)
    VXR_form 4 710 CFLOW_NORMAL;
  II "vcmpgtsb" (EXECUTE_VECTOR_COMPARE (Op_cmp_gt int8) V16QI V16QIs V16QIs true)
    VXR_form 4 774 CFLOW_NORMAL;
  II "vcmpgtsh" (EXECUTE_VECTOR_COMPARE (Op_cmp_gt int16) V8HI V8HIs V8HIs true)
    VXR_form 4 838 CFLOW_NORMAL;
  II "vcmpgtsw" (EXECUTE_VECTOR_COMPARE (Op_cmp_gt int32) V4SI V4SIs V4SIs true)
    VXR_form 4 902 CFLOW_NORMAL;
  II "vcmpgtub" (EXECUTE_VECTOR_COMPARE (Op_cmp_gt uint8) V16QI V16QI V16QI true)
    VXR_form 4 518 CFLOW_NORMAL;
  II "vcmpgtuh" (EXECUTE_VECTOR_COMPARE (Op_cmp_gt uint16) V8HI V8HI V8HI true)
    VXR_form 4 582 CFLOW_NORMAL;
  II "vcmpgtuw" (EXECUTE_VECTOR_COMPARE (Op_cmp_gt uint32) V4SI V4SI V4SI true)
    VXR_form 4 646 CFLOW_NORMAL;
  II "vctsxs" (EXECUTE_VECTOR_ARITH Op_cvt_fp2si (V4SI_SAT int32) UIMM V4SF NONE)
    VX_form 4 970 CFLOW_NORMAL;
  II "vctuxs" (EXECUTE_VECTOR_ARITH Op_cvt_fp2si (V4SI_SAT uint32) UIMM V4SF NONE)
    VX_form 4 906 CFLOW_NORMAL;
  II "vexptefp" (EXECUTE_VECTOR_ARITH Op_exp2 V4SF NONE V4SF NONE)
    VX_form 4 394 CFLOW_NORMAL;
  II "vlogefp" (EXECUTE_VECTOR_ARITH Op_log2 V4SF NONE V4SF NONE)
    VX_form 4 458 CFLOW_NORMAL;
  II "vmaddfp" (EXECUTE_VECTOR_ARITH Op_vmaddfp V4SF V4SF V4SF V4SF)
    VA_form 4 46 CFLOW_NORMAL;
  II "vmaxfp" (EXECUTE_VECTOR_ARITH (Op_max cfloat) V4SF V4SF V4SF NONE)
    VX_form 4 1034 CFLOW_NORMAL;
  II "vmaxsb" (EXECUTE_VECTOR_ARITH (Op_max int8) V16QI V16QI V16QI NONE)
    VX_form 4 258 CFLOW_NORMAL;
  II "vmaxsh" (EXECUTE_VECTOR_ARITH (Op_max int16) V8HI V8HI V8HI NONE)
    VX_form 4 322 CFLOW_NORMAL
].

Definition ii_table_9 : list instr_info := [
  II "vmaxsw" (EXECUTE_VECTOR_ARITH (Op_max int32) V4SI V4SI V4SI NONE)
    VX_form 4 386 CFLOW_NORMAL;
  II "vmaxub" (EXECUTE_VECTOR_ARITH (Op_max uint8) V16QI V16QI V16QI NONE)
    VX_form 4 2 CFLOW_NORMAL;
  II "vmaxuh" (EXECUTE_VECTOR_ARITH (Op_max uint16) V8HI V8HI V8HI NONE)
    VX_form 4 66 CFLOW_NORMAL;
  II "vmaxuw" (EXECUTE_VECTOR_ARITH (Op_max uint32) V4SI V4SI V4SI NONE)
    VX_form 4 130 CFLOW_NORMAL;
  II "vmhaddshs" (EXECUTE_VECTOR_ARITH (Op_mhraddsh 0) (V8HI_SAT int16) (V8HI_SAT int16) (V8HI_SAT int16)
      (V8HI_SAT int16))
    VA_form 4 32 CFLOW_NORMAL;
  II "vmhraddshs" (EXECUTE_VECTOR_ARITH (Op_mhraddsh 0x4000) (V8HI_SAT int16) (V8HI_SAT int16) (V8HI_SAT
      int16) (V8HI_SAT int16))
    VA_form 4 33 CFLOW_NORMAL;
  II "vminfp" (EXECUTE_VECTOR_ARITH (Op_min cfloat) V4SF V4SF V4SF NONE)
    VX_form 4 1098 CFLOW_NORMAL;
  II "vminsb" (EXECUTE_VECTOR_ARITH (Op_min int8) V16QI V16QI V16QI NONE)
    VX_form 4 770 CFLOW_NORMAL;
  II "vminsh" (EXECUTE_VECTOR_ARITH (Op_min int16) V8HI V8HI V8HI NONE)
    VX_form 4 834 CFLOW_NORMAL;
  II "vminsw" (EXECUTE_VECTOR_ARITH (Op_min int32) V4SI V4SI V4SI NONE)
    VX_form 4 898 CFLOW_NORMAL;
  II "vminub" (EXECUTE_VECTOR_ARITH (Op_min uint8) V16QI V16QI V16QI NONE)
    VX_form 4 514 CFLOW_NORMAL;
  II "vminuh" (EXECUTE_VECTOR_ARITH (Op_min uint16) V8HI V8HI V8HI NONE)
    VX_form 4 578 CFLOW_NORMAL;
  II "vminuw" (EXECUTE_VECTOR_ARITH (Op_min uint32) V4SI V4SI V4SI NONE)
    VX_form 4 642 CFLOW_NORMAL;
  II "vmladduhm" (EXECUTE_VECTOR_ARITH Op_mladduh V8HI V8HI V8HI V8HI)
    VA_form 4 34 CFLOW_NORMAL;
  II "vmrghb" (EXECUTE_VECTOR_MERGE V16QIm V16QIm V16QIm 0)
    VX_form 4 12 CFLOW_NORMAL;
  II "vmrghh" (EXECUTE_VECTOR_MERGE V8HIm V8HIm V8HIm 0)
    VX_form 4 76 CFLOW_NORMAL;
  II "vmrghw" (EXECUTE_VECTOR_MERGE V4SI V4SI V4SI 0)
    VX_form 4 140 CFLOW_NORMAL;
  II "vmrglb" (EXECUTE_VECTOR_MERGE V16QIm V16QIm V16QIm 1)
    VX_form 4 268 CFLOW_NORMAL;
  II "vmrglh" (EXECUTE_VECTOR_MERGE V8HIm V8HIm V8HIm 1)
    VX_form 4 332 CFLOW_NORMAL;
  II "vmrglw" (EXECUTE_VECTOR_MERGE V4SI V4SI V4SI 1)
    VX_form 4 396 CFLOW_NORMAL;
  II "vmsummbm" (EXECUTE_VECTOR_ARITH_MIXED Op_smul V4SI (V16QI_SAT int8) (V16QI_SAT uint8) V4SI)
    VA_form 4 37 CFLOW_NORMAL;
  II "vmsumshm" (EXECUTE_VECTOR_ARITH_MIXED Op_smul V4SI (V8HI_SAT int16) (V8HI_SAT int16) V4SI)
    VA_form 4 40 CFLOW_NORMAL;
  II "vmsumshs" (EXECUTE_VECTOR_ARITH_MIXED Op_smul_64 (V4SI_SAT int32) (V8HI_SAT int16) (V8HI_SAT int16)
      V4SIs)
    VA_form 4 41 CFLOW_NORMAL;
  II "vmsumubm" (EXECUTE_VECTOR_ARITH_MIXED Op_mul V4SI V16QI V16QI V4SI)
    VA_form 4 36 CFLOW_NORMAL;
  II "vmsumuhm" (EXECUTE_VECTOR_ARITH_MIXED Op_mul V4SI V8HI V8HI V4SI)
    VA_form 4 38 CFLOW_NORMAL;
  II "vmsumuhs" (EXECUTE_VECTOR_ARITH_MIXED Op_mul (V4SI_SAT uint32) V8HI V8HI V4SI)
    VA_form 4 39 CFLOW_NORMAL;
  II "vmulesb" (EXECUTE_VECTOR_ARITH_ODD 0 Op_smul V8HIm (V16QIm_SAT int8) (V16QIm_SAT int8) NONE)
    VX_form 4 776 CFLOW_NORMAL;
  II "vmulesh" (EXECUTE_VECTOR_ARITH_ODD 0 Op_smul V4SI (V8HIm_SAT int16) (V8HIm_SAT int16) NONE)
    VX_form 4 840 CFLOW_NORMAL;
  II "vmuleub" (EXECUTE_VECTOR_ARITH_ODD 0 Op_mul V8HIm V16QIm V16QIm NONE)
    VX_form 4 520 CFLOW_NORMAL
].

Definition ii_table_10 : list instr_info := [
  II "vmuleuh" (EXECUTE_VECTOR_ARITH_ODD 0 Op_mul V4SI V8HIm V8HIm NONE)
    VX_form 4 584 CFLOW_NORMAL;
  II "vmulosb" (EXECUTE_VECTOR_ARITH_ODD 1 Op_smul V8HIm (V16QIm_SAT int8) (V16QIm_SAT int8) NONE)
    VX_form 4 264 CFLOW_NORMAL;
  II "vmulosh" (EXECUTE_VECTOR_ARITH_ODD 1 Op_smul V4SI (V8HIm_SAT int16) (V8HIm_SAT int16) NONE)
    VX_form 4 328 CFLOW_NORMAL;
  II "vmuloub" (EXECUTE_VECTOR_ARITH_ODD 1 Op_mul V8HIm V16QIm V16QIm NONE)
    VX_form 4 8 CFLOW_NORMAL;
  II "vmulouh" (EXECUTE_VECTOR_ARITH_ODD 1 Op_mul V4SI V8HIm V8HIm NONE)
    VX_form 4 72 CFLOW_NORMAL;
  II "vnmsubfp" (EXECUTE_VECTOR_ARITH Op_vnmsubfp V4SF V4SF V4SF V4SF)
    VA_form 4 47 CFLOW_NORMAL;
  II "vnor" (EXECUTE_VECTOR_ARITH Op_nor_64 V2DI V2DI V2DI NONE)
    VX_form 4 1284 CFLOW_NORMAL;
  II "vor" (EXECUTE_VECTOR_ARITH Op_or_64 V2DI V2DI V2DI NONE)
    VX_form 4 1156 CFLOW_NORMAL;
  II "vperm" (execute_vector_permute_h)
    VA_form 4 43 CFLOW_NORMAL;
  II "vpkpx" (execute_vector_pack_pixel_h)
    VX_form 4 782 CFLOW_NORMAL;
  II "vpkshss" (EXECUTE_VECTOR_PACK (V16QIm_SAT int8) V8HIm V8HIm)
    VX_form 4 398 CFLOW_NORMAL;
  II "vpkshus" (EXECUTE_VECTOR_PACK (V16QIm_SAT uint8) V8HIm V8HIm)
    VX_form 4 270 CFLOW_NORMAL;
  II "vpkswss" (EXECUTE_VECTOR_PACK (V8HIm_SAT int16) V4SI V4SI)
    VX_form 4 462 CFLOW_NORMAL;
  II "vpkswus" (EXECUTE_VECTOR_PACK (V8HIm_SAT uint16) V4SI V4SI)
    VX_form 4 334 CFLOW_NORMAL;
  II "vpkuhum" (EXECUTE_VECTOR_PACK V16QIm V8HIm V8HIm)
    VX_form 4 14 CFLOW_NORMAL;
  II "vpkuhus" (EXECUTE_VECTOR_PACK (V16QIm_USAT uint8) V8HIm V8HIm)
    VX_form 4 142 CFLOW_NORMAL;
  II "vpkuwum" (EXECUTE_VECTOR_PACK V8HIm V4SI V4SI)
    VX_form 4 78 CFLOW_NORMAL;
  II "vpkuwus" (EXECUTE_VECTOR_PACK (V8HIm_USAT uint16) V4SI V4SI)
    VX_form 4 206 CFLOW_NORMAL;
  II "vrefp" (EXECUTE_VECTOR_ARITH Op_fres V4SF NONE V4SF NONE)
    VX_form 4 266 CFLOW_NORMAL;
  II "vrfim" (EXECUTE_VECTOR_ARITH Op_frsim V4SF NONE V4SF NONE)
    VX_form 4 714 CFLOW_NORMAL;
  II "vrfin" (EXECUTE_VECTOR_ARITH Op_frsin V4SF NONE V4SF NONE)
    VX_form 4 522 CFLOW_NORMAL;
  II "vrfip" (EXECUTE_VECTOR_ARITH Op_frsip V4SF NONE V4SF NONE)
    VX_form 4 650 CFLOW_NORMAL;
  II "vrfiz" (EXECUTE_VECTOR_ARITH Op_frsiz V4SF NONE V4SF NONE)
    VX_form 4 586 CFLOW_NORMAL;
  II "vrlb" (EXECUTE_VECTOR_ARITH (Op_vrl uint8) V16QI V16QI V16QI NONE)
    VX_form 4 4 CFLOW_NORMAL;
  II "vrlh" (EXECUTE_VECTOR_ARITH (Op_vrl uint16) V8HI V8HI V8HI NONE)
    VX_form 4 68 CFLOW_NORMAL;
  II "vrlw" (EXECUTE_VECTOR_ARITH (Op_vrl uint32) V4SI V4SI V4SI NONE)
    VX_form 4 132 CFLOW_NORMAL;
  II "vrsqrtefp" (EXECUTE_VECTOR_ARITH Op_frsqrt V4SF NONE V4SF NONE)
    VX_form 4 330 CFLOW_NORMAL;
  II "vsel" (EXECUTE_VECTOR_ARITH Op_vsel V4SI V4SI V4SI V4SI)
    VA_form 4 42 CFLOW_NORMAL;
  II "vsl" (execute_vector_shift_h (-1))
    VX_form 4 452 CFLOW_NORMAL
].

Definition ii_table_11 : list instr_info := [
  II "vslb" (EXECUTE_VECTOR_ARITH (Op_vsl uint8) V16QI V16QI V16QI NONE)
    VX_form 4 260 CFLOW_NORMAL;
  II "vsldoi" (EXECUTE_VECTOR_SHIFT_OCTET (-1) V16QIm V16QIm V16QIm operand_SHB)
    VA_form 4 44 CFLOW_NORMAL;
  II "vslh" (EXECUTE_VECTOR_ARITH (Op_vsl uint16) V8HI V8HI V8HI NONE)
    VX_form 4 324 CFLOW_NORMAL;
  II "vslo" (EXECUTE_VECTOR_SHIFT_OCTET (-1) V16QIm V16QIm NONE operand_SHBO)
    VX_form 4 1036 CFLOW_NORMAL;
  II "vslw" (EXECUTE_VECTOR_ARITH (Op_vsl uint32) V4SI V4SI V4SI NONE)
    VX_form 4 388 CFLOW_NORMAL;
  II "vspltb" (EXECUTE_VECTOR_SPLAT Op_nop V16QI V16QIm false)
    VX_form 4 524 CFLOW_NORMAL;
  II "vsplth" (EXECUTE_VECTOR_SPLAT Op_nop V8HI V8HIm false)
    VX_form 4 588 CFLOW_NORMAL;
  II "vspltisb" (EXECUTE_VECTOR_SPLAT Op_sign_extend_5_32 V16QI UIMM true)
    VX_form 4 780 CFLOW_NORMAL;
  II "vspltish" (EXECUTE_VECTOR_SPLAT Op_sign_extend_5_32 V8HI UIMM true)
    VX_form 4 844 CFLOW_NORMAL;
  II "vspltisw" (EXECUTE_VECTOR_SPLAT Op_sign_extend_5_32 V4SI UIMM true)
    VX_form 4 908 CFLOW_NORMAL;
  II "vspltw" (EXECUTE_VECTOR_SPLAT Op_nop V4SI V4SI false)
    VX_form 4 652 CFLOW_NORMAL;
  II "vsr" (execute_vector_shift_h 1)
    VX_form 4 708 CFLOW_NORMAL;
  II "vsrab" (EXECUTE_VECTOR_ARITH (Op_vsr int8) V16QI V16QIs V16QI NONE)
    VX_form 4 772 CFLOW_NORMAL;
  II "vsrah" (EXECUTE_VECTOR_ARITH (Op_vsr int16) V8HI V8HIs V8HI NONE)
    VX_form 4 836 CFLOW_NORMAL;
  II "vsraw" (EXECUTE_VECTOR_ARITH (Op_vsr int32) V4SI V4SIs V4SIs NONE)
    VX_form 4 900 CFLOW_NORMAL;
  II "vsrb" (EXECUTE_VECTOR_ARITH (Op_vsr uint8) V16QI V16QI V16QI NONE)
    VX_form 4 516 CFLOW_NORMAL;
  II "vsrh" (EXECUTE_VECTOR_ARITH (Op_vsr uint16) V8HI V8HI V8HI NONE)
    VX_form 4 580 CFLOW_NORMAL;
  II "vsro" (EXECUTE_VECTOR_SHIFT_OCTET 1 V16QIm V16QIm NONE operand_SHBO)
    VX_form 4 1100 CFLOW_NORMAL;
  II "vsrw" (EXECUTE_VECTOR_ARITH (Op_vsr uint32) V4SI V4SI V4SI NONE)
    VX_form 4 644 CFLOW_NORMAL;
  II "vsubcuw" (EXECUTE_VECTOR_ARITH Op_subcuw V4SI V4SI V4SI NONE)
    VX_form 4 1408 CFLOW_NORMAL;
  II "vsubfp" (EXECUTE_VECTOR_ARITH Op_fsubs V4SF V4SF V4SF NONE)
    VX_form 4 74 CFLOW_NORMAL;
  II "vsubsbs" (EXECUTE_VECTOR_ARITH Op_sub (V16QI_SAT int8) (V16QI_SAT int8) (V16QI_SAT int8) NONE)
    VX_form 4 1792 CFLOW_NORMAL;
  II "vsubshs" (EXECUTE_VECTOR_ARITH Op_sub (V8HI_SAT int16) (V8HI_SAT int16) (V8HI_SAT int16) NONE)
    VX_form 4 1856 CFLOW_NORMAL;
  II "vsubsws" (EXECUTE_VECTOR_ARITH Op_sub_64 (V4SI_SAT int32) (V4SI_SAT int32) (V4SI_SAT int32) NONE)
    VX_form 4 1920 CFLOW_NORMAL;
  II "vsububm" (EXECUTE_VECTOR_ARITH Op_sub V16QI V16QI V16QI NONE)
    VX_form 4 1024 CFLOW_NORMAL;
  II "vsububs" (EXECUTE_VECTOR_ARITH Op_sub (V16QI_SAT uint8) (V16QI_SAT uint8) (V16QI_SAT uint8) NONE)
    VX_form 4 1536 CFLOW_NORMAL;
  II "vsubuhm" (EXECUTE_VECTOR_ARITH Op_sub V8HI V8HI V8HI NONE)
    VX_form 4 1088 CFLOW_NORMAL;
  II "vsubuhs" (EXECUTE_VECTOR_ARITH Op_sub (V8HI_SAT uint16) (V8HI_SAT uint16) (V8HI_SAT uint16) NONE)
    VX_form 4 1600 CFLOW_NORMAL;
  II "vsubuwm" (EXECUTE_VECTOR_ARITH Op_sub V4SI V4SI V4SI NONE)
    VX_form 4 1152 CFLOW_NORMAL
].

Definition ii_table_12 : list instr_info := [
  II "vsubuws" (EXECUTE_VECTOR_ARITH Op_sub_64 (V4SI_SAT uint32) (V4SI_SAT uint32) (V4SI_SAT uint32) NONE)
    VX_form 4 1664 CFLOW_NORMAL;
  II "vsumsws" (EXECUTE_VECTOR_SUM 1 (V4SI_SAT int32) V4SIs V4SIs)
    VX_form 4 1928 CFLOW_NORMAL;
  II "vsum2sws" (EXECUTE_VECTOR_SUM 2 (V4SI_SAT int32) V4SIs V4SIs)
    VX_form 4 1672 CFLOW_NORMAL;
  II "vsum4sbs" (EXECUTE_VECTOR_SUM 4 (V4SI_SAT int32) V16QIs V4SIs)
    VX_form 4 1800 CFLOW_NORMAL;
  II "vsum4shs" (EXECUTE_VECTOR_SUM 4 (V4SI_SAT int32) V8HIs V4SIs)
    VX_form 4 1608 CFLOW_NORMAL;
  II "vsum4ubs" (EXECUTE_VECTOR_SUM 4 (V4SI_SAT uint32) V16QI V4SI)
    VX_form 4 1544 CFLOW_NORMAL;
  II "vupkhpx" (execute_vector_unpack_pixel_h 0)
    VX_form 4 846 CFLOW_NORMAL;
  II "vupkhsb" (EXECUTE_VECTOR_UNPACK 0 V8HIms V16QIms)
    VX_form 4 526 CFLOW_NORMAL;
  II "vupkhsh" (EXECUTE_VECTOR_UNPACK 0 V4SIs V8HIms)
    VX_form 4 590 CFLOW_NORMAL;
  II "vupklpx" (execute_vector_unpack_pixel_h 1)
    VX_form 4 974 CFLOW_NORMAL;
  II "vupklsb" (EXECUTE_VECTOR_UNPACK 1 V8HIms V16QIms)
    VX_form 4 654 CFLOW_NORMAL;
  II "vupklsh" (EXECUTE_VECTOR_UNPACK 1 V4SIs V8HIms)
    VX_form 4 718 CFLOW_NORMAL;
  II "vxor" (EXECUTE_VECTOR_ARITH Op_xor_64 V2DI V2DI V2DI NONE)
    VX_form 4 1220 CFLOW_NORMAL
].

#[local] Open Scope list_scope.
Definition powerpc_ii_table : list instr_info :=
  ii_table_1 ++ ii_table_2 ++ ii_table_3 ++ ii_table_4 ++ ii_table_5 ++ ii_table_6 ++ ii_table_7 ++
      ii_table_8 ++ ii_table_9 ++ ii_table_10 ++ ii_table_11 ++ ii_table_12.
