(* ===== verification/Decode.v ===== *)
(** The instruction decoder (kpx_cpu/src/cpu/ppc/ppc-decode.cpp,
    ppc-cpu.hpp, and [sheepshaver_cpu::init_decoder] of
    kpx_cpu/sheepshaver_glue.cpp): the table of 2^17 indexes that [init_decoder]
    fills in, and its specification as pattern matching on the opcode. *)
From S2P Require Import Prelude Bitfields Registers HostFPU Operations Memory Handlers BlockCache Cpu Operands ExecVec Dispatch DecodeTable.

(** ** The index table *)

Definition II_INDEX_TABLE_SIZE := 0x20000.

(** [make_ii_index] and [get_ii_index]. *)
Definition make_ii_index (opcode xo : Z) : Z := Z.lor opcode (Z.shiftl xo 6).
Definition get_ii_index (opcode : Z) : Z :=
  Z.lor (Z.shiftr opcode 26) (Z.shiftl (Z.land opcode 0x7ff) 6).

(** [ii_table] and [ii_index_table]; a cell that was never written has no
    binding. *)
Record decoder := Decoder {
  ii_table : list instr_info;
  ii_index_table : gmap Z Z;
}.

(** [for (i = a; i < a + n; i++)] *)
Fixpoint range (a : Z) (n : nat) : list Z :=
  match n with O => [] | S n => a :: range (a + 1) n end.

Definition set_indexes (ii_index : Z) (l : list Z) (t : gmap Z Z) : gmap Z Z :=
  foldl (fun t i => <[i := ii_index]> t) t l.

(** The second arguments of [make_ii_index] in the [switch] of
    [init_decoder_entry], in order, or [None] where it aborts. *)
Definition entry_exts (ii : instr_info) : option (list Z) :=
  let xo1 := Z.shiftl (ii_xo ii) 1 in
  match ii_format ii with
  | B_form | D_form | I_form | M_form => Some (range 0 2048)
  | SC_form => Some [2]
  | X_form | XL_form | XFX_form | XFL_form => Some [xo1; Z.lor xo1 1]
  | XO_form =>
      Some [xo1; Z.lor (Z.shiftl 1 10) xo1; Z.lor xo1 1; Z.lor (Z.lor (Z.shiftl 1 10) xo1) 1]
  | A_form =>
      Some (range 0 32 ≫= fun j =>
        [Z.lor (Z.shiftl j 6) xo1; Z.lor (Z.lor (Z.shiftl j 6) xo1) 1])
  | VX_form => Some [ii_xo ii]
  | VXR_form => Some [ii_xo ii; Z.lor (Z.shiftl 1 10) (ii_xo ii)]
  | VA_form => Some ((fun j => Z.lor (Z.shiftl j 6) (ii_xo ii)) <$> range 0 32)
  | INVALID_form | DS_form | MD_form | MDS_form | XS_form => None
  end.

(** The cells it writes. *)
Definition entry_indexes (ii : instr_info) : option (list Z) :=
  if bool_decide (ii_format ii = INVALID_form)
  then Some (range 0 (Z.to_nat II_INDEX_TABLE_SIZE))
  else (map (make_ii_index (ii_opcode ii))) <$> entry_exts ii.

Definition init_decoder_entry (ii : instr_info) (d : decoder) : outcome decoder :=
  let table := ii_table d ++ [ii] in
  let ii_index := u16 (Z.of_nat (length table) - 1) in
  if negb (Bool.eqb (bool_decide (ii_format ii = INVALID_form)) (ii_index =? 0)) then Abort
  else match entry_indexes ii with
       | Some l => Ok (Decoder table (set_indexes ii_index l (ii_index_table d)))
       | None => Abort
       end.

(** [powerpc_cpu::init_decoder], then [sheepshaver_cpu::init_decoder]. *)
Definition sheep_ii_table : list instr_info := [
  II "sheep"%string execute_sheep_h D_form 6 0 (Z.lor CFLOW_JUMP CFLOW_TRAP)
].

Definition init_decoder (table : list instr_info) (d : decoder) : outcome decoder :=
  if negb (Z.of_nat (length table) <? Z.shiftl 1 16) then Abort
  else foldM init_decoder_entry table d.

Definition sheepshaver_init_decoder (d : decoder) : outcome decoder :=
  foldM init_decoder_entry sheep_ii_table d.

Definition build_decoder : outcome decoder :=
  d ← init_decoder powerpc_ii_table (Decoder [] ∅); sheepshaver_init_decoder d.

(** [decode]; [None] is a read outside one of the tables. *)
Definition decode (d : decoder) (opcode : Z) : option instr_info :=
  i ← ii_index_table d !! get_ii_index opcode; ii_table d !! Z.to_nat i.

(** ** Specification: matching the fields of the opcode *)

Definition match_ext (ii : instr_info) (ext : Z) : bool :=
  match ii_format ii with
  | INVALID_form | B_form | D_form | I_form | M_form => true
  | SC_form => ext =? 2
  | X_form | XL_form | XFX_form | XFL_form => ext / 2 =? ii_xo ii
  | XO_form => (ext mod 0x400) / 2 =? ii_xo ii
  | A_form => (ext mod 0x40) / 2 =? ii_xo ii
  | VX_form => ext =? ii_xo ii
  | VXR_form => ext mod 0x400 =? ii_xo ii
  | VA_form => ext mod 0x40 =? ii_xo ii
  | DS_form | MD_form | MDS_form | XS_form => false
  end.

Definition matches (opcode : Z) (ii : instr_info) : bool :=
  bool_decide (ii_format ii = INVALID_form) ||
  ((Z.shiftr opcode 26 =? ii_opcode ii) && match_ext ii (Z.land opcode 0x7ff)).

(** The extended opcode of an entry fits the field its format gives it. *)
Definition entry_ok (ii : instr_info) : bool :=
  let xo := ii_xo ii in
  (0 <=? ii_opcode ii) && (ii_opcode ii <? 64) && (0 <=? xo) &&
  match ii_format ii with
  | INVALID_form | B_form | D_form | I_form | M_form | SC_form => true
  | X_form | XL_form | XFX_form | XFL_form => xo <? 0x400
  | XO_form => xo <? 0x200
  | A_form => xo <? 0x20
  | VX_form => xo <? 0x800
  | VXR_form => xo <? 0x400
  | VA_form => xo <? 0x40
  | DS_form | MD_form | MDS_form | XS_form => false
  end.

Lemma elem_of_range a n i : i ∈ range a n <-> a <= i < a + Z.of_nat n.
Proof.
  revert a. induction n as [|n IH]; intros a; cbn [range].
  - rewrite elem_of_nil. lia.
  - rewrite elem_of_cons, IH. lia.
Qed.

Lemma make_ii_index_add o x : 0 <= o < 64 -> make_ii_index o x = o + 64 * x.
Proof. intros. unfold make_ii_index. rewrite Z.lor_comm, lor_shiftl_add by done. lia. Qed.

Lemma get_ii_index_add opcode :
  is_uint 32 opcode ->
  0 <= Z.shiftr opcode 26 < 64 /\ 0 <= Z.land opcode 0x7ff < 2048 /\
  get_ii_index opcode = Z.shiftr opcode 26 + 64 * Z.land opcode 0x7ff.
Proof.
  intros Hop. assert (0 <= Z.shiftr opcode 26 < 64).
  { rewrite Z.shiftr_div_pow2 by lia. unfold is_uint in Hop. split.
    - apply Z.div_pos; lia.
    - apply Z.div_lt_upper_bound; lia. }
  assert (0 <= Z.land opcode 0x7ff < 2048).
  { change 0x7ff with (Z.ones 11). rewrite Z.land_ones by lia. apply Z.mod_pos_bound. lia. }
  split_and!; try lia. apply (make_ii_index_add _ _ H).
Qed.

(** Setting bits that are clear is adding. *)
Lemma lor_high j k x : 0 <= k -> is_uint k x -> Z.lor (Z.shiftl j k) x = j * 2 ^ k + x.
Proof. apply lor_shiftl_add. Qed.
Lemma shiftl_1 x : Z.shiftl x 1 = 2 * x.
Proof. rewrite Z.shiftl_mul_pow2 by lia. lia. Qed.
Lemma lor_shiftl_1 x : Z.lor (Z.shiftl x 1) 1 = 2 * x + 1.
Proof. rewrite lor_high by done. lia. Qed.

(** The cells of an entry are those of the opcodes it matches. *)
Lemma make_ii_index_eq o o' x x' :
  0 <= o < 64 -> 0 <= o' < 64 -> o' + 64 * x' = make_ii_index o x <-> o' = o /\ x' = x.
Proof. intros. rewrite make_ii_index_add by done. lia. Qed.

#[local] Opaque range.

Lemma entry_exts_spec ii l ext :
  entry_ok ii = true -> entry_exts ii = Some l -> 0 <= ext < 2048 ->
  ext ∈ l <-> match_ext ii ext = true.
Proof.
  intros Hok Hl He. unfold entry_ok in Hok. unfold entry_exts in Hl. unfold match_ext.
  apply andb_prop in Hok as [[_ Hx0]%andb_prop Hx]. cbn zeta in Hl. rewrite lor_shiftl_1 in Hl.
  assert (Hu : forall w x, 0 <= w -> (x <? 2 ^ w) = true -> 0 <= x -> is_uint w x)
    by (unfold is_uint; lia).
  assert (Ha : forall j w, 0 <= w -> (ii_xo ii <? 2 ^ w) = true ->
    Z.lor (Z.shiftl j (w + 1)) (2 * ii_xo ii) = j * 2 ^ (w + 1) + 2 * ii_xo ii /\
    Z.lor (Z.shiftl j (w + 1)) (2 * ii_xo ii + 1) = j * 2 ^ (w + 1) + (2 * ii_xo ii + 1)).
  { intros j w Hw Hlt. assert (2 ^ (w + 1) = 2 * 2 ^ w) by (rewrite Z.pow_add_r; lia).
    split; apply lor_high; unfold is_uint; lia. }
  destruct (ii_format ii) eqn:E; try discriminate; injection Hl as <-;
    rewrite <- ?Z.lor_assoc, ?lor_shiftl_1, ?shiftl_1, ?elem_of_range, ?elem_of_cons, ?elem_of_nil, ?Z.eqb_eq.
  all: try (Z.to_euclidean_division_equations; lia).
  - assert (HA : forall j,
      ext ∈ [Z.lor (Z.shiftl j 6) (2 * ii_xo ii); Z.lor (Z.lor (Z.shiftl j 6) (2 * ii_xo ii)) 1] <->
      ext = j * 64 + 2 * ii_xo ii \/ ext = j * 64 + (2 * ii_xo ii + 1)).
    { intros j. rewrite <- Z.lor_assoc, <- shiftl_1, lor_shiftl_1, shiftl_1, !elem_of_cons, elem_of_nil.
      pose proof (Ha j 5 ltac:(lia) Hx) as [H1 H2]. change (5 + 1) with 6 in *.
      rewrite H1, H2. change (2 ^ 6) with 64. tauto. }
    rewrite list_elem_of_bind. setoid_rewrite HA. setoid_rewrite elem_of_range.
    split; [intros (j & Hj & Hr)|intros Hm; exists (ext / 64)];
      Z.to_euclidean_division_equations; lia.
  - pose proof (Ha 1 9 ltac:(lia) Hx) as [H1 H2]. change (9 + 1) with 10 in *.
    rewrite H1, H2. Z.to_euclidean_division_equations; lia.
  - rewrite (lor_high 1 10) by (try apply Hu; done || lia). Z.to_euclidean_division_equations; lia.
  - rewrite list_elem_of_fmap. setoid_rewrite elem_of_range. split.
    + intros (j & -> & Hr). rewrite (lor_high j 6) by (try apply Hu; done || lia).
      Z.to_euclidean_division_equations; lia.
    + intros Hm. exists (ext / 64). rewrite (lor_high _ 6) by (try apply Hu; done || lia).
      Z.to_euclidean_division_equations; lia.
Qed.

Lemma match_ext_lt ii : entry_ok ii = true -> ii_format ii <> INVALID_form -> exists l, entry_exts ii = Some l.
Proof.
  unfold entry_ok, entry_exts. intros [_ H]%andb_prop Hf.
  destruct (ii_format ii); try discriminate H; try done; by eexists.
Qed.

(** What [entry_ok] gives for an entry that is not the first. *)
Lemma entry_indexes_spec ii :
  entry_ok ii = true -> ii_format ii <> INVALID_form ->
  exists l, entry_indexes ii = Some l /\
    (forall opcode, is_uint 32 opcode -> get_ii_index opcode ∈ l <-> matches opcode ii = true).
Proof.
  intros Hok Hf. destruct (match_ext_lt ii Hok Hf) as [l Hl].
  unfold entry_indexes, matches. rewrite bool_decide_eq_false_2 by done. rewrite Hl.
  eexists. split; [reflexivity|]. intros opcode Hop. cbn [orb].
  destruct (get_ii_index_add _ Hop) as (H6 & H11 & ->).
  assert (0 <= ii_opcode ii < 64) as Ho.
  { unfold entry_ok in Hok. apply andb_prop in Hok as [Hok _].
    apply andb_prop in Hok as [Hok _]. lia. }
  rewrite andb_true_iff, Z.eqb_eq, <- (entry_exts_spec ii l) by done.
  change (map ?f l) with (f <$> l). rewrite list_elem_of_fmap. split.
  - intros (x & Hx & Hin). rewrite make_ii_index_add in Hx by done.
    assert (Z.shiftr opcode 26 = ii_opcode ii /\ Z.land opcode 0x7ff = x) as [? ->] by lia. done.
  - intros [Ho' Hin]. exists (Z.land opcode 0x7ff). split; [|done].
    rewrite make_ii_index_add by done. lia.
Qed.

Lemma set_indexes_lookup k l : forall t i,
  set_indexes k l t !! i = if bool_decide (i ∈ l) then Some k else t !! i.
Proof.
  induction l as [|x l IH]; intros t i.
  { by rewrite bool_decide_eq_false_2 by apply not_elem_of_nil. }
  change (set_indexes k (x :: l) t) with (set_indexes k l (<[x := k]> t)). rewrite IH. case_bool_decide as H1; case_bool_decide as H2; set_unfold; try tauto.
  - destruct H2 as [->|]; [|tauto]. apply lookup_insert_eq.
  - apply lookup_insert_ne. naive_solver.
Qed.

(** ** The table as built *)

(** The entry that decodes [opcode]: the last one that matches. *)
Definition match_step (opcode : Z) (r : option instr_info) (ii : instr_info) : option instr_info :=
  if matches opcode ii then Some ii else r.

Record decoder_inv (d : decoder) : Prop := {
  dec_nonempty : ii_table d <> [];
  dec_index i k : ii_index_table d !! i = Some k -> 0 <= k < Z.of_nat (length (ii_table d));
}.

Lemma init_decoder_entry_spec ii d :
  entry_ok ii = true -> ii_format ii <> INVALID_form -> decoder_inv d ->
  Z.of_nat (length (ii_table d)) < 65536 ->
  exists d', init_decoder_entry ii d = Ok d' /\ decoder_inv d' /\
    ii_table d' = ii_table d ++ [ii] /\
    forall opcode, is_uint 32 opcode -> decode d' opcode = match_step opcode (decode d opcode) ii.
Proof.
  intros Hok Hf [Hne Hi] Hlen. destruct (entry_indexes_spec ii Hok Hf) as (l & Hl & Hm).
  unfold init_decoder_entry. rewrite Hl, length_app, bool_decide_eq_false_2 by done. cbn [length].
  assert (Hpos : 0 < Z.of_nat (length (ii_table d))) by (destruct (ii_table d); cbn; done || lia).
  rewrite trunc_small by (unfold is_uint; lia).
  match goal with |- context [?x =? 0] => destruct (Z.eqb_spec x 0); [lia|] end. cbn [Bool.eqb negb]. eexists. split; [done|]. split_and!.
  - split; cbn [ii_table ii_index_table]; [by destruct (ii_table d)|].
    intros i k. rewrite set_indexes_lookup, length_app. cbn [length].
    case_bool_decide; [intros [= <-]; lia|]. intros Hk%Hi. lia.
  - done.
  - intros opcode Hop. unfold decode, match_step. cbn [ii_table ii_index_table].
    rewrite set_indexes_lookup. specialize (Hm opcode Hop).
    destruct (matches opcode ii).
    + rewrite bool_decide_eq_true_2 by tauto. cbn [mbind option_bind].
      rewrite list_lookup_middle; [done|lia].
    + rewrite bool_decide_eq_false_2 by (intros ?; naive_solver).
      destruct (ii_index_table d !! get_ii_index opcode) as [k|] eqn:Ek; [|done]. cbn.
      apply Hi in Ek. apply lookup_app_l. lia.
Qed.

Lemma init_entries_spec tail : forall d,
  Forall (fun ii => entry_ok ii = true /\ ii_format ii <> INVALID_form) tail -> decoder_inv d ->
  Z.of_nat (length (ii_table d)) + Z.of_nat (length tail) <= 65536 ->
  exists d', foldM init_decoder_entry tail d = Ok d' /\ ii_table d' = ii_table d ++ tail /\
    forall opcode, is_uint 32 opcode ->
      decode d' opcode = foldl (match_step opcode) (decode d opcode) tail.
Proof.
  induction tail as [|ii tail IH]; intros d Hall Hd Hlen.
  { exists d. split_and!; [done|by rewrite app_nil_r|done]. }
  apply Forall_cons in Hall as [[Hok Hf] Hall]. cbn [length] in Hlen.
  destruct (init_decoder_entry_spec ii d Hok Hf Hd) as (d1 & H1 & Hd1 & Ht1 & Hdec1); [lia|].
  destruct (IH d1 Hall Hd1) as (d' & H' & Ht' & Hdec').
  { rewrite Ht1, length_app. cbn [length]. lia. }
  exists d'. cbn [foldM]. rewrite H1. cbn [mbind outcome_bind].
  split_and!; [done|by rewrite Ht', Ht1, <- app_assoc|].
  intros opcode Hop. rewrite Hdec', Hdec1 by done. done.
Qed.

(** ** No two entries share a cell *)

Fixpoint fresh_indexes (l : list Z) (m : gmap Z unit) : option (gmap Z unit) :=
  match l with
  | [] => Some m
  | x :: l => match m !! x with Some _ => None | None => fresh_indexes l (<[x := tt]> m) end
  end.

Fixpoint disjoint_entries (t : list instr_info) (m : gmap Z unit) : bool :=
  match t with
  | [] => true
  | ii :: t =>
      match entry_indexes ii ≫= fun l => fresh_indexes l m with
      | Some m => disjoint_entries t m
      | None => false
      end
  end.

Lemma fresh_indexes_spec l : forall m m', fresh_indexes l m = Some m' ->
  (forall x, x ∈ l -> m !! x = None /\ is_Some (m' !! x)) /\
  (forall x, is_Some (m !! x) -> is_Some (m' !! x)).
Proof.
  induction l as [|y l IH]; intros m m' H; cbn in H.
  { injection H as ->. split; [by intros x ?%elem_of_nil|done]. }
  destruct (m !! y) eqn:Ey; [done|]. destruct (IH _ _ H) as [H1 H2]. split.
  - intros x [->|Hx]%elem_of_cons.
    + split; [done|]. apply H2. rewrite lookup_insert_eq. by eexists.
    + destruct (H1 x Hx) as [Hn Hs]. split; [|done].
      destruct (decide (x = y)) as [->|]; [done|]. by rewrite lookup_insert_ne in Hn.
  - intros x Hx. apply H2. destruct (decide (x = y)) as [->|].
    + rewrite lookup_insert_eq. by eexists.
    + by rewrite lookup_insert_ne.
Qed.

Lemma disjoint_entries_spec t : forall m, disjoint_entries t m = true ->
  (forall ii l x, ii ∈ t -> entry_indexes ii = Some l -> x ∈ l -> m !! x = None) /\
  (forall ii jj l k x, ii ∈ t -> jj ∈ t -> entry_indexes ii = Some l -> entry_indexes jj = Some k ->
     x ∈ l -> x ∈ k -> ii = jj).
Proof.
  induction t as [|hh t IH]; intros m H; cbn in H.
  { split; [by intros ??? ?%elem_of_nil|by intros ????? ?%elem_of_nil]. }
  destruct (entry_indexes hh) as [h|] eqn:Eh; [|done]. cbn in H.
  destruct (fresh_indexes h m) as [m'|] eqn:Ef; [|done].
  apply fresh_indexes_spec in Ef as [Hf1 Hf2]. destruct (IH _ H) as [H1 H2].
  assert (Hout : forall jj k x, jj ∈ t -> entry_indexes jj = Some k -> x ∈ k -> x ∉ h).
  { intros jj k x Hj Hk Hx Hh. destruct (Hf1 x Hh) as [_ [? Hs]].
    rewrite (H1 _ _ _ Hj Hk Hx) in Hs. done. }
  split.
  - intros ii l x [->|Hi]%elem_of_cons Hl Hx.
    + assert (l = h) as -> by congruence. by apply Hf1.
    + destruct (m !! x) eqn:Em; [|done]. destruct (Hf2 x ltac:(by eexists)) as [? Hs].
      rewrite (H1 _ _ _ Hi Hl Hx) in Hs. done.
  - intros ii jj l k x [->|Hi]%elem_of_cons [->|Hj]%elem_of_cons Hl Hk Hxl Hxk; [done|..].
    + assert (l = h) as -> by congruence. by destruct (Hout _ _ _ Hj Hk Hxk).
    + assert (k = h) as -> by congruence. by destruct (Hout _ _ _ Hi Hl Hxl).
    + by apply (H2 ii jj l k x).
Qed.

Definition all_entries : list instr_info := tail powerpc_ii_table ++ sheep_ii_table.
Definition invalid_entry : instr_info := II "invalid"%string execute_illegal_h INVALID_form 0 0 CFLOW_TRAP.

Lemma powerpc_ii_table_cons : powerpc_ii_table = invalid_entry :: tail powerpc_ii_table.
Proof. reflexivity. Qed.

Lemma all_entries_ok :
  Forall (fun ii => entry_ok ii = true /\ ii_format ii <> INVALID_form) all_entries.
Proof. apply (bool_decide_unpack _). vm_compute. exact I. Qed.

Lemma all_entries_disjoint : disjoint_entries all_entries ∅ = true.
Proof. vm_compute. reflexivity. Qed.

Lemma all_entries_handlers : forallb (fun ii => handler_ok (ii_execute ii)) all_entries = true.
Proof. vm_compute. reflexivity. Qed.

(** At most one entry matches an opcode. *)
Lemma matches_unique opcode ii jj :
  is_uint 32 opcode -> ii ∈ all_entries -> jj ∈ all_entries ->
  matches opcode ii = true -> matches opcode jj = true -> ii = jj.
Proof.
  intros Hop Hi Hj Mi Mj. pose proof all_entries_ok as Hall. rewrite Forall_forall in Hall.
  destruct (Hall _ Hi) as [Oi Fi]. destruct (Hall _ Hj) as [Oj Fj].
  destruct (entry_indexes_spec ii Oi Fi) as (l & Hl & Hml).
  destruct (entry_indexes_spec jj Oj Fj) as (k & Hk & Hmk).
  destruct (disjoint_entries_spec _ _ all_entries_disjoint) as [_ Hd].
  apply (Hd ii jj l k (get_ii_index opcode)); try done; [by apply Hml|by apply Hmk].
Qed.

Lemma foldl_match_step opcode l : forall r,
  (forall ii jj, ii ∈ l -> jj ∈ l -> matches opcode ii = true -> matches opcode jj = true -> ii = jj) ->
  (forall ii, ii ∈ l -> matches opcode ii = true -> foldl (match_step opcode) r l = Some ii) /\
  ((forall ii, ii ∈ l -> matches opcode ii = false) -> foldl (match_step opcode) r l = r).
Proof.
  induction l as [|hh l IH]; intros r Hu.
  { split; [by intros ? ?%elem_of_nil|done]. }
  assert (Hu' : forall ii jj, ii ∈ l -> jj ∈ l -> matches opcode ii = true ->
    matches opcode jj = true -> ii = jj) by (intros; apply Hu; by try right).
  destruct (IH (match_step opcode r hh) Hu') as [H1 H2]. cbn [foldl]. split.
  - intros ii [->|Hi]%elem_of_cons Hm; [|by apply H1].
    destruct (decide (Exists (fun jj => matches opcode jj = true) l)) as [He|Hn].
    + apply Exists_exists in He as (jj & Hj & Mj). rewrite (H1 jj Hj Mj).
      f_equal. apply Hu; [by right|left|done|done].
    + rewrite H2; [unfold match_step; by rewrite Hm|].
      intros jj Hj. destruct (matches opcode jj) eqn:E; [|done].
      destruct Hn. apply Exists_exists. exists jj. split; [exact Hj|exact E].
  - intros Hall. rewrite H2 by (intros; apply Hall; by right).
    unfold match_step. by rewrite (Hall hh ltac:(left)).
Qed.

(** The first entry fills the table. *)
Lemma init_invalid_entry :
  exists d, init_decoder_entry invalid_entry (Decoder [] ∅) = Ok d /\ decoder_inv d /\
    ii_table d = [invalid_entry] /\
    (forall i, ii_index_table d !! i = if bool_decide (0 <= i < II_INDEX_TABLE_SIZE) then Some 0 else None).
Proof.
  assert (Hn : Z.of_nat (Z.to_nat II_INDEX_TABLE_SIZE) = II_INDEX_TABLE_SIZE) by (apply Z2Nat.id; done).
  unfold init_decoder_entry, entry_indexes. cbn [ii_format invalid_entry ii_table app length].
  change (u16 (Z.of_nat 1 - 1)) with 0. cbn [Z.eqb]. rewrite !bool_decide_eq_true_2 by done.
  cbn [Bool.eqb negb]. generalize dependent (Z.to_nat II_INDEX_TABLE_SIZE). intros n Hn.
  assert (Hi : forall i, set_indexes 0 (range 0 n) ∅ !! i =
    if bool_decide (0 <= i < II_INDEX_TABLE_SIZE) then Some 0 else None).
  { intros i. rewrite set_indexes_lookup, lookup_empty.
    by rewrite (bool_decide_ext _ _ (elem_of_range 0 n i)), Hn. }
  eexists. split; [reflexivity|]. split_and!; [|done|exact Hi].
  split; [done|]. cbn. intros i k. rewrite Hi. case_bool_decide; [|done]. intros [= <-]. lia.
Qed.

Lemma decode_spec_all :
  exists d, build_decoder = Ok d /\
    forall opcode, is_uint 32 opcode ->
      decode d opcode = foldl (match_step opcode) (Some invalid_entry) all_entries.
Proof.
  destruct init_invalid_entry as (d0 & H0 & Hinv & Ht0 & Hi0).
  destruct (init_entries_spec all_entries d0 all_entries_ok Hinv) as (d & Hd & _ & Hdec).
  { rewrite Ht0. by vm_compute. }
  exists d. split.
  - unfold build_decoder, init_decoder, sheepshaver_init_decoder.
    replace (negb _) with false by (by vm_compute).
    rewrite powerpc_ii_table_cons. cbn [foldM]. rewrite H0. cbn [mbind outcome_bind].
    unfold all_entries in Hd. by rewrite foldM_app in Hd.
  - intros opcode Hop. rewrite (Hdec opcode Hop). f_equal. unfold decode.
    destruct (get_ii_index_add _ Hop) as (? & ? & E).
    rewrite Hi0, bool_decide_eq_true_2 by (rewrite E; unfold II_INDEX_TABLE_SIZE; lia).
    cbn [mbind option_bind]. by rewrite Ht0.
Qed.

#[global] Opaque build_decoder.
#[local] Opaque all_entries.

(** C7: The decoder is pattern matching.  Initialisation succeeds (no
    assertion fails, no form is unhandled), every 32-bit opcode decodes, the
    entries of the two tables never overlap, and an opcode decodes to an
    entry exactly when its primary opcode and the extended opcode of that
    entry's form are the entry's; an opcode no entry matches decodes to the
    entry for invalid instructions. *)
Theorem decode_correct :
  exists d, build_decoder = Ok d /\
    forall opcode, is_uint 32 opcode ->
      (forall ii, ii ∈ all_entries -> decode d opcode = Some ii <-> matches opcode ii = true) /\
      (decode d opcode = Some invalid_entry <->
       forall ii, ii ∈ all_entries -> matches opcode ii = false).
Proof.
  destruct decode_spec_all as (d & Hd & Hdec). exists d. split; [exact Hd|].
  intros opcode Hop. rewrite (Hdec opcode Hop).
  destruct (foldl_match_step opcode all_entries (Some invalid_entry)) as [H1 H2].
  { intros ii jj Hi Hj. by apply matches_unique. }
  pose proof all_entries_ok as Hall. rewrite Forall_forall in Hall.
  destruct (decide (Exists (fun jj => matches opcode jj = true) all_entries)) as [He|Hn].
  - apply Exists_exists in He as (jj & Hj & Mj). rewrite (H1 jj Hj Mj). split.
    + intros ii Hi. split; [by intros [= <-]|]. intros Mi. f_equal. by apply (matches_unique opcode).
    + split; [|intros Hf; by rewrite (Hf jj Hj) in Mj].
      intros [= ->]. by destruct (Hall _ Hj) as [_ []].
  - assert (Hno : forall ii, ii ∈ all_entries -> matches opcode ii = false).
    { intros ii Hi. destruct (matches opcode ii) eqn:E; [|done].
      destruct Hn. apply Exists_exists. exists ii. split; [exact Hi|exact E]. }
    rewrite (H2 Hno). split; [|split; [intros _; exact Hno|reflexivity]].
    intros ii Hi. rewrite (Hno ii Hi). split; [|discriminate].
    intros [= <-]. by destruct (Hall _ Hi) as [_ []].
Qed.

Lemma decode_correct_witness :
  exists d ii, build_decoder = Ok d /\ decode d 0x7c0802a6 = Some ii /\ ii_name ii = "mfspr"%string /\
    decode d 0 = Some invalid_entry.
Proof.
  assert (is_uint 32 0x7c0802a6) as Hu1 by done. assert (is_uint 32 0) as Hu2 by done.
  destruct decode_correct as (d & Hd & H).
  exists d, (II "mfspr"%string (execute_mfspr_h operand_SPR) XFX_form 31 339 CFLOW_NORMAL).
  split; [exact Hd|]. split_and!.
  - apply (proj2 (proj1 (H 0x7c0802a6 Hu1) _ ltac:(apply (list_elem_of_lookup_2 _ 119); vm_compute; reflexivity))).
    vm_compute. reflexivity.
  - reflexivity.
  - apply (proj2 (proj2 (H 0 Hu2))).
    assert (Hf : Forall (fun ii => matches 0 ii = false) all_entries)
      by (apply (bool_decide_unpack _); vm_compute; exact I).
    rewrite Forall_forall in Hf. exact Hf.
Defined.
