(* ===== verification/Interp.v ===== *)
(** The emulation loops (kpx_cpu/src/cpu/ppc/ppc-cpu.cpp): special flags, the
    plain interpreter, predecoding into the decode cache, and [execute].

    Loops of unbounded length take a bound [fuel]; running out of it is the
    outcome [Fuel]. *)
From S2P Require Import Prelude Bitfields Registers HostFPU Operations Memory Handlers BlockCache Cpu Operands ExecInt ExecMem ExecSys Dispatch DecodeTable Decode.

(** [powerpc_cpu::decode] of an object whose constructors have run: on opcodes
    it is the look-up in the index table that they build. *)
Class CpuDecoder := {
  cpu_decode : Z -> option instr_info;
  cpu_decode_built opcode : is_uint 32 opcode ->
    exists d, build_decoder = Ok d /\ cpu_decode opcode = decode d opcode;
}.

Definition DECODE_CACHE_MAX_ENTRIES := 32768.

(** [init_decode_cache] on a fresh mapping. *)
Definition init_decode_cache (c : powerpc_cpu) : powerpc_cpu := set_decode_cache ∅ 0 c.

Section Exec.
Context {FPU : HostFPU} {HOST : Host} {DEC : CpuDecoder}.

(** ** Special flags *)

Definition handle_interrupt (c : powerpc_cpu) : outcome powerpc_cpu :=
  let c := set_processing_interrupt true c in
  let r := interrupt_copy uninit_registers (regs c) in
  '(r, c) ← HandleInterrupt r c;
  let c := with_regs (fun oregs => interrupt_copy oregs r) c in
  Ok (set_processing_interrupt false c).

(** [false] asks the emulation loop to return. *)
Definition check_spcflags (c : powerpc_cpu) : outcome (bool * powerpc_cpu) :=
  let clear v c := set_spcflags (spcflags_clear v (spcflags c)) c in
  if spcflags_test SPCFLAG_CPU_EXEC_RETURN (spcflags c)
  then Ok (false, clear SPCFLAG_CPU_EXEC_RETURN c)
  else
    c ← (if spcflags_test SPCFLAG_CPU_HANDLE_INTERRUPT (spcflags c) then
           let c := clear SPCFLAG_CPU_HANDLE_INTERRUPT c in
           if negb (processing_interrupt c) then handle_interrupt c else Ok c
         else Ok c);
    let c :=
      if spcflags_test SPCFLAG_CPU_TRIGGER_INTERRUPT (spcflags c) then
        let c := clear SPCFLAG_CPU_TRIGGER_INTERRUPT c in
        set_spcflags (spcflags_set SPCFLAG_CPU_HANDLE_INTERRUPT (spcflags c)) c
      else c in
    let c :=
      if spcflags_test SPCFLAG_CPU_ENTER_MON (spcflags c)
      then clear SPCFLAG_CPU_ENTER_MON c else c in
    Ok (true, c).

(** ** The plain interpreter ([do_interpret]) *)

(** One turn of the loop; [false] leaves it. *)
Definition interp_step (c : powerpc_cpu) : outcome (bool * powerpc_cpu) :=
  opcode ← vm_read_memory_4 (mem c) (pc c);
  match cpu_decode opcode with
  | None => Abort
  | Some ii =>
      c ← run_handler (ii_execute ii) opcode c;
      if spcflags_empty (spcflags c) then Ok (true, c) else check_spcflags c
  end.

Fixpoint do_interpret (fuel : nat) (c : powerpc_cpu) : outcome powerpc_cpu :=
  match fuel with
  | O => Fuel
  | S fuel =>
      '(continue, c) ← interp_step c;
      if (continue : bool) then do_interpret fuel c else Ok c
  end.

(** ** Predecoding a block *)

(** A write to the decode cache; past its end it is outside the mapping. *)
Definition write_di (i : Z) (d : decode_info) (c : powerpc_cpu) : outcome powerpc_cpu :=
  if i <? DECODE_CACHE_MAX_ENTRIES
  then Ok (set_decode_cache (<[i := d]> (decode_cache c)) (decode_cache_p c) c)
  else Segv i.

(** [memmove(dst, src, n * sizeof( *di))] inside the decode cache. *)
Definition move_di (dst src : Z) (n : nat) (t : gmap Z decode_info) : gmap Z decode_info :=
  foldl (fun t' i =>
    match t !! (src + i) with
    | Some d => <[dst + i := d]> t'
    | None => delete (dst + i) t'
    end) t (count_up n).

(** The [do] loop: [bi_di] is [bi->di], [di] the next entry, [dpc] the address
    of the last instruction read.  It ends within one more than the cache's
    entries, since there is no room for more. *)
Fixpoint predecode_loop (fuel : nat) (bi_di di dpc : Z) (c : powerpc_cpu)
  : outcome (Z * Z * Z * powerpc_cpu) :=
  match fuel with
  | O => Fuel
  | S fuel =>
      let dpc := u32 (dpc + 4) in
      opcode ← vm_read_memory_4 (mem c) dpc;
      match cpu_decode opcode with
      | None => Abort
      | Some ii =>
          c ← write_di di (DI (ii_execute ii) opcode) c;
          let di := di + 1 in
          let '(bi_di, di, c) :=
            if DECODE_CACHE_MAX_ENTRIES <=? di then
              let c := invalidate_cache c in
              let blocklen := di - bi_di in
              let p := decode_cache_p c in
              let c := set_decode_cache (move_di p bi_di (Z.to_nat blocklen) (decode_cache c)) p c in
              (p, p + blocklen, c)
            else (bi_di, di, c) in
          if Z.land (ii_cflow ii) CFLOW_END_BLOCK =? 0
          then predecode_loop fuel bi_di di dpc c
          else Ok (bi_di, di, dpc, c)
      end
  end.

Definition predecode_fuel : nat := Z.to_nat (DECODE_CACHE_MAX_ENTRIES + 1).

(** The block at [pc()] that is not in the cache; [entry] is the argument of
    [execute]. *)
Definition predecode (entry : Z) (c : powerpc_cpu) : outcome (Z * powerpc_cpu) :=
  let '(bi, bc) := new_blockinfo (my_block_cache c) in
  let c := set_block_cache (set_info bi (bi_init (pc c) (info bc bi)) bc) c in
  '(di0, di, dpc, c) ←
    predecode_loop predecode_fuel (decode_cache_p c) (decode_cache_p c) (u32 (pc c - 4)) c;
  let bc := my_block_cache c in
  let size := di - di0 in
  let bc := set_info bi (BI (bi_pc (info bc bi)) dpc size (Some di0) dpc entry) bc in
  let c := set_block_cache (add_to_active_list bi (add_to_cl_list bi bc)) c in
  Ok (bi, set_decode_cache (decode_cache c) (decode_cache_p c + size) c).

(** ** Running a block *)

Definition run_entry (di : Z) (c : powerpc_cpu) : outcome powerpc_cpu :=
  match decode_cache c !! di with
  | Some d => run_handler (di_execute d) (di_opcode d) c
  | None => Segv di
  end.

(** The body of the unrolled loop, entered at [case r]. *)
Definition duff_body (r di : Z) (c : powerpc_cpu) : outcome (Z * powerpc_cpu) :=
  '(di, c) ← (if r =? 0
              then let di := di + 4 in c ← run_entry (di - 4) c; Ok (di, c)
              else Ok (di, c));
  c ← (if (r =? 0) || (r =? 3) then run_entry (di - 3) c else Ok c);
  c ← (if (r =? 0) || (r =? 3) || (r =? 2) then run_entry (di - 2) c else Ok c);
  c ← run_entry (di - 1) c;
  Ok (di, c).

Fixpoint duff_loop (fuel : nat) (r n di : Z) (c : powerpc_cpu) : outcome powerpc_cpu :=
  match fuel with
  | O => Fuel
  | S fuel =>
      '(di, c) ← duff_body r di c;
      let n := n - 1 in
      if 0 <? n then duff_loop fuel 0 n di c else Ok c
  end.

Definition run_block (di0 size : Z) (c : powerpc_cpu) : outcome powerpc_cpu :=
  let r := size mod 4 in
  let n := (size + 3) / 4 in
  duff_loop (S (Z.to_nat n)) r n (di0 + r) c.

(** ** [execute] *)

(** The loops around [pdi_execute]; [bi] is [None] at the top of the outer
    one.  The result says whether the cache was invalidated. *)
Fixpoint pdi_loop (fuel : nat) (entry : Z) (bi : option Z) (invalidated : bool) (c : powerpc_cpu)
  : outcome (bool * powerpc_cpu) :=
  match fuel with
  | O => Fuel
  | S fuel =>
      match bi with
      | None =>
          let '(r, bc) := find (pc c) (my_block_cache c) in
          let c := set_block_cache bc c in
          match r with
          | Some x => pdi_loop fuel entry (Some x) invalidated c
          | None =>
              '(x, c) ← predecode entry c;
              pdi_loop fuel entry (Some x) invalidated c
          end
      | Some x =>
          let b := info (my_block_cache c) x in
          c ← match bi_di b with
              | Some di => run_block di (bi_size b) c
              | None => Segv 0
              end;
          '(continue, c) ← (if spcflags_empty (spcflags c) then Ok (true, c) else check_spcflags c);
          if negb (continue : bool) then Ok (invalidated, c)
          else if spcflags_test SPCFLAG_JIT_EXEC_RETURN (spcflags c) then
            pdi_loop fuel entry None true
              (set_spcflags (spcflags_clear SPCFLAG_JIT_EXEC_RETURN (spcflags c)) c)
          else if bi_pc (info (my_block_cache c) x) =? pc c
          then pdi_loop fuel entry (Some x) invalidated c
          else
            let '(r, bc) := find (pc c) (my_block_cache c) in
            pdi_loop fuel entry r invalidated (set_block_cache bc c)
      end
  end.

Definition execute (fuel : nat) (entry : Z) (c : powerpc_cpu) : outcome powerpc_cpu :=
  let c := set_pc entry c in
  let c := set_execute_depth (execute_depth c + 1) c in
  '(invalidated, c) ←
    (if execute_depth c =? 1 then pdi_loop fuel entry None false c
     else c ← do_interpret fuel c; Ok (false, c));
  let c := if (invalidated : bool)
           then set_spcflags (spcflags_set SPCFLAG_JIT_EXEC_RETURN (spcflags c)) c else c in
  Ok (set_execute_depth (execute_depth c - 1) c).
End Exec.

(** The instance to run programs with, without the table: the search in the
    list of instructions that the table is equivalent to. *)
Definition search_decode (opcode : Z) : option instr_info :=
  foldl (match_step opcode) (Some invalid_entry) all_entries.
Lemma search_decode_built opcode :
  is_uint 32 opcode -> exists d, build_decoder = Ok d /\ search_decode opcode = decode d opcode.
Proof. intros Hop. destruct decode_spec_all as (d & Hd & H). exists d. split; [exact Hd|]. by rewrite H. Qed.
Definition built_decoder : CpuDecoder := {|
  cpu_decode := search_decode; cpu_decode_built := search_decode_built |}.
