(* ===== verification/Frame.v ===== *)
(** What an instruction leaves alone: the decode cache, the nesting depth of
    [execute] and the interrupt guard belong to the emulation loops, the top of
    the stack shared with Mac OS to the code around the CPU, the block cache
    only loses blocks, by range, and every instruction that is not a
    branch continues at the next one.  The client of
    these facts is the predecoding loop (Interp.v), which runs the entries of
    a block without looking at the program counter in between. *)
From S2P Require Import Prelude Bitfields Registers HostFPU Operations Memory Handlers BlockCache Cpu Operands ExecInt ExecMem ExecFP ExecVec ExecSys Dispatch.

(** ** The state of the loops *)

Record frame := Frame {
  fr_cache : gmap Z decode_info;
  fr_cache_p : Z;
  fr_depth : Z;
  fr_interrupt : bool;
  fr_blocks : block_cache;
  fr_data : Z;
}.

Definition frame_of (c : powerpc_cpu) : frame :=
  Frame (decode_cache c) (decode_cache_p c) (execute_depth c) (processing_interrupt c)
    (my_block_cache c) (u64 (sheep_data (sheep c))).

(** One invalidation by range. *)
Definition cleared (bc bc' : block_cache) : Prop := exists start end_, bc' = clear_range start end_ bc.

(** The loops' state is [k], up to invalidated blocks. *)
Definition in_frame (k : frame) (c : powerpc_cpu) : Prop :=
  decode_cache c = fr_cache k /\ decode_cache_p c = fr_cache_p k /\
  execute_depth c = fr_depth k /\ processing_interrupt c = fr_interrupt k /\
  u64 (sheep_data (sheep c)) = fr_data k /\
  rtc cleared (fr_blocks k) (my_block_cache c).

(** The state is at address [p] with the loops' state [k]. *)
Definition at_pc (p : Z) (k : frame) (c : powerpc_cpu) : Prop := pc c = p /\ in_frame k c.

Lemma in_frame_refl c : in_frame (frame_of c) c.
Proof. by split_and!. Qed.

Lemma in_frame_depth c c' : in_frame (frame_of c) c' -> execute_depth c' = execute_depth c.
Proof. intros (_ & _ & E & _). exact E. Qed.

Lemma in_frame_trans k c c' : in_frame k c -> in_frame (frame_of c) c' -> in_frame k c'.
Proof.
  unfold in_frame. intros (<- & <- & <- & <- & <- & H) (E1 & E2 & E3 & E4 & E5 & H').
  split_and!; try done. by etrans.
Qed.

(** What the rest of the emulator, called from emulated code, promises about
    the loops' state. *)
Class HostFrame (H : Host) := {
  EmulOp_frame r pc68 op c : 1 <= execute_depth c ->
    outcome_holds (fun '(_, c') => in_frame (frame_of c) c') (EmulOp r pc68 op c);
  execute_native_op_frame op c : 1 <= execute_depth c ->
    outcome_holds (in_frame (frame_of c)) (execute_native_op op c);
  HandleInterrupt_frame r c : 1 <= execute_depth c ->
    outcome_holds (fun '(_, c') => in_frame (frame_of c) c') (HandleInterrupt r c);
}.

#[export] Instance null_host_frame : HostFrame null_host.
Proof. split; intros; try exact I; apply in_frame_refl. Qed.

Create HintDb at_pc discriminated.
#[export] Hint Constants Opaque : at_pc.

Section Setters.
Context (p : Z) (k : frame) (c : powerpc_cpu) (Hc : at_pc p k c).

Lemma set_gpr_at i v : at_pc p k (set_gpr i v c).
Proof using Hc. exact Hc. Qed.
Lemma set_fpr_dw_at i v : at_pc p k (set_fpr_dw i v c).
Proof using Hc. exact Hc. Qed.
Lemma set_vr_at i v : at_pc p k (set_vr i v c).
Proof using Hc. exact Hc. Qed.
Lemma set_cr_at v : at_pc p k (set_cr v c).
Proof using Hc. exact Hc. Qed.
Lemma set_xer_at v : at_pc p k (set_xer v c).
Proof using Hc. exact Hc. Qed.
Lemma set_vscr_at v : at_pc p k (set_vscr v c).
Proof using Hc. exact Hc. Qed.
Lemma set_vrsave_at v : at_pc p k (set_vrsave v c).
Proof using Hc. exact Hc. Qed.
Lemma set_fpscr_at v : at_pc p k (set_fpscr v c).
Proof using Hc. exact Hc. Qed.
Lemma set_lr_at v : at_pc p k (set_lr v c).
Proof using Hc. exact Hc. Qed.
Lemma set_ctr_at v : at_pc p k (set_ctr v c).
Proof using Hc. exact Hc. Qed.
Lemma set_spcflags_at v : at_pc p k (set_spcflags v c).
Proof using Hc. exact Hc. Qed.
Lemma set_reserve_at v a : at_pc p k (set_reserve v a c).
Proof using Hc. exact Hc. Qed.
Lemma set_mem_at m : at_pc p k (set_mem m c).
Proof using Hc. exact Hc. Qed.
Lemma set_cache_range_at s e : at_pc p k (set_cache_range s e c).
Proof using Hc. exact Hc. Qed.
Lemma fesetround_at m : at_pc p k (fesetround m c).
Proof using Hc. exact Hc. Qed.
Lemma tick_at : at_pc p k (tick c).
Proof using Hc. exact Hc. Qed.
Lemma record_cr_at crfd v : at_pc p k (record_cr crfd v c).
Proof using Hc. exact Hc. Qed.
Lemma record_cr0_at v : at_pc p k (record_cr0 v c).
Proof using Hc. exact Hc. Qed.
Lemma record_cr1_at : at_pc p k (record_cr1 c).
Proof using Hc. exact Hc. Qed.
Lemma record_fpscr_at e : at_pc p k (record_fpscr e c).
Proof using Hc. exact Hc. Qed.
Lemma record_cr6_at v b : at_pc p k (record_cr6 v b c).
Proof using Hc. unfold record_cr6. repeat case_match; exact Hc. Qed.
Lemma invalidate_cache_range_at s e : at_pc p k (invalidate_cache_range s e c).
Proof using Hc.
  destruct Hc as (Hp & H1 & H2 & H3 & H4 & H5 & H6).
  refine (conj Hp (conj H1 (conj H2 (conj H3 (conj H4 (conj H5 _)))))).
  eapply rtc_r; [exact H6|]. by exists s, e.
Qed.
Lemma set_pc_at q : at_pc q k (set_pc q c).
Proof using Hc. split; [reflexivity|exact (proj2 Hc)]. Qed.
Lemma increment_pc_at o : at_pc (u32 (p + o)) k (increment_pc o c).
Proof using Hc. destruct Hc as [<- Hk]. split; [reflexivity|exact Hk]. Qed.
Lemma set_vr_elem_at w r i v : at_pc p k (set_vr_elem w r i v c).
Proof using Hc. exact Hc. Qed.
Lemma set_element_at o op i v : at_pc p k (set_element o op i v c).
Proof using Hc. destruct o; exact Hc. Qed.
Lemma commit_element_at o op i d : at_pc p k (commit_element o op i d c).
Proof using Hc.
  unfold commit_element. destruct (saturate o d) as [d' s].
  destruct s, o; exact Hc.
Qed.
Lemma fp_classify_at FP x : at_pc p k (fp_classify FP x c).
Proof using Hc. exact Hc. Qed.
Lemma update_rounding_at m : at_pc p k (update_rounding m c).
Proof using Hc. unfold update_rounding. destruct (Zb _); exact Hc. Qed.
Lemma execute_invalidate_cache_range_at : at_pc p k (execute_invalidate_cache_range c).
Proof using Hc. unfold execute_invalidate_cache_range. destruct (negb _); [|exact Hc].
  exact (invalidate_cache_range_at (cache_range_start c) (cache_range_end c)).
Qed.
Lemma operand_set_at o op v : outcome_holds (at_pc p k) (operand_set o op v c).
Proof using Hc. destruct o; cbn; try (destruct (_ =? 0); [done|]); exact Hc. Qed.
Lemma cpu_write_at f : outcome_holds (at_pc p k) (cpu_write f c).
Proof using Hc. unfold cpu_write. destruct (f (mem c)); try done. Qed.
End Setters.

#[export] Hint Resolve set_gpr_at set_fpr_dw_at set_vr_at set_cr_at set_xer_at set_vscr_at set_vrsave_at
  set_fpscr_at set_lr_at set_ctr_at set_spcflags_at set_reserve_at set_mem_at set_cache_range_at
  fesetround_at tick_at record_cr_at record_cr0_at record_cr1_at record_fpscr_at
  record_cr6_at invalidate_cache_range_at set_pc_at increment_pc_at set_vr_elem_at set_element_at
  commit_element_at fp_classify_at update_rounding_at execute_invalidate_cache_range_at : at_pc.
#[export] Hint Extern 0 (at_pc _ _ _) => syntactic_assumption : at_pc.

Lemma at_pc_if p k (b : bool) x y : at_pc p k x -> at_pc p k y -> at_pc p k (if b then x else y).
Proof. by destruct b. Qed.
#[export] Hint Resolve at_pc_if : at_pc.

Ltac at_pc := cbn zeta; typeclasses eauto with at_pc.

(** Reads do not touch the state. *)
Lemma read_holds {A B} (m : outcome A) (f : A -> outcome B) (P : B -> Prop) :
  (forall v, outcome_holds P (f v)) -> outcome_holds P (v ← m; f v).
Proof. intros H. destruct m; cbn; auto. Qed.

(** A sequence of steps of a handler. *)
Ltac at_steps :=
  cbn zeta;
  repeat first
    [ apply outcome_holds_ret; at_pc
    | eapply outcome_holds_bind; [apply operand_set_at; at_pc|intros ? ?]
    | eapply outcome_holds_bind; [apply cpu_write_at; at_pc|intros ? ?]
    | apply cpu_write_at; at_pc
    | apply operand_set_at; at_pc
    | apply read_holds; intros ? ].

(** ** Handlers that continue at the next instruction *)

(** Without the preference [ignoreillegal], the only handlers that do not are
    branches and SheepShaver's own instruction. *)
Definition falls_through (h : handler) : bool :=
  match h with
  | execute_branch_h _ _ _ _ _ | execute_sheep_h | execute_syscall_h | execute_mftbr_h _ => false
  | _ => true
  end.

Section Handlers.
Context {FPU : HostFPU} {HOST : Host} (p : Z) (k : frame).
#[local] Notation next := (at_pc (u32 (p + 4)) k).

Lemma execute_shift_at OP RD RA SH SO CA Rc op c :
  at_pc p k c -> outcome_holds next (execute_shift OP RD RA SH SO CA Rc op c).
Proof using. intros. unfold execute_shift. cbn zeta. destruct (Zb _); at_steps. Qed.

Lemma execute_divide_at SB OE Rc op c :
  at_pc p k c -> outcome_holds next (execute_divide SB OE Rc op c).
Proof using.
  intros. unfold execute_divide, do_execute_divide. cbn zeta.
  destruct (_ || _); at_steps.
Qed.

Lemma execute_loadstore_at OP RA RB LD SZ UP RX op c :
  at_pc p k c -> outcome_holds next (execute_loadstore OP RA RB LD SZ UP RX op c).
Proof using.
  intros. unfold execute_loadstore. cbn zeta.
  apply (outcome_holds_bind (at_pc p k)); [destruct LD; at_steps|]. intros c1 H1.
  apply (outcome_holds_bind (at_pc p k)); [destruct UP; at_steps|]. intros c2 H2. at_steps.
Qed.

Lemma loadstore_multiple_loop_at n : forall LD r ea c,
  at_pc p k c -> outcome_holds (at_pc p k) (loadstore_multiple_loop n LD r ea c).
Proof using.
  induction n as [|n IH]; intros LD r ea c Hc; cbn [loadstore_multiple_loop]; [done|].
  apply (outcome_holds_bind (at_pc p k)); [destruct LD; at_steps|]. intros c1 H1. by apply IH.
Qed.

Lemma execute_loadstore_multiple_at RA DP LD op c :
  at_pc p k c -> outcome_holds next (execute_loadstore_multiple RA DP LD op c).
Proof using.
  intros. unfold execute_loadstore_multiple. cbn zeta. destruct (negb _); [at_steps|].
  eapply outcome_holds_bind; [by apply loadstore_multiple_loop_at|]. intros; at_steps.
Qed.

Lemma execute_fp_loadstore_at RA RB LD DB UP op c :
  at_pc p k c -> outcome_holds next (execute_fp_loadstore RA RB LD DB UP op c).
Proof using.
  intros. unfold execute_fp_loadstore. cbn zeta.
  apply (outcome_holds_bind (at_pc p k)); [destruct LD, DB; at_steps|]. intros c1 H1.
  apply (outcome_holds_bind (at_pc p k)); [destruct UP; at_steps|]. intros c2 H2. at_steps.
Qed.

Lemma load_string_tail_at ea nb i rd c :
  at_pc p k c -> outcome_holds (at_pc p k) (load_string_tail ea nb i rd c).
Proof using.
  intros. unfold load_string_tail. destruct (_ =? 1); [|destruct (_ =? 2); [|destruct (_ =? 3)]]; at_steps.
Qed.

Lemma load_string_words_at n : forall ea nb i rd c,
  at_pc p k c -> outcome_holds (at_pc p k) (load_string_words n ea nb i rd c).
Proof using.
  induction n as [|n IH]; intros ea nb i rd c Hc; cbn [load_string_words];
    [by apply load_string_tail_at|]. destruct (4 <=? nb - i); [|by apply load_string_tail_at].
  apply read_holds. intros v. apply IH. at_pc.
Qed.

Lemma execute_load_string_at RA IM NB op c :
  at_pc p k c -> outcome_holds next (execute_load_string RA IM NB op c).
Proof using.
  intros. unfold execute_load_string. cbn zeta.
  eapply outcome_holds_bind; [by apply load_string_words_at|]. intros; at_steps.
Qed.

Lemma store_string_loop_at n : forall ea i rs sh c,
  at_pc p k c -> outcome_holds (at_pc p k) (store_string_loop n ea i rs sh c).
Proof using.
  induction n as [|n IH]; intros ea i rs sh c Hc; cbn [store_string_loop]; [done|].
  eapply outcome_holds_bind; [by apply cpu_write_at|]. intros c1 H1. destruct (_ <? 0); by apply IH.
Qed.

Lemma execute_store_string_at RA IM NB op c :
  at_pc p k c -> outcome_holds next (execute_store_string RA IM NB op c).
Proof using.
  intros. unfold execute_store_string. cbn zeta.
  eapply outcome_holds_bind; [by apply store_string_loop_at|]. intros; at_steps.
Qed.

Lemma execute_stwcx_at RA op c : at_pc p k c -> outcome_holds next (execute_stwcx RA op c).
Proof using.
  intros. unfold execute_stwcx. cbn zeta.
  apply (outcome_holds_bind (at_pc p k)); [|intros; at_steps]. destruct (Zb _); [|at_steps].
  apply (outcome_holds_bind (at_pc p k)); [|intros; at_steps]. destruct (_ =? _); at_steps.
Qed.

Lemma execute_vector_load_for_shift_at SL op c :
  at_pc p k c -> outcome_holds next (execute_vector_load_for_shift SL op c).
Proof using.
  intros Hc. unfold execute_vector_load_for_shift. cbn zeta.
  match goal with |- context [for_each 16 ?b ?s] =>
    assert (H : at_pc p k (for_each 16 b s).1); [|destruct (for_each 16 b s) as [c' j']; at_steps] end.
  apply (for_each_invariant (fun s => at_pc p k s.1)); [|done]. intros i [c0 j0] _ H0. exact H0.
Qed.

Lemma execute_vector_load_at VD RA RB op c :
  at_pc p k c -> outcome_holds next (execute_vector_load VD RA RB op c).
Proof using.
  intros Hc. unfold execute_vector_load. cbn zeta.
  apply (outcome_holds_bind (at_pc p k)); [|intros; at_steps].
  destruct (_ =? 1); [|destruct (_ =? 2); [|destruct (_ =? 4); [|destruct (_ =? 8)]]]; at_steps.
Qed.

Lemma execute_vector_store_at VS RA RB op c :
  at_pc p k c -> outcome_holds next (execute_vector_store VS RA RB op c).
Proof using.
  intros Hc. unfold execute_vector_store. cbn zeta.
  apply (outcome_holds_bind (at_pc p k)); [|intros; at_steps].
  destruct (_ =? 1); [|destruct (_ =? 2); [|destruct (_ =? 4); [|destruct (_ =? 8)]]]; at_steps.
Qed.

(** A loop over the elements of a register. *)
Lemma for_each_at n body c :
  (forall i c, at_pc p k c -> at_pc p k (body i c)) -> at_pc p k c ->
  at_pc p k (for_each n body c).
Proof using. intros Hb. apply for_each_invariant. intros i s _. apply Hb. Qed.

Ltac vec_at :=
  cbn zeta; cbn [outcome_holds]; apply increment_pc_at;
  first [ apply for_each_at; [intros ? ? ?|done] | idtac ].

Lemma execute_vector_arith_at OP VD VA VB VC Rc C1 op c :
  at_pc p k c -> outcome_holds next (execute_vector_arith OP VD VA VB VC Rc C1 op c).
Proof using.
  intros Hc. unfold execute_vector_arith. cbn zeta. cbn [outcome_holds].
  match goal with |- context [for_each ?n ?b ?s] =>
    assert (H : at_pc p k (for_each n b s)); [|generalize dependent (for_each n b s)] end.
  - apply for_each_at; [|done]. intros. at_pc.
  - intros c1 H1. at_pc.
Qed.
Lemma execute_vector_arith_mixed_at OP VD VA VB VC op c :
  at_pc p k c -> outcome_holds next (execute_vector_arith_mixed OP VD VA VB VC op c).
Proof using. intros Hc. unfold execute_vector_arith_mixed. vec_at. by apply commit_element_at. Qed.
Lemma execute_vector_arith_odd_at ODD OP VD VA VB VC op c :
  at_pc p k c -> outcome_holds next (execute_vector_arith_odd ODD OP VD VA VB VC op c).
Proof using. intros Hc. unfold execute_vector_arith_odd. vec_at. by apply commit_element_at. Qed.
Lemma execute_vector_merge_at VD VA VB LO op c :
  at_pc p k c -> outcome_holds next (execute_vector_merge VD VA VB LO op c).
Proof using. intros Hc. unfold execute_vector_merge. vec_at. by do 2 apply set_element_at. Qed.
Lemma execute_vector_pack_at VD VA VB op c :
  at_pc p k c -> outcome_holds next (execute_vector_pack VD VA VB op c).
Proof using. intros Hc. unfold execute_vector_pack. vec_at. by apply commit_element_at. Qed.
Lemma execute_vector_unpack_at LO VD VA op c :
  at_pc p k c -> outcome_holds next (execute_vector_unpack LO VD VA op c).
Proof using. intros Hc. unfold execute_vector_unpack. vec_at. by apply set_element_at. Qed.
Lemma execute_vector_pack_pixel_at op c :
  at_pc p k c -> outcome_holds next (execute_vector_pack_pixel op c).
Proof using. intros Hc. unfold execute_vector_pack_pixel. vec_at. by do 2 apply set_vr_elem_at. Qed.
Lemma execute_vector_unpack_pixel_at LO op c :
  at_pc p k c -> outcome_holds next (execute_vector_unpack_pixel LO op c).
Proof using. intros Hc. unfold execute_vector_unpack_pixel. vec_at. by apply set_vr_elem_at. Qed.

Lemma execute_vector_shift_at SD op c :
  at_pc p k c -> outcome_holds next (execute_vector_shift SD op c).
Proof using.
  intros Hc. unfold execute_vector_shift. cbn zeta. cbn [outcome_holds]. apply increment_pc_at.
  destruct (_ =? 0); [apply for_each_at; [intros; at_pc|done]|].
  destruct (SD <? 0); [|destruct (0 <? SD); [|done]];
    (apply (for_each_invariant (fun s => at_pc p k s.1)); [|done]); intros i [s q] _ Hs; exact Hs.
Qed.

Lemma execute_vector_shift_octet_at SD VD VA VB SH op c :
  at_pc p k c -> outcome_holds next (execute_vector_shift_octet SD VD VA VB SH op c).
Proof using.
  intros Hc. unfold execute_vector_shift_octet. cbn zeta. cbn [outcome_holds]. apply increment_pc_at.
  destruct (SD <? 0); [|destruct (0 <? SD); [|done]]; (apply for_each_at; [|done]); intros; at_pc.
Qed.

Lemma execute_vector_splat_at OP VD VB IM op c :
  at_pc p k c -> outcome_holds next (execute_vector_splat OP VD VB IM op c).
Proof using. intros Hc. unfold execute_vector_splat. vec_at. by apply set_element_at. Qed.

Lemma saturate_sum_at VD d c : at_pc p k c -> at_pc p k (saturate_sum VD d c).2.
Proof using. intros Hc. unfold saturate_sum. destruct (saturate VD d) as [d' s]. by destruct s. Qed.

Lemma execute_vector_sum_at SZ VD VA VB op c :
  at_pc p k c -> outcome_holds next (execute_vector_sum SZ VD VA VB op c).
Proof using.
  intros Hc. unfold execute_vector_sum. cbn zeta. cbn [outcome_holds]. apply increment_pc_at.
  destruct (SZ =? 1); [|destruct (SZ =? 2); [|destruct (SZ =? 4); [|done]]].
  - pose proof (saturate_sum_at VD (vector_sum VD VA VB op 3 0 4 c) c Hc) as Hs.
    destruct (saturate_sum _ _ _) as [d s]. cbn in Hs. at_pc.
  - apply for_each_at; [|done]. intros i s Hs.
    pose proof (saturate_sum_at VD (vector_sum VD VA VB op (2 * i + 1) (2 * i) 2 s) s Hs) as Hs'.
    destruct (saturate_sum _ _ _) as [d s']. cbn in Hs'. at_pc.
  - apply for_each_at; [|done]. intros. at_pc.
Qed.

Lemma execute_vector_permute_at op c :
  at_pc p k c -> outcome_holds next (execute_vector_permute op c).
Proof using. intros Hc. unfold execute_vector_permute. vec_at. at_pc. Qed.

Lemma execute_fp_int_convert_at RN Rc op c :
  at_pc p k c -> outcome_holds next (execute_fp_int_convert RN Rc op c).
Proof using.
  intros Hc. unfold execute_fp_int_convert. cbn zeta.
  destruct (_ && _); [|destruct (d_lt _ _)]; at_steps.
Qed.

#[local] Hint Resolve execute_fp_int_convert_at execute_shift_at execute_divide_at execute_loadstore_at
  execute_loadstore_multiple_at execute_fp_loadstore_at execute_load_string_at
  execute_store_string_at execute_stwcx_at execute_vector_load_for_shift_at execute_vector_load_at
  execute_vector_store_at execute_vector_arith_at execute_vector_arith_mixed_at
  execute_vector_arith_odd_at execute_vector_merge_at execute_vector_pack_at
  execute_vector_unpack_at execute_vector_pack_pixel_at execute_vector_unpack_pixel_at
  execute_vector_shift_at execute_vector_shift_octet_at execute_vector_splat_at
  execute_vector_sum_at execute_vector_permute_at : handlers.

(** Every other handler is a straight sequence of steps. *)
Lemma run_handler_next h op c :
  falls_through h = true -> at_pc p k c -> outcome_holds next (run_handler h op c).
Proof using.
  intros Hh Hc. destruct h; cbn [falls_through] in Hh; try discriminate Hh; cbn [run_handler];
    try (solve [auto with handlers nocore]).
  all: try (unfold execute_illegal; destruct ignoreillegal; [at_steps|done]).
  all: unfold execute_nop, execute_addition, execute_generic_arith, execute_rlwimi,
    execute_compare, execute_cr_op, execute_multiply, execute_fp_arith, execute_lwarx,
    execute_fp_compare, execute_fp_round, execute_mcrf, execute_mcrfs,
    execute_mcrxr, execute_mtcrf, execute_mtfsf, execute_mtfsfi, execute_mtfsb, execute_mffs,
    execute_mfmsr, execute_mfspr, execute_mtspr, execute_icbi, execute_isync, execute_dcbz,
    execute_mfvscr, execute_mtvscr; at_steps.
Qed.
End Handlers.

(** ** Every handler *)

Section All.
Context {FPU : HostFPU} {HOST : Host} {HF : HostFrame HOST}.

Lemma at_pc_frame p k c : at_pc p k c -> in_frame k c.
Proof using. by intros [_ H]. Qed.

Lemma at_pc_self c : at_pc (pc c) (frame_of c) c.
Proof using. split; [reflexivity|apply in_frame_refl]. Qed.

Lemma outcome_at_frame p k m : outcome_holds (at_pc p k) m -> outcome_holds (in_frame k) m.
Proof using. intros H. eapply outcome_holds_weaken; [exact H|]. intros c. apply at_pc_frame. Qed.

Lemma execute_branch_frame PC BO DP AA LK op c :
  outcome_holds (in_frame (frame_of c)) (execute_branch PC BO DP AA LK op c).
Proof using.
  pose proof (in_frame_refl c) as Hc.
  unfold execute_branch. cbn zeta. destruct (BO_DECREMENT_CTR _); cbn [outcome_holds];
    repeat match goal with |- context [if ?b then _ else _] => destruct b end; exact Hc.
Qed.

Lemma execute_syscall_frame op c : outcome_holds (in_frame (frame_of c)) (execute_syscall op c).
Proof using.
  unfold execute_syscall, execute_illegal. destruct ignoreillegal; [exact (in_frame_refl c)|exact I].
Qed.

Lemma execute_mftbr_frame TBR op c : outcome_holds (in_frame (frame_of c)) (execute_mftbr TBR op c).
Proof using.
  unfold execute_mftbr. cbn zeta.
  apply (outcome_holds_bind (fun '(_, c') => exists q, at_pc q (frame_of c) c')).
  - pose proof (at_pc_self c) as Hc.
    destruct (_ =? 268); [exists (pc c); exact Hc|]. destruct (_ =? 269); [exists (pc c); exact Hc|].
    unfold execute_illegal. destruct ignoreillegal; [|exact I].
    exists (u32 (pc c + 4)). exact (increment_pc_at _ _ _ Hc 4).
  - intros [d c'] [q Hq]. apply (outcome_at_frame (u32 (q + 4))). at_steps.
Qed.

Lemma execute_emul_op_frame op c :
  1 <= execute_depth c -> outcome_holds (in_frame (frame_of c)) (execute_emul_op op c).
Proof using HF.
  intros Hd. unfold execute_emul_op. pose proof (at_pc_self c) as H0.
  eapply outcome_holds_bind; [apply cpu_write_at, H0|intros c1 H1].
  eapply outcome_holds_bind; [apply cpu_write_at, H1|intros c2 [_ H2]]. cbn zeta.
  eapply outcome_holds_bind; [apply EmulOp_frame; by rewrite (in_frame_depth _ _ H2)|]. intros [r' c3] H3. cbn beta iota in H3.
  unfold WriteMacInt32. apply (outcome_at_frame (pc c3)). apply cpu_write_at, set_gpr_at.
  destruct (load_68k_frame (r68_d r') (r68_a r')
    (set_xer (xer_set (xer_get (xer c2))) (set_cr (Z.land (cr c2) 0xff9fffff) c3))) as [g ->].
  split; [reflexivity|]. exact (in_frame_trans _ _ _ H2 H3).
Qed.

Lemma execute_sheep_frame op c :
  1 <= execute_depth c -> outcome_holds (in_frame (frame_of c)) (execute_sheep op c).
Proof using HF.
  intros Hd. unfold execute_sheep. cbn zeta. destruct (_ =? 0); [exact I|].
  destruct (_ =? 1); [exact (in_frame_refl c)|]. destruct (_ =? 2); (apply (outcome_holds_bind (in_frame (frame_of c)));
    [|intros c' Hc'; cbn [outcome_holds]]).
  - by apply execute_native_op_frame.
  - destruct (test FN_field op); exact Hc'.
  - by apply execute_emul_op_frame.
  - exact Hc'.
Qed.

(** No instruction touches the state of the emulation loops. *)
Lemma run_handler_frame h op c :
  1 <= execute_depth c -> outcome_holds (in_frame (frame_of c)) (run_handler h op c).
Proof using HF.
  intros Hd.
  destruct (falls_through h) eqn:E.
  - eapply outcome_at_frame, (run_handler_next (pc c)); [exact E|apply at_pc_self].
  - destruct h; try discriminate E; cbn [run_handler].
    + apply execute_branch_frame.
    + apply execute_syscall_frame.
    + apply execute_mftbr_frame.
    + by apply execute_sheep_frame.
Qed.
End All.
