(* ===== verification/InterpSpec.v ===== *)
(** Properties of the emulation loops (Interp.v): they keep the machine well
    formed, run every predecoded entry once and in order, and a predecoded
    block does what the plain interpreter does. *)
From S2P Require Import Prelude Bitfields Registers HostFPU Operations Memory Handlers BlockCache Cpu Operands ExecInt ExecMem ExecSys Dispatch DecodeTable Decode Interp Frame.

(** ** Decoded entries *)

Lemma foldl_match_step_in opcode l : forall r ii,
  foldl (match_step opcode) r l = Some ii -> ii ∈ l \/ r = Some ii.
Proof.
  induction l as [|hh l IH]; intros r ii H; [by right|]. cbn [foldl] in H.
  apply IH in H as [H|H]; [left; by right|]. unfold match_step in H.
  destruct (matches opcode hh); [injection H as ->; left; left|by right].
Qed.

Definition opcode_ok (ii : instr_info) : bool :=
  handler_ok (ii_execute ii) &&
  (falls_through (ii_execute ii) || negb (Z.land (ii_cflow ii) CFLOW_END_BLOCK =? 0) ||
   match ii_execute ii with execute_syscall_h | execute_mftbr_h operand_TBR => true | _ => false end).

Lemma all_entries_opcode_ok : forallb opcode_ok (invalid_entry :: all_entries) = true.
Proof. vm_compute. reflexivity. Qed.

Section Decoded.
Context {DEC : CpuDecoder}.

Lemma cpu_decode_spec opcode :
  is_uint 32 opcode -> cpu_decode opcode = foldl (match_step opcode) (Some invalid_entry) all_entries.
Proof using.
  intros Hop. destruct decode_spec_all as (d & Hd & H). rewrite <- (H opcode Hop).
  destruct (cpu_decode_built opcode Hop) as (d' & Hd' & ->). rewrite Hd in Hd'. by injection Hd' as ->.
Qed.

Lemma cpu_decode_ok opcode ii :
  is_uint 32 opcode -> cpu_decode opcode = Some ii -> opcode_ok ii = true.
Proof using.
  intros Hop H. rewrite cpu_decode_spec in H by done.
  pose proof all_entries_opcode_ok as Hall. rewrite forallb_forall in Hall.
  apply Hall. apply list_elem_of_In. apply foldl_match_step_in in H as [H|H].
  - by right.
  - injection H as <-. left.
Qed.

Lemma cpu_decode_total opcode : is_uint 32 opcode -> exists ii, cpu_decode opcode = Some ii.
Proof using.
  intros Hop. rewrite cpu_decode_spec by done.
  generalize (Some invalid_entry) (ex_intro (fun ii => Some invalid_entry = Some ii) invalid_entry eq_refl).
  induction all_entries as [|hh l IH]; intros r Hr; cbn [foldl]; [done|]. apply IH.
  unfold match_step. destruct (matches opcode hh); [by eexists|done].
Qed.
End Decoded.

(** ** Well-formed loops *)

(** The decode cache only holds handlers of the table. *)
Definition cache_ok (t : gmap Z decode_info) : Prop :=
  map_Forall (fun _ d => handler_ok (di_execute d) = true) t.

(** The machine between two calls of [execute], and while one runs; [Q] is what
    is known of the decode cache, [cache_ok] or nothing. *)
Definition machine_wf (Q : gmap Z decode_info -> Prop) (c : powerpc_cpu) : Prop :=
  cpu_wf c /\ Q (decode_cache c).
Definition loop_wf Q (c : powerpc_cpu) : Prop := machine_wf Q c /\ 1 <= execute_depth c.

(** Well formed, and nested as deep as [c]. *)
Definition same_level (Q : gmap Z decode_info -> Prop) (c c' : powerpc_cpu) : Prop :=
  loop_wf Q c' /\ execute_depth c' = execute_depth c.

Lemma same_level_refl Q c : loop_wf Q c -> same_level Q c c.
Proof. done. Qed.
Lemma same_level_trans Q a b c : same_level Q a b -> same_level Q b c -> same_level Q a c.
Proof. intros [_ H1] [H2 H3]. split; [done|]. congruence. Qed.

Lemma set_spcflags_level Q c c' v : same_level Q c c' -> same_level Q c (set_spcflags v c').
Proof. intros [[[Hw Hc] Hd] He]. split; [split; [split; [by apply set_spcflags_wf|exact Hc]|exact Hd]|exact He]. Qed.

Lemma set_block_cache_level Q c c' b : same_level Q c c' -> same_level Q c (set_block_cache b c').
Proof. intros H. exact H. Qed.

Lemma frame_same_level Q c c' : loop_wf Q c -> cpu_wf c' -> in_frame (frame_of c) c' ->
  same_level Q c c'.
Proof.
  intros [[_ Hc] Hd] Hw (E1 & _ & E3 & _). cbn [frame_of fr_cache fr_depth] in *.
  split; [split; [split; [done|by rewrite E1]|lia]|done].
Qed.

(** ** Interrupt frames *)

Definition files_wf '((g, f) : list Z * list Z) : Prop :=
  (length g = 32%nat /\ Forall (is_uint 32) g) /\ length f = 32%nat /\ Forall (is_uint 64) f.

Lemma copy_files_wf n ig jf gf :
  (n <= 32)%nat -> files_wf (ig, jf) -> files_wf gf ->
  files_wf (foldl (fun '(og, of_) i => (Zinsert i (Zlookup ig i) og, Zinsert i (Zlookup jf i) of_))
    gf (count_up n)).
Proof.
  intros Hn [[? ?] [? ?]]. apply foldl_invariant.
  intros i [g f] Hi%elem_of_count_up [[? ?] [? ?]]. unfold files_wf. rewrite !length_Zinsert.
  split_and!; try done; (apply Forall_Zinsert; [done|]).
  - apply (Forall_Zlookup (is_uint 32)); [done|lia].
  - apply (Forall_Zlookup (is_uint 64)); [done|lia].
Qed.

Lemma copy_vrs_wf n : forall v ov iv,
  (n <= 32)%nat -> length iv = 32%nat /\ Forall (is_uint 128) iv ->
  length ov = 32%nat /\ Forall (is_uint 128) ov ->
  length (copy_vrs n v ov iv) = 32%nat /\ Forall (is_uint 128) (copy_vrs n v ov iv).
Proof.
  induction n as [|n IH]; intros v ov iv Hn Hi [Hl Hf]; cbn [copy_vrs]; [done|].
  apply IH; [lia|done|]. destruct (Zb _); rewrite ?length_Zinsert; [|done].
  split; [done|]. apply Forall_Zinsert; [done|]. apply (Forall_Zlookup (is_uint 128)); [apply Hi|].
  destruct Hi as [-> _]. lia.
Qed.

Lemma interrupt_copy_wf o i : regs_wf o -> regs_wf i -> regs_wf (interrupt_copy o i).
Proof.
  intros Ho Hi. unfold interrupt_copy.
  pose proof (copy_files_wf 32 (r_gpr i) (r_fpr i) (r_gpr o, r_fpr o) (le_n _)
    (conj (wf_gpr i Hi) (wf_fpr i Hi)) (conj (wf_gpr o Ho) (wf_fpr o Ho))) as H.
  destruct (foldl _ _ _) as [og of_]. destruct H as [Hg Hf].
  destruct Ho, Hi.
  split; cbn [r_gpr r_fpr r_vr r_cr r_xer r_vscr r_vrsave r_fpscr r_lr r_ctr r_pc]; try assumption.
  destruct (Zb _); [|assumption]. by apply copy_vrs_wf.
Qed.

Section Wf.
Context {FPU : HostFPU} {FL : HostFPULaws FPU} {HOST : Host} {HL : HostLaws HOST}
  {HF : HostFrame HOST} {DEC : CpuDecoder}.

Section Cache.
Context (Q : gmap Z decode_info -> Prop).

Lemma run_handler_level h op c :
  handler_ok h = true -> loop_wf Q c -> outcome_holds (same_level Q c) (run_handler h op c).
Proof using FL HL HF.
  intros Hh Hc. pose proof (run_handler_wf h op c Hh (proj1 (proj1 Hc)) (proj2 Hc)) as H1.
  pose proof (run_handler_frame h op c (proj2 Hc)) as H2.
  destruct (run_handler h op c); try done. by apply frame_same_level.
Qed.

Lemma handle_interrupt_level c : loop_wf Q c -> outcome_holds (same_level Q c) (handle_interrupt c).
Proof using HL HF.
  intros [[Hc Hk] Hd]. unfold handle_interrupt. cbn zeta.
  set (c1 := set_processing_interrupt true c).
  pose proof (HandleInterrupt_wf (interrupt_copy uninit_registers (regs c1)) c1 Hc Hd) as H1.
  pose proof (HandleInterrupt_frame (interrupt_copy uninit_registers (regs c1)) c1 Hd) as H2.
  destruct (HandleInterrupt _ c1) as [[r c2]| | | |]; try exact I.
  cbn [outcome_holds mbind outcome_bind] in *.
  destruct H1 as [Hr Hc2]. destruct H2 as (E1 & _ & E3 & _).
  cbn [frame_of fr_cache fr_depth] in *.
  split; [split; [split|]|done].
  - split; [|apply Hc2]. apply interrupt_copy_wf; [apply Hc2|apply Hr].
    apply interrupt_copy_wf; [apply uninit_registers_wf|apply Hc].
  - cbn. by rewrite E1.
  - change (1 <= execute_depth c2). by rewrite E3.
Qed.

Lemma check_spcflags_level c :
  loop_wf Q c -> outcome_holds (fun '(_, c') => same_level Q c c') (check_spcflags c).
Proof using HL HF.
  intros Hc%same_level_refl. unfold check_spcflags. cbn zeta.
  destruct (spcflags_test _ _); [by apply set_spcflags_level|].
  apply (outcome_holds_bind (same_level Q c)).
  - destruct (spcflags_test _ _); [|done]. apply (set_spcflags_level _ _ _
      (spcflags_clear SPCFLAG_CPU_HANDLE_INTERRUPT (spcflags c))) in Hc.
    destruct (negb _); [|done].
    eapply outcome_holds_weaken; [apply handle_interrupt_level, Hc|]. intros c1 H1.
    exact (same_level_trans _ _ _ _ Hc H1).
  - intros c1 H1. cbn [outcome_holds].
    destruct (spcflags_test SPCFLAG_CPU_TRIGGER_INTERRUPT _), (spcflags_test SPCFLAG_CPU_ENTER_MON _);
      cbn beta iota; by repeat apply set_spcflags_level.
Qed.

Lemma read_memory_4_then {B} (f : Z -> outcome B) (P : B -> Prop) c a :
  cpu_wf c -> (forall v, is_uint 32 v -> outcome_holds P (f v)) ->
  outcome_holds P (v ← vm_read_memory_4 (mem c) a; f v).
Proof using.
  intros Hc Hf. eapply outcome_holds_bind; [apply vm_read_memory_4_range, Hc|exact Hf].
Qed.

Lemma interp_step_level c :
  loop_wf Q c -> outcome_holds (fun '(_, c') => same_level Q c c') (interp_step c).
Proof using FL HL HF.
  intros Hc. unfold interp_step. apply read_memory_4_then; [apply Hc|]. intros opcode Hop.
  destruct (cpu_decode opcode) as [ii|] eqn:E; [|done].
  apply cpu_decode_ok in E; [|done]. apply andb_prop in E as [Eh _].
  eapply outcome_holds_bind; [by apply run_handler_level|]. intros c1 H1.
  destruct (spcflags_empty _); [exact H1|].
  eapply outcome_holds_weaken; [apply check_spcflags_level, H1|].
  intros [b c2] H2. exact (same_level_trans _ _ _ _ H1 H2).
Qed.

Lemma do_interpret_level fuel : forall c,
  loop_wf Q c -> outcome_holds (same_level Q c) (do_interpret fuel c).
Proof using FL HL HF.
  induction fuel as [|fuel IH]; intros c Hc; cbn [do_interpret]; [done|].
  eapply outcome_holds_bind; [by apply interp_step_level|]. intros [b c1] H1.
  destruct b; [|exact H1]. eapply outcome_holds_weaken; [apply IH, H1|].
  intros c2 H2. exact (same_level_trans _ _ _ _ H1 H2).
Qed.
End Cache.

(** The predecoder only writes table handlers. *)
Lemma set_decode_cache_level c c' t p :
  same_level cache_ok c c' -> cache_ok t -> same_level cache_ok c (set_decode_cache t p c').
Proof using. intros [[[Hw _] Hd] He] Ht. done. Qed.

Lemma move_di_ok d s n t : cache_ok t -> cache_ok (move_di d s n t).
Proof using.
  intros Ht. unfold move_di. apply foldl_invariant; [|done].
  intros i t' _ Ht'. destruct (t !! (s + i)) as [e|] eqn:E.
  - apply map_Forall_insert_2; [|exact Ht']. exact (Ht _ _ E).
  - by apply map_Forall_delete.
Qed.

Lemma predecode_loop_level fuel : forall b i dpc c0 c,
  same_level cache_ok c0 c ->
  outcome_holds (fun '(_, c') => same_level cache_ok c0 c') (predecode_loop fuel b i dpc c).
Proof using.
  induction fuel as [|fuel IH]; intros b i dpc c0 c Hc; cbn [predecode_loop]; [done|]. cbn zeta.
  apply read_memory_4_then; [apply Hc|]. intros opcode Hop.
  destruct (cpu_decode opcode) as [ii|] eqn:E; [|done].
  apply cpu_decode_ok in E; [|done]. apply andb_prop in E as [Eh _].
  unfold write_di. destruct (i <? _); [|done]. cbn [mbind outcome_bind].
  set (c1 := set_decode_cache _ _ c).
  assert (H1 : same_level cache_ok c0 c1).
  { apply set_decode_cache_level; [done|]. apply map_Forall_insert_2; [done|apply Hc]. }
  destruct (_ <=? _).
  - assert (H2 : same_level cache_ok c0 (invalidate_cache c1)).
    { apply (set_spcflags_level _ c0 c1 _ H1). }
    destruct (_ =? 0).
    + apply IH. apply set_decode_cache_level; [exact H2|]. apply move_di_ok, H2.
    + apply set_decode_cache_level; [exact H2|]. apply move_di_ok, H2.
  - destruct (_ =? 0); [by apply IH|exact H1].
Qed.

Lemma predecode_level entry c :
  loop_wf cache_ok c -> outcome_holds (fun '(_, c') => same_level cache_ok c c') (predecode entry c).
Proof using.
  intros Hc. unfold predecode. destruct (new_blockinfo _) as [bi bc]. cbn zeta.
  eapply outcome_holds_bind; [apply (predecode_loop_level _ _ _ _ c); exact (same_level_refl _ c Hc)|].
  intros [[[di0 di] dpc] c1] H1. apply set_decode_cache_level; [exact H1|apply H1].
Qed.

Lemma run_entry_level di c : loop_wf cache_ok c -> outcome_holds (same_level cache_ok c) (run_entry di c).
Proof using FL HL HF.
  intros Hc. unfold run_entry. destruct (decode_cache c !! di) as [d|] eqn:E; [|done].
  apply run_handler_level; [|done]. destruct Hc as [[_ Hk] _]. exact (Hk _ _ E).
Qed.

Lemma run_entry_same_level di c0 c : same_level cache_ok c0 c -> outcome_holds (same_level cache_ok c0) (run_entry di c).
Proof using FL HL HF.
  intros H. eapply outcome_holds_weaken; [apply run_entry_level, H|]. intros c1 H1.
  exact (same_level_trans _ _ _ _ H H1).
Qed.

Lemma duff_body_level r di c0 c :
  same_level cache_ok c0 c -> outcome_holds (fun '(_, c') => same_level cache_ok c0 c') (duff_body r di c).
Proof using FL HL HF.
  intros Hc. unfold duff_body.
  apply (outcome_holds_bind (fun '(_, c') => same_level cache_ok c0 c')).
  { destruct (r =? 0); [|exact Hc].
    eapply outcome_holds_bind; [by apply run_entry_same_level|]. intros c1 H1. exact H1. }
  intros [di' c1] H1.
  apply (outcome_holds_bind (same_level cache_ok c0)); [destruct (_ || _); [by apply run_entry_same_level|exact H1]|].
  intros c2 H2.
  apply (outcome_holds_bind (same_level cache_ok c0)); [destruct (_ || _); [by apply run_entry_same_level|exact H2]|].
  intros c3 H3.
  eapply outcome_holds_bind; [by apply run_entry_same_level|]. intros c4 H4. exact H4.
Qed.

Lemma duff_loop_level fuel : forall r n di c0 c,
  same_level cache_ok c0 c -> outcome_holds (same_level cache_ok c0) (duff_loop fuel r n di c).
Proof using FL HL HF.
  induction fuel as [|fuel IH]; intros r n di c0 c Hc; cbn [duff_loop]; [done|].
  eapply outcome_holds_bind; [by apply duff_body_level|]. intros [di' c1] H1. cbn zeta.
  destruct (0 <? n - 1); [by apply IH|exact H1].
Qed.

Lemma pdi_loop_level fuel : forall entry bi inv c0 c,
  same_level cache_ok c0 c -> outcome_holds (fun '(_, c') => same_level cache_ok c0 c') (pdi_loop fuel entry bi inv c).
Proof using FL HL HF.
  induction fuel as [|fuel IH]; intros entry bi inv c0 c Hc; cbn [pdi_loop]; [done|].
  destruct bi as [x|].
  - cbn zeta. apply (outcome_holds_bind (same_level cache_ok c0)).
    { destruct (bi_di _); [by apply duff_loop_level|done]. }
    intros c1 H1. apply (outcome_holds_bind (fun '(_, c') => same_level cache_ok c0 c')).
    { destruct (spcflags_empty _); [exact H1|].
      eapply outcome_holds_weaken; [apply check_spcflags_level, H1|].
      intros [b c2] H2. exact (same_level_trans _ _ _ _ H1 H2). }
    intros [b c2] H2. destruct (negb b); [exact H2|].
    destruct (spcflags_test _ _); [apply IH; by apply set_spcflags_level|].
    destruct (_ =? _); [by apply IH|]. destruct (find _ _) as [r bc]. by apply IH.
  - destruct (find _ _) as [[x|] bc]; [by apply IH|].
    eapply outcome_holds_bind; [apply predecode_level, Hc|]. intros [x c1] H1.
    apply IH. exact (same_level_trans _ _ _ _ Hc H1).
Qed.

(** C5: The machine cannot get stuck in a state the C++ types rule out.  From
    a well-formed state, emulation from any entry point, for any number of
    turns, in either engine (predecoded blocks when not nested, the plain
    interpreter otherwise), through interrupts, EMUL_OP and native routines,
    cache invalidations and block predecoding, ends, if it returns, in a
    well-formed state whose decode cache only holds handlers of the table,
    and the nesting depth is back to what it was. *)
Theorem execute_safe fuel entry c :
  machine_wf cache_ok c -> 0 <= execute_depth c -> is_uint 32 entry ->
  outcome_holds (fun c' => machine_wf cache_ok c' /\ execute_depth c' = execute_depth c) (execute fuel entry c).
Proof using FL HL HF.
  intros Hc Hd0 He. unfold execute. cbn zeta.
  set (c1 := set_execute_depth _ (set_pc entry c)).
  assert (H1 : loop_wf cache_ok c1).
  { split; [split; [|apply Hc]|].
    - exact (set_pc_wf c (proj1 Hc) entry He).
    - change (1 <= execute_depth c + 1). lia. }
  apply (outcome_holds_bind (fun '(_, c') => same_level cache_ok c1 c')).
  - destruct (_ =? 1); [by apply pdi_loop_level|].
    eapply outcome_holds_bind; [by apply do_interpret_level|]. intros c2 H2. exact H2.
  - intros [inv c2] H2. cbn [outcome_holds].
    assert (same_level cache_ok c1 (if inv : bool then
      set_spcflags (spcflags_set SPCFLAG_JIT_EXEC_RETURN (spcflags c2)) c2 else c2)) as H3
      by (destruct inv; [by apply set_spcflags_level|done]).
    generalize dependent (if inv then
      set_spcflags (spcflags_set SPCFLAG_JIT_EXEC_RETURN (spcflags c2)) c2 else c2).
    intros c3 [H3 Hd]. split; [exact (proj1 H3)|]. unfold c1 in Hd. cbn in Hd |- *. lia.
Qed.

(** A nested call runs the plain interpreter, whatever is in the cache. *)
Lemma execute_nested_wf fuel entry c :
  cpu_wf c -> 1 <= execute_depth c -> is_uint 32 entry ->
  outcome_holds cpu_wf (execute fuel entry c).
Proof using FL HL HF.
  intros Hc Hd He. unfold execute. cbn zeta.
  set (c1 := set_execute_depth _ (set_pc entry c)).
  change (execute_depth c1) with (execute_depth c + 1).
  destruct (Z.eqb_spec (execute_depth c + 1) 1); [lia|].
  assert (H1 : loop_wf (fun _ => True) c1).
  { split; [split; [|exact I]|].
    - exact (set_pc_wf c Hc entry He).
    - change (1 <= execute_depth c + 1). lia. }
  pose proof (do_interpret_level (fun _ => True) fuel c1 H1) as H2.
  destruct (do_interpret fuel c1) as [c2| | | |]; try exact I. apply H2.
Qed.
End Wf.

(** A program: load 5, add 7, branch over a word, add 1, return. *)
Definition sample_program : memory := bytes_at 0x1000
  [0x38; 0x60; 0; 5; 0x38; 0x63; 0; 7; 0x48; 0; 0; 8; 0; 0; 0; 0; 0x38; 0x63; 0; 1; 0x18; 0; 0; 1].

Lemma cpu_init_machine_wf m : mem_wf m -> machine_wf cache_ok (cpu_init m).
Proof. intros Hm. split; [by apply cpu_init_wf|]. apply map_Forall_empty. Qed.

Lemma sample_program_wf : mem_wf sample_program.
Proof. apply bytes_at_wf. apply (bool_decide_unpack _). vm_compute. exact I. Qed.

Lemma execute_safe_witness :
  exists c', execute (FPU := null_fpu) (HOST := null_host) (DEC := built_decoder) 9 0x1000
      (cpu_init sample_program) = Ok c' /\
    machine_wf cache_ok c' /\ execute_depth c' = 0 /\ gpr c' 3 = 13.
Proof.
  pose proof (execute_safe (FPU := null_fpu) (FL := null_fpu_laws) (HOST := null_host)
    (DEC := built_decoder) 9 0x1000 (cpu_init sample_program)
    (cpu_init_machine_wf _ sample_program_wf) ltac:(discriminate) ltac:(done)) as H.
  assert (Hr : match execute (FPU := null_fpu) (HOST := null_host) (DEC := built_decoder) 9 0x1000
    (cpu_init sample_program) with Ok c' => gpr c' 3 = 13 | _ => False end) by (vm_compute; reflexivity).
  destruct (execute _ _ _) as [c'| | | |]; try destruct Hr.
  exists c'. destruct H as [H1 H2]. split; [reflexivity|]. split; [exact H1|]. split; [exact H2|reflexivity].
Defined.

(** ** Running the entries of a block *)

Lemma range_app a n m : range a (n + m) = range a n ++ range (a + Z.of_nat n) m.
Proof.
  revert a. induction n as [|n IH]; intros a; cbn [range Nat.add app].
  - f_equal. lia.
  - rewrite IH. do 3 f_equal. lia.
Qed.

Lemma bind_assoc {A B C} (m : outcome A) (f : A -> outcome B) (g : B -> outcome C) :
  mbind g (mbind f m) = mbind (fun x => mbind g (f x)) m.
Proof. by destruct m. Qed.

Lemma bind_Ok {A} (m : outcome A) : mbind Ok m = m.
Proof. by destruct m. Qed.

Lemma bind_ext {A B} (f g : A -> outcome B) m : (forall x, f x = g x) -> mbind f m = mbind g m.
Proof. intros H. destruct m; cbn; auto. Qed.

Section Blocks.
Context {FPU : HostFPU} {HOST : Host}.

Ltac same_entries :=
  repeat (rewrite ?bind_assoc; cbn [mbind outcome_bind];
    match goal with |- mbind _ (run_entry ?a ?c) = mbind _ (run_entry ?b ?c) =>
      replace a with b by lia; apply bind_ext; intros ? end);
  cbn [mbind outcome_bind]; do 2 f_equal; lia.

(** Entering the unrolled loop at [case r] runs [r] entries, or four. *)
Lemma duff_body_spec r di c :
  0 <= r <= 3 ->
  let k := if r =? 0 then 4 else r in
  duff_body r (di + r) c =
    (c' ← foldM run_entry (range di (Z.to_nat k)) c; Ok (di + k, c')).
Proof using.
  intros Hr. assert (r = 0 \/ r = 1 \/ r = 2 \/ r = 3) as [-> | [-> | [-> | -> ]]] by lia;
    unfold duff_body; cbn [Z.eqb Pos.eqb orb]; cbn zeta; cbn [mbind outcome_bind];
    change (Z.to_nat 4) with 4%nat; change (Z.to_nat 3) with 3%nat;
    change (Z.to_nat 2) with 2%nat; change (Z.to_nat 1) with 1%nat; cbn [range foldM].
  all: same_entries.
Qed.

Lemma duff_loop_spec n : forall fuel di c,
  (n < fuel)%nat ->
  duff_loop fuel 0 (Z.of_nat (S n)) di c = foldM run_entry (range di (4 * S n)) c.
Proof using.
  induction n as [|n IH]; intros [|fuel] di c Hf; try lia; cbn [duff_loop];
    rewrite <- (Z.add_0_r di) at 1; rewrite (duff_body_spec 0) by lia;
    cbn [Z.eqb]; change (Z.to_nat 4) with 4%nat; cbn zeta; rewrite bind_assoc.
  - transitivity (mbind Ok (foldM run_entry (range di 4) c)); [by apply bind_ext|apply bind_Ok].
  - replace (4 * S (S n))%nat with (4 + 4 * S n)%nat by lia.
    rewrite range_app, foldM_app. apply bind_ext. intros c'. cbn [mbind outcome_bind].
    destruct (Z.ltb_spec 0 (Z.of_nat (S (S n)) - 1)); [|lia].
    replace (Z.of_nat (S (S n)) - 1) with (Z.of_nat (S n)) by lia.
    change (Z.of_nat 4) with 4. apply IH. lia.
Qed.

(** The unrolled dispatch loop (Duff's device) runs the entries of a block
    each exactly once and in order, whatever the size of the block: a size
    that is no multiple of four enters the loop in the middle. *)
Lemma run_block_entries di size c :
  1 <= size -> run_block di size c = foldM run_entry (range di (Z.to_nat size)) c.
Proof using.
  intros Hs. unfold run_block. cbn zeta. cbn [duff_loop].
  pose proof (Z.mod_pos_bound size 4 ltac:(lia)) as Hr. pose proof (Z.div_mod size 4 ltac:(lia)) as Hd.
  rewrite duff_body_spec by lia. cbn zeta. rewrite bind_assoc.
  set (r := size mod 4) in *. set (q := size / 4) in *.
  assert (Hn : (size + 3) / 4 = if r =? 0 then q else q + 1).
  { destruct (Z.eqb_spec r 0); symmetry; apply (Z.div_unique _ _ _ (if r =? 0 then 3 else r - 1));
      destruct (Z.eqb_spec r 0); lia. }
  set (k := if r =? 0 then 4 else r).
  set (n := (size + 3) / 4) in *.
  assert (Hk : Z.to_nat size = (Z.to_nat k + 4 * Z.to_nat (n - 1))%nat /\ 1 <= k /\ 1 <= n).
  { unfold k. destruct (r =? 0) eqn:E; lia. }
  destruct Hk as (-> & Hk & Hn1). rewrite range_app, foldM_app, Z2Nat.id by lia.
  apply bind_ext. intros c'. cbn [mbind outcome_bind].
  destruct (Z.ltb_spec 0 (n - 1)).
  - replace (n - 1) with (Z.of_nat (S (Z.to_nat (n - 2)))) by lia. rewrite Nat2Z.id.
    apply duff_loop_spec. lia.
  - replace (n - 1) with 0 by lia. done.
Qed.
End Blocks.
