(* ===== verification/PredecodeSpec.v ===== *)
(** Properties of predecoding ([predecode] of Interp.v): it stops, and it
    translates the instructions of one block, moving the block to the start of
    the decode cache when the cache is full. *)
From S2P Require Import Prelude Bitfields Registers HostFPU Operations Memory Handlers BlockCache Cpu Operands ExecInt ExecMem ExecSys Dispatch DecodeTable Decode Interp Frame InterpSpec.

(** ** The code of a block *)

(** The [n] entries at [di] are the words of memory from address [p] on,
    decoded. *)
Definition entry_decodes `{CpuDecoder} (m : memory) (a : Z) (e : option decode_info) (last : bool) : Prop :=
  exists opcode ii, vm_read_memory_4 m a = Ok opcode /\ cpu_decode opcode = Some ii /\
    e = Some (DI (ii_execute ii) opcode) /\
    (Z.land (ii_cflow ii) CFLOW_END_BLOCK =? 0) = negb last.

Definition block_code `{CpuDecoder} (m : memory) (p : Z) (t : gmap Z decode_info) (di n : Z)
    (complete : bool) : Prop :=
  forall i, 0 <= i < n ->
    entry_decodes m (u32 (p + 4 * i)) (t !! (di + i)) (complete && (i =? n - 1)).

(** Predecoding leaves everything but the special flags and the two caches
    alone. *)
Definition same_machine (c c' : powerpc_cpu) : Prop :=
  c' = set_decode_cache (decode_cache c') (decode_cache_p c')
         (set_block_cache (my_block_cache c') (set_spcflags (spcflags c') c)).

Lemma same_machine_caches c c' bc t p :
  same_machine c c' -> same_machine c (set_decode_cache t p (set_block_cache bc c')).
Proof. intros E. unfold same_machine in *. rewrite E at 1. reflexivity. Qed.

(** One block cache is the other after [invalidate_cache]. *)
Definition emptied (bc bc' : block_cache) : Prop := bc' = initialize (clear bc).

Lemma emptied_inv bc bc' : tc emptied bc bc' -> forall CL AL, bc_inv bc CL AL ->
  bc_inv bc' (fun _ => []) (fun _ => []) /\ infos bc' = infos bc /\
  forall x, fresh_entry bc AL x -> fresh_entry bc' (fun _ => []) x.
Proof.
  induction 1 as [bc bc1 ->|bc bc1 bc2 -> _ IH]; intros CL AL H;
    destruct (clear_initialize_inv _ _ _ H) as (H1 & Hi & Hf); [done|].
  destruct (IH _ _ H1) as (H2 & Hi' & Hf'). split_and!; [done|congruence|auto].
Qed.

(** Either the block is where it was begun and nothing else has changed, or
    the caches were emptied and it is at the start. *)
Definition unmoved_or_emptied (b b' : Z) (c c' : powerpc_cpu) : Prop :=
  (b' = b /\ my_block_cache c' = my_block_cache c /\
    forall j, j < b -> decode_cache c' !! j = decode_cache c !! j) \/
  (b' = 0 /\ tc emptied (my_block_cache c) (my_block_cache c')).

Lemma move_di_lookup d s n t i :
  0 <= i < Z.of_nat n -> move_di d s n t !! (d + i) = t !! (s + i).
Proof.
  unfold move_di. intros Hi.
  assert (H : forall k t', (forall j, 0 <= j < Z.of_nat k -> 
      foldl (fun (t' : gmap Z decode_info) i => match t !! (s + i) with
        | Some e => <[d + i := e]> t' | None => delete (d + i) t' end) t' (count_up k) !! (d + j)
      = t !! (s + j))).
  { intros k t'. induction k as [|k IH]; intros j Hj; [lia|].
    unfold count_up. rewrite seq_S, fmap_app, foldl_app. cbn [fmap list_fmap foldl Nat.add].
    destruct (decide (j = Z.of_nat k)) as [->|Hne].
    - destruct (t !! (s + Z.of_nat k)); [apply lookup_insert_eq|apply lookup_delete_eq].
    - destruct (t !! (s + Z.of_nat k));
        [rewrite lookup_insert_ne by lia|rewrite lookup_delete_ne by lia]; apply IH; lia. }
  by apply H.
Qed.

Section Predecode.
Context {DEC : CpuDecoder}.

Lemma block_code_snoc m p t b i opcode ii :
  b <= i -> block_code m p t b (i - b) false ->
  vm_read_memory_4 m (u32 (p + 4 * (i - b))) = Ok opcode -> cpu_decode opcode = Some ii ->
  block_code m p (<[i := DI (ii_execute ii) opcode]> t) b (i + 1 - b)
    (negb (Z.land (ii_cflow ii) CFLOW_END_BLOCK =? 0)).
Proof using.
  intros Hbi Hcode Hread Eii j Hj. destruct (decide (b + j = i)) as [Ej|Hne].
  - exists opcode, ii. replace j with (i - b) by lia. replace (b + (i - b)) with i by lia.
    rewrite lookup_insert_eq. replace (i - b =? i + 1 - b - 1) with true by lia.
    rewrite andb_true_r, negb_involutive. done.
  - rewrite lookup_insert_ne by lia. replace (j =? i + 1 - b - 1) with false by lia.
    rewrite andb_false_r. apply (Hcode j). lia.
Qed.

Lemma block_code_move m p t s d n last :
  0 <= n -> block_code m p t s n last ->
  block_code m p (move_di d s (Z.to_nat n) t) d n last.
Proof using. intros Hn H j Hj. rewrite move_di_lookup by lia. exact (H j Hj). Qed.

Lemma predecode_loop_spec fuel : forall p b i dpc c b' i' dpc' c',
  decode_cache_p c = b -> 0 <= b -> b <= i -> dpc = u32 (p + 4 * (i - b) - 4) ->
  block_code (mem c) p (decode_cache c) b (i - b) false ->
  predecode_loop fuel b i dpc c = Ok (b', i', dpc', c') ->
  decode_cache_p c' = b' /\ 0 <= b' /\ b' < i' /\ i' <= DECODE_CACHE_MAX_ENTRIES /\
  dpc' = u32 (p + 4 * (i' - b' - 1)) /\
  block_code (mem c) p (decode_cache c') b' (i' - b') true /\ same_machine c c' /\
  unmoved_or_emptied b b' c c'.
Proof using.
  induction fuel as [|fuel IH]; intros p b i dpc c b' i' dpc' c' Hp Hb Hbi Hdpc Hcode H;
    cbn [predecode_loop] in H; [done|]. cbn zeta in H.
  apply outcome_bind_Ok in H as (opcode & Hread & H).
  destruct (cpu_decode opcode) as [ii|] eqn:Eii; [|done].
  apply outcome_bind_Ok in H as (c1 & Hw & H). unfold write_di in Hw.
  destruct (Z.ltb_spec i DECODE_CACHE_MAX_ENTRIES) as [Hi|]; [|done]. injection Hw as <-.
  assert (Hpc : u32 (dpc + 4) = u32 (p + 4 * (i - b))).
  { rewrite Hdpc, trunc_add_l. f_equal. lia. }
  rewrite Hpc in *.
  pose proof (block_code_snoc _ _ _ _ _ _ _ Hbi Hcode Hread Eii) as Hcode1.
  destruct (Z.leb_spec DECODE_CACHE_MAX_ENTRIES (i + 1)) as [Hfull|Hroom].
  - assert (i + 1 = DECODE_CACHE_MAX_ENTRIES) as Emax by lia.
    apply (block_code_move _ _ _ _ 0) in Hcode1; [|lia].
    change (decode_cache_p (invalidate_cache _)) with 0 in H. rewrite Z.add_0_l in H.
    change (decode_cache (invalidate_cache _)) with
      (<[i := DI (ii_execute ii) opcode]> (decode_cache c)) in H.
    set (c1 := set_decode_cache _ 0 (invalidate_cache _)) in H.
    assert (He : emptied (my_block_cache c) (my_block_cache c1)) by done.
    destruct (_ =? 0).
    + apply (IH p) in H as (? & ? & ? & ? & ? & ? & ? & Hu); [|done|done|lia|f_equal; lia|].
      * split_and!; try done. destruct Hu as [(-> & E2 & _)|[-> Ht]]; right; split; try done.
        -- rewrite E2. by apply tc_once.
        -- by eapply tc_l.
      * by rewrite Z.sub_0_r.
    + injection H as <- <- <- <-.
      split_and!; try done; try lia; [|by rewrite Z.sub_0_r|by right; split; [|apply tc_once]].
      by replace (i + 1 - b - 0 - 1) with (i - b) by lia.
  - assert (Hkeep : forall j, j < b ->
      (<[i := DI (ii_execute ii) opcode]> (decode_cache c)) !! j = decode_cache c !! j)
      by (intros j ?; rewrite lookup_insert_ne; [done|lia]).
    destruct (_ =? 0).
    + apply (IH p) in H as (? & ? & ? & ? & ? & ? & ? & Hu); [|done|done|lia|f_equal; lia|done].
      split_and!; try done. destruct Hu as [(-> & E2 & Hj)|Ht]; [left|by right].
      split_and!; [done|exact E2|]. intros j Hlt. rewrite Hj by done. by apply Hkeep.
    + injection H as <- <- <- <-. split_and!; try done; try lia.
      { replace (i + 1 - b - 1) with (i - b) by lia. done. }
      { by destruct c as [[]]. }
      by left.
Qed.

Lemma read_memory_4_not_Fuel m a : vm_read_memory_4 m a <> Fuel.
Proof using.
  unfold vm_read_memory_4, vm_do_read_memory_4, load_le, load_1.
  repeat (case_match; [|done|done|done|done] || case_match; cbn [mbind outcome_bind] in *); done.
Qed.

(** The loop stops: every turn adds an entry to the block, and a block has no
    room for more entries than the cache. *)
Lemma predecode_loop_not_Fuel fuel : forall b i dpc c,
  decode_cache_p c = b -> 0 <= b -> DECODE_CACHE_MAX_ENTRIES - (i - b) < Z.of_nat fuel ->
  0 < Z.of_nat fuel -> predecode_loop fuel b i dpc c <> Fuel.
Proof using.
  induction fuel as [|fuel IH]; intros b i dpc c Hp Hb Hf Hf0; [lia|].
  cbn [predecode_loop]. cbn zeta.
  destruct (vm_read_memory_4 _ _) as [opcode| | | |] eqn:Er; try done; cbn [mbind outcome_bind].
  2: { by destruct (read_memory_4_not_Fuel (mem c) (u32 (dpc + 4))). }
  destruct (cpu_decode opcode) as [ii|]; [|done]. unfold write_di.
  destruct (Z.ltb_spec i DECODE_CACHE_MAX_ENTRIES); [|done]. cbn [mbind outcome_bind].
  destruct (_ <=? _), (_ =? 0); try done; apply IH; try done; try lia.
  all: change (decode_cache_p (invalidate_cache _)) with 0; lia.
Qed.

(** A word of code: it is mapped, and ends a block or not. *)
Definition code_word (m : memory) (a : Z) (last : bool) : Prop :=
  exists opcode ii, vm_read_memory_4 m a = Ok opcode /\ cpu_decode opcode = Some ii /\
    (Z.land (ii_cflow ii) CFLOW_END_BLOCK =? 0) = negb last.

Lemma predecode_loop_total fuel : forall p b i dpc c n,
  decode_cache_p c = b -> 0 <= b <= i -> i < DECODE_CACHE_MAX_ENTRIES ->
  dpc = u32 (p + 4 * (i - b) - 4) ->
  i - b <= n < DECODE_CACHE_MAX_ENTRIES -> n - (i - b) < Z.of_nat fuel ->
  (forall j, 0 <= j <= n -> code_word (mem c) (u32 (p + 4 * j)) (j =? n)) ->
  exists b' dpc' c', predecode_loop fuel b i dpc c = Ok (b', b' + n + 1, dpc', c').
Proof using.
  induction fuel as [|fuel IH]; intros p b i dpc c n Hp Hb Hi Hdpc Hn Hf Hcode; [lia|].
  cbn [predecode_loop]. cbn zeta.
  assert (u32 (dpc + 4) = u32 (p + 4 * (i - b))) as ->.
  { rewrite Hdpc, trunc_add_l. f_equal. lia. }
  destruct (Hcode (i - b)) as (opcode & ii & -> & Eii & Eend); [lia|].
  cbn [mbind outcome_bind]. rewrite Eii. unfold write_di.
  destruct (Z.ltb_spec i DECODE_CACHE_MAX_ENTRIES); [|lia]. cbn [mbind outcome_bind]. rewrite Eend.
  destruct (Z.leb_spec DECODE_CACHE_MAX_ENTRIES (i + 1)) as [Hfull|Hroom];
    destruct (Z.eqb_spec (i - b) n) as [En|]; cbn [negb].
  - eexists _, _, _. do 4 f_equal. lia.
  - change (decode_cache_p (invalidate_cache _)) with 0.
    apply (IH p); [done|lia|lia|f_equal; lia|lia|lia|done].
  - eexists _, _, _. do 4 f_equal. lia.
  - apply (IH p); [done|lia|lia|f_equal; lia|lia|lia|done].
Qed.

(** Predecoding stops: it never exhausts the bound of the model's loop,
    whatever the memory holds. *)
Theorem predecode_terminates entry c : 0 <= decode_cache_p c -> predecode entry c <> Fuel.
Proof using.
  intros Hp. unfold predecode. destruct (new_blockinfo _) as [bi bc].
  set (c1 := set_block_cache _ c).
  destruct (predecode_loop _ _ _ _ c1) as [[[[b i] dpc] c2]| | | |] eqn:E; try done.
  apply predecode_loop_not_Fuel in E; [done|done|exact Hp|..]; unfold predecode_fuel;
    change (decode_cache_p c1) with (decode_cache_p c); unfold DECODE_CACHE_MAX_ENTRIES; lia.
Qed.

(** The state in which the loop starts. *)
Definition predecode_start (c : powerpc_cpu) : Z * powerpc_cpu :=
  let (bi, bc) := new_blockinfo (my_block_cache c) in
  (bi, set_block_cache (set_info bi (bi_init (pc c) (info bc bi)) bc) c).

(** Where a new block and the blocks before it are after [predecode]. *)
Definition blocks_after (bi di : Z) (c c' : powerpc_cpu) (AL AL' : which -> list Z) : Prop :=
  (forall x, x <> bi -> info (my_block_cache c') x = info (my_block_cache c) x) /\
  ((di = decode_cache_p c /\ AL' = <[active := bi :: AL active]> AL /\ (forall w, bi ∉ AL w) /\
    forall j, j < di -> decode_cache c' !! j = decode_cache c !! j) \/
   (di = 0 /\ AL' = <[active := [bi]]> (fun _ => []))).

(** The block cache after the loop, in either case. *)
Lemma moved_blocks b di c1 c2 CL AL x :
  bc_inv (my_block_cache c1) CL AL -> fresh_entry (my_block_cache c1) AL x ->
  unmoved_or_emptied b di c1 c2 ->
  exists CL2 AL2, bc_inv (my_block_cache c2) CL2 AL2 /\
    infos (my_block_cache c2) = infos (my_block_cache c1) /\ fresh_entry (my_block_cache c2) AL2 x /\
    ((di = b /\ AL2 = AL /\ forall j, j < di -> decode_cache c2 !! j = decode_cache c1 !! j) \/
     (di = 0 /\ AL2 = fun _ => [])).
Proof using.
  intros Hinv Hfresh [(-> & E2 & Hj)|[-> Ht]].
  - exists CL, AL. rewrite E2. split_and!; [done..|by left].
  - destruct (emptied_inv _ _ Ht CL AL Hinv) as (Hi & Ei & Hf).
    exists (fun _ => []), (fun _ => []). split_and!; [done..|by apply Hf|by right].
Qed.

(** What [predecode] makes of the loop's result. *)
Lemma predecode_post entry c bi c1 di i dpc c2 CL AL :
  0 <= decode_cache_p c -> bc_inv (my_block_cache c) CL AL -> predecode_start c = (bi, c1) ->
  predecode_loop predecode_fuel (decode_cache_p c) (decode_cache_p c) (u32 (pc c - 4)) c1 =
    Ok (di, i, dpc, c2) ->
  exists c', predecode entry c = Ok (bi, c') /\ same_machine c c' /\
    info (my_block_cache c') bi = BI (pc c) (u32 (pc c + 4 * (i - di - 1))) (i - di) (Some di)
      (u32 (pc c + 4 * (i - di - 1))) entry /\
    block_code (mem c) (pc c) (decode_cache c') di (i - di) true /\
    0 <= di < i /\ decode_cache_p c' = i /\ i <= DECODE_CACHE_MAX_ENTRIES /\
    find (pc c) (my_block_cache c') = (Some bi, my_block_cache c') /\
    exists CL' AL', bc_inv (my_block_cache c') CL' AL' /\ blocks_after bi di c c' AL AL'.
Proof using.
  unfold predecode_start, predecode. intros Hp Hbc Hs E.
  destruct (new_blockinfo (my_block_cache c)) as [bi' bc] eqn:Enew. injection Hs as -> Hc1.
  destruct (new_blockinfo_inv _ _ _ _ _ Hbc Enew) as (Hbc1 & Hfresh & Hinfos).
  rewrite Hc1. assert (pc c1 = pc c) as Hpc1 by (rewrite <- Hc1; done).
  assert (decode_cache_p c1 = decode_cache_p c) as Hp1 by (rewrite <- Hc1; done).
  rewrite Hpc1, Hp1, E. cbn [mbind outcome_bind].
  apply (predecode_loop_spec _ (pc c)) in E
    as (Hp2 & Hdi & Hlt & Hmax & Hdpc & Hblock & Hsame & Hmoved); [|done|lia|lia|f_equal; lia|intros j ?; lia].
  assert (bc_inv (my_block_cache c1) CL AL /\ fresh_entry (my_block_cache c1) AL bi) as [Hset Hfresh1]
    by (rewrite <- Hc1; split; [by apply set_info_inv|exact Hfresh]).
  destruct (moved_blocks _ _ _ _ _ _ _ Hset Hfresh1 Hmoved) as (CL2 & AL2 & Hinv2 & Hinfos2 & Hfresh2 & Hwhere).
  assert (info (my_block_cache c2) bi = bi_init (pc c) (info bc bi)) as Hinfo.
  { unfold info at 1. rewrite Hinfos2, <- Hc1. cbn. by rewrite lookup_insert_eq. }
  rewrite Hinfo. cbn [bi_pc bi_init].
  subst dpc.
  set (b := BI (pc c) _ _ _ _ entry). set (bc3 := add_to_active_list _ _).
  pose proof (bc_inv_add _ _ _ _ active b Hinv2 Hfresh2) as Hinv3.
  pose proof (find_added _ _ _ _ active b Hinv2 Hfresh2) as [Hi3 Hf3].
  exists (set_decode_cache (decode_cache c2) (decode_cache_p c2 + (i - di)) (set_block_cache bc3 c2)).
  split_and!; try done.
  - rewrite <- Hc1 in Hsame. exact (same_machine_caches c c2 _ _ _ Hsame).
  - rewrite <- Hc1 in Hblock. exact Hblock.
  - change (decode_cache_p c2 + (i - di) = i). lia.
  - eexists _, _. split; [exact Hinv3|]. split.
    + intros x Hx. unfold info. cbn. rewrite lookup_insert_ne by done. rewrite Hinfos2, <- Hc1. cbn.
      rewrite lookup_insert_ne by done. by rewrite Hinfos.
    + destruct Hwhere as [(-> & -> & Hj)|[-> ->]]; [left|by right].
      rewrite <- Hc1 in Hj. split_and!; [done|done|apply Hfresh|exact Hj].
Qed.

(** C6: Predecoding at a code address translates exactly the instructions up to
    the first one that ends a block.  When the words at [pc + 4*j] for
    [j = 0..n] are mapped and the last one is the first to end a block, the
    routine returns a new block that starts at [pc], has [n + 1] entries in
    the decode cache, each the decoded word of memory, and that [find] returns
    from then on; its recorded range is the pair of the last instruction's
    address and [execute]'s argument.  Everything but the special flags and the
    two caches is unchanged, and the pointer structure of the block cache is kept.  Either the block is where the decode cache was filled up to, and
    the blocks cached before are kept with their entries, or the cache was full,
    the block is at its start and is the only one left. *)
Theorem predecode_spec entry c n CL AL :
  0 <= decode_cache_p c < DECODE_CACHE_MAX_ENTRIES -> 0 <= n < DECODE_CACHE_MAX_ENTRIES ->
  (forall j, 0 <= j <= n -> code_word (mem c) (u32 (pc c + 4 * j)) (j =? n)) ->
  bc_inv (my_block_cache c) CL AL ->
  exists bi c' di, predecode entry c = Ok (bi, c') /\ same_machine c c' /\
    info (my_block_cache c') bi =
      BI (pc c) (u32 (pc c + 4 * n)) (n + 1) (Some di) (u32 (pc c + 4 * n)) entry /\
    block_code (mem c) (pc c) (decode_cache c') di (n + 1) true /\
    0 <= di /\ decode_cache_p c' = di + n + 1 /\ decode_cache_p c' <= DECODE_CACHE_MAX_ENTRIES /\
    find (pc c) (my_block_cache c') = (Some bi, my_block_cache c') /\
    exists CL' AL', bc_inv (my_block_cache c') CL' AL' /\ blocks_after bi di c c' AL AL'.
Proof using.
  intros Hp Hn Hcode Hbc. destruct (predecode_start c) as [bi c1] eqn:Es.
  destruct (predecode_loop_total predecode_fuel (pc c) (decode_cache_p c) (decode_cache_p c)
    (u32 (pc c - 4)) c1 n) as (di & dpc & c2 & E).
  - unfold predecode_start in Es. destruct (new_blockinfo _). by injection Es as <- <-.
  - lia.
  - lia.
  - f_equal. lia.
  - lia.
  - unfold predecode_fuel. lia.
  - unfold predecode_start in Es. destruct (new_blockinfo _). by injection Es as <- <-.
  - destruct (predecode_post entry c bi c1 _ _ _ _ CL AL (proj1 Hp) Hbc Es E)
      as (c' & H1 & H2 & H3 & H4 & H5 & H6 & H7 & H8 & H9).
    replace (di + n + 1 - di) with (n + 1) in * by lia. replace (n + 1 - 1) with n in H3 by lia.
    exists bi, c', di. split_and!; try done; lia.
Qed.
End Predecode.

Lemma predecode_terminates_witness :
  predecode (DEC := built_decoder) 0x1000 (set_pc 0x1000 (cpu_init sample_program)) <> Fuel.
Proof. apply predecode_terminates. discriminate. Defined.

(** The sample program's first block has three instructions. *)
Lemma predecode_spec_witness : exists bi c',
  predecode (DEC := built_decoder) 0x1000 (set_pc 0x1000 (cpu_init sample_program)) = Ok (bi, c') /\
  bi_size (info (my_block_cache c') bi) = 3.
Proof.
  destruct (predecode_spec (DEC := built_decoder) 0x1000 (set_pc 0x1000 (cpu_init sample_program)) 2
    (fun _ => []) (fun _ => [])) as (bi & c' & di & E & _ & Hi & _).
  - split; [discriminate|reflexivity].
  - split; [discriminate|reflexivity].
  - intros j Hj. assert (j = 0 \/ j = 1 \/ j = 2) as [-> |[-> | ->]] by lia.
    all: eexists _, _; split; [vm_compute; reflexivity|split; [vm_compute; reflexivity|reflexivity]].
  - exact bc_inv_empty.
  - exists bi, c'. split; [exact E|]. rewrite Hi. reflexivity.
Defined.

(** The sample program's first block, predecoded. *)
Definition block_state (m : outcome (Z * powerpc_cpu)) : powerpc_cpu :=
  match m with Ok (_, c) => c | _ => cpu_init ∅ end.
Definition sample_block : powerpc_cpu :=
  block_state (predecode (DEC := built_decoder) 0x1000 (set_pc 0x1000 (cpu_init sample_program))).
