(* ===== verification/CacheSpec.v ===== *)
(** The caches stay coherent: while programs run, predecode, invalidate and
    nest, the block cache keeps its pointer structure and every block in it
    has its entries in the decode cache. *)
From S2P Require Import Prelude Bitfields Registers HostFPU Operations Memory Handlers BlockCache Cpu Operands ExecInt ExecMem ExecSys Dispatch DecodeTable Decode Interp Frame InterpSpec PredecodeSpec.

(** ** The invariant *)

(** The entries of block [b] are among the first [p] of the decode cache. *)
Definition block_in (p : Z) (b : block_info) : Prop :=
  exists di, bi_di b = Some di /\ 1 <= bi_size b /\ 0 <= di /\ di + bi_size b <= p.

(** [t] has its first [p] entries. *)
Definition filled (p : Z) (t : gmap Z decode_info) : Prop := forall i, 0 <= i < p -> is_Some (t !! i).

Definition coherent (c : powerpc_cpu) : Prop :=
  0 <= decode_cache_p c <= DECODE_CACHE_MAX_ENTRIES /\ filled (decode_cache_p c) (decode_cache c) /\
  exists CL AL, bc_inv (my_block_cache c) CL AL /\ AL dormant = [] /\
    forall x, x ∈ AL active -> block_in (decode_cache_p c) (info (my_block_cache c) x).

(** [x] names a block whose entries can be run. *)
Definition runnable (c : powerpc_cpu) (x : Z) : Prop :=
  block_in (decode_cache_p c) (info (my_block_cache c) x).

(** ** Invalidation *)

Lemma cleared_inv bc bc' CL AL :
  cleared bc bc' -> bc_inv bc CL AL -> AL dormant = [] ->
  infos bc' = infos bc /\ exists CL' AL', bc_inv bc' CL' AL' /\ AL' dormant = [] /\
    forall x, x ∈ AL' active -> x ∈ AL active.
Proof.
  intros (s & e & ->) H Hd. destruct (clear_range_spec bc CL AL s e H (fun _ => Hd)) as (Hi & CL' & AL' & H' & HA).
  split; [done|]. exists CL', AL'. split_and!; [done| |].
  - apply elem_of_nil_inv. intros x Hx%HA. destruct Hx as [Hx _]. rewrite Hd in Hx.
    by apply elem_of_nil in Hx.
  - intros x Hx%HA. apply Hx.
Qed.

Lemma all_cleared_inv bc bc' : rtc cleared bc bc' -> forall CL AL,
  bc_inv bc CL AL -> AL dormant = [] ->
  infos bc' = infos bc /\ exists CL' AL', bc_inv bc' CL' AL' /\ AL' dormant = [] /\
    forall x, x ∈ AL' active -> x ∈ AL active.
Proof.
  induction 1 as [bc|bc bc1 bc2 H1 _ IH]; intros CL AL H Hd; [split; [done|by exists CL, AL]|].
  destruct (cleared_inv _ _ _ _ H1 H Hd) as (Hi & CL1 & AL1 & H2 & Hd1 & Hs1).
  destruct (IH _ _ H2 Hd1) as (Hi2 & CL2 & AL2 & H3 & Hd2 & Hs2).
  split; [congruence|]. exists CL2, AL2. split_and!; [done..|auto].
Qed.

(** What keeps the frame keeps the caches coherent, and the blocks runnable
    that were. *)
Lemma in_frame_coherent c c' :
  coherent c -> in_frame (frame_of c) c' ->
  coherent c' /\ forall x, runnable c x -> runnable c' x.
Proof.
  intros (Hp & Hf & CL & AL & H & Hd & Hb) (E1 & E2 & _ & _ & _ & Hr). cbn [frame_of fr_cache fr_cache_p fr_blocks] in *.
  destruct (all_cleared_inv _ _ Hr _ _ H Hd) as (Hi & CL' & AL' & H' & Hd' & Hs).
  unfold coherent, runnable, info in *. rewrite E1, E2, Hi. split; [|done].
  split_and!; [lia|lia|done|]. exists CL', AL'. split_and!; [done..|auto].
Qed.

(** ** Emulated code *)

Section Loops.
Context {FPU : HostFPU} {HOST : Host} {HF : HostFrame HOST} {DEC : CpuDecoder}.

Lemma run_entry_frame k di c :
  1 <= fr_depth k -> in_frame k c -> outcome_holds (in_frame k) (run_entry di c).
Proof using HF.
  intros Hd Hc. unfold run_entry. destruct (decode_cache c !! di) as [d|]; [|exact I].
  eapply outcome_holds_weaken; [apply run_handler_frame|intros c'; by apply in_frame_trans].
  destruct Hc as (_ & _ & -> & _). exact Hd.
Qed.

Lemma run_block_frame di size c :
  1 <= execute_depth c -> 1 <= size -> outcome_holds (in_frame (frame_of c)) (run_block di size c).
Proof using HF.
  intros Hd Hs. rewrite run_block_entries by done. apply foldM_holds; [|apply in_frame_refl].
  intros i c' _. by apply run_entry_frame.
Qed.

Lemma handle_interrupt_frame c :
  1 <= execute_depth c -> processing_interrupt c = false ->
  outcome_holds (in_frame (frame_of c)) (handle_interrupt c).
Proof using HF.
  intros Hd Hp. unfold handle_interrupt. cbn zeta.
  eapply outcome_holds_bind; [apply HandleInterrupt_frame, Hd|]. intros [r c'] (E1 & E2 & E3 & E4 & E5).
  exact (conj E1 (conj E2 (conj E3 (conj (eq_sym Hp) E5)))).
Qed.

Lemma check_spcflags_frame c :
  1 <= execute_depth c ->
  outcome_holds (fun '(_, c') => in_frame (frame_of c) c') (check_spcflags c).
Proof using HF.
  intros Hd. pose proof (in_frame_refl c) as Hc. unfold check_spcflags. cbn zeta.
  destruct (spcflags_test _ _); [exact Hc|].
  apply (outcome_holds_bind (in_frame (frame_of c))).
  - destruct (spcflags_test _ _); [|exact Hc].
    match goal with |- context [processing_interrupt ?x] =>
      change (processing_interrupt x) with (processing_interrupt c) end.
    destruct (processing_interrupt c) eqn:Ep; cbn [negb]; [exact Hc|].
    match goal with |- context [handle_interrupt ?x] => exact (handle_interrupt_frame x Hd Ep) end.
  - intros c1 H1. cbn [outcome_holds].
    destruct (spcflags_test SPCFLAG_CPU_TRIGGER_INTERRUPT _), (spcflags_test SPCFLAG_CPU_ENTER_MON _);
      cbn beta iota; exact H1.
Qed.

(** Looking at the flags after steps that kept the frame. *)
Lemma poll_frame c c1 :
  1 <= execute_depth c -> in_frame (frame_of c) c1 ->
  outcome_holds (fun '(_, c') => in_frame (frame_of c) c')
    (if spcflags_empty (spcflags c1) then Ok (true, c1) else check_spcflags c1).
Proof using HF.
  intros Hd H1. destruct (spcflags_empty _); [exact H1|].
  eapply outcome_holds_weaken; [apply check_spcflags_frame|intros [b c2]; by apply in_frame_trans].
  by rewrite (in_frame_depth _ _ H1).
Qed.

Lemma interp_step_frame c :
  1 <= execute_depth c -> outcome_holds (fun '(_, c') => in_frame (frame_of c) c') (interp_step c).
Proof using HF.
  intros Hd. unfold interp_step. apply read_holds. intros opcode.
  destruct (cpu_decode opcode) as [ii|]; [|exact I].
  eapply outcome_holds_bind; [by apply run_handler_frame|]. intros c1 H1. by apply poll_frame.
Qed.

Lemma do_interpret_frame fuel : forall c,
  1 <= execute_depth c -> outcome_holds (in_frame (frame_of c)) (do_interpret fuel c).
Proof using HF.
  induction fuel as [|fuel IH]; intros c Hd; cbn [do_interpret]; [exact I|].
  eapply outcome_holds_bind; [by apply interp_step_frame|]. intros [b c1] H1. destruct b; [|exact H1].
  eapply outcome_holds_weaken; [apply IH|intros c2; by apply in_frame_trans].
  by rewrite (in_frame_depth _ _ H1).
Qed.

(** ** The loops over blocks *)

Lemma find_coherent c r bc :
  coherent c -> find (pc c) (my_block_cache c) = (r, bc) ->
  coherent (set_block_cache bc c) /\
  (forall x, runnable c x -> runnable (set_block_cache bc c) x) /\
  forall x, r = Some x -> runnable (set_block_cache bc c) x.
Proof using.
  intros (Hp & Hf & CL & AL & H & Hd & Hb) E.
  destruct (find_spec _ _ _ _ _ _ H E) as (Hr & H' & Hi).
  unfold coherent, runnable, info in *. cbn [set_block_cache my_block_cache decode_cache_p decode_cache].
  rewrite Hi. split_and!; [lia|lia|done|by eexists _, AL|done|].
  intros x ->. destruct Hr as [[w Hw] _]. destruct w; [by apply Hb|].
  rewrite Hd in Hw. by apply elem_of_nil in Hw.
Qed.

Lemma filled_block m p t p' t' di n last :
  filled p t -> di <= p -> (forall j, 0 <= j < di -> t' !! j = t !! j) ->
  block_code m p' t' di n last -> filled (di + n) t'.
Proof using.
  intros Hf Hdi Hk Hcode i Hi. destruct (Z.ltb_spec i di).
  - rewrite Hk by lia. apply Hf. lia.
  - destruct (Hcode (i - di) ltac:(lia)) as (? & ? & _ & _ & He & _).
    replace (di + (i - di)) with i in He by lia. by eexists.
Qed.

Lemma predecode_coherent entry c :
  coherent c ->
  outcome_holds (fun '(x, c') => coherent c' /\ runnable c' x /\ execute_depth c' = execute_depth c)
    (predecode entry c).
Proof using.
  intros (Hp & Hf & CL & AL & H & Hd & Hb).
  destruct (predecode_start c) as [bi c1] eqn:Es.
  destruct (predecode_loop predecode_fuel (decode_cache_p c) (decode_cache_p c) (u32 (pc c - 4)) c1)
    as [[[[di i] dpc] c2]| | | |] eqn:E.
  2-5: unfold predecode_start in Es; unfold predecode; destruct (new_blockinfo _) as [bi' bc];
    injection Es as <- <-; cbn zeta;
    match goal with |- context [predecode_loop ?f ?b ?d ?p ?s] =>
      change (predecode_loop f b d p s) with
        (predecode_loop predecode_fuel (decode_cache_p c) (decode_cache_p c) (u32 (pc c - 4)) s) end;
    rewrite E; exact I.
  destruct (predecode_post entry c bi c1 di i dpc c2 CL AL (proj1 Hp) H Es E)
    as (c' & -> & Hsame & Hi & Hcode & Hdi & Hp' & Hmax & _ & CL' & AL' & H' & Hinfo & Hw).
  cbn [outcome_holds]. assert (Hbi : block_in i (info (my_block_cache c') bi)).
  { rewrite Hi. exists di. cbn [bi_di bi_size]. split_and!; [done|lia..]. }
  unfold coherent, runnable. rewrite Hp'. split; [|split; [exact Hbi|by rewrite Hsame]]. split; [lia|].
  replace i with (di + (i - di)) by lia.
  destruct Hw as [(-> & -> & Hn & Hk)|[-> ->]]; split.
  - eapply filled_block; [exact Hf|lia|intros j Hj; apply Hk; lia|exact Hcode].
  - exists CL', (<[active := bi :: AL active]> AL). rewrite functions.fn_lookup_insert.
    split_and!; [done|by rewrite functions.fn_lookup_insert_ne|].
    intros x [->|Hx]%elem_of_cons; [by replace (decode_cache_p c + (i - decode_cache_p c)) with i by lia|].
    rewrite Hinfo by (intros ->; by apply (Hn active)).
    destruct (Hb x Hx) as (d & E1 & E2 & E3 & E4). exists d. split_and!; [done..|lia].
  - eapply filled_block; [exact Hf|lia|intros j Hj; lia|exact Hcode].
  - exists CL', (<[active := [bi]]> (fun _ => [])). rewrite functions.fn_lookup_insert.
    split_and!; [done|by rewrite functions.fn_lookup_insert_ne|].
    intros x ->%list_elem_of_singleton. by replace (0 + (i - 0)) with i by lia.
Qed.

Lemma pdi_loop_coherent fuel : forall entry bi inv c,
  1 <= execute_depth c -> coherent c -> (forall x, bi = Some x -> runnable c x) ->
  outcome_holds (fun '(_, c') => coherent c') (pdi_loop fuel entry bi inv c).
Proof using HF.
  induction fuel as [|fuel IH]; intros entry bi inv c Hd Hc Hbi; [exact I|]. cbn [pdi_loop].
  destruct bi as [x|].
  - destruct (Hbi x eq_refl) as (di & Edi & Hsize & _). rewrite Edi.
    eapply outcome_holds_bind; [by apply run_block_frame|]. intros c1 H1.
    eapply outcome_holds_bind; [by apply poll_frame|].
    intros [go c2] H2. destruct (in_frame_coherent _ _ Hc H2) as [Hc2 Hr2].
    rewrite <- (in_frame_depth _ _ H2) in Hd.
    destruct (negb go); [exact Hc2|].
    destruct (spcflags_test _ _).
    { apply IH; [exact Hd|exact Hc2|done]. }
    destruct (_ =? _).
    { apply IH; [exact Hd|exact Hc2|]. intros y [= <-]. apply Hr2. by apply Hbi. }
    destruct (find (pc c2) (my_block_cache c2)) as [r bc] eqn:E.
    destruct (find_coherent _ _ _ Hc2 E) as (Hc3 & _ & Hr3). by apply IH.
  - destruct (find (pc c) (my_block_cache c)) as [r bc] eqn:E.
    destruct (find_coherent _ _ _ Hc E) as (Hc1 & _ & Hr1). destruct r as [x|]; [by apply IH|].
    eapply outcome_holds_bind; [by apply predecode_coherent|]. intros [x c2] (Hc2 & Hr2 & Hd2).
    apply IH; [rewrite Hd2; exact Hd|done|]. by intros y [= <-].
Qed.

(** C9: The caches stay coherent.  [execute] starts and ends with a block cache
    whose pointer structure is well formed and whose blocks all have their
    entries in the decode cache, whatever the program does: predecoding,
    filling the decode cache, invalidating blocks, also the one that is
    running, handling interrupts and nested calls of [execute]. *)
Theorem execute_coherent fuel entry c :
  coherent c -> 0 <= execute_depth c -> outcome_holds coherent (execute fuel entry c).
Proof using HF.
  intros Hc Hd. unfold execute. cbn zeta.
  assert (Hd1 : 1 <= execute_depth c + 1) by lia.
  apply (outcome_holds_bind (fun '(_, c') => coherent c')).
  - destruct (_ =? 1); [apply pdi_loop_coherent; [exact Hd1|exact Hc|done]|].
    eapply outcome_holds_bind; [apply do_interpret_frame, Hd1|]. intros c1 H1.
    refine (proj1 (in_frame_coherent _ _ _ H1)). exact Hc.
  - intros [b c1] Hc1. by destruct b.
Qed.

(** A nested call does not touch the state of the loops around it. *)
Lemma execute_nested_frame fuel entry c :
  1 <= execute_depth c -> outcome_holds (in_frame (frame_of c)) (execute fuel entry c).
Proof using HF.
  intros Hd. unfold execute. cbn zeta.
  match goal with |- context [execute_depth ?x =? 1] =>
    change (execute_depth x) with (execute_depth c + 1) end.
  destruct (Z.eqb_spec (execute_depth c + 1) 1); [lia|].
  set (c0 := set_execute_depth _ _).
  assert (Hd0 : 1 <= execute_depth c0) by (change (1 <= execute_depth c + 1); lia).
  pose proof (do_interpret_frame fuel c0 Hd0) as H.
  destruct (do_interpret fuel c0) as [c1| | | |]; try exact I.
  destruct H as (E1 & E2 & E3 & E4 & E5). cbn [mbind outcome_bind outcome_holds].
  refine (conj E1 (conj E2 (conj _ (conj E4 E5)))).
  change (execute_depth c1 - 1 = execute_depth c). rewrite E3. unfold c0. cbn. lia.
Qed.

Lemma run_entries_filled k p n : forall di,
  1 <= fr_depth k ->
  filled p (fr_cache k) -> 0 <= di -> di + Z.of_nat n <= p ->
  exists ds, length ds = n /\ (forall i : nat, (i < n)%nat -> fr_cache k !! (di + Z.of_nat i) = ds !! i) /\
    forall c, in_frame k c ->
    foldM run_entry (range di n) c = foldM (fun d => run_handler (di_execute d) (di_opcode d)) ds c.
Proof using HF.
  induction n as [|n IH]; intros di Hd Hf Hdi Hp; [exists []; split_and!; [done|lia|done]|].
  destruct (Hf di ltac:(lia)) as [d Ed].
  destruct (IH (di + 1) Hd Hf ltac:(lia) ltac:(lia)) as (ds & Hl & He & Hds).
  exists (d :: ds). split_and!; [cbn; by rewrite Hl| |].
  { intros [|i] Hi; cbn [lookup list_lookup]; [by rewrite Z.add_0_r|].
    rewrite <- He by lia. f_equal. lia. }
  intros c Hc. cbn [range foldM].
  pose proof (run_entry_frame k di c Hd Hc) as H1. unfold run_entry in *. rewrite (proj1 Hc), Ed in *.
  destruct (run_handler _ _ c) as [c1| | | |]; try done. cbn [mbind outcome_bind]. by apply Hds.
Qed.

(** C10: A cached block is run to its end, entry by entry: in a coherent state,
    running the block that [find] returns runs the instructions that the decode
    cache holds from the block's first entry on, as many as the block's size,
    each once and in the order of the cache, until one of them fails; no entry
    is missing, also when an instruction of the block invalidates the block
    itself. *)
Theorem found_block_runs c x bc :
  coherent c -> 1 <= execute_depth c -> find (pc c) (my_block_cache c) = (Some x, bc) ->
  exists di ds, bi_di (info bc x) = Some di /\ Z.of_nat (length ds) = bi_size (info bc x) /\
    (forall i, 0 <= i < bi_size (info bc x) -> exists d,
       decode_cache c !! (di + i) = Some d /\ ds !! Z.to_nat i = Some d) /\
    run_block di (bi_size (info bc x)) (set_block_cache bc c) =
      foldM (fun d => run_handler (di_execute d) (di_opcode d)) ds (set_block_cache bc c).
Proof using HF.
  intros Hc Hd E. destruct (find_coherent _ _ _ Hc E) as (Hc1 & _ & Hr).
  destruct (Hr x eq_refl) as (di & Edi & Hs & Hdi & Hp).
  cbn [set_block_cache my_block_cache decode_cache_p] in *.
  destruct (run_entries_filled (frame_of (set_block_cache bc c)) (decode_cache_p c)
    (Z.to_nat (bi_size (info bc x))) di) as (ds & Hl & He & Hds); [exact Hd|apply Hc1|done|lia|].
  exists di, ds. split_and!; [done|lia| |].
  - intros i Hi. destruct (lookup_lt_is_Some_2 ds (Z.to_nat i)) as [d Ed]; [lia|]. exists d. split; [|done].
    rewrite <- Ed, <- He by lia. cbn. do 2 f_equal. lia.
  - rewrite run_block_entries by done. apply Hds, in_frame_refl.
Qed.
End Loops.

(** ** Concrete machines *)

Lemma cpu_init_coherent m : coherent (cpu_init m).
Proof.
  split; [done|]. split; [intros i Hi; cbn in Hi; lia|].
  exists (fun _ => []), (fun _ => []). split_and!; [exact bc_inv_empty|done|].
  intros x Hx. by apply elem_of_nil in Hx.
Qed.

Lemma execute_coherent_witness :
  outcome_holds coherent (execute (FPU := null_fpu) (HOST := null_host) (DEC := built_decoder)
    9 0x1000 (cpu_init sample_program)).
Proof. apply execute_coherent; [apply cpu_init_coherent|discriminate]. Defined.

Lemma set_block_cache_same c : set_block_cache (my_block_cache c) c = c.
Proof. by destruct c. Qed.

Lemma set_pc_coherent v c : coherent c -> coherent (set_pc v c).
Proof. intros H. exact H. Qed.

Lemma set_execute_depth_coherent n c : coherent c -> coherent (set_execute_depth n c).
Proof. intros H. exact H. Qed.

Lemma block_state_coherent (Q : Z -> powerpc_cpu -> Prop) m :
  outcome_holds (fun '(x, c) => coherent c /\ Q x c) m -> coherent (block_state m).
Proof. destruct m as [[x c]| | | |]; cbn; [by intros [? _]|intros _; apply cpu_init_coherent..]. Qed.

Lemma sample_block_coherent : coherent sample_block.
Proof.
  unfold sample_block. apply (block_state_coherent (fun x c => runnable c x /\
    execute_depth c = execute_depth (set_pc 0x1000 (cpu_init sample_program)))).
  apply predecode_coherent, set_pc_coherent, cpu_init_coherent.
Qed.

Definition running_block : powerpc_cpu := set_execute_depth 1 sample_block.

Lemma found_block_runs_witness : exists d0 d1 d2,
  decode_cache running_block !! 0 = Some d0 /\ decode_cache running_block !! 1 = Some d1 /\
  decode_cache running_block !! 2 = Some d2 /\
  run_block (FPU := null_fpu) (HOST := null_host) 0 3 running_block =
    foldM (fun d => run_handler (FPU := null_fpu) (HOST := null_host) (di_execute d) (di_opcode d))
      [d0; d1; d2] running_block.
Proof.
  assert (Hc : coherent running_block) by exact (set_execute_depth_coherent 1 _ sample_block_coherent).
  assert (Hd : 1 <= execute_depth running_block) by (vm_compute; discriminate).
  assert (Hf : find (pc running_block) (my_block_cache running_block) =
    (Some 25, my_block_cache running_block)) by (vm_compute; reflexivity).
  destruct (found_block_runs (FPU := null_fpu) (HOST := null_host) running_block 25 _ Hc Hd Hf)
    as (di & ds & Edi & Hl & He & Hr).
  assert (Es : bi_size (info (my_block_cache running_block) 25) = 3) by (vm_compute; reflexivity).
  assert (Ed : bi_di (info (my_block_cache running_block) 25) = Some 0) by (vm_compute; reflexivity).
  rewrite Es, set_block_cache_same in Hr. rewrite Es in Hl, He. rewrite Ed in Edi. injection Edi as <-.
  destruct (He 0 ltac:(lia)) as (d0 & E0 & F0), (He 1 ltac:(lia)) as (d1 & E1 & F1),
    (He 2 ltac:(lia)) as (d2 & E2 & F2).
  exists d0, d1, d2. split_and!; [done..|].
  destruct ds as [|? [|? [|? [|? ?]]]]; cbn in Hl; try lia.
  injection F0 as ->. injection F1 as ->. injection F2 as ->. exact Hr.
Defined.
