(* ===== verification/Irq.v ===== *)
(** The flags of pending host interrupts (Unix/main_unix.cpp, include/main.h)
    and the signal to the processor (sheepshaver_glue.cpp). *)
From S2P Require Import Prelude Bitfields Registers HostFPU Operations Memory Handlers BlockCache Cpu.

Definition INTFLAG_VIA := 1.
Definition INTFLAG_SERIAL := 2.
Definition INTFLAG_ETHER := 4.
Definition INTFLAG_AUDIO := 16.
Definition INTFLAG_TIMER := 32.
Definition INTFLAG_ADB := 64.

(** The flags are updated atomically; the update is one step. *)
Definition SetInterruptFlag (flag InterruptFlags : Z) : Z := Z.lor InterruptFlags flag.
Definition ClearInterruptFlag (flag InterruptFlags : Z) : Z := Z.land InterruptFlags (u32 (Z.lnot flag)).

(** The global [ppc_cpu] exists; [idle_resume] wakes a host thread and has no
    counterpart. *)
Definition TriggerInterrupt : powerpc_cpu -> powerpc_cpu := trigger_interrupt.

(** The two calls that end an event handler; the state is [InterruptFlags] and
    the processor. *)
Definition signal (flag : Z) (s : Z * powerpc_cpu) : Z * powerpc_cpu :=
  (SetInterruptFlag flag (fst s), TriggerInterrupt (snd s)).

(** ** Laws *)

Lemma SetInterruptFlag_bit n k f :
  0 <= n -> 0 <= k -> Z.testbit (SetInterruptFlag (2 ^ n) f) k = (k =? n) || Z.testbit f k.
Proof. intros. unfold SetInterruptFlag. rewrite Z.lor_spec, testbit_pow2 by done. apply orb_comm. Qed.

Lemma ClearInterruptFlag_bit n k f :
  0 <= n -> 0 <= k < 32 -> Z.testbit (ClearInterruptFlag (2 ^ n) f) k = negb (k =? n) && Z.testbit f k.
Proof.
  intros. unfold ClearInterruptFlag. rewrite Z.land_spec, testbit_trunc, testbit_lnot, testbit_pow2 by lia.
  destruct (Z.ltb_spec k 32); [|lia]. destruct (Z.leb_spec 0 k); [|lia]. cbn. apply andb_comm.
Qed.
