(* ===== verification/MacMem.v ===== *)
(** Accesses of host code to Mac memory ([ReadMacInt8] ... [WriteMacInt32]) as
    big-endian loads and stores: totality on mapped memory, what is read back,
    and what stays. *)
From S2P Require Import Prelude Bitfields Registers HostFPU Operations Memory Handlers BlockCache Cpu Operands ExecInt ExecMem ExecSys.

(** [c'] is [c] after a store of [n] bytes of [v] at [a]. *)
Record writes (n : nat) (a v : Z) (c c' : powerpc_cpu) : Prop := {
  writes_cpu : exists m, c' = set_mem m c;
  writes_wf : mem_wf (mem c');
  writes_dom : dom (mem c') = dom (mem c);
  writes_value : load_be n (mem c') a = Ok (trunc (8 * Z.of_nat n) v);
  writes_frame i : ~ (a <= i < a + Z.of_nat n) -> mem c' !! i = mem c !! i;
}.

Lemma cpu_write_be n a v c :
  mem_wf (mem c) -> mapped n a (mem c) ->
  exists c', cpu_write (store_be n a v) c = Ok c' /\ writes n a v c c'.
Proof.
  intros Hm Hmap. destruct (store_be_total n a v _ Hmap) as [m Em]. exists (set_mem m c).
  pose proof (store_be_wf n a v _ Hm) as Hw. rewrite Em in Hw.
  unfold cpu_write. rewrite Em. split; [done|]. split; [by exists m|done| | |].
  - by apply (store_be_dom _ _ _ _ _ Em).
  - by apply (load_store_be _ _ _ _ _ Em).
  - intros i Hi. by apply (store_be_frame _ _ _ _ _ _ Em).
Qed.

Lemma WriteMacInt16_Ok a v c :
  mem_wf (mem c) -> mapped 2 a (mem c) -> exists c', WriteMacInt16 a v c = Ok c' /\ writes 2 a v c c'.
Proof.
  intros Hm Hmap. destruct (cpu_write_be 2 a v c Hm Hmap) as (c' & E & W). exists c'. split; [|done].
  rewrite <- E. unfold WriteMacInt16, vm_write_memory_2, vm_do_get_real_address, cpu_write.
  by rewrite vm_do_write_memory_2_be.
Qed.

Lemma WriteMacInt32_writes a v c :
  mem_wf (mem c) -> mapped 4 a (mem c) -> exists c', WriteMacInt32 a v c = Ok c' /\ writes 4 a v c c'.
Proof.
  intros Hm Hmap. destruct (cpu_write_be 4 a v c Hm Hmap) as (c' & E & W). exists c'. split; [|done].
  rewrite <- E. unfold WriteMacInt32, vm_write_memory_4, vm_do_get_real_address, cpu_write.
  by rewrite vm_do_write_memory_4_be.
Qed.

Lemma ReadMacInt16_be a c : mem_wf (mem c) -> ReadMacInt16 a c = load_be 2 (mem c) a.
Proof. apply vm_do_read_memory_2_be. Qed.
Lemma ReadMacInt32_be a c : mem_wf (mem c) -> ReadMacInt32 a c = load_be 4 (mem c) a.
Proof. apply vm_do_read_memory_4_be. Qed.

Lemma mapped_le k n a b m : b <= a -> a + Z.of_nat k <= b + Z.of_nat n -> mapped n b m -> mapped k a m.
Proof. intros H1 H2 H i Hi. apply H. lia. Qed.

Section Writes.
Context {n : nat} {a v : Z} {c c' : powerpc_cpu} (W : writes n a v c c').

Lemma writes_other k b : b + Z.of_nat k <= a \/ a + Z.of_nat n <= b -> load_be k (mem c') b = load_be k (mem c) b.
Proof using W. intros Hd. apply load_be_cong. intros i Hi. apply (writes_frame _ _ _ _ _ W). lia. Qed.

Lemma writes_mapped k b : mapped k b (mem c) -> mapped k b (mem c').
Proof using W. apply mapped_cong, (writes_dom _ _ _ _ _ W). Qed.
End Writes.
