(* ===== verification/Timer.v ===== *)
(** The Time Manager (timer.cpp, Unix/timer_unix.cpp): host time, the list of
    task descriptors, the operations of Mac OS on it, the thread that waits for
    the next wake-up time, and the interrupt function that runs expired tasks.

    Configuration: a Unix host with [clock_gettime] and POSIX threads
    ([PRECISE_TIMING_POSIX]), [TM_QUEUE] 0, so that [enqueue_tm] and
    [dequeue_tm] are empty. *)
From S2P Require Import Prelude Bitfields Registers HostFPU Operations Memory Handlers BlockCache Cpu Operands ExecInt ExecMem ExecSys Irq.

(** ** Host time ([struct timespec]) *)

Record tm_time_t := Time { tv_sec : Z; tv_nsec : Z }.

#[export] Instance tm_time_t_eq_dec : EqDecision tm_time_t.
Proof. solve_decision. Defined.

Definition timer_add_time (a b : tm_time_t) : tm_time_t :=
  let sec := tv_sec a + tv_sec b in
  let nsec := tv_nsec a + tv_nsec b in
  if 1000000000 <=? nsec then Time (sec + 1) (nsec - 1000000000) else Time sec nsec.

Definition timer_sub_time (a b : tm_time_t) : tm_time_t :=
  let sec := tv_sec a - tv_sec b in
  let nsec := tv_nsec a - tv_nsec b in
  if nsec <? 0 then Time (sec - 1) (nsec + 1000000000) else Time sec nsec.

(** The result is an [int]. *)
Definition timer_cmp_time (a b : tm_time_t) : Z :=
  if tv_sec a =? tv_sec b then s32 (tv_nsec a - tv_nsec b) else s32 (tv_sec a - tv_sec b).

(** [mactime] is an [int32]; its negation is one, too. *)
Definition timer_mac2host_time (mactime : Z) : tm_time_t :=
  if 0 <? mactime then Time (Z.quot mactime 1000) (Z.rem mactime 1000 * 1000000)
  else Time (Z.quot (s32 (- mactime)) 1000000) (Z.rem (s32 (- mactime)) 1000000 * 1000).

Definition timer_host2mac_time (hosttime : tm_time_t) : Z :=
  if tv_sec hosttime <? 0 then 0
  else
    let t := u64 (tv_sec hosttime * 1000000 + Z.quot (tv_nsec hosttime) 1000) in
    if 0x7fffffff <? t then s32 (Z.quot t 1000) else s32 (- t).

Definition wakeup_time_max : tm_time_t := Time 0x7fffffff 999999999.

(** [Microseconds]: the high and the low word, at host time [t]. *)
Definition Microseconds (t : tm_time_t) : Z * Z :=
  let tl := u64 (tv_sec t * 1000000 + Z.quot (tv_nsec t) 1000) in
  (u32 (Z.shiftr tl 32), u32 tl).

(** ** Descriptors *)

(** Descriptors live on the host's heap: [descs] holds the ones that are
    allocated, 0 is the null pointer, and an access to a freed one faults.
    [next_desc] is an address [new] has not returned yet. *)
Record TMDesc := Desc { task : Z; wakeup : tm_time_t; next : Z }.

Record timer := Timer {
  tmDescList : Z;
  descs : gmap Z TMDesc;
  next_desc : Z;
  wakeup_time : tm_time_t;
  suspend_count : Z;
}.

Definition set_list (head : Z) (h : gmap Z TMDesc) (t : timer) : timer :=
  Timer head h (next_desc t) (wakeup_time t) (suspend_count t).
Definition set_wakeup_time (w : tm_time_t) (t : timer) : timer :=
  Timer (tmDescList t) (descs t) (next_desc t) w (suspend_count t).
Definition set_suspend_count (n : Z) (t : timer) : timer :=
  Timer (tmDescList t) (descs t) (next_desc t) (wakeup_time t) n.

(** [p->...] *)
Definition deref (p : Z) (h : gmap Z TMDesc) : outcome TMDesc :=
  match h !! p with Some d => Ok d | None => Segv p end.

(** Bound of the walks: a list has no more elements than there are descriptors. *)
Definition walk (t : timer) : nat := S (size (descs t)).

Fixpoint find_loop (fuel : nat) (tm desc : Z) (h : gmap Z TMDesc) : outcome Z :=
  match fuel with
  | O => Fuel
  | S fuel =>
      if desc =? 0 then Ok 0
      else d ← deref desc h; if task d =? tm then Ok desc else find_loop fuel tm (next d) h
  end.
Definition find_desc (tm : Z) (t : timer) : outcome Z := find_loop (walk t) tm (tmDescList t) (descs t).

(** The loop that takes [desc] out of the chain that starts at [p]. *)
Fixpoint unlink_loop (fuel : nat) (desc p : Z) (h : gmap Z TMDesc) : outcome (gmap Z TMDesc) :=
  match fuel with
  | O => Fuel
  | S fuel =>
      if p =? 0 then Ok h
      else
        d ← deref p h;
        if next d =? desc then e ← deref desc h; Ok (<[p := Desc (task d) (wakeup d) (next e)]> h)
        else unlink_loop fuel desc (next d) h
  end.
Definition free_desc (desc : Z) (t : timer) : outcome timer :=
  if desc =? tmDescList t then
    d ← deref desc (descs t);
    Ok (set_list (next d) (delete desc (descs t)) t)
  else
    h ← unlink_loop (walk t) desc (tmDescList t) (descs t);
    Ok (set_list (tmDescList t) (delete desc h) t).

(** ** The timer thread *)

(** The emulator's side of suspending and resuming the thread. *)
Definition timer_thread_suspend (t : timer) : timer :=
  if suspend_count t =? 0 then set_suspend_count 1 t else t.
Definition timer_thread_resume (t : timer) : outcome timer :=
  if 0 <? suspend_count t
  then Ok (if suspend_count t =? 1 then set_suspend_count 0 t else t)
  else Abort.

(** What [timer_func] does when it wakes up at host time [now]; the state is
    [InterruptFlags] and the processor. *)
Definition timer_func_step (now : tm_time_t) (t : timer) (s : Z * powerpc_cpu) : timer * (Z * powerpc_cpu) :=
  if timer_cmp_time (wakeup_time t) now <? 0
  then (set_wakeup_time wakeup_time_max t, signal INTFLAG_TIMER s)
  else (t, s).

(** ** Operations *)

Definition qType := 4.
Definition tmAddr := 6.
Definition tmCount := 10.
Definition tmWakeUp := 14.

(** [ReadMacInt16(tm + qType) & 0x8000] *)
Definition active (tm : Z) (c : powerpc_cpu) : outcome bool :=
  q ← ReadMacInt16 (u32 (tm + qType)) c; Ok (Zb (Z.land q 0x8000)).

(** The loop that looks for the next task to be called. *)
Fixpoint next_wakeup (fuel : nat) (d : Z) (h : gmap Z TMDesc) (w : tm_time_t) (c : powerpc_cpu) : outcome tm_time_t :=
  match fuel with
  | O => Fuel
  | S fuel =>
      if d =? 0 then Ok w
      else
        e ← deref d h;
        a ← active (task e) c;
        next_wakeup fuel (next e) h (if a && (timer_cmp_time (wakeup e) w <? 0) then wakeup e else w) c
  end.
Definition set_next_wakeup (t : timer) (c : powerpc_cpu) : outcome timer :=
  w ← next_wakeup (walk t) (tmDescList t) (descs t) wakeup_time_max c;
  Ok (set_wakeup_time w t).

Fixpoint reset_loop (fuel : nat) (desc : Z) (h : gmap Z TMDesc) : outcome (gmap Z TMDesc) :=
  match fuel with
  | O => Fuel
  | S fuel => if desc =? 0 then Ok h else d ← deref desc h; reset_loop fuel (next d) (delete desc h)
  end.
Definition TimerReset (t : timer) : outcome timer :=
  h ← reset_loop (walk t) (tmDescList t) (descs t);
  Ok (set_list 0 h t).

(** [uninit_time] is the contents of the [wakeup] of a new descriptor. *)
Definition InsTime (uninit_time : tm_time_t) (tm trap : Z) (t : timer) (c : powerpc_cpu)
  : outcome (timer * powerpc_cpu) :=
  q ← ReadMacInt16 (u32 (tm + qType)) c;
  c ← WriteMacInt16 (u32 (tm + qType)) (Z.lor (Z.land q 0x1fff) (Z.land (Z.shiftl trap 4) 0x6000)) c;
  desc ← find_desc tm t;
  if negb (desc =? 0) then Ok (t, c)
  else
    let p := next_desc t in
    let h := <[p := Desc tm uninit_time (tmDescList t)]> (descs t) in
    Ok (Timer p h (p + 1) (wakeup_time t) (suspend_count t), c).

(** The part of [RmvTime] with the timer thread stopped; [now] is the host time
    when the operation asks for it. *)
Definition deactivate (now : tm_time_t) (tm desc : Z) (t : timer) (c : powerpc_cpu) : outcome (timer * powerpc_cpu) :=
  b ← active tm c;
  if (b : bool) then
    q ← ReadMacInt16 (u32 (tm + qType)) c;
    c ← WriteMacInt16 (u32 (tm + qType)) (Z.land q 0x7fff) c;
    t ← set_next_wakeup t c;
    d ← deref desc (descs t);
    let remaining := timer_sub_time (wakeup d) now in
    c ← WriteMacInt32 (u32 (tm + tmCount)) (timer_host2mac_time remaining) c;
    Ok (t, c)
  else c ← WriteMacInt32 (u32 (tm + tmCount)) 0 c; Ok (t, c).

Definition RmvTime (now : tm_time_t) (tm : Z) (t : timer) (c : powerpc_cpu) : outcome (timer * powerpc_cpu) :=
  desc ← find_desc tm t;
  if desc =? 0 then Ok (t, c)
  else
    '(t, c) ← deactivate now tm desc (timer_thread_suspend t) c;
    t ← timer_thread_resume t;
    if negb (suspend_count t =? 0) then Abort
    else t ← free_desc desc t; Ok (t, c).

(** [desc->wakeup = w] *)
Definition set_wakeup (desc : Z) (w : tm_time_t) (t : timer) : outcome timer :=
  d ← deref desc (descs t);
  Ok (set_list (tmDescList t) (<[desc := Desc (task d) w (next d)]> (descs t)) t).

(** The wake-up time of a task that is primed. *)
Definition schedule (now : tm_time_t) (tm time desc : Z) (t : timer) (c : powerpc_cpu)
  : outcome (timer * powerpc_cpu) :=
  let delay := timer_mac2host_time time in
  q ← ReadMacInt16 (u32 (tm + qType)) c;
  if Zb (Z.land q 0x4000) then
    w ← ReadMacInt32 (u32 (tm + tmWakeUp)) c;
    t ← (if Zb w then
           delay ← (if time =? 0 then n ← ReadMacInt16 (u32 (tm + tmCount)) c; Ok (timer_mac2host_time n)
                    else Ok delay);
           d ← deref desc (descs t);
           set_wakeup desc (timer_add_time (wakeup d) delay) t
         else set_wakeup desc (timer_add_time now delay) t);
    c ← WriteMacInt32 (u32 (tm + tmWakeUp)) 0x12345678 c;
    Ok (t, c)
  else t ← set_wakeup desc (timer_add_time now delay) t; Ok (t, c).

Definition PrimeTime (now : tm_time_t) (tm time : Z) (t : timer) (c : powerpc_cpu) : outcome (timer * powerpc_cpu) :=
  desc ← find_desc tm t;
  if desc =? 0 then Ok (t, c)
  else
    '(t, c) ← schedule now tm time desc t c;
    let t := timer_thread_suspend t in
    q ← ReadMacInt16 (u32 (tm + qType)) c;
    c ← WriteMacInt16 (u32 (tm + qType)) (Z.lor q 0x8000) c;
    t ← set_next_wakeup t c;
    t ← timer_thread_resume t;
    if negb (suspend_count t =? 0) then Abort else Ok (t, c).

(** ** [TimerInterrupt] *)

Section Interrupt.
(** [Execute68k], and the contents of uninitialised 68k registers.  The routine
    of a task may call the operations above. *)
Context (Execute68k : Z -> M68kRegisters -> timer * powerpc_cpu -> outcome (M68kRegisters * (timer * powerpc_cpu))).
Context (uninit_68k : M68kRegisters).

(** One descriptor of the loop; [next] has been read. *)
Definition fire (now : tm_time_t) (d : TMDesc) (s : timer * powerpc_cpu) : outcome (timer * powerpc_cpu) :=
  let tm := task d in
  let '(t, c) := s in
  b ← active tm c;
  if (b : bool) && (timer_cmp_time (wakeup d) now <=? 0) then
    q ← ReadMacInt16 (u32 (tm + qType)) c;
    c ← WriteMacInt16 (u32 (tm + qType)) (Z.land q 0x7fff) c;
    addr ← ReadMacInt32 (u32 (tm + tmAddr)) c;
    if negb (addr =? 0) then
      let r := R68 (r68_d uninit_68k) (addr :: tm :: drop 2 (r68_a uninit_68k)) in
      '(_, s) ← Execute68k addr r (t, c);
      Ok s
    else Ok (t, c)
  else Ok (t, c).

Fixpoint interrupt_loop (fuel : nat) (now : tm_time_t) (desc : Z) (s : timer * powerpc_cpu)
  : outcome (timer * powerpc_cpu) :=
  match fuel with
  | O => Fuel
  | S fuel =>
      if desc =? 0 then Ok s
      else
        d ← deref desc (descs (fst s));
        s ← fire now d s;
        interrupt_loop fuel now (next d) s
  end.

Definition TimerInterrupt (now : tm_time_t) (s : timer * powerpc_cpu) : outcome (timer * powerpc_cpu) :=
  '(t, c) ← interrupt_loop (walk (fst s)) now (tmDescList (fst s)) s;
  let t := timer_thread_suspend t in
  t ← set_next_wakeup t c;
  t ← timer_thread_resume t;
  if negb (suspend_count t =? 0) then Abort else Ok (t, c).
End Interrupt.
