(* ===== verification/TimerSpec.v ===== *)
(** Properties of the Time Manager (Timer.v): arithmetic of host and Mac times,
    the descriptor list as an abstract list of tasks, and the wake-up time the
    timer thread waits for. *)
From S2P Require Import Prelude Bitfields Registers HostFPU Operations Memory Handlers BlockCache Cpu Operands ExecInt ExecMem ExecSys Irq MacMem Timer.

(** ** Times *)

Definition ns (t : tm_time_t) : Z := tv_sec t * 1000000000 + tv_nsec t.

(** A time the host's clock gives before 2038. *)
Record time_ok (t : tm_time_t) : Prop := {
  ok_sec : 0 <= tv_sec t < 2 ^ 31;
  ok_nsec : 0 <= tv_nsec t < 1000000000;
}.
Definition normal (t : tm_time_t) : Prop := 0 <= tv_nsec t < 1000000000.

Lemma timer_add_time_ns a b : normal a -> normal b ->
  ns (timer_add_time a b) = ns a + ns b /\ normal (timer_add_time a b).
Proof.
  unfold normal, timer_add_time, ns. intros Ha Hb.
  destruct (Z.leb_spec 1000000000 (tv_nsec a + tv_nsec b)); cbn [tv_sec tv_nsec]; lia.
Qed.

Lemma timer_sub_time_ns a b : normal a -> normal b ->
  ns (timer_sub_time a b) = ns a - ns b /\ normal (timer_sub_time a b).
Proof.
  unfold normal, timer_sub_time, ns. intros Ha Hb.
  destruct (Z.ltb_spec (tv_nsec a - tv_nsec b) 0); cbn [tv_sec tv_nsec]; lia.
Qed.

Lemma timer_cmp_time_ns a b : time_ok a -> time_ok b ->
  (timer_cmp_time a b <? 0) = (ns a <? ns b) /\ (timer_cmp_time a b <=? 0) = (ns a <=? ns b).
Proof.
  intros [Ha Ha'] [Hb Hb']. unfold timer_cmp_time, ns. change (2 ^ 31) with 2147483648 in *.
  destruct (Z.eqb_spec (tv_sec a) (tv_sec b)); rewrite sext_small by (change (2 ^ (32 - 1)) with 2147483648; lia);
    split; split_cmp; lia.
Qed.

Lemma max_ok : time_ok wakeup_time_max.
Proof. split; cbn; lia. Qed.
Lemma time_below_max t : time_ok t -> ns t <= ns wakeup_time_max.
Proof. intros [H1 H2]. unfold ns. cbn [tv_sec tv_nsec wakeup_time_max]. change (2 ^ 31) with 2147483648 in *. lia. Qed.

(** The duration a Mac time stands for: milliseconds, or negative microseconds. *)
Definition mac_ns (mactime : Z) : Z := if 0 <? mactime then mactime * 1000000 else - mactime * 1000.

Lemma timer_mac2host_time_ns mactime :
  - 2 ^ 31 < mactime < 2 ^ 31 ->
  ns (timer_mac2host_time mactime) = mac_ns mactime /\ time_ok (timer_mac2host_time mactime).
Proof.
  change (2 ^ 31) with 2147483648. intros H. unfold timer_mac2host_time, mac_ns, ns.
  rewrite (sext_small 32 (- mactime)) by (done || change (2 ^ (32 - 1)) with 2147483648; lia).
  split; [|split]; destruct (Z.ltb_spec 0 mactime); cbn [tv_sec tv_nsec]; change (2 ^ 31) with 2147483648;
    Z.quot_rem_to_equations; lia.
Qed.

Lemma timer_host2mac_time_us t :
  normal t -> 0 <= tv_sec t < 2 ^ 31 ->
  timer_host2mac_time t =
    let us := ns t / 1000 in if 0x7fffffff <? us then s32 (us / 1000) else - us.
Proof.
  change (2 ^ 31) with 2147483648. unfold normal. intros Hn Hs. unfold timer_host2mac_time. cbn zeta.
  destruct (Z.ltb_spec (tv_sec t) 0); [lia|].
  assert (Hus : ns t / 1000 = tv_sec t * 1000000 + tv_nsec t / 1000).
  { unfold ns. Z.div_mod_to_equations. lia. }
  rewrite Z.quot_div_nonneg by lia. rewrite Hus.
  assert (0 <= tv_sec t * 1000000 + tv_nsec t / 1000 < 2 ^ 64).
  { change (2 ^ 64) with 18446744073709551616. Z.div_mod_to_equations. lia. }
  rewrite trunc_small by done. destruct (Z.ltb_spec 0x7fffffff (tv_sec t * 1000000 + tv_nsec t / 1000)).
  - by rewrite Z.quot_div_nonneg by lia.
  - apply sext_small; [done|]. change (2 ^ (32 - 1)) with 2147483648. lia.
Qed.

(** A Mac time survives the conversion to host time and back.  For every
    Mac time but the smallest 32-bit number, the host time is the duration it
    stands for, and converting that back gives a Mac time of the same duration;
    it is the same number if it was given in microseconds, or in milliseconds
    too many for microseconds. *)
Theorem mac_time_roundtrip mactime :
  - 2 ^ 31 < mactime < 2 ^ 31 ->
  let host := timer_mac2host_time mactime in
  ns host = mac_ns mactime /\ mac_ns (timer_host2mac_time host) = mac_ns mactime /\
  (mactime <= 0 \/ 2147483 < mactime -> timer_host2mac_time host = mactime).
Proof.
  intros H. cbn zeta. destruct (timer_mac2host_time_ns mactime H) as [E [Hs Hn]].
  change (2 ^ 31) with 2147483648 in H.
  rewrite (timer_host2mac_time_us _ Hn Hs), E. cbn zeta. split; [done|].
  unfold mac_ns. destruct (Z.ltb_spec 0 mactime).
  - replace (mactime * 1000000 / 1000) with (mactime * 1000) by (Z.div_mod_to_equations; lia).
    rewrite Z.div_mul by done. destruct (Z.ltb_spec 0x7fffffff (mactime * 1000)).
    + rewrite sext_small by (done || change (2 ^ (32 - 1)) with 2147483648; lia). split_cmp. lia.
    + split_cmp; lia.
  - rewrite Z.div_mul, (proj2 (Z.ltb_ge 0x7fffffff (- mactime))) by lia. split_cmp; lia.
Qed.

Lemma mac_time_roundtrip_witness :
  timer_mac2host_time (-1500000) = Time 1 500000000 /\ timer_host2mac_time (Time 1 500000000) = -1500000.
Proof.
  split; [reflexivity|].
  exact (proj2 (proj2 (mac_time_roundtrip (-1500000) ltac:(lia))) ltac:(lia)).
Defined.

(** ** The list of descriptors *)

Record entry := Entry { addr : Z; etask : Z; ewake : tm_time_t }.

(** From [p], the heap holds the chain of the entries [es]. *)
Fixpoint chain (h : gmap Z TMDesc) (p : Z) (es : list entry) : Prop :=
  match es with
  | [] => p = 0
  | e :: es => p = addr e /\ p <> 0 /\ exists n, h !! p = Some (Desc (etask e) (ewake e) n) /\ chain h n es
  end.

(** The Time Manager holds the tasks of [es]: every allocated descriptor is in
    the list, once, and no task is installed twice. *)
Record timer_wf (t : timer) (es : list entry) : Prop := {
  wf_chain : chain (descs t) (tmDescList t) es;
  wf_nodup : NoDup (addr <$> es);
  wf_dom : dom (descs t) = list_to_set (addr <$> es);
  wf_fresh : Forall (fun e => 0 < addr e < next_desc t) es;
  wf_next : 0 < next_desc t;
  wf_tasks : NoDup (etask <$> es);
  wf_suspend : suspend_count t = 0;
}.

Lemma length_walk t es : timer_wf t es -> (length es < walk t)%nat.
Proof.
  intros [_ Hn Hd _ _ _ _]. unfold walk. rewrite <- size_dom, Hd, size_list_to_set by done.
  rewrite length_fmap. lia.
Qed.

Lemma chain_cong h h' p es :
  (forall q, q ∈ addr <$> es -> h' !! q = h !! q) -> chain h p es -> chain h' p es.
Proof.
  revert p. induction es as [|e es IH]; intros p H; cbn [chain]; [done|].
  intros (-> & Hp & n & Hn & Hc). split; [done|]. split; [done|]. exists n. rewrite H by (rewrite fmap_cons; left).
  split; [done|]. apply IH; [|done]. intros q Hq. apply H. rewrite fmap_cons. by right.
Qed.

Lemma chain_insert h p es q d : q ∉ addr <$> es -> chain h p es -> chain (<[q := d]> h) p es.
Proof. intros Hq. apply chain_cong. intros r Hr. rewrite lookup_insert_ne; [done|]. by intros ->. Qed.
Lemma chain_delete h p es q : q ∉ addr <$> es -> chain h p es -> chain (delete q h) p es.
Proof. intros Hq. apply chain_cong. intros r Hr. rewrite lookup_delete_ne; [done|]. by intros ->. Qed.

(** *** Look-up *)

Definition find_entry (tm : Z) (es : list entry) : option entry := snd <$> list_find (fun e => etask e = tm) es.

Lemma find_entry_cons tm e es :
  find_entry tm (e :: es) = if etask e =? tm then Some e else find_entry tm es.
Proof.
  unfold find_entry. cbn. destruct (Z.eqb_spec (etask e) tm); case_decide; try done.
  by destruct (list_find _ es) as [[? ?]|].
Qed.

Lemma find_entry_None tm es : find_entry tm es = None <-> tm ∉ etask <$> es.
Proof.
  induction es as [|e es IH]; [cbn; set_solver|]. rewrite find_entry_cons, fmap_cons, not_elem_of_cons, <- IH.
  destruct (Z.eqb_spec (etask e) tm); naive_solver.
Qed.

Lemma find_entry_Some tm es e : find_entry tm es = Some e -> e ∈ es /\ etask e = tm.
Proof.
  induction es as [|e' es IH]; [done|]. rewrite find_entry_cons, elem_of_cons.
  destruct (Z.eqb_spec (etask e') tm); naive_solver.
Qed.

Lemma find_task_spec fuel tm h : forall p es,
  chain h p es -> (length es < fuel)%nat ->
  find_loop fuel tm p h = Ok (default 0 (addr <$> find_entry tm es)).
Proof.
  induction fuel as [|fuel IH]; intros p es Hc Hf; [lia|]. cbn [find_loop].
  destruct es as [|e es]; cbn [chain] in Hc.
  { subst. done. }
  destruct Hc as (-> & Hp & n & Hn & Hc). rewrite (proj2 (Z.eqb_neq _ _)) by done.
  unfold deref. rewrite Hn. cbn [mbind outcome_bind task next]. rewrite find_entry_cons.
  destruct (etask e =? tm); [done|]. apply IH; [done|]. cbn in Hf. lia.
Qed.

Lemma find_desc_spec tm t es :
  timer_wf t es -> find_desc tm t = Ok (default 0 (addr <$> find_entry tm es)).
Proof. intros Hw. apply find_task_spec; [apply Hw|by apply length_walk]. Qed.

(** *** Removal *)

Lemma unlink_spec e0 e es2 : forall es1 fuel p h,
  chain h p (es1 ++ e0 :: e :: es2) -> NoDup (addr <$> es1 ++ e0 :: e :: es2) ->
  (length es1 < fuel)%nat ->
  exists h', unlink_loop fuel (addr e) p h = Ok h' /\ dom h' = dom h /\
    (forall q, q <> addr e0 -> h' !! q = h !! q) /\ chain (delete (addr e) h') p (es1 ++ e0 :: es2).
Proof.
  induction es1 as [|e1 es1 IH]; intros fuel p h Hc Hn Hf; (destruct fuel as [|fuel]; [cbn in Hf; lia|]);
    cbn [unlink_loop]; cbn [app chain] in Hc; destruct Hc as (-> & Hp & n & Hd & Hc);
    rewrite (proj2 (Z.eqb_neq _ _)) by done; unfold deref; rewrite Hd; cbn [mbind outcome_bind next].
  - destruct Hc as (-> & He & n2 & Hd2 & Hc). rewrite Z.eqb_refl, Hd2. cbn [mbind outcome_bind next task wakeup].
    eexists. split; [reflexivity|]. cbn [app fmap list_fmap] in Hn. rewrite !NoDup_cons, not_elem_of_cons in Hn.
    destruct Hn as ((Hn1 & Hn2) & Hn3 & Hn4). split_and!.
    + by rewrite dom_insert_lookup_L by (by eexists).
    + intros q Hq. by rewrite lookup_insert_ne.
    + cbn [app chain]. split; [done|]. split; [done|]. exists n2.
      rewrite lookup_delete_ne, lookup_insert_eq by done. split; [done|].
      by apply chain_delete, chain_insert.
  - assert (Hne : n <> addr e).
    { destruct es1 as [|e2 es1]; cbn [app chain] in Hc; destruct Hc as (-> & _); cbn in Hn; rewrite !NoDup_cons in Hn.
      - set_solver.
      - rewrite fmap_app in Hn. destruct Hn as (_ & Hn & _). set_solver. }
    rewrite (proj2 (Z.eqb_neq n _)) by done. cbn [app fmap list_fmap] in Hn. apply NoDup_cons in Hn as [Hn1 Hn].
    destruct (IH fuel n h Hc Hn) as (h' & E & Hdom & Hfr & Hc'); [cbn in Hf; lia|].
    exists h'. split_and!; [done|done|done|]. cbn [app chain]. split; [done|]. split; [done|]. exists n.
    rewrite fmap_app in Hn1. rewrite lookup_delete_ne by set_solver. rewrite Hfr by set_solver. done.
Qed.

Lemma free_desc_spec t es1 e es2 :
  timer_wf t (es1 ++ e :: es2) ->
  exists t', free_desc (addr e) t = Ok t' /\ timer_wf t' (es1 ++ es2) /\ wakeup_time t' = wakeup_time t.
Proof.
  intros [Hc Hn Hd Hf Hx Ht Hs].
  assert (Hn' : NoDup (addr <$> es1 ++ es2) /\ addr e ∉ addr <$> es1 ++ es2).
  { rewrite fmap_app, fmap_cons in Hn. apply NoDup_app in Hn as (? & ? & Hn2). apply NoDup_cons in Hn2 as [? ?].
    rewrite fmap_app, NoDup_app. set_solver. }
  assert (Ht' : NoDup (etask <$> es1 ++ es2)).
  { rewrite fmap_app, fmap_cons in Ht. apply NoDup_app in Ht as (? & ? & Ht2). apply NoDup_cons in Ht2 as [? ?].
    rewrite fmap_app, NoDup_app. set_solver. }
  assert (Hf' : Forall (fun e => 0 < addr e < next_desc t) (es1 ++ es2)).
  { apply Forall_app in Hf as [? [_ ?]%Forall_cons]. by apply Forall_app. }
  assert (Hd' : forall h : gmap Z TMDesc, dom h = dom (descs t) -> dom (delete (addr e) h) = list_to_set (addr <$> es1 ++ es2)).
  { intros h Hh. rewrite dom_delete_L, Hh, Hd, !fmap_app, fmap_cons in *. set_solver. }
  unfold free_desc. destruct es1 as [|e1 es1].
  - cbn [app chain] in Hc. destruct Hc as (E & Hp & n & Hl & Hc). rewrite <- E, Z.eqb_refl. rewrite E.
    unfold deref. rewrite E in Hl. rewrite Hl. cbn [mbind outcome_bind next]. eexists. split; [reflexivity|]. split; [|done].
    split; cbn; try done; try apply Hn'; [|by apply Hd'].
    by apply chain_delete; [apply Hn'|].
  - assert (E : addr e <> tmDescList t).
    { cbn [app chain] in Hc. destruct Hc as (-> & _). cbn in Hn. apply NoDup_cons in Hn as [Hn _].
      rewrite fmap_app in Hn. set_solver. }
    rewrite (proj2 (Z.eqb_neq _ _)) by done.
    assert (Hl : exists es0 e0, e1 :: es1 = es0 ++ [e0]) by (destruct (exists_last (l := e1 :: es1) ltac:(done)) as (? & ? & ?); eauto).
    generalize dependent (e1 :: es1). clear e1 es1. intros es1 Hc Hn Hd Hf Ht Hn' Ht' Hf' Hd' (es0 & e0 & ->).
    assert (Hlen : (length (es0 ++ [e0]) + S (length es2) < walk t)%nat).
    { pose proof (length_walk t ((es0 ++ [e0]) ++ e :: es2)) as Hlen. rewrite (length_app (es0 ++ [e0])) in Hlen. by apply Hlen. }
    rewrite length_app in Hlen. rewrite <- !app_assoc in *. cbn [app] in *.
    destruct (unlink_spec e0 e es2 es0 (walk t) (tmDescList t) (descs t) Hc Hn) as (h & -> & Hdom & _ & Hc').
    { lia. }
    cbn [mbind outcome_bind]. eexists. split; [reflexivity|]. split; [|done].
    split; cbn; try done; [apply Hn'|by apply Hd'].
Qed.

(** ** The tasks in Mac memory *)

Definition apart (a b : Z) : Prop := a + 22 <= b \/ b + 22 <= a.

(** The TMTask records at [tms] are mapped, at 32-bit addresses, and disjoint. *)
Record tasks_ok (tms : list Z) (c : powerpc_cpu) : Prop := {
  tk_mem : mem_wf (mem c);
  tk_addr tm : tm ∈ tms -> 0 <= tm /\ tm + 22 <= 2 ^ 32;
  tk_mapped tm : tm ∈ tms -> mapped 22 tm (mem c);
  tk_apart a b : a ∈ tms -> b ∈ tms -> a <> b -> apart a b;
}.

(** A field of [n] bytes at offset [o]. *)
Definition field (n : nat) (tm o : Z) (c : powerpc_cpu) : Z :=
  match load_be n (mem c) (tm + o) with Ok v => v | _ => 0 end.
Definition is_active (tm : Z) (c : powerpc_cpu) : bool := Z.testbit (field 2 tm qType c) 15.

Section Tasks.
Context {tms : list Z}.

Lemma field_Ok n o tm c :
  tasks_ok tms c -> tm ∈ tms -> 0 <= o < 22 -> o + Z.of_nat n <= 22 ->
  load_be n (mem c) (tm + o) = Ok (field n tm o c) /\ is_uint (8 * Z.of_nat n) (field n tm o c) /\ u32 (tm + o) = tm + o.
Proof using.
  intros Hc Ht Ho Hn. destruct (tk_addr _ _ Hc tm Ht).
  destruct (load_be_total n (mem c) (tm + o)) as [v Hv].
  { apply (mapped_le _ 22 _ tm); [lia|lia|by apply (tk_mapped _ _ Hc)]. }
  unfold field. pose proof (load_be_range n (mem c) (tm + o) (tk_mem _ _ Hc)) as Hr. rewrite Hv in *.
  split; [done|]. split; [exact Hr|]. apply trunc_small. unfold is_uint. lia.
Qed.

Lemma read_field_2 o tm c :
  tasks_ok tms c -> tm ∈ tms -> 0 <= o <= 20 -> ReadMacInt16 (u32 (tm + o)) c = Ok (field 2 tm o c).
Proof using.
  intros Hc Ht Ho. destruct (field_Ok 2 o tm c Hc Ht ltac:(lia) ltac:(lia)) as (E & _ & ->).
  by rewrite ReadMacInt16_be by apply Hc.
Qed.
Lemma read_field_4 o tm c :
  tasks_ok tms c -> tm ∈ tms -> 0 <= o <= 18 -> ReadMacInt32 (u32 (tm + o)) c = Ok (field 4 tm o c).
Proof using.
  intros Hc Ht Ho. destruct (field_Ok 4 o tm c Hc Ht ltac:(lia) ltac:(lia)) as (E & _ & ->).
  by rewrite ReadMacInt32_be by apply Hc.
Qed.

Lemma active_spec tm c : tasks_ok tms c -> tm ∈ tms -> active tm c = Ok (is_active tm c).
Proof using.
  intros Hc Ht. unfold active. rewrite read_field_2 by (done || unfold qType; lia). cbn [mbind outcome_bind].
  by rewrite (Zb_land_bit _ 15).
Qed.

(** [c'] differs from [c] in one field of one task. *)
Record field_set (n : nat) (tm o v : Z) (c c' : powerpc_cpu) : Prop := {
  fs_writes : writes n (tm + o) v c c';
  fs_tasks : tasks_ok tms c';
  fs_field : field n tm o c' = trunc (8 * Z.of_nat n) v;
  fs_other k b p : b ∈ tms -> 0 <= p -> p + Z.of_nat k <= 22 ->
    b <> tm \/ p + Z.of_nat k <= o \/ o + Z.of_nat n <= p -> field k b p c' = field k b p c;
}.

Lemma writes_field n tm o v c c' :
  tasks_ok tms c -> tm ∈ tms -> 0 <= o -> o + Z.of_nat n <= 22 ->
  writes n (tm + o) v c c' -> field_set n tm o v c c'.
Proof using.
  intros Hc Ht Ho Hn W. split; [done| | |].
  - split; [apply W|apply Hc| |apply Hc]. intros b Hb. by apply (writes_mapped W), (tk_mapped _ _ Hc).
  - unfold field. by rewrite (writes_value _ _ _ _ _ W).
  - intros k b p Hb Hp Hk Hd. unfold field. rewrite (writes_other W); [done|].
    destruct (decide (b = tm)) as [->|Hne]; [lia|]. destruct (tk_apart _ _ Hc b tm Hb Ht Hne); lia.
Qed.

Lemma write_field_2 o v tm c :
  tasks_ok tms c -> tm ∈ tms -> 0 <= o <= 20 ->
  exists c', WriteMacInt16 (u32 (tm + o)) v c = Ok c' /\ field_set 2 tm o v c c'.
Proof using.
  intros Hc Ht Ho. destruct (field_Ok 2 o tm c Hc Ht ltac:(lia) ltac:(lia)) as (_ & _ & ->).
  destruct (WriteMacInt16_Ok (tm + o) v c) as (c' & E & W); [apply Hc| |].
  { apply (mapped_le _ 22 _ tm); [lia|lia|by apply (tk_mapped _ _ Hc)]. }
  exists c'. split; [done|]. apply writes_field; try done; lia.
Qed.
Lemma write_field_4 o v tm c :
  tasks_ok tms c -> tm ∈ tms -> 0 <= o <= 18 ->
  exists c', WriteMacInt32 (u32 (tm + o)) v c = Ok c' /\ field_set 4 tm o v c c'.
Proof using.
  intros Hc Ht Ho. destruct (field_Ok 4 o tm c Hc Ht ltac:(lia) ltac:(lia)) as (_ & _ & ->).
  destruct (WriteMacInt32_writes (tm + o) v c) as (c' & E & W); [apply Hc| |].
  { apply (mapped_le _ 22 _ tm); [lia|lia|by apply (tk_mapped _ _ Hc)]. }
  exists c'. split; [done|]. apply writes_field; try done; lia.
Qed.
End Tasks.

(** ** The next wake-up time *)

Definition sooner (c : powerpc_cpu) (w : tm_time_t) (e : entry) : tm_time_t :=
  if is_active (etask e) c && (timer_cmp_time (ewake e) w <? 0) then ewake e else w.
Definition earliest (es : list entry) (c : powerpc_cpu) : tm_time_t := foldl (sooner c) wakeup_time_max es.

Lemma next_wakeup_spec fuel c : forall p h w es,
  chain h p es -> tasks_ok (etask <$> es) c -> (length es < fuel)%nat ->
  next_wakeup fuel p h w c = Ok (foldl (sooner c) w es).
Proof.
  induction fuel as [|fuel IH]; intros p h w es Hc Ht Hf; [lia|]. cbn [next_wakeup].
  destruct es as [|e es]; cbn [chain] in Hc; [by subst|].
  destruct Hc as (-> & Hp & n & Hn & Hc). rewrite (proj2 (Z.eqb_neq _ _)) by done.
  unfold deref. rewrite Hn. cbn [mbind outcome_bind task next wakeup].
  rewrite (active_spec (etask e) c Ht) by (rewrite fmap_cons; left). cbn [mbind outcome_bind].
  cbn [foldl]. apply IH; [done| |cbn in Hf; lia].
  split; [apply Ht| | |]; intros; eapply Ht; try done; rewrite fmap_cons; by right.
Qed.

Lemma set_next_wakeup_spec t es c :
  timer_wf t es -> tasks_ok (etask <$> es) c -> set_next_wakeup t c = Ok (set_wakeup_time (earliest es c) t).
Proof.
  intros Hw Ht. unfold set_next_wakeup.
  by rewrite (next_wakeup_spec _ c _ _ _ es) by (apply Hw || done || by apply length_walk).
Qed.

(** The active tasks of [es] wake up at times the comparison handles. *)
Definition active_ok (es : list entry) (c : powerpc_cpu) : Prop :=
  forall e, e ∈ es -> is_active (etask e) c = true -> time_ok (ewake e).

Lemma active_ok_all es c : Forall (fun e => time_ok (ewake e)) es -> active_ok es c.
Proof. intros H e He _. rewrite Forall_forall in H. by apply H. Qed.

(** The wake-up time is that of the active task that comes first, if there is one. *)
Lemma foldl_sooner c : forall es w,
  time_ok w -> active_ok es c ->
  let r := foldl (sooner c) w es in
  time_ok r /\ ns r <= ns w /\ (forall e, e ∈ es -> is_active (etask e) c = true -> ns r <= ns (ewake e)) /\
  (r = w \/ exists e, e ∈ es /\ is_active (etask e) c = true /\ r = ewake e).
Proof.
  induction es as [|e es IH]; intros w Hw Hes; cbn [foldl]; cbn zeta.
  { split; [done|]. split; [done|]. split; [|by left]. intros e He. by apply not_elem_of_nil in He. }
  assert (He : is_active (etask e) c = true -> time_ok (ewake e)) by (apply Hes; left).
  assert (Hs : time_ok (sooner c w e) /\ ns (sooner c w e) <= ns w /\
    (is_active (etask e) c = true -> ns (sooner c w e) <= ns (ewake e)) /\
    (sooner c w e = w \/ is_active (etask e) c = true /\ sooner c w e = ewake e)).
  { unfold sooner. destruct (is_active _ c); cbn [andb]; [|split_and!; auto; done]. specialize (He eq_refl).
    rewrite (proj1 (timer_cmp_time_ns _ _ He Hw)).
    destruct (Z.ltb_spec (ns (ewake e)) (ns w)); split_and!; auto; lia. }
  destruct Hs as (S1 & S2 & S3 & S4). destruct (IH _ S1) as (R1 & R2 & R3 & R4).
  { intros e' He'. apply Hes. by right. }
  split_and!; [done|lia| |].
  - intros e' [->|He']%elem_of_cons Ha; [specialize (S3 Ha); lia|auto].
  - destruct R4 as [E|(e' & ? & ? & ?)]; [|right; exists e'; rewrite elem_of_cons; auto].
    destruct S4 as [E2|[? E2]]; [left; congruence|]. right. exists e. rewrite elem_of_cons. split; [by left|]. split; congruence.
Qed.

Lemma time_ns_inj a b : time_ok a -> time_ok b -> ns a = ns b -> a = b.
Proof.
  intros [_ Ha] [_ Hb]. destruct a as [sa na], b as [sb nb]. unfold ns. cbn [tv_sec tv_nsec] in *. intros E.
  f_equal; lia.
Qed.

(** If a task is active, the earliest time is that of one of them, and no
    active task comes before it. *)
Lemma earliest_spec es c :
  active_ok es c ->
  (forall e, e ∈ es -> is_active (etask e) c = true -> ns (earliest es c) <= ns (ewake e)) /\
  ((exists e, e ∈ es /\ is_active (etask e) c = true) ->
   exists e, e ∈ es /\ is_active (etask e) c = true /\ earliest es c = ewake e).
Proof.
  intros H. destruct (foldl_sooner c es wakeup_time_max max_ok H) as (Hok & _ & Hmin & Hr).
  fold (earliest es c) in *. split; [done|]. intros (e & He & Ha). destruct Hr as [E|]; [|done].
  exists e. split_and!; [done..|]. apply time_ns_inj; [done|by apply H|].
  pose proof (time_below_max _ (H e He Ha)). specialize (Hmin e He Ha). rewrite E in *. lia.
Qed.

Lemma earliest_cong es c c' :
  (forall e, e ∈ es -> is_active (etask e) c' = is_active (etask e) c) -> earliest es c' = earliest es c.
Proof.
  unfold earliest. generalize wakeup_time_max. induction es as [|e es IH]; intros w H; [done|]. cbn [foldl].
  assert (E : sooner c' w e = sooner c w e) by (unfold sooner; rewrite H by left; done).
  rewrite E. apply IH. intros e' He'. apply H. by right.
Qed.

(** An inactive task does not count. *)
Lemma earliest_inactive es1 e es2 c :
  is_active (etask e) c = false -> earliest (es1 ++ e :: es2) c = earliest (es1 ++ es2) c.
Proof.
  intros H. unfold earliest. rewrite !foldl_app. cbn [foldl]. unfold sooner at 2. by rewrite H.
Qed.

(** ** Operations *)

Lemma find_entry_split tm es : tm ∈ etask <$> es ->
  exists es1 e es2, es = es1 ++ e :: es2 /\ etask e = tm /\ find_entry tm es = Some e.
Proof.
  intros Hin. destruct (find_entry tm es) as [e|] eqn:E; [|by apply find_entry_None in E].
  destruct (find_entry_Some _ _ _ E) as [[es1 [es2 ->]]%list_elem_of_split Ht]. by exists es1, e, es2.
Qed.

(** The descriptor of a task that is installed is not the null pointer. *)
Lemma find_desc_installed t es1 e es2 :
  timer_wf t (es1 ++ e :: es2) -> find_desc (etask e) t = Ok (addr e) /\ addr e <> 0 /\
    exists n, descs t !! addr e = Some (Desc (etask e) (ewake e) n).
Proof.
  intros Hw. rewrite (find_desc_spec _ _ _ Hw). pose proof (wf_tasks _ _ Hw) as Hn.
  destruct (find_entry_split (etask e) (es1 ++ e :: es2)) as (es1' & e' & es2' & E & Et & ->).
  { rewrite fmap_app, fmap_cons. set_solver. }
  assert (e' = e) as ->.
  { assert (H1 : e ∈ es1' ++ e' :: es2') by (rewrite <- E; set_solver).
    rewrite E, fmap_app, fmap_cons in Hn. apply NoDup_app in Hn as (_ & Hd & [Hx _]%NoDup_cons).
    apply elem_of_app in H1 as [H1|[H1|H1]%elem_of_cons]; [|done|].
    - destruct (Hd (etask e)); [by apply list_elem_of_fmap_2|]. rewrite Et. left.
    - destruct Hx. rewrite Et. by apply list_elem_of_fmap_2. }
  split; [done|]. pose proof (wf_chain _ _ Hw) as Hc. clear -Hc. revert Hc. generalize (tmDescList t).
  induction es1 as [|e1 es1 IH]; intros p; cbn [app chain]; intros (-> & Hp & n & Hn & Hc); [eauto|by apply (IH n)].
Qed.

Lemma set_wakeup_spec t es1 e es2 w :
  timer_wf t (es1 ++ e :: es2) ->
  exists t', set_wakeup (addr e) w t = Ok t' /\ timer_wf t' (es1 ++ Entry (addr e) (etask e) w :: es2).
Proof.
  intros Hw. destruct (find_desc_installed _ _ _ _ Hw) as (_ & _ & n & Hd).
  unfold set_wakeup, deref. rewrite Hd. cbn [mbind outcome_bind task next]. eexists. split; [reflexivity|].
  destruct Hw as [Hc Hn Hdom Hf Hx Ht Hs].
  assert (Ha : addr <$> es1 ++ Entry (addr e) (etask e) w :: es2 = addr <$> es1 ++ e :: es2) by (by rewrite !fmap_app).
  split; cbn; rewrite ?Ha; try done.
  - rewrite fmap_app, fmap_cons in Hn. apply NoDup_app in Hn as (_ & Hn1 & [Hn2 _]%NoDup_cons).
    assert (He1 : addr e ∉ addr <$> es1) by (intros H; apply (Hn1 _ H); left).
    clear -Hc Hd Hn2 He1. revert Hc He1. generalize (tmDescList t). induction es1 as [|e1 es1 IH]; intros p;
      cbn [app chain]; intros (-> & Hp & m & Hm & Hc) He1; (split; [done|]; split; [done|]).
    + rewrite Hm in Hd. injection Hd as ->. exists n. cbn [addr] in *. rewrite lookup_insert_eq. split; [done|]. by apply chain_insert.
    + rewrite fmap_cons, not_elem_of_cons in He1. exists m. rewrite lookup_insert_ne by (intros ?; destruct He1; congruence). split; [done|]. apply IH; [done|apply He1].
  - rewrite dom_insert_lookup_L by (by eexists). done.
  - apply Forall_app in Hf as [? [? ?]%Forall_cons]. apply Forall_app. split; [done|]. by constructor.
  - by rewrite fmap_app in *.
Qed.

(** Other tasks' fields are as they were. *)
Definition others_kept (tm : Z) (tms : list Z) (c c' : powerpc_cpu) : Prop :=
  forall k b p, b ∈ tms -> b <> tm -> 0 <= p -> p + Z.of_nat k <= 22 -> field k b p c' = field k b p c.

Lemma field_set_kept {tms n tm o v c c'} : @field_set tms n tm o v c c' -> others_kept tm tms c c'.
Proof. intros F k b p Hb Hne Hp Hk. apply (fs_other _ _ _ _ _ _ F); auto. Qed.
Lemma others_trans tm tms c1 c2 c3 : others_kept tm tms c1 c2 -> others_kept tm tms c2 c3 -> others_kept tm tms c1 c3.
Proof. intros H1 H2 k b p Hb Hne Hp Hk. rewrite H2, H1; done. Qed.

(** The bits of [qType] that InsTime sets. *)
Definition installed_flags (q trap : Z) : Z := Z.lor (Z.land q 0x1fff) (Z.land (Z.shiftl trap 4) 0x6000).

Lemma installed_flags_range q trap : is_uint 16 (installed_flags q trap) /\ Z.testbit (installed_flags q trap) 15 = false.
Proof.
  unfold installed_flags. split.
  - apply is_uint_lor; [done|by apply is_uint_land_r|by apply is_uint_land_r].
  - change 0x1fff with (Z.ones 13). change 0x6000 with (Z.shiftl (Z.ones 2) 13). push_testbit. split_cmp.
    by rewrite !andb_false_r.
Qed.

(** InsTime installs a task once.  The task's descriptor is put at the
    front of the list unless it is there already, the other descriptors stay
    as they are, the task becomes inactive, and its flags keep their low 13
    bits and take the extended-task bits from the trap word. *)
Theorem InsTime_spec uninit tm trap t es c :
  timer_wf t es -> tasks_ok (tm :: (etask <$> es)) c ->
  exists t' c', InsTime uninit tm trap t c = Ok (t', c') /\
    timer_wf t' (if decide (tm ∈ etask <$> es) then es else Entry (next_desc t) tm uninit :: es) /\
    wakeup_time t' = wakeup_time t /\ tasks_ok (tm :: (etask <$> es)) c' /\ is_active tm c' = false /\
    field 2 tm qType c' = installed_flags (field 2 tm qType c) trap /\
    others_kept tm (tm :: (etask <$> es)) c c'.
Proof.
  intros Hw Hc. unfold InsTime. assert (Hin : tm ∈ tm :: (etask <$> es)) by left.
  rewrite (read_field_2 qType tm c Hc Hin) by (unfold qType; lia). cbn [mbind outcome_bind]. fold (installed_flags (field 2 tm qType c) trap).
  destruct (write_field_2 qType (installed_flags (field 2 tm qType c) trap) tm c Hc Hin) as (c' & -> & F); [unfold qType; lia|].
  cbn [mbind outcome_bind]. rewrite (find_desc_spec _ _ _ Hw). cbn [mbind outcome_bind].
  destruct (installed_flags_range (field 2 tm qType c) trap) as [Hr Hb].
  pose proof (fs_field _ _ _ _ _ _ F) as Ff. change (8 * Z.of_nat 2) with 16 in Ff. rewrite trunc_small in Ff by done.
  assert (Ha : is_active tm c' = false) by (unfold is_active; by rewrite Ff).
  pose proof (field_set_kept F) as Fk.
  destruct (decide (tm ∈ etask <$> es)) as [Hi|Hi].
  - destruct (find_entry_split tm es Hi) as (es1 & e & es2 & -> & <- & ->). cbn [default addr fmap option_fmap option_map].
    rewrite (proj2 (Z.eqb_neq _ _)) by apply (find_desc_installed _ _ _ _ Hw). cbn [negb].
    exists t, c'. split_and!; try done. apply F.
  - rewrite (proj2 (find_entry_None tm es) Hi). cbn [default fmap option_fmap option_map Z.eqb negb].
    eexists _, c'. split; [reflexivity|]. split_and!; try done; [|apply F].
    destruct Hw as [Hch Hn Hdom Hf Hx Ht Hs].
    assert (Hfr : next_desc t ∉ addr <$> es).
    { intros (e & E & He)%list_elem_of_fmap. rewrite Forall_forall in Hf. specialize (Hf e He). lia. }
    split; cbn; try done.
    + split; [done|]. split; [lia|]. exists (tmDescList t). rewrite lookup_insert_eq. split; [done|]. by apply chain_insert.
    + by apply NoDup_cons.
    + rewrite dom_insert_L, Hdom. done.
    + constructor; [cbn; lia|]. eapply Forall_impl; [done|]. cbn. lia.
    + lia.
    + by apply NoDup_cons.
Qed.

(** The wake-up time PrimeTime gives a task: relative to the last one for an
    extended task that was scheduled before, else relative to the present. *)
Definition extended (tm : Z) (c : powerpc_cpu) : bool := Z.testbit (field 2 tm qType c) 14.
Definition primed_wakeup (now : tm_time_t) (e : entry) (time : Z) (c : powerpc_cpu) : tm_time_t :=
  if extended (etask e) c && Zb (field 4 (etask e) tmWakeUp c)
  then timer_add_time (ewake e)
    (timer_mac2host_time (if time =? 0 then field 2 (etask e) tmCount c else time))
  else timer_add_time now (timer_mac2host_time time).

Lemma schedule_spec now time t es1 e es2 c :
  timer_wf t (es1 ++ e :: es2) -> tasks_ok (etask <$> es1 ++ e :: es2) c ->
  exists t' c', schedule now (etask e) time (addr e) t c = Ok (t', c') /\
    timer_wf t' (es1 ++ Entry (addr e) (etask e) (primed_wakeup now e time c) :: es2) /\
    tasks_ok (etask <$> es1 ++ e :: es2) c' /\ others_kept (etask e) (etask <$> es1 ++ e :: es2) c c' /\
    field 2 (etask e) qType c' = field 2 (etask e) qType c.
Proof.
  intros Hw Hc. assert (Hin : etask e ∈ etask <$> es1 ++ e :: es2) by (rewrite fmap_app, fmap_cons; set_solver).
  destruct (find_desc_installed _ _ _ _ Hw) as (_ & _ & n & Hd).
  destruct (set_wakeup_spec t es1 e es2 (primed_wakeup now e time c) Hw) as (t' & Es & Hw').
  unfold schedule. rewrite (read_field_2 qType _ c Hc Hin) by (unfold qType; lia). cbn [mbind outcome_bind].
  rewrite (Zb_land_bit _ 14) by done. fold (extended (etask e) c).
  destruct (extended (etask e) c) eqn:Ex.
  - rewrite (read_field_4 tmWakeUp _ c Hc Hin) by (unfold tmWakeUp; lia). cbn [mbind outcome_bind].
    destruct (write_field_4 tmWakeUp 0x12345678 (etask e) c Hc Hin) as (c' & Ew & F); [unfold tmWakeUp; lia|].
    exists t', c'. split; [|split; [done|]; split; [apply F|]; split; [by apply (field_set_kept F)|]].
    + unfold primed_wakeup in Es. rewrite Ex in Es. cbn [andb] in Es.
      destruct (Zb (field 4 (etask e) tmWakeUp c)).
      * rewrite (read_field_2 tmCount _ c Hc Hin) by (unfold tmCount; lia).
        unfold deref. rewrite Hd. destruct (time =? 0); cbn [mbind outcome_bind wakeup]; rewrite Es; cbn [mbind outcome_bind]; by rewrite Ew.
      * rewrite Es. cbn [mbind outcome_bind]. by rewrite Ew.
    + apply (fs_other _ _ _ _ _ _ F); [done|unfold qType; lia..|]. right. left. done.
  - unfold primed_wakeup in Es. rewrite Ex in Es. cbn [andb] in Es. rewrite Es. cbn [mbind outcome_bind].
    exists t', c. split; [done|]. split; [done|]. split; [done|]. split; [by intros ? ? ? ?|done].
Qed.

Lemma timer_wf_wakeup_time t es w : timer_wf t es -> timer_wf (set_wakeup_time w t) es.
Proof. intros [? ? ? ? ? ? ?]. by split. Qed.

(** Stopping the thread around a recomputation of the wake-up time. *)
Lemma rearm_spec t es c :
  timer_wf t es -> tasks_ok (etask <$> es) c ->
  (t ← set_next_wakeup (timer_thread_suspend t) c;
   t ← timer_thread_resume t;
   if negb (suspend_count t =? 0) then Abort else Ok (t, c)) = Ok (set_wakeup_time (earliest es c) t, c).
Proof.
  intros Hw Hc. unfold timer_thread_suspend. rewrite (wf_suspend _ _ Hw). cbn [Z.eqb].
  assert (Hw1 : timer_wf t es) by done. destruct Hw1 as [? ? ? ? ? ? Hs].
  unfold set_next_wakeup. rewrite (next_wakeup_spec _ c _ _ _ es) by (done || by apply (length_walk t es)).
  cbn [mbind outcome_bind]. unfold set_wakeup_time, set_suspend_count, timer_thread_resume. cbn. by rewrite Hs.
Qed.

Lemma set_active_flag q : is_uint 16 q ->
  u16 (Z.lor q 0x8000) = Z.lor q 0x8000 /\ Z.testbit (Z.lor q 0x8000) 15 = true.
Proof.
  intros Hq. split; [apply trunc_small, is_uint_lor; done|].
  rewrite Z.lor_spec. change 0x8000 with (2 ^ 15). rewrite Z.pow2_bits_true by done. apply orb_true_r.
Qed.

(** What PrimeTime does, as the code computes it: the wake-up time it writes is
    [primed_wakeup], and the thread gets what its comparison calls earliest. *)
Lemma PrimeTime_schedules now time t es1 e es2 c :
  timer_wf t (es1 ++ e :: es2) -> tasks_ok (etask <$> es1 ++ e :: es2) c ->
  exists t' c', PrimeTime now (etask e) time t c = Ok (t', c') /\
    let es' := es1 ++ Entry (addr e) (etask e) (primed_wakeup now e time c) :: es2 in
    timer_wf t' es' /\ wakeup_time t' = earliest es' c' /\
    tasks_ok (etask <$> es') c' /\ is_active (etask e) c' = true /\
    others_kept (etask e) (etask <$> es') c c'.
Proof.
  intros Hw Hc. assert (Hin : etask e ∈ etask <$> es1 ++ e :: es2) by (rewrite fmap_app, fmap_cons; set_solver).
  destruct (schedule_spec now time t es1 e es2 c Hw Hc) as (t1 & c1 & E1 & W1 & C1 & K1 & Q1).
  destruct (find_desc_installed _ _ _ _ Hw) as (Ef & Hne & _).
  unfold PrimeTime. rewrite Ef. cbn [mbind outcome_bind]. rewrite (proj2 (Z.eqb_neq _ _)) by done.
  rewrite E1. cbn [mbind outcome_bind].
  rewrite (read_field_2 qType _ c1 C1 Hin) by (unfold qType; lia). cbn [mbind outcome_bind].
  destruct (write_field_2 qType (Z.lor (field 2 (etask e) qType c1) 0x8000) _ c1 C1 Hin) as (c2 & -> & F); [unfold qType; lia|].
  cbn [mbind outcome_bind].
  set (es' := es1 ++ Entry (addr e) (etask e) (primed_wakeup now e time c) :: es2) in *.
  assert (Et : etask <$> es' = etask <$> es1 ++ e :: es2) by (unfold es'; by rewrite !fmap_app).
  rewrite (rearm_spec t1 es' c2 W1) by (rewrite Et; apply F).
  destruct (field_Ok 2 qType (etask e) c1 C1 Hin) as (_ & Hr & _); [unfold qType; lia..|].
  destruct (set_active_flag _ Hr) as [S1 S2].
  eexists _, c2. split; [reflexivity|]. cbn zeta. rewrite Et. split_and!.
  - by apply timer_wf_wakeup_time.
  - done.
  - apply F.
  - unfold is_active. rewrite (fs_field _ _ _ _ _ _ F). change (8 * Z.of_nat 2) with 16. by rewrite S1, S2.
  - eapply others_trans; [exact K1|]. by apply (field_set_kept F).
Qed.

(** PrimeTime(0) on an extended task that was scheduled continues the delay that
    RmvTime saved. *)
Definition scheduled (e : entry) (c : powerpc_cpu) : bool :=
  extended (etask e) c && Zb (field 4 (etask e) tmWakeUp c).

(** The time a delay counts from. *)
Definition delay_from (now : tm_time_t) (e : entry) (c : powerpc_cpu) : tm_time_t :=
  if scheduled e c then ewake e else now.

Lemma primed_wakeup_ns now e time c :
  - 2 ^ 31 < time < 2 ^ 31 -> time <> 0 \/ scheduled e c = false ->
  time_ok (delay_from now e c) -> ns (delay_from now e c) + mac_ns time <= ns wakeup_time_max ->
  ns (primed_wakeup now e time c) = ns (delay_from now e c) + mac_ns time /\
  time_ok (primed_wakeup now e time c).
Proof.
  intros Ht Hz Hf Hmax.
  assert (E : primed_wakeup now e time c = timer_add_time (delay_from now e c) (timer_mac2host_time time)).
  { unfold primed_wakeup, delay_from, scheduled in *. destruct (extended _ _ && _); [|done].
    destruct Hz as [Hz|Hz]; [|done]. by rewrite (proj2 (Z.eqb_neq _ _) Hz). }
  destruct (timer_mac2host_time_ns time Ht) as [Em Hm].
  destruct (timer_add_time_ns (delay_from now e c) (timer_mac2host_time time)) as [Ea Hn]; [apply Hf|apply Hm|].
  rewrite E, Ea, Em. split; [done|]. rewrite <- Em, <- Ea in Hmax. split; [|exact Hn].
  destruct Hf as [Hs1 Hs2], Hm as [Hm1 Hm2]. unfold normal, ns in *. cbn [tv_sec tv_nsec wakeup_time_max] in *.
  change (2 ^ 31) with 2147483648 in *. lia.
Qed.

(** C22: PrimeTime schedules a task.  For an installed task, a delay that is a
    32-bit Mac time other than the smallest, and wake-up times before 2038, it
    succeeds: the task's wake-up time becomes the present plus the delay, or
    for an extended task that was scheduled before its last wake-up time plus
    the delay; all other descriptors and tasks stay as they are, the task is
    active, and the timer thread waits for the earliest wake-up time among the
    active tasks.  Left out is PrimeTime(0) on an extended task that was
    scheduled, which is to continue the delay RmvTime saved and reads 16 of its
    32 bits. *)
Theorem PrimeTime_spec now time t es1 e es2 c :
  timer_wf t (es1 ++ e :: es2) -> tasks_ok (etask <$> es1 ++ e :: es2) c ->
  - 2 ^ 31 < time < 2 ^ 31 -> time <> 0 \/ scheduled e c = false ->
  time_ok (delay_from now e c) -> ns (delay_from now e c) + mac_ns time <= ns wakeup_time_max ->
  active_ok (es1 ++ es2) c ->
  exists w t' c', PrimeTime now (etask e) time t c = Ok (t', c') /\
    ns w = ns (delay_from now e c) + mac_ns time /\ time_ok w /\
    let es' := es1 ++ Entry (addr e) (etask e) w :: es2 in
    timer_wf t' es' /\ tasks_ok (etask <$> es') c' /\
    is_active (etask e) c' = true /\ others_kept (etask e) (etask <$> es') c c' /\
    (forall x, x ∈ es' -> is_active (etask x) c' = true -> ns (wakeup_time t') <= ns (ewake x)) /\
    exists x, x ∈ es' /\ is_active (etask x) c' = true /\ wakeup_time t' = ewake x.
Proof.
  intros Hw Hc Ht Hz Hf Hmax Hok.
  destruct (PrimeTime_schedules now time t es1 e es2 c Hw Hc) as (t' & c' & E & W & Ew & C & A & K).
  destruct (primed_wakeup_ns now e time c Ht Hz Hf Hmax) as [Hns Hwok].
  exists (primed_wakeup now e time c), t', c'. cbn zeta.
  set (e' := Entry (addr e) (etask e) (primed_wakeup now e time c)) in *. cbn zeta in *.
  assert (Hok' : active_ok (es1 ++ e' :: es2) c').
  { intros x Hx Hax. assert (Hcase : x = e' \/ x ∈ es1 ++ es2) by set_solver.
    destruct Hcase as [->|Hx']; [exact Hwok|]. apply (Hok x Hx').
    destruct (decide (etask x = etask e)) as [Et|Hne].
    - pose proof (wf_tasks _ _ Hw) as Hn. rewrite fmap_app, fmap_cons in Hn.
      apply NoDup_app in Hn as (_ & Hd & [Hx2 _]%NoDup_cons). exfalso.
      apply elem_of_app in Hx' as [Hx'|Hx'].
      + apply (Hd (etask x)); [by apply list_elem_of_fmap_2|]. rewrite Et. left.
      + apply Hx2. rewrite <- Et. by apply list_elem_of_fmap_2.
    - unfold is_active in *. rewrite (K 2%nat (etask x) qType) in Hax; try done.
      by apply list_elem_of_fmap_2. }
  destruct (earliest_spec _ c' Hok') as [Hmin Hone]. rewrite Ew. split_and!; try done.
  apply Hone. exists e'. split; [set_solver|exact A].
Qed.

Lemma clear_active_flag q : Z.testbit (u16 (Z.land q 0x7fff)) 15 = false.
Proof. change 0x7fff with (Z.ones 15). push_testbit. split_cmp. by rewrite !andb_false_r. Qed.

Lemma deactivate_spec now t es1 e es2 c :
  timer_wf t (es1 ++ e :: es2) -> tasks_ok (etask <$> es1 ++ e :: es2) c ->
  exists t' c', deactivate now (etask e) (addr e) (timer_thread_suspend t) c = Ok (t', c') /\
    timer_thread_resume t' = Ok (set_wakeup_time (if is_active (etask e) c then earliest (es1 ++ es2) c' else wakeup_time t) t) /\
    tasks_ok (etask <$> es1 ++ e :: es2) c' /\ is_active (etask e) c' = false /\
    field 4 (etask e) tmCount c' =
      u32 (if is_active (etask e) c then timer_host2mac_time (timer_sub_time (ewake e) now) else 0) /\
    others_kept (etask e) (etask <$> es1 ++ e :: es2) c c'.
Proof.
  intros Hw Hc. assert (Hin : etask e ∈ etask <$> es1 ++ e :: es2) by (rewrite fmap_app, fmap_cons; set_solver).
  destruct (find_desc_installed _ _ _ _ Hw) as (_ & _ & n & Hd).
  unfold deactivate. rewrite (active_spec _ c Hc Hin). cbn [mbind outcome_bind].
  unfold timer_thread_suspend. rewrite (wf_suspend _ _ Hw). cbn [Z.eqb].
  destruct (is_active (etask e) c) eqn:Ea.
  - rewrite (read_field_2 qType _ c Hc Hin) by (unfold qType; lia). cbn [mbind outcome_bind].
    destruct (write_field_2 qType (Z.land (field 2 (etask e) qType c) 0x7fff) _ c Hc Hin) as (c1 & -> & F1); [unfold qType; lia|].
    cbn [mbind outcome_bind].
    assert (A1 : is_active (etask e) c1 = false).
    { unfold is_active. rewrite (fs_field _ _ _ _ _ _ F1). apply clear_active_flag. }
    unfold set_next_wakeup. cbn [set_suspend_count tmDescList descs].
    rewrite (next_wakeup_spec _ c1 _ _ _ (es1 ++ e :: es2)) by (apply Hw || apply F1 || by apply (length_walk t)).
    cbn [mbind outcome_bind]. unfold deref. cbn [set_wakeup_time set_suspend_count descs]. rewrite Hd. cbn [mbind outcome_bind wakeup].
    destruct (write_field_4 tmCount (timer_host2mac_time (timer_sub_time (ewake e) now)) _ c1 (fs_tasks _ _ _ _ _ _ F1) Hin)
      as (c2 & -> & F2); [unfold tmCount; lia|]. cbn [mbind outcome_bind].
    assert (Q2 : forall b, b ∈ etask <$> es1 ++ e :: es2 -> field 2 b qType c2 = field 2 b qType c1).
    { intros b Hb. apply (fs_other _ _ _ _ _ _ F2); [done|unfold qType; lia..|]. right. left. done. }
    eexists _, c2. split; [reflexivity|]. split_and!.
    + unfold timer_thread_resume. cbn. destruct t; cbn. rewrite (wf_suspend _ _ Hw : suspend_count = 0).
      unfold set_suspend_count, set_wakeup_time; cbn. do 2 f_equal.
      fold (earliest (es1 ++ e :: es2) c1). rewrite earliest_inactive by done.
      apply earliest_cong. intros e' He'. unfold is_active. rewrite Q2; [done|].
      apply list_elem_of_fmap_2. set_solver.
    + apply F2.
    + unfold is_active. by rewrite Q2.
    + apply F2.
    + eapply others_trans; by eapply field_set_kept.
  - destruct (write_field_4 tmCount 0 _ c Hc Hin) as (c1 & -> & F1); [unfold tmCount; lia|]. cbn [mbind outcome_bind].
    eexists _, c1. split; [reflexivity|]. split_and!.
    + unfold timer_thread_resume. destruct t; cbn. by rewrite (wf_suspend _ _ Hw : suspend_count = 0).
    + apply F1.
    + unfold is_active. rewrite (fs_other _ _ _ _ _ _ F1); [exact Ea|done|unfold qType; lia..|]. right. left. done.
    + apply F1.
    + by apply (field_set_kept F1).
Qed.

(** RmvTime removes a task.  For an installed task it succeeds: the task
    leaves the list and becomes inactive, the time it had left (0 if it was
    not active) is in its [tmCount], all other tasks stay as they are, and if
    it was active the timer thread waits for the earliest of the others. *)
Theorem RmvTime_spec now t es1 e es2 c :
  timer_wf t (es1 ++ e :: es2) -> tasks_ok (etask <$> es1 ++ e :: es2) c ->
  exists t' c', RmvTime now (etask e) t c = Ok (t', c') /\
    timer_wf t' (es1 ++ es2) /\
    wakeup_time t' = (if is_active (etask e) c then earliest (es1 ++ es2) c' else wakeup_time t) /\
    tasks_ok (etask <$> es1 ++ e :: es2) c' /\ is_active (etask e) c' = false /\
    field 4 (etask e) tmCount c' =
      u32 (if is_active (etask e) c then timer_host2mac_time (timer_sub_time (ewake e) now) else 0) /\
    others_kept (etask e) (etask <$> es1 ++ e :: es2) c c'.
Proof.
  intros Hw Hc. destruct (find_desc_installed _ _ _ _ Hw) as (Ef & Hne & _).
  destruct (deactivate_spec now t es1 e es2 c Hw Hc) as (t1 & c1 & E1 & R1 & C1 & A1 & T1 & K1).
  unfold RmvTime. rewrite Ef. cbn [mbind outcome_bind]. rewrite (proj2 (Z.eqb_neq _ _)) by done.
  rewrite E1. cbn [mbind outcome_bind]. rewrite R1. cbn [mbind outcome_bind].
  set (w := if is_active (etask e) c then earliest (es1 ++ es2) c1 else wakeup_time t) in *.
  pose proof (timer_wf_wakeup_time t _ w Hw) as Hw'. rewrite (wf_suspend _ _ Hw'). cbn [Z.eqb negb].
  destruct (free_desc_spec _ es1 e es2 Hw') as (t2 & -> & W2 & E2). cbn [mbind outcome_bind].
  exists t2, c1. split_and!; try done.
Qed.

(** ** The interrupt function and the timer thread *)

(** The list and the tasks' records are in order. *)
Definition installed (es : list entry) (s : timer * powerpc_cpu) : Prop :=
  timer_wf (fst s) es /\ tasks_ok (etask <$> es) (snd s).

(** The same descriptors, perhaps primed anew. *)
Definition same_tasks (es es' : list entry) : Prop := addr <$> es' = addr <$> es /\ etask <$> es' = etask <$> es.

Section Interrupt.
Context (Execute68k : Z -> M68kRegisters -> timer * powerpc_cpu -> outcome (M68kRegisters * (timer * powerpc_cpu))).
Context (uninit_68k : M68kRegisters).

(** Timer routines may prime tasks and install new ones (which go to the front
    of the list), but they do not remove tasks. *)
Definition routines_keep_tasks : Prop := forall p r s r' s' es,
  installed es s -> Execute68k p r s = Ok (r', s') ->
  exists new es', installed (new ++ es') s' /\ same_tasks es es'.

(** The tasks of the list, one by one, as they are when their turn comes. *)
Definition fire_at (now : tm_time_t) (p : Z) (s : timer * powerpc_cpu) : outcome (timer * powerpc_cpu) :=
  d ← deref p (descs (fst s)); fire Execute68k uninit_68k now d s.

Lemma fire_installed now d es s s' :
  routines_keep_tasks -> installed es s -> task d ∈ etask <$> es ->
  fire Execute68k uninit_68k now d s = Ok s' -> exists new es', installed (new ++ es') s' /\ same_tasks es es'.
Proof using.
  intros HK. destruct s as [t c]. intros [Hw Hc] Hin. cbn [fst snd] in *. unfold fire.
  rewrite (active_spec _ c Hc Hin). cbn [mbind outcome_bind].
  assert (Hsame : exists new es', installed (new ++ es') (t, c) /\ same_tasks es es') by (exists [], es; done).
  destruct (is_active (task d) c && _); [|by intros [= <-]].
  rewrite (read_field_2 qType _ c Hc Hin) by (unfold qType; lia). cbn [mbind outcome_bind].
  destruct (write_field_2 qType (Z.land (field 2 (task d) qType c) 0x7fff) _ c Hc Hin) as (c1 & -> & F); [unfold qType; lia|].
  cbn [mbind outcome_bind]. rewrite (read_field_4 tmAddr _ c1 (fs_tasks _ _ _ _ _ _ F) Hin) by (unfold tmAddr; lia).
  cbn [mbind outcome_bind]. destruct (negb _).
  - intros ([r' s1] & E & [= <-])%outcome_bind_Ok. apply (HK _ _ _ _ _ es) in E; [done|]. split; [done|apply F].
  - intros [= <-]. exists [], es. split; [|done]. split; [done|apply F].
Qed.

Lemma chain_head h p es : chain h p es -> p = default 0 (head (addr <$> es)).
Proof using. destruct es; cbn [chain]; [done|]. by intros (-> & _). Qed.

Lemma chain_suffix h es2 : forall es1 p, chain h p (es1 ++ es2) -> exists q, chain h q es2.
Proof using. induction es1 as [|e es1 IH]; intros p; cbn [app chain]; [eauto|]. intros (_ & _ & n & _ & Hc). by apply (IH n). Qed.

(** The loop runs through the tasks that are installed when it starts. *)
Lemma interrupt_loop_foldM now : routines_keep_tasks -> forall ps pre todo fuel p s,
  addr <$> todo = ps -> installed (pre ++ todo) s -> chain (descs (fst s)) p todo -> (length ps < fuel)%nat ->
  interrupt_loop Execute68k uninit_68k fuel now p s = foldM (fire_at now) ps s /\
  outcome_holds (fun s' => exists es', installed es' s' /\ (addr <$> pre ++ todo) ⊆ (addr <$> es'))
    (foldM (fire_at now) ps s).
Proof using.
  intros HK. induction ps as [|a ps IH]; intros pre todo fuel p s Hps Hi Hc Hf; (destruct fuel as [|fuel]; [cbn in Hf; lia|]);
    cbn [interrupt_loop foldM].
  - apply fmap_nil_inv in Hps as ->. cbn in Hc. subst p. cbn. split; [done|]. by exists (pre ++ []).
  - destruct todo as [|e todo]; [done|]. rewrite fmap_cons in Hps. injection Hps as <- Hps.
    cbn [chain] in Hc. destruct Hc as (-> & Hne & n & Hn & Hc). rewrite (proj2 (Z.eqb_neq _ _)) by done.
    unfold deref. rewrite Hn. cbn [mbind outcome_bind next].
    assert (Efa : fire_at now (addr e) s = fire Execute68k uninit_68k now (Desc (etask e) (ewake e) n) s)
      by (unfold fire_at, deref; by rewrite Hn). rewrite Efa.
    destruct (fire _ _ now _ s) as [s1| | | |] eqn:Ef; cbn [mbind outcome_bind]; try done.
    apply (fire_installed now _ (pre ++ e :: todo)) in Ef as (new & es' & Hi' & [Ha Ht]); [|done..|].
    2: { cbn [task]. rewrite fmap_app, fmap_cons. set_solver. }
    pose proof Ha as Ha0. rewrite fmap_app, fmap_cons in Ha. apply fmap_app_inv in Ha as (pre' & rest & Hp & Hr & ->).
    symmetry in Hr. apply fmap_cons_inv in Hr as (e' & todo' & He & Htodo & ->).
    replace (new ++ pre' ++ e' :: todo') with ((new ++ pre' ++ [e']) ++ todo') in Hi' by (by rewrite <- !app_assoc).
    destruct (chain_suffix _ todo' _ _ (wf_chain _ _ (proj1 Hi'))) as [q Hq].
    pose proof (chain_head _ _ _ Hq) as Eq. rewrite <- Htodo, <- (chain_head _ _ _ Hc) in Eq. subst q.
    destruct (IH _ todo' fuel n s1 ltac:(congruence) Hi' Hq) as [E H]; [cbn in Hf; lia|].
    split; [exact E|]. revert H. destruct (foldM (fire_at now) ps s1) as [s2| | | |]; cbn; try done.
    intros (es2 & Hi2 & Hsub). exists es2. split; [done|]. rewrite <- Ha0. etrans; [|exact Hsub].
    rewrite !fmap_app, fmap_cons. set_solver.
Qed.

(** C23: The timer interrupt serves every task once.  If timer routines do not
    remove tasks, the interrupt function ends and serves exactly the tasks
    that were installed when it started, each once, in the order of the list,
    with its state at its turn (an expired active task is made inactive and
    its routine called); if it completes, no task is lost and the timer
    thread waits for the earliest active task. *)
Theorem TimerInterrupt_spec now t es c :
  routines_keep_tasks -> timer_wf t es -> tasks_ok (etask <$> es) c ->
  let served := foldM (fire_at now) (addr <$> es) (t, c) in
  TimerInterrupt Execute68k uninit_68k now (t, c) =
    ('(t', c') ← served; w ← set_next_wakeup t' c'; Ok (w, c')) /\
  outcome_holds (fun '(t', c') => exists es', timer_wf t' es' /\ (addr <$> es) ⊆ (addr <$> es') /\
    wakeup_time t' = earliest es' c') (TimerInterrupt Execute68k uninit_68k now (t, c)).
Proof using.
  intros HK Hw Hc. cbn zeta. unfold TimerInterrupt.
  destruct (interrupt_loop_foldM now HK (addr <$> es) [] es (walk t) (tmDescList t) (t, c)) as [E H];
    [done|done|apply Hw|rewrite length_fmap; by apply length_walk|]. cbn [fst].
  rewrite E. destruct (foldM (fire_at now) (addr <$> es) (t, c)) as [[t' c']| | | |]; try done.
  cbn [mbind outcome_bind outcome_holds app fst snd] in *. destruct H as (es' & [Hw' Hc'] & Hsub). cbn [fst snd] in *.
  rewrite (rearm_spec t' es' c' Hw' Hc'), (set_next_wakeup_spec t' es' c' Hw' Hc'). cbn [mbind outcome_bind outcome_holds].
  split; [done|]. exists es'. split; [by apply timer_wf_wakeup_time|]. by split.
Qed.
End Interrupt.

(** C24: A task that is due is not forgotten.  While the timer thread waits for
    the earliest active task, any later wake-up of the thread after the time of
    an active task raises [INTFLAG_TIMER] and signals the processor. *)
Theorem due_task_signalled now t es c f e :
  wakeup_time t = earliest es c -> Forall (fun e => time_ok (ewake e)) es -> time_ok now ->
  e ∈ es -> is_active (etask e) c = true -> ns (ewake e) < ns now ->
  exists t', timer_func_step now t (f, c) = (t', (SetInterruptFlag INTFLAG_TIMER f, trigger_interrupt c)) /\
    Z.testbit (SetInterruptFlag INTFLAG_TIMER f) 5 = true.
Proof.
  intros Hw Hes Hnow He Ha Hlt. destruct (foldl_sooner c es wakeup_time_max max_ok (active_ok_all es c Hes)) as (Hok & _ & Hmin & _).
  fold (earliest es c) in Hok, Hmin. specialize (Hmin e He Ha).
  unfold timer_func_step. rewrite Hw, (proj1 (timer_cmp_time_ns _ _ Hok Hnow)).
  rewrite (proj2 (Z.ltb_lt _ _)) by lia. eexists. split; [reflexivity|].
  unfold INTFLAG_TIMER. change 32 with (2 ^ 5). by rewrite SetInterruptFlag_bit.
Qed.

(** ** One task *)

(** A task at 0x1000, active or not, with no routine. *)
Definition task_machine (flags : Z) : powerpc_cpu :=
  cpu_init (<[0x1004 := flags]> (list_to_map ((fun i => (0x1000 + i, 0)) <$> count_up 22))).
Definition one_entry : list entry := [Entry 1 0x1000 (Time 10 0)].
Definition no_task : timer := Timer 0 ∅ 1 wakeup_time_max 0.
Definition one_task : timer := Timer 1 {[1 := Desc 0x1000 (Time 10 0) 0]} 2 wakeup_time_max 0.

Lemma no_task_wf : timer_wf no_task [].
Proof. split; cbn; try done; first [constructor|by rewrite dom_empty_L]. Qed.
Lemma one_task_wf : timer_wf one_task one_entry.
Proof.
  split; cbn; try done.
  - split; [done|]. split; [done|]. exists 0. split; done.
  - apply NoDup_singleton.
  - by repeat constructor.
  - apply NoDup_singleton.
Qed.

Lemma task_machine_ok flags : flags = 0 \/ flags = 0x80 -> tasks_ok [0x1000] (task_machine flags).
Proof.
  intros Hf. split.
  - apply (bool_decide_eq_true_1 _). destruct Hf as [->| ->]; vm_compute; reflexivity.
  - intros tm ->%list_elem_of_singleton. split; [done|]. cbn. lia.
  - intros tm ->%list_elem_of_singleton i Hi.
    assert (H : forallb (fun k => bool_decide (is_Some (mem (task_machine flags) !! (0x1000 + k)))) (count_up 22) = true)
      by (destruct Hf as [->| ->]; vm_compute; reflexivity).
    rewrite forallb_forall in H. specialize (H (i - 0x1000)).
    rewrite <- list_elem_of_In, elem_of_count_up in H. specialize (H ltac:(lia)).
    apply bool_decide_eq_true in H. by replace (0x1000 + (i - 0x1000)) with i in H by lia.
  - intros a b ->%list_elem_of_singleton ->%list_elem_of_singleton. done.
Qed.

Lemma InsTime_spec_witness :
  exists t' c', InsTime (Time 0 0) 0x1000 0xa458 no_task (task_machine 0) = Ok (t', c') /\
    timer_wf t' [Entry 1 0x1000 (Time 0 0)] /\ field 2 0x1000 qType c' = 0x4000.
Proof.
  destruct (InsTime_spec (Time 0 0) 0x1000 0xa458 no_task [] (task_machine 0) no_task_wf) as (t' & c' & E & W & _ & _ & _ & F & _).
  - apply task_machine_ok. by left.
  - exists t', c'. split; [exact E|]. split; [exact W|]. rewrite F. vm_compute. reflexivity.
Defined.

(** A delay of 1.5 seconds at second 100. *)
Lemma PrimeTime_spec_witness :
  exists t' c', PrimeTime (Time 100 0) 0x1000 1500 one_task (task_machine 0) = Ok (t', c') /\
    timer_wf t' [Entry 1 0x1000 (Time 101 500000000)] /\ is_active 0x1000 c' = true /\
    wakeup_time t' = Time 101 500000000.
Proof.
  destruct (PrimeTime_spec (Time 100 0) 1500 one_task [] (Entry 1 0x1000 (Time 10 0)) [] (task_machine 0) one_task_wf)
    as (w & t' & c' & E & Hns & Hok & W & _ & A & _ & _ & x & Hx & _ & Ew).
  - apply task_machine_ok. by left.
  - lia.
  - by left.
  - assert (Ed : delay_from (Time 100 0) (Entry 1 0x1000 (Time 10 0)) (task_machine 0) = Time 100 0)
      by (vm_compute; reflexivity).
    rewrite Ed. split; cbn; lia.
  - vm_compute. discriminate.
  - intros e He. by apply not_elem_of_nil in He.
  - assert (Hw : w = Time 101 500000000).
    { apply time_ns_inj; [exact Hok|split; cbn; lia|]. rewrite Hns. vm_compute. reflexivity. }
    subst w. exists t', c'. split; [exact E|]. split; [exact W|]. split; [exact A|].
    apply list_elem_of_singleton in Hx. subst x. exact Ew.
Defined.

Lemma RmvTime_spec_witness :
  exists t' c', RmvTime (Time 8 500000000) 0x1000 one_task (task_machine 0x80) = Ok (t', c') /\
    timer_wf t' [] /\ field 4 0x1000 tmCount c' = u32 (-1500000).
Proof.
  destruct (RmvTime_spec (Time 8 500000000) one_task [] (Entry 1 0x1000 (Time 10 0)) [] (task_machine 0x80) one_task_wf)
    as (t' & c' & E & W & _ & _ & _ & F & _).
  - apply task_machine_ok. by right.
  - exists t', c'. split; [exact E|]. split; [exact W|].
    assert (Ea : is_active 0x1000 (task_machine 0x80) = true) by (vm_compute; reflexivity).
    cbn [etask] in F. rewrite F, Ea. vm_compute. reflexivity.
Defined.

Lemma TimerInterrupt_spec_witness :
  exists t' c' es', TimerInterrupt (fun _ r s => Ok (r, s)) (R68 [] []) (Time 11 0) (one_task, task_machine 0x80) = Ok (t', c') /\
    timer_wf t' es' /\ [1] ⊆ (addr <$> es').
Proof.
  destruct (TimerInterrupt_spec (fun _ r s => Ok (r, s)) (R68 [] []) (Time 11 0) one_task one_entry (task_machine 0x80))
    as [_ H].
  - intros p r s r' s' es Hi [= <- <-]. exists [], es. by split.
  - apply one_task_wf.
  - apply task_machine_ok. by right.
  - pose proof (fun q => completes_holds _ _ q H) as K.
    destruct K as ([t' c'] & E & es' & W & S & _); [vm_compute; reflexivity|].
    exists t', c', es'. split; [exact E|]. split; [exact W|exact S].
Defined.

Lemma due_task_signalled_witness :
  exists t', timer_func_step (Time 11 0) (set_wakeup_time (Time 10 0) one_task) (1, task_machine 0x80) =
    (t', (33, trigger_interrupt (task_machine 0x80))).
Proof.
  destruct (due_task_signalled (Time 11 0) (set_wakeup_time (Time 10 0) one_task) one_entry (task_machine 0x80) 1
    (Entry 1 0x1000 (Time 10 0))) as (t' & E & _).
  - vm_compute. reflexivity.
  - constructor; [|constructor]. split; cbn; lia.
  - split; cbn; lia.
  - left.
  - vm_compute. reflexivity.
  - done.
  - exists t'. exact E.
Defined.

(** A routine that removes the next task of the list: the loop then follows a
    pointer to freed memory. *)
Definition two_tasks : timer :=
  Timer 2 {[2 := Desc 0x1000 (Time 10 0) 1; 1 := Desc 0x2000 (Time 10 0) 0]} 3 wakeup_time_max 0.
Definition two_task_machine : powerpc_cpu :=
  cpu_init (<[0x1004 := 0x80]> (<[0x1009 := 0x30]>
    (list_to_map ((fun i => (0x1000 + i, 0)) <$> count_up 22 ++ ((fun i => 0x1000 + i) <$> count_up 22))))).
Lemma TimerInterrupt_use_after_free :
  TimerInterrupt (fun _ r '(t, c) => '(t, c) ← RmvTime (Time 11 0) 0x2000 t c; Ok (r, (t, c))) (R68 [] [])
    (Time 11 0) (two_tasks, two_task_machine) = Segv 1.
Proof. vm_compute. reflexivity. Qed.

(** A task removed with 1.5 s left and primed with 0 to go on waits 65.513 s:
    the remaining time is a word and PrimeTime reads its high half. *)
Lemma PrimeTime_continues_late :
  let left := u32 (timer_host2mac_time (Time 1 500000000)) in
  s32 left = -1500000 /\ ns (timer_mac2host_time (Z.shiftr left 16)) = 65513000000.
Proof. split; reflexivity. Qed.

(** From 2038 on no task arms the timer thread. *)
Lemma no_wakeup_after_2038 : timer_cmp_time (Time (2 ^ 31) 0) wakeup_time_max <? 0 = false.
Proof. reflexivity. Qed.
