(* ===== verification/TimerThread.v ===== *)
(** The two threads that share [wakeup_time] (timer.cpp): the emulator, which
    stops the timer thread with a signal and takes [wakeup_time_lock] to change
    the wake-up time, and the timer thread, which takes the lock to clear it.

    The operations of Timer.v are the emulator's side seen alone; here the steps
    of both threads interleave.  A signal reaches the timer thread between any
    two of its steps; that the emulator waits for the acknowledgement is part of
    the step that suspends. *)
From stdpp Require Import relations.
From S2P Require Import Prelude Bitfields Registers HostFPU Operations Memory Handlers BlockCache Cpu Operands ExecInt ExecMem ExecSys Irq Timer.

Inductive owner := Emulator | TimerThread.

(** The emulator in RmvTime, PrimeTime and TimerInterrupt:
    [timer_thread_suspend], [pthread_mutex_lock], the assignment,
    [pthread_mutex_unlock] and [timer_thread_resume]. *)
Inductive emu_pc := E_elsewhere | E_lock | E_store | E_unlock | E_resume.

(** [timer_func]: [clock_nanosleep], the comparison, [pthread_mutex_lock], the
    assignment, [pthread_mutex_unlock] and the interrupt. *)
Inductive thread_pc := T_sleep | T_check | T_lock | T_store | T_unlock | T_interrupt.

#[export] Instance owner_eq_dec : EqDecision owner.
Proof. solve_decision. Defined.
#[export] Instance emu_pc_eq_dec : EqDecision emu_pc.
Proof. solve_decision. Defined.
#[export] Instance thread_pc_eq_dec : EqDecision thread_pc.
Proof. solve_decision. Defined.

Record threads := Threads {
  emu : emu_pc;
  thr : thread_pc;
  suspended : bool;  (** the timer thread is in [sigsuspend] *)
  count : Z;  (** [suspend_count] *)
  wakeup_time_lock : option owner;
  shared_wakeup : tm_time_t;  (** [wakeup_time] *)
  flags : Z;  (** [InterruptFlags] *)
}.

Definition threads_init : threads := Threads E_elsewhere T_sleep false 0 None wakeup_time_max 0.

Inductive step : threads -> threads -> Prop :=
| step_suspend thr lock w f :
    step (Threads E_elsewhere thr false 0 lock w f) (Threads E_lock thr true 1 lock w f)
| step_emu_lock thr susp n w f :
    step (Threads E_lock thr susp n None w f) (Threads E_store thr susp n (Some Emulator) w f)
| step_emu_store thr susp n lock w w' f :
    step (Threads E_store thr susp n lock w f) (Threads E_unlock thr susp n lock w' f)
| step_emu_unlock thr susp n w f :
    step (Threads E_unlock thr susp n (Some Emulator) w f) (Threads E_resume thr susp n None w f)
| step_resume thr lock w f :
    step (Threads E_resume thr true 1 lock w f) (Threads E_elsewhere thr false 0 lock w f)
| step_wake emu n lock w f :
    step (Threads emu T_sleep false n lock w f) (Threads emu T_check false n lock w f)
| step_expired now emu n lock w f :
    timer_cmp_time w now < 0 ->
    step (Threads emu T_check false n lock w f) (Threads emu T_lock false n lock w f)
| step_not_expired now emu n lock w f :
    0 <= timer_cmp_time w now ->
    step (Threads emu T_check false n lock w f) (Threads emu T_sleep false n lock w f)
| step_thr_lock emu n w f :
    step (Threads emu T_lock false n None w f) (Threads emu T_store false n (Some TimerThread) w f)
| step_thr_store emu n lock w f :
    step (Threads emu T_store false n lock w f) (Threads emu T_unlock false n lock wakeup_time_max f)
| step_thr_unlock emu n w f :
    step (Threads emu T_unlock false n (Some TimerThread) w f) (Threads emu T_interrupt false n None w f)
| step_interrupt emu n lock w f :
    step (Threads emu T_interrupt false n lock w f) (Threads emu T_sleep false n lock w (SetInterruptFlag INTFLAG_TIMER f)).

Definition reachable : threads -> Prop := rtc step threads_init.
Definition stuck (s : threads) : Prop := forall s', ~ step s s'.

(** Between its lock and its unlock. *)
Definition emu_inside (p : emu_pc) : bool := match p with E_store | E_unlock => true | _ => false end.
Definition thr_inside (p : thread_pc) : bool := match p with T_store | T_unlock => true | _ => false end.
Definition stops_thread (p : emu_pc) : bool := match p with E_elsewhere => false | _ => true end.

(** The lock has the owner that is inside, and the thread is suspended exactly
    while the emulator changes the wake-up time. *)
Record threads_inv (s : threads) : Prop := {
  inv_suspended : suspended s = stops_thread (emu s);
  inv_count : count s = if stops_thread (emu s) then 1 else 0;
  inv_lock : wakeup_time_lock s =
    if emu_inside (emu s) then Some Emulator else if thr_inside (thr s) then Some TimerThread else None;
  inv_exclusive : emu_inside (emu s) && thr_inside (thr s) = false;
}.

Lemma step_inv s s' : threads_inv s -> step s s' -> threads_inv s'.
Proof.
  intros [H1 H2 H3 H4] H; inversion H; subst; cbn in *; split; cbn; try done;
    repeat match goal with
    | p : emu_pc |- _ => destruct p; cbn in *; try done
    | p : thread_pc |- _ => destruct p; cbn in *; try done
    end.
Qed.

Lemma reachable_inv s : reachable s -> threads_inv s.
Proof.
  intros H. assert (H0 : threads_inv threads_init) by done. revert H0.
  induction H as [s|s1 s2 s3 H12 H23 IH]; [done|]. intros H1. by eapply IH, step_inv.
Qed.

(** C25: The wake-up time is never written by both threads at once.  In every
    reachable state of any interleaving at most one of the threads is between
    its lock and its unlock, and it owns the lock; and whenever the emulator
    resumes the timer thread the assertions on [suspend_count] hold. *)
Theorem wakeup_time_exclusive s :
  reachable s ->
  emu_inside (emu s) && thr_inside (thr s) = false /\
  (emu_inside (emu s) = true -> wakeup_time_lock s = Some Emulator) /\
  (thr_inside (thr s) = true -> wakeup_time_lock s = Some TimerThread) /\
  (emu s = E_resume -> 0 < count s /\ forall s', step s s' -> count s' = 0).
Proof.
  intros [H1 H2 H3 H4]%reachable_inv. split_and!; [done| | |].
  - intros H. by rewrite H3, H.
  - intros H. rewrite H, andb_true_r in H4. by rewrite H3, H4, H.
  - intros H. rewrite H in *. cbn in *. split; [lia|]. intros s' Hs. inversion Hs; subst; cbn in *; done.
Qed.

(** The emulator waits for a lock whose owner it has stopped. *)
Definition deadlock (s : threads) : Prop :=
  emu s = E_lock /\ suspended s = true /\ wakeup_time_lock s = Some TimerThread.

(** C26: The threads can deadlock, and in one way only.  A reachable state in
    which no thread can move is one where the emulator stopped the timer
    thread while that held [wakeup_time_lock] and now waits for the lock; and
    such a state is reachable. *)
Theorem timer_deadlock :
  (forall s, reachable s -> stuck s <-> deadlock s) /\ exists s, reachable s /\ deadlock s.
Proof.
  split.
  - intros [e t susp n lock w f] [H1 H2 H3 _]%reachable_inv. unfold deadlock. cbn in *. subst susp n lock. split.
    + intros Hs.
      assert (M : forall s', step (Threads e t (stops_thread e) (if stops_thread e then 1 else 0)
        (if emu_inside e then Some Emulator else if thr_inside t then Some TimerThread else None) w f) s' -> False)
        by (intros s' Hs'; by apply (Hs s')).
      destruct e; cbn in *; try (exfalso; eapply M; first [apply (step_emu_store _ _ _ _ _ w)|by constructor]).
      destruct t; cbn in *; try done; exfalso; eapply M; by constructor.
    + intros (-> & _ & El) s' Hs. cbn in *. destruct t; cbn in *; try done; inversion Hs.
  - exists (Threads E_lock T_store true 1 (Some TimerThread) (Time 0 0) 0). split; [|done].
    assert (R : reachable (Threads E_elsewhere T_sleep false 0 None (Time 0 0) 0)).
    { eapply rtc_l; [by constructor|]. eapply rtc_l; [by constructor|].
      eapply rtc_l; [apply (step_emu_store _ _ _ _ _ (Time 0 0))|].
      eapply rtc_l; [by constructor|]. eapply rtc_l; [by constructor|]. apply rtc_refl. }
    unfold reachable in *. etrans; [exact R|].
    eapply rtc_l; [apply step_wake|]. eapply rtc_l; [by apply (step_expired (Time 1 0))|].
    eapply rtc_l; [apply step_thr_lock|]. eapply rtc_l; [apply step_suspend|]. apply rtc_refl.
Qed.

Lemma wakeup_time_exclusive_witness :
  reachable (Threads E_store T_sleep true 1 (Some Emulator) wakeup_time_max 0) /\
  wakeup_time_lock (Threads E_store T_sleep true 1 (Some Emulator) wakeup_time_max 0) = Some Emulator.
Proof.
  assert (R : reachable (Threads E_store T_sleep true 1 (Some Emulator) wakeup_time_max 0)).
  { eapply rtc_l; [by constructor|]. eapply rtc_l; [by constructor|]. apply rtc_refl. }
  split; [exact R|]. exact (proj1 (proj2 (wakeup_time_exclusive _ R)) eq_refl).
Defined.
