(* ===== verification/Thunks.v ===== *)
(** Data and code shared with Mac OS (include/thunks.h, thunks.cpp): the area
    of [SheepMem], a stack growing down and procedures growing up, and the
    fake opcodes and descriptors of the native routines. *)
From S2P Require Import Prelude Bitfields Registers HostFPU Operations Memory Handlers BlockCache Cpu Operands ExecInt ExecMem ExecSys.

Definition POWERPC_BLR := 0x4e800020.
Definition POWERPC_EMUL_OP := 0x18000000.
Definition POWERPC_EXEC_RETURN := Z.lor POWERPC_EMUL_OP 1.
Definition M68K_RTS := 0x4e75.

Definition WriteMacInt8 (addr v : Z) : powerpc_cpu -> outcome powerpc_cpu :=
  cpu_write (vm_write_memory_1 addr v).
Definition Mac_memset (addr ch : Z) (n : nat) : powerpc_cpu -> outcome powerpc_cpu :=
  cpu_write (vm_memset addr ch n).

(** [Host2Mac_memcpy] of the bytes [src]. *)
Fixpoint memcpy (a : Z) (src : list Z) (m : memory) : outcome memory :=
  match src with
  | [] => Ok m
  | b :: src => m ← store_1 a b m; memcpy (a + 1) src m
  end.
Definition Host2Mac_memcpy (dest : Z) (src : list Z) : powerpc_cpu -> outcome powerpc_cpu :=
  cpu_write (memcpy (vm_do_get_real_address dest) src).

(** ** [class SheepMem] *)

Module SheepMem.
Definition size := 0x80000.
Definition base := 0x60000000.

(** [(size + 3) & -4] on [uint32]. *)
Definition align (size : Z) : Z := Z.land (u32 (size + 3)) (u32 (-4)).

Definition set_data (d : Z) (c : powerpc_cpu) : powerpc_cpu :=
  set_sheep (Sheep d (sheep_proc (sheep c)) (irq_proc (sheep c))) c.
Definition set_proc (p : Z) (c : powerpc_cpu) : powerpc_cpu :=
  set_sheep (Sheep (sheep_data (sheep c)) p (irq_proc (sheep c))) c.

(** [data] and [proc] are [uintptr]; the address returned is [uint32]. *)
Definition Reserve (size : Z) (c : powerpc_cpu) : outcome (Z * powerpc_cpu) :=
  let data := u64 (sheep_data (sheep c) - align size) in
  if data <? sheep_proc (sheep c) then Abort else Ok (u32 data, set_data data c).

Definition Release (size : Z) (c : powerpc_cpu) : powerpc_cpu :=
  set_data (u64 (sheep_data (sheep c) + align size)) c.

Definition ReserveProc (size : Z) (c : powerpc_cpu) : outcome (Z * powerpc_cpu) :=
  let mproc := u32 (sheep_proc (sheep c)) in
  let proc := u64 (sheep_proc (sheep c) + align size) in
  if proc <? sheep_data (sheep c) then Ok (mproc, set_proc proc c) else Abort.

(** The two ends after [Init]; the mappings belong to the host. *)
Definition Init (c : powerpc_cpu) : powerpc_cpu := set_data (base + size) (set_proc base c).
End SheepMem.

(** [SheepProc]. *)
Definition SheepProc (proc : list Z) (c : powerpc_cpu) : outcome (Z * powerpc_cpu) :=
  '(mac_proc, c) ← SheepMem.ReserveProc (Z.of_nat (length proc)) c;
  c ← Host2Mac_memcpy mac_proc proc c;
  Ok (mac_proc, c).

(** A [SheepVar] that lives while [body] runs; [body] gets its address. *)
Definition with_SheepVar {A} (requested_size : Z) (body : Z -> powerpc_cpu -> outcome (A * powerpc_cpu))
    (c : powerpc_cpu) : outcome (A * powerpc_cpu) :=
  let m_size := SheepMem.align requested_size in
  '(m_base, c) ← SheepMem.Reserve m_size c;
  '(a, c) ← body m_base c;
  Ok (a, SheepMem.Release m_size c).

(** [SheepVar32 v = value]. *)
Definition with_SheepVar32 {A} (value : Z) (body : Z -> powerpc_cpu -> outcome (A * powerpc_cpu)) :=
  with_SheepVar 4 (fun addr c => c ← WriteMacInt32 addr value c; body addr c).

(** ** Native routines *)

Inductive native_selector :=
| NATIVE_PATCH_NAME_REGISTRY | NATIVE_VIDEO_INSTALL_ACCEL | NATIVE_VIDEO_VBL
| NATIVE_VIDEO_DO_DRIVER_IO | NATIVE_ETHER_AO_GET_HWADDR | NATIVE_ETHER_AO_ADD_MULTI
| NATIVE_ETHER_AO_DEL_MULTI | NATIVE_ETHER_AO_SEND_PACKET | NATIVE_ETHER_IRQ | NATIVE_ETHER_INIT
| NATIVE_ETHER_TERM | NATIVE_ETHER_OPEN | NATIVE_ETHER_CLOSE | NATIVE_ETHER_WPUT
| NATIVE_ETHER_RSRV | NATIVE_SERIAL_NOTHING | NATIVE_SERIAL_OPEN | NATIVE_SERIAL_PRIME_IN
| NATIVE_SERIAL_PRIME_OUT | NATIVE_SERIAL_CONTROL | NATIVE_SERIAL_STATUS | NATIVE_SERIAL_CLOSE
| NATIVE_GET_RESOURCE | NATIVE_GET_1_RESOURCE | NATIVE_GET_IND_RESOURCE
| NATIVE_GET_1_IND_RESOURCE | NATIVE_R_GET_RESOURCE | NATIVE_MAKE_EXECUTABLE
| NATIVE_CHECK_LOAD_INVOC | NATIVE_NQD_SYNC_HOOK | NATIVE_NQD_BITBLT_HOOK
| NATIVE_NQD_FILLRECT_HOOK | NATIVE_NQD_UNKNOWN_HOOK | NATIVE_NQD_BITBLT | NATIVE_NQD_INVRECT
| NATIVE_NQD_FILLRECT | NATIVE_NAMED_CHECK_LOAD_INVOC | NATIVE_GET_NAMED_RESOURCE
| NATIVE_GET_1_NAMED_RESOURCE.

#[export] Instance native_selector_eq_dec : EqDecision native_selector.
Proof. solve_decision. Defined.

(** The enumeration in order. *)
Definition native_selectors : list native_selector :=
  [NATIVE_PATCH_NAME_REGISTRY; NATIVE_VIDEO_INSTALL_ACCEL; NATIVE_VIDEO_VBL;
   NATIVE_VIDEO_DO_DRIVER_IO; NATIVE_ETHER_AO_GET_HWADDR; NATIVE_ETHER_AO_ADD_MULTI;
   NATIVE_ETHER_AO_DEL_MULTI; NATIVE_ETHER_AO_SEND_PACKET; NATIVE_ETHER_IRQ; NATIVE_ETHER_INIT;
   NATIVE_ETHER_TERM; NATIVE_ETHER_OPEN; NATIVE_ETHER_CLOSE; NATIVE_ETHER_WPUT;
   NATIVE_ETHER_RSRV; NATIVE_SERIAL_NOTHING; NATIVE_SERIAL_OPEN; NATIVE_SERIAL_PRIME_IN;
   NATIVE_SERIAL_PRIME_OUT; NATIVE_SERIAL_CONTROL; NATIVE_SERIAL_STATUS; NATIVE_SERIAL_CLOSE;
   NATIVE_GET_RESOURCE; NATIVE_GET_1_RESOURCE; NATIVE_GET_IND_RESOURCE;
   NATIVE_GET_1_IND_RESOURCE; NATIVE_R_GET_RESOURCE; NATIVE_MAKE_EXECUTABLE;
   NATIVE_CHECK_LOAD_INVOC; NATIVE_NQD_SYNC_HOOK; NATIVE_NQD_BITBLT_HOOK;
   NATIVE_NQD_FILLRECT_HOOK; NATIVE_NQD_UNKNOWN_HOOK; NATIVE_NQD_BITBLT; NATIVE_NQD_INVRECT;
   NATIVE_NQD_FILLRECT; NATIVE_NAMED_CHECK_LOAD_INVOC; NATIVE_GET_NAMED_RESOURCE;
   NATIVE_GET_1_NAMED_RESOURCE].
Definition NATIVE_OP_MAX := 39.

(** An enumerator and its number. *)
Definition selector_of (i : Z) : option native_selector :=
  if 0 <=? i then native_selectors !! Z.to_nat i else None.
Definition selector_index (s : native_selector) : Z :=
  match list_find (fun s' => s = s') native_selectors with
  | Some (i, _) => Z.of_nat i
  | None => NATIVE_OP_MAX
  end.

(** The macro [POWERPC_NATIVE_OP] and [NativeOpcode]. *)
Definition POWERPC_NATIVE_OP (FN OP : Z) : Z :=
  Z.lor (Z.lor (Z.lor POWERPC_EMUL_OP (u32 (Z.shiftl FN 12))) (u32 (Z.shiftl OP 6))) 2.

Definition NativeOpcode (selector : Z) : outcome Z :=
  match selector_of selector with
  | Some (NATIVE_CHECK_LOAD_INVOC | NATIVE_NAMED_CHECK_LOAD_INVOC | NATIVE_NQD_SYNC_HOOK
    | NATIVE_NQD_BITBLT_HOOK | NATIVE_NQD_FILLRECT_HOOK | NATIVE_NQD_UNKNOWN_HOOK
    | NATIVE_NQD_BITBLT | NATIVE_NQD_INVRECT | NATIVE_NQD_FILLRECT) =>
      Ok (POWERPC_NATIVE_OP 0 selector)
  | Some _ => Ok (POWERPC_NATIVE_OP 1 selector)
  | None => Abort
  end.

(** ** Procedures generated at start-up ([generate_powerpc_thunks]) *)

Definition XLM_RES_LIB_TOC := 0x2834.
Definition XLM_GET_RESOURCE := 0x2838.
Definition XLM_GET_1_RESOURCE := 0x283c.
Definition XLM_GET_IND_RESOURCE := 0x2840.
Definition XLM_GET_1_IND_RESOURCE := 0x2844.
Definition XLM_R_GET_RESOURCE := 0x2848.
Definition XLM_GET_NAMED_RESOURCE := 0x2858.
Definition XLM_GET_1_NAMED_RESOURCE := 0x285c.

(** [PL(w)] in the memory of a little-endian host: most significant byte first. *)
Definition PL (w : Z) : list Z :=
  [Z.land (Z.shiftr w 24) 0xff; Z.land (Z.shiftr w 16) 0xff; Z.land (Z.shiftr w 8) 0xff; Z.land w 0xff].

(** 0 stands for the load of the old routine, 1 for the native opcode. *)
Definition get_resource_template : list Z :=
  [0x7c0802a6; 0x90010008; 0x9421ffbc; 0x90610038; 0x9081003c; 0x00000000; 0x80402834; 0x7c0903a6;
   0x4e800421; 0x90610040; 0x80610038; 0xa881003e; 0x80a10040; 0x00000001; 0x80610040; 0x8001004c;
   0x7c0803a6; 0x38210044; 0x4e800020].
Definition get_named_resource_template : list Z :=
  [0x7c0802a6; 0x90010008; 0x9421ffbc; 0x90610038; 0x9081003c; 0x00000000; 0x80402834; 0x7c0903a6;
   0x4e800421; 0x90610040; 0x80610038; 0x8081003c; 0x80a10040; 0x00000001; 0x80610040; 0x8001004c;
   0x7c0803a6; 0x38210044; 0x4e800020].

(** The loop over the template: the last index of [v], -1 if there is none. *)
Definition template_index (v : Z) (template : list Z) : Z :=
  foldl (fun r '(i, opcode) => if opcode =? v then i else r) (-1)
    (zip (count_up (length template)) template).

(** One of the seven thunks, with the assertion on the indexes: both loops scan
    [get_resource_template]. *)
Definition resource_thunk (template : list Z) (check_load_invoc_opcode xlm : Z) (c : powerpc_cpu)
  : outcome (Z * powerpc_cpu) :=
  if (template_index 0 get_resource_template =? -1) || (template_index 1 get_resource_template =? -1) then Abort else
  '(base, c) ← SheepMem.Reserve (Z.of_nat (length template) * 4) c;
  c ← Host2Mac_memcpy base (mjoin (PL <$> template)) c;
  c ← WriteMacInt32 (u32 (base + template_index 0 get_resource_template * 4)) (Z.lor 0x80000000 xlm) c;
  c ← WriteMacInt32 (u32 (base + template_index 1 get_resource_template * 4)) check_load_invoc_opcode c;
  Ok (base, c).

(** The addresses of the seven thunks, in order. *)
Definition generate_powerpc_thunks (c : powerpc_cpu) : outcome (list Z * powerpc_cpu) :=
  op ← NativeOpcode (selector_index NATIVE_CHECK_LOAD_INVOC);
  '(get_resource_func, c) ← resource_thunk get_resource_template op XLM_GET_RESOURCE c;
  '(get_1_resource_func, c) ← resource_thunk get_resource_template op XLM_GET_1_RESOURCE c;
  '(get_ind_resource_func, c) ← resource_thunk get_resource_template op XLM_GET_IND_RESOURCE c;
  '(get_1_ind_resource_func, c) ← resource_thunk get_resource_template op XLM_GET_1_IND_RESOURCE c;
  '(r_get_resource_func, c) ← resource_thunk get_resource_template op XLM_R_GET_RESOURCE c;
  op ← NativeOpcode (selector_index NATIVE_NAMED_CHECK_LOAD_INVOC);
  '(get_named_resource_func, c) ←
    resource_thunk get_named_resource_template op XLM_GET_NAMED_RESOURCE c;
  '(get_1_named_resource_func, c) ←
    resource_thunk get_named_resource_template op XLM_GET_1_NAMED_RESOURCE c;
  Ok ([get_resource_func; get_1_resource_func; get_ind_resource_func; get_1_ind_resource_func;
       r_get_resource_func; get_named_resource_func; get_1_named_resource_func], c).

(** [SheepRoutineDescriptor(procInfo, procedure)] (macos_util.h): a routine
    descriptor of 32 bytes, with its one record at offset 12; it is never
    released while the emulator runs. *)
Definition SheepRoutineDescriptor (procInfo procedure : Z) (c : powerpc_cpu)
  : outcome (Z * powerpc_cpu) :=
  '(desc, c) ← SheepMem.Reserve (SheepMem.align 32) c;
  c ← Mac_memset desc 0 32 c;
  c ← WriteMacInt16 (u32 (desc + 0)) 0xAAFE c;
  c ← WriteMacInt8 (u32 (desc + 2)) 7 c;
  c ← WriteMacInt32 (u32 (desc + 12 + 0)) procInfo c;
  c ← WriteMacInt8 (u32 (desc + 12 + 5)) 1 c;
  c ← WriteMacInt16 (u32 (desc + 12 + 6)) 4 c;
  c ← WriteMacInt32 (u32 (desc + 12 + 8)) procedure c;
  Ok (desc, c).

(** ** [ThunksInit] *)

Record native_op_t := NativeOp { tvect : Z; func : Z; desc : option Z }.

(** A fake TVECT, the opcode, and a return. *)
Definition native_thunk (i : Z) (c : powerpc_cpu) : outcome (native_op_t * powerpc_cpu) :=
  '(base, c) ← SheepMem.Reserve 16 c;
  c ← WriteMacInt32 (u32 (base + 0)) (u32 (base + 8)) c;
  c ← WriteMacInt32 (u32 (base + 4)) 0 c;
  opcode ← NativeOpcode i;
  c ← WriteMacInt32 (u32 (base + 8)) opcode c;
  c ← WriteMacInt32 (u32 (base + 12)) POWERPC_BLR c;
  Ok (NativeOp base (u32 (base + 8)) None, c).

(** [for (int i = 0; i < NATIVE_OP_MAX; i++)]: [f] with the results in order. *)
Fixpoint for_each_op {A B} (f : A -> powerpc_cpu -> outcome (B * powerpc_cpu)) (l : list A)
    (c : powerpc_cpu) : outcome (list B * powerpc_cpu) :=
  match l with
  | [] => Ok ([], c)
  | a :: l => '(b, c) ← f a c; '(bs, c) ← for_each_op f l c; Ok (b :: bs, c)
  end.

Definition set_func (s : native_selector) (f : Z) (ops : list native_op_t) : list native_op_t :=
  alter (fun op => NativeOp (tvect op) f (desc op)) (Z.to_nat (selector_index s)) ops.

Definition describe (op : native_op_t) (c : powerpc_cpu) : outcome (native_op_t * powerpc_cpu) :=
  if tvect op =? 0 then Ok (op, c)
  else '(d, c) ← SheepRoutineDescriptor 0 (tvect op) c; Ok (NativeOp (tvect op) (func op) (Some d), c).

(** The array [native_op] that [ThunksInit] leaves. *)
Definition ThunksInit (c : powerpc_cpu) : outcome (list native_op_t * powerpc_cpu) :=
  '(ops, c) ← for_each_op native_thunk (count_up (Z.to_nat NATIVE_OP_MAX)) c;
  '(funcs, c) ← generate_powerpc_thunks c;
  let ops := set_func NATIVE_GET_RESOURCE (Zlookup funcs 0) ops in
  let ops := set_func NATIVE_GET_1_RESOURCE (Zlookup funcs 1) ops in
  let ops := set_func NATIVE_GET_IND_RESOURCE (Zlookup funcs 2) ops in
  let ops := set_func NATIVE_GET_1_IND_RESOURCE (Zlookup funcs 3) ops in
  let ops := set_func NATIVE_R_GET_RESOURCE (Zlookup funcs 4) ops in
  let ops := set_func NATIVE_GET_NAMED_RESOURCE (Zlookup funcs 5) ops in
  let ops := set_func NATIVE_GET_1_NAMED_RESOURCE (Zlookup funcs 6) ops in
  for_each_op describe ops c.

Definition op_field (f : native_op_t -> option Z) (ops : list native_op_t) (selector : Z) : outcome Z :=
  if NATIVE_OP_MAX <=? selector then Abort else
  if selector <? 0 then Segv 0 else
  match ops !! Z.to_nat selector with
  | Some op => match f op with Some a => Ok a | None => Abort end
  | None => Segv 0
  end.
Definition nonzero (a : Z) : option Z := if a =? 0 then None else Some a.

Definition NativeTVECT : list native_op_t -> Z -> outcome Z := op_field (fun op => nonzero (tvect op)).
Definition NativeFunction : list native_op_t -> Z -> outcome Z := op_field (fun op => nonzero (func op)).
Definition NativeRoutineDescriptor : list native_op_t -> Z -> outcome Z := op_field desc.
