(* ===== verification/Glue.v ===== *)
(** The code around the CPU (kpx_cpu/sheepshaver_glue.cpp): running 68k and
    Mac OS code from native routines, native routines from emulated code, and
    the interrupt handler.  They call [execute] of the CPU again: here it is an
    argument, and [run] and [host_of] tie the knot for any depth of nesting. *)
From S2P Require Import Prelude Bitfields Registers HostFPU Operations Memory Handlers BlockCache Cpu Operands ExecInt ExecMem ExecSys Dispatch DecodeTable Decode Interp Thunks.

(** ** Constants (include/cpu_emulation.h, include/xlowmem.h) *)

Definition KERNEL_DATA_BASE := 0x68ffe000.
(** Assigned once, by main (Unix/main_unix.cpp). *)
Definition KernelDataAddr := KERNEL_DATA_BASE.
Definition ROM_SIZE := 0x400000.
Definition XLM_IRQ_NEST := 0x2818.
Definition XLM_EXEC_RETURN_OPCODE := 0x284c.

(** [ntohl(kernel_data->v[off >> 2])] and [kernel_data->v[off >> 2] = htonl(v)];
    the member [ed] follows the 0x400 words of [v]. *)
Definition read_kernel_data (off : Z) (c : powerpc_cpu) : outcome Z :=
  ReadMacInt32 (KERNEL_DATA_BASE + off) c.
Definition write_kernel_data (off v : Z) : powerpc_cpu -> outcome powerpc_cpu :=
  WriteMacInt32 (KERNEL_DATA_BASE + off) v.
Definition ed_offset := 0x1000.

(** [fpr(base + i) = l[i]] and [l[i] = fpr(base + i)]. *)
Definition load_fprs (base : Z) (n : nat) (l : list Z) (c : powerpc_cpu) : powerpc_cpu :=
  foldl (fun c i => set_fpr_dw (base + i) (Zlookup l i) c) c (count_up n).
Definition read_fprs (base : Z) (n : nat) (c : powerpc_cpu) : list Z :=
  (fun i => fpr_dw c (base + i)) <$> count_up n.

(** ** What remains outside: routines of the other subsystems *)

Inductive native_routine :=
| DoPatchNameRegistry | VideoInstallAccel | VideoVBL | VideoDoDriverIO
| AO_get_ethernet_address | AO_enable_multicast | AO_disable_multicast | AO_transmit_packet
| EtherIRQ | InitStreamModule | TerminateStreamModule | ether_open | ether_close | ether_wput
| ether_rsrv | NQD_sync_hook | NQD_unknown_hook | NQD_bitblt_hook | NQD_bitblt
| NQD_fillrect_hook | NQD_invrect | NQD_fillrect
| SerialNothing | SerialOpen | SerialPrimeIn | SerialPrimeOut | SerialControl | SerialStatus
| SerialClose.

(** A way to run emulated code. *)
Definition emulation := Z -> powerpc_cpu -> outcome powerpc_cpu.

(** The settings and constants that the rest of the program provides, and its
    routines, which may run emulated code. *)
Class Devices := {
  pref_ignoreillegal : bool;
  machine_PVR : Z;
  machine_TimebaseSpeed : Z;
  host_usec : Z -> Z;
  host_uninit : Z;
  host_uninit_registers : registers;
  ROMBase : Z;
  ROMTYPE_NEWWORLD : bool;
  SignalStackBase : Z;
  emul_op_routine : emulation -> M68kRegisters -> Z -> Z -> powerpc_cpu ->
    outcome (M68kRegisters * powerpc_cpu);
  native : emulation -> native_routine -> list Z -> powerpc_cpu -> outcome (Z * powerpc_cpu);
  CheckLoad : Z -> Z -> Z -> Z -> powerpc_cpu -> outcome powerpc_cpu;
  NamedCheckLoad : Z -> Z -> Z -> Z -> powerpc_cpu -> outcome powerpc_cpu;
}.

(** [FlushCodeCache], [MakeExecutable] and [DisableInterrupt]. *)
Definition FlushCodeCache (start end_ : Z) (c : powerpc_cpu) : powerpc_cpu :=
  invalidate_cache_range start end_ c.

Definition MakeExecutable `{Devices} (start length : Z) (c : powerpc_cpu) : powerpc_cpu :=
  if (ROMBase <=? start) && (start <? u32 (ROMBase + ROM_SIZE)) then c
  else FlushCodeCache start (u32 (start + length)) c.

Definition DisableInterrupt (c : powerpc_cpu) : outcome powerpc_cpu :=
  n ← ReadMacInt32 XLM_IRQ_NEST c; WriteMacInt32 XLM_IRQ_NEST (n + 1) c.

Section Glue.
Context {DEV : Devices} (execute : emulation).

(** ** [sheepshaver_cpu] *)

(** The registers as the nanokernel's interrupt routine expects them; [v] is
    the word 0x660 of the kernel data. *)
Definition nanokernel_registers (v trampoline : Z) (c : powerpc_cpu) : powerpc_cpu :=
  let c := set_gpr 7 v c in
  let c := set_gpr 8 0 c in
  let c := set_gpr 10 trampoline c in
  let c := set_gpr 12 trampoline c in
  let c := set_gpr 13 (cr c) c in
  let result := op_ppc_rlwimi (gpr c 7) 8 0x80000000 (gpr c 7) in
  let c := record_cr0 result c in
  let c := set_gpr 7 result c in
  let c := set_gpr 11 0xf072 c in
  set_cr (Z.lor (Z.land (gpr c 11) 0x0fff0000) (Z.land (cr c) (u32 (Z.lnot 0x0fff0000)))) c.

Definition interrupt (entry : Z) (c : powerpc_cpu) : outcome powerpc_cpu :=
  let saved_pc := pc c in
  let saved_lr := lr c in
  let saved_ctr := ctr c in
  let saved_sp := gpr c 1 in
  let c := set_gpr 1 (u32 (SignalStackBase - 64)) c in
  '(_, c) ← with_SheepVar32 POWERPC_EXEC_RETURN (fun trampoline c =>
    c ← write_kernel_data 0x004 (gpr c 1) c;
    c ← write_kernel_data 0x018 (gpr c 6) c;
    v ← read_kernel_data 0x65c c;
    let c := set_gpr 6 v c in
    if gpr c 6 =? 0 then Abort else
    c ← WriteMacInt32 (u32 (gpr c 6 + 0x13c)) (gpr c 7) c;
    c ← WriteMacInt32 (u32 (gpr c 6 + 0x144)) (gpr c 8) c;
    c ← WriteMacInt32 (u32 (gpr c 6 + 0x14c)) (gpr c 9) c;
    c ← WriteMacInt32 (u32 (gpr c 6 + 0x154)) (gpr c 10) c;
    c ← WriteMacInt32 (u32 (gpr c 6 + 0x15c)) (gpr c 11) c;
    c ← WriteMacInt32 (u32 (gpr c 6 + 0x164)) (gpr c 12) c;
    c ← WriteMacInt32 (u32 (gpr c 6 + 0x16c)) (gpr c 13) c;
    let c := set_gpr 1 KernelDataAddr c in
    v ← read_kernel_data 0x660 c;
    c ← execute entry (nanokernel_registers v trampoline c);
    let c := set_pc saved_pc c in
    let c := set_lr saved_lr c in
    let c := set_ctr saved_ctr c in
    Ok (tt, set_gpr 1 saved_sp c)) c;
  Ok c.

(** The 68k register set up of [execute_68k]; the opcode is read before r24 is
    stepped past it. *)
Definition enter_68k (entry : Z) (r : M68kRegisters) (c : powerpc_cpu) : outcome powerpc_cpu :=
  let c := set_cr (mask (CR_SO_field 2)) c in
  let c := load_gprs 16 7 (r68_a r) (load_gprs 8 8 (r68_d r) c) in
  let c := set_gpr 23 0 c in
  let c := set_gpr 24 entry c in
  v ← ReadMacInt32 XLM_68K_R25 c;
  let c := set_gpr 25 v c in
  let c := set_gpr 26 0 c in
  let c := set_gpr 28 0 c in
  v ← read_kernel_data (ed_offset + 0x74) c;
  let c := set_gpr 29 v c in
  v ← read_kernel_data (ed_offset + 0x78) c;
  let c := set_gpr 30 v c in
  let c := set_gpr 31 (u32 (KernelDataAddr + 0x1000)) c in
  let c := set_gpr 1 (u32 (gpr c 1 - 4)) c in
  c ← WriteMacInt32 (gpr c 1) XLM_EXEC_RETURN_OPCODE c;
  c ← WriteMacInt32 XLM_RUN_MODE MODE_68K c;
  let c := set_gpr 0 0 c in
  opcode ← ReadMacInt16 (gpr c 24) c;
  let c := set_gpr 24 (u32 (gpr c 24 + 2)) c in
  v ← ReadMacInt16 (gpr c 24) c;
  let c := set_gpr 27 (u32 (sext 16 v)) c in
  Ok (set_gpr 29 (u32 (gpr c 29 + opcode * 8)) c).

Definition execute_68k (entry : Z) (r : M68kRegisters) (c : powerpc_cpu)
  : outcome (M68kRegisters * powerpc_cpu) :=
  _ ← ReadMacInt32 XLM_RUN_MODE c;
  let saved_pc := pc c in
  let saved_lr := lr c in
  let saved_ctr := ctr c in
  let saved_cr := cr c in
  let sp := gpr c 1 in
  let c := set_gpr 1 (u32 (gpr c 1 - 56)) c in
  c ← WriteMacInt32 (gpr c 1) sp c;
  let saved_GPRs := read_gprs 13 19 c in
  let saved_FPRs := read_fprs 14 18 c in
  c ← enter_68k entry r c;
  c ← execute (gpr c 29) c;
  c ← WriteMacInt32 XLM_68K_R25 (gpr c 25) c;
  c ← WriteMacInt32 XLM_RUN_MODE MODE_EMUL_OP c;
  let r := R68 (read_gprs 8 8 c) (read_gprs 16 7 c ++ [Zlookup (r68_a r) 7]) in
  let c := load_gprs 13 19 saved_GPRs c in
  let c := load_fprs 14 18 saved_FPRs c in
  let c := set_gpr 1 (u32 (gpr c 1 + 56)) c in
  let c := set_pc saved_pc c in
  let c := set_lr saved_lr c in
  let c := set_ctr saved_ctr c in
  Ok (r, set_cr saved_cr c).

Definition execute_macos_code (tvect : Z) (args : list Z) (c : powerpc_cpu)
  : outcome (Z * powerpc_cpu) :=
  let nargs := length args in
  let saved_pc := pc c in
  let saved_lr := lr c in
  let saved_ctr := ctr c in
  with_SheepVar32 POWERPC_EXEC_RETURN (fun trampoline c =>
    let c := set_lr trampoline c in
    let c := set_gpr 1 (u32 (gpr c 1 - 64)) c in
    proc ← ReadMacInt32 tvect c;
    toc ← ReadMacInt32 (u32 (tvect + 4)) c;
    let regs := read_gprs 2 (S nargs) c in
    let c := set_gpr 2 toc c in
    let c := load_gprs 3 nargs args c in
    c ← execute proc c;
    let retval := gpr c 3 in
    let c := load_gprs 2 (S nargs) regs c in
    let c := set_gpr 1 (u32 (gpr c 1 + 64)) c in
    let c := set_pc saved_pc c in
    let c := set_lr saved_lr c in
    Ok (retval, set_ctr saved_ctr c)) c.

Definition execute_ppc (entry : Z) (c : powerpc_cpu) : outcome powerpc_cpu :=
  let saved_lr := lr c in
  '(_, c) ← with_SheepVar32 POWERPC_EXEC_RETURN (fun trampoline c =>
    c ← WriteMacInt32 trampoline POWERPC_EXEC_RETURN c;
    let c := set_lr trampoline c in
    c ← execute entry c;
    Ok (tt, set_lr saved_lr c)) c;
  Ok c.

(** [check_load_invoc] and [named_check_load_invoc] (rsrc_patches.cpp). *)
Definition with_loaded (h : Z) (f : Z -> Z -> powerpc_cpu -> outcome powerpc_cpu) (c : powerpc_cpu)
  : outcome powerpc_cpu :=
  if h =? 0 then Ok c else
  p ← ReadMacInt32 h c;
  if p =? 0 then Ok c else
  n ← ReadMacInt32 (u32 (p - 2 * 4)) c;
  f p (Z.land n 0xffffff) c.
Definition check_load_invoc (type id h : Z) : powerpc_cpu -> outcome powerpc_cpu :=
  with_loaded h (CheckLoad type (sext 16 id)).
Definition named_check_load_invoc (type name h : Z) : powerpc_cpu -> outcome powerpc_cpu :=
  with_loaded h (NamedCheckLoad type name).

Definition get_resource (old_get_resource : Z) (c : powerpc_cpu) : outcome powerpc_cpu :=
  let type := gpr c 3 in
  let id := gpr c 4 in
  let c := set_gpr 1 (u32 (gpr c 1 - 56)) c in
  c ← execute_ppc old_get_resource c;
  let handle := gpr c 3 in
  c ← check_load_invoc type id handle c;
  let c := set_gpr 3 handle c in
  Ok (set_gpr 1 (u32 (gpr c 1 + 56)) c).

(** ** Entry points *)

Definition Execute68k : Z -> M68kRegisters -> powerpc_cpu -> outcome (M68kRegisters * powerpc_cpu) :=
  execute_68k.

Definition Execute68kTrap (trap : Z) (r : M68kRegisters) (c : powerpc_cpu)
  : outcome (M68kRegisters * powerpc_cpu) :=
  with_SheepVar 4 (fun proc c =>
    c ← WriteMacInt16 proc trap c;
    c ← WriteMacInt16 (u32 (proc + 2)) M68K_RTS c;
    Execute68k proc r c) c.

(** [ExecuteNative] (thunks.cpp), with the registers uninitialised. *)
Definition ExecuteNative (ops : list native_op_t) (selector : Z) (c : powerpc_cpu)
  : outcome (M68kRegisters * powerpc_cpu) :=
  d ← NativeRoutineDescriptor ops selector;
  Execute68k d (R68 (replicate 8 host_uninit) (replicate 8 host_uninit)) c.

(** [call_macos], [call_macos1], ..., [call_macos7]. *)
Definition call_macos (tvect : Z) (args : list Z) (c : powerpc_cpu) : outcome (Z * powerpc_cpu) :=
  execute_macos_code tvect args c.

(** ** Native routines *)

(** Calls with the first [n] arguments in r3, r4, ...; the result is dropped,
    goes to r3, or goes to r3 from an [int16]. *)
Inductive result_use := no_result | result_word | result_int16.

Definition call_native (f : native_routine) (n : nat) (u : result_use) (c : powerpc_cpu)
  : outcome powerpc_cpu :=
  '(v, c) ← native execute f (read_gprs 3 n c) c;
  Ok match u with
     | no_result => c
     | result_word => set_gpr 3 (u32 v) c
     | result_int16 => set_gpr 3 (u32 (sext 16 (u16 v))) c
     end.

Definition execute_native_op (selector : Z) (c : powerpc_cpu) : outcome powerpc_cpu :=
  match selector_of selector with
  | Some NATIVE_PATCH_NAME_REGISTRY => call_native DoPatchNameRegistry 0 no_result c
  | Some NATIVE_VIDEO_INSTALL_ACCEL => call_native VideoInstallAccel 0 no_result c
  | Some NATIVE_VIDEO_VBL => call_native VideoVBL 0 no_result c
  | Some NATIVE_VIDEO_DO_DRIVER_IO => call_native VideoDoDriverIO 5 result_int16 c
  | Some NATIVE_ETHER_AO_GET_HWADDR => call_native AO_get_ethernet_address 1 no_result c
  | Some NATIVE_ETHER_AO_ADD_MULTI => call_native AO_enable_multicast 1 no_result c
  | Some NATIVE_ETHER_AO_DEL_MULTI => call_native AO_disable_multicast 1 no_result c
  | Some NATIVE_ETHER_AO_SEND_PACKET => call_native AO_transmit_packet 1 no_result c
  | Some NATIVE_ETHER_IRQ => call_native EtherIRQ 0 no_result c
  | Some NATIVE_ETHER_INIT => call_native InitStreamModule 1 result_word c
  | Some NATIVE_ETHER_TERM => call_native TerminateStreamModule 0 no_result c
  | Some NATIVE_ETHER_OPEN => call_native ether_open 5 result_word c
  | Some NATIVE_ETHER_CLOSE => call_native ether_close 3 result_word c
  | Some NATIVE_ETHER_WPUT => call_native ether_wput 2 result_word c
  | Some NATIVE_ETHER_RSRV => call_native ether_rsrv 1 result_word c
  | Some NATIVE_NQD_SYNC_HOOK => call_native NQD_sync_hook 1 result_word c
  | Some NATIVE_NQD_UNKNOWN_HOOK => call_native NQD_unknown_hook 1 result_word c
  | Some NATIVE_NQD_BITBLT_HOOK => call_native NQD_bitblt_hook 1 result_word c
  | Some NATIVE_NQD_BITBLT => call_native NQD_bitblt 1 no_result c
  | Some NATIVE_NQD_FILLRECT_HOOK => call_native NQD_fillrect_hook 1 result_word c
  | Some NATIVE_NQD_INVRECT => call_native NQD_invrect 1 no_result c
  | Some NATIVE_NQD_FILLRECT => call_native NQD_fillrect 1 no_result c
  | Some NATIVE_SERIAL_NOTHING => call_native SerialNothing 2 result_int16 c
  | Some NATIVE_SERIAL_OPEN => call_native SerialOpen 2 result_int16 c
  | Some NATIVE_SERIAL_PRIME_IN => call_native SerialPrimeIn 2 result_int16 c
  | Some NATIVE_SERIAL_PRIME_OUT => call_native SerialPrimeOut 2 result_int16 c
  | Some NATIVE_SERIAL_CONTROL => call_native SerialControl 2 result_int16 c
  | Some NATIVE_SERIAL_STATUS => call_native SerialStatus 2 result_int16 c
  | Some NATIVE_SERIAL_CLOSE => call_native SerialClose 2 result_int16 c
  | Some NATIVE_GET_RESOURCE => v ← ReadMacInt32 XLM_GET_RESOURCE c; get_resource v c
  | Some NATIVE_GET_1_RESOURCE => v ← ReadMacInt32 XLM_GET_1_RESOURCE c; get_resource v c
  | Some NATIVE_GET_IND_RESOURCE => v ← ReadMacInt32 XLM_GET_IND_RESOURCE c; get_resource v c
  | Some NATIVE_GET_1_IND_RESOURCE => v ← ReadMacInt32 XLM_GET_1_IND_RESOURCE c; get_resource v c
  | Some NATIVE_R_GET_RESOURCE => v ← ReadMacInt32 XLM_R_GET_RESOURCE c; get_resource v c
  | Some NATIVE_MAKE_EXECUTABLE => Ok (MakeExecutable (gpr c 4) (gpr c 5) c)
  | Some NATIVE_CHECK_LOAD_INVOC => check_load_invoc (gpr c 3) (gpr c 4) (gpr c 5) c
  | Some NATIVE_NAMED_CHECK_LOAD_INVOC => named_check_load_invoc (gpr c 3) (gpr c 4) (gpr c 5) c
  | Some (NATIVE_GET_NAMED_RESOURCE | NATIVE_GET_1_NAMED_RESOURCE) | None => Quit
  end.

(** ** Interrupts *)

(** The 68k routine that fakes an exception frame and jumps through $64. *)
Definition proc_template : list Z :=
  [0x3f; 0x3c; 0x00; 0x00; 0x48; 0x7a; 0x00; 0x0a; 0x40; 0xe7; 0x20; 0x78; 0x00; 0x064; 0x4e; 0xd0;
   Z.shiftr M68K_RTS 8; Z.land M68K_RTS 0xff].

(** [BUILD_SHEEPSHAVER_PROCEDURE(proc)]: a [static uint32], built on the first use. *)
Definition build_irq_proc (c : powerpc_cpu) : outcome (Z * powerpc_cpu) :=
  let proc := u32 (irq_proc (sheep c)) in
  if proc =? 0 then
    '(p, c) ← SheepProc proc_template c;
    Ok (p, set_sheep (Sheep (sheep_data (sheep c)) (sheep_proc (sheep c)) p) c)
  else Ok (proc, c).

(** [r] is the copy of the registers that the CPU restores afterwards. *)
Definition HandleInterrupt (r : registers) (c : powerpc_cpu) : outcome (registers * powerpc_cpu) :=
  nest ← ReadMacInt32 XLM_IRQ_NEST c;
  if 0 <? sext 32 nest then Ok (r, c) else
  mode ← ReadMacInt32 XLM_RUN_MODE c;
  if mode =? MODE_68K then
    a ← read_kernel_data 0x67c c;
    c ← WriteMacInt16 a 1 c;
    v ← read_kernel_data 0x674 c;
    Ok (Regs (r_gpr r) (r_fpr r) (r_vr r) (Z.lor (r_cr r) v) (r_xer r) (r_vscr r) (r_vrsave r)
          (r_fpscr r) (r_lr r) (r_ctr r) (r_pc r) (r_spcflags r) (r_reserve_valid r)
          (r_reserve_addr r), c)
  else if mode =? MODE_NATIVE then
    if negb (Zlookup (r_gpr r) 1 =? KernelDataAddr) then
      a ← read_kernel_data 0x67c c;
      c ← WriteMacInt16 a 1 c;
      p ← read_kernel_data 0x658 c;
      x ← ReadMacInt32 (u32 (p + 0xdc)) c;
      v ← read_kernel_data 0x674 c;
      c ← WriteMacInt32 (u32 (p + 0xdc)) (Z.lor x v) c;
      c ← DisableInterrupt c;
      c ← interrupt (u32 (ROMBase + if ROMTYPE_NEWWORLD then 0x312b1c else 0x312a3c)) c;
      Ok (r, c)
    else Ok (r, c)
  else if mode =? MODE_EMUL_OP then
    level ← ReadMacInt32 XLM_68K_R25 c;
    if Z.land level 7 =? 0 then
      old_r25 ← ReadMacInt32 XLM_68K_R25 c;
      c ← WriteMacInt32 XLM_68K_R25 0x21 c;
      '(proc, c) ← build_irq_proc c;
      '(_, c) ← Execute68k proc (R68 (replicate 8 host_uninit) (replicate 8 host_uninit)) c;
      c ← WriteMacInt32 XLM_68K_R25 old_r25 c;
      Ok (r, c)
    else Ok (r, c)
  else Ok (r, c).
End Glue.

(** ** Tying the knot *)

Section Knot.
Context {FPU : HostFPU} {DEV : Devices} {DEC : CpuDecoder}.

(** The host that runs emulated code with [execute]. *)
Definition host_of (execute : emulation) : Host := {|
  ignoreillegal := pref_ignoreillegal;
  PVR := machine_PVR;
  TimebaseSpeed := machine_TimebaseSpeed;
  GetTicks_usec := host_usec;
  uninit := host_uninit;
  uninit_registers := host_uninit_registers;
  EmulOp := emul_op_routine execute;
  Cpu.execute_native_op := execute_native_op execute;
  Cpu.HandleInterrupt := HandleInterrupt execute;
|}.

(** Calls of [execute] nested [nest] deep, each of at most [fuel] turns. *)
Fixpoint run (nest fuel : nat) : emulation :=
  match nest with
  | O => fun _ _ => Fuel
  | S nest => fun entry c => Interp.execute (HOST := host_of (run nest fuel)) fuel entry c
  end.

(** [init_emul_ppc] without the debugger's commands, and [emul_ppc]. *)
Definition init_emul_ppc (m : memory) : outcome powerpc_cpu :=
  let c := init_decode_cache (cpu_init m) in
  c ← set_register 3 (u32 (ROMBase + 0x30d000)) c;
  c ← set_register 4 (u32 (KernelDataAddr + 0x1000)) c;
  WriteMacInt32 XLM_RUN_MODE MODE_68K c.

Definition emul_ppc (nest fuel : nat) (entry : Z) (c : powerpc_cpu) : outcome powerpc_cpu :=
  run nest fuel entry c.
End Knot.
