(* ===== verification/GlueSpec.v ===== *)
(** Properties of the code around the CPU (Glue.v): it promises the CPU what
    the class [Host] asks for, so that the whole machine is safe for any depth
    of nesting; 68k and Mac OS calls and interrupts restore the registers they
    borrow. *)
From S2P Require Import Prelude Bitfields Registers HostFPU Operations Memory Handlers BlockCache Cpu Operands ExecInt ExecMem ExecSys Dispatch DecodeTable Decode Interp Frame InterpSpec PredecodeSpec CacheSpec Thunks Glue.

(** ** What is asked of the other subsystems *)

(** Nested emulation keeps the loops' state, and keeps the machine well formed. *)
Definition exec_frame (execute : emulation) : Prop :=
  forall entry c, 1 <= execute_depth c -> outcome_holds (in_frame (frame_of c)) (execute entry c).
Definition exec_wf (execute : emulation) : Prop :=
  forall entry c, is_uint 32 entry -> cpu_wf c -> 1 <= execute_depth c ->
    outcome_holds cpu_wf (execute entry c).

Class DeviceLaws (D : Devices) := {
  machine_PVR_range : is_uint 32 machine_PVR;
  machine_TimebaseSpeed_range : is_uint 32 machine_TimebaseSpeed;
  host_usec_range n : is_uint 64 (host_usec n);
  host_uninit_range : is_uint 32 host_uninit;
  host_uninit_registers_wf : regs_wf host_uninit_registers;
  emul_op_routine_frame execute r pc68 op c : exec_frame execute -> 1 <= execute_depth c ->
    outcome_holds (fun '(_, c') => in_frame (frame_of c) c') (emul_op_routine execute r pc68 op c);
  emul_op_routine_wf execute r pc68 op c : exec_frame execute -> exec_wf execute ->
    r68_wf r -> cpu_wf c -> 1 <= execute_depth c ->
    outcome_holds (fun '(r, c) => r68_wf r /\ cpu_wf c) (emul_op_routine execute r pc68 op c);
  native_frame execute f args c : exec_frame execute -> 1 <= execute_depth c ->
    outcome_holds (fun '(_, c') => in_frame (frame_of c) c') (native execute f args c);
  native_wf execute f args c : exec_frame execute -> exec_wf execute ->
    Forall (is_uint 32) args -> cpu_wf c -> 1 <= execute_depth c ->
    outcome_holds (fun '(_, c') => cpu_wf c') (native execute f args c);
  CheckLoad_frame type id p n c : outcome_holds (in_frame (frame_of c)) (CheckLoad type id p n c);
  CheckLoad_wf type id p n c : cpu_wf c -> outcome_holds cpu_wf (CheckLoad type id p n c);
  NamedCheckLoad_frame type id p n c :
    outcome_holds (in_frame (frame_of c)) (NamedCheckLoad type id p n c);
  NamedCheckLoad_wf type id p n c : cpu_wf c -> outcome_holds cpu_wf (NamedCheckLoad type id p n c);
}.

(** ** The loops' state *)

Lemma outcome_holds_and {A} (P Q : A -> Prop) m :
  outcome_holds P m -> outcome_holds Q m -> outcome_holds (fun a => P a /\ Q a) m.
Proof. by destruct m. Qed.

Lemma cpu_write_frame k f c : in_frame k c -> outcome_holds (in_frame k) (cpu_write f c).
Proof. intros Hc. unfold cpu_write. destruct (f (mem c)); try exact I. exact Hc. Qed.

Lemma load_fprs_frame base n l c : exists f, load_fprs base n l c =
  with_regs (fun r => Regs (r_gpr r) f (r_vr r) (r_cr r) (r_xer r) (r_vscr r) (r_vrsave r)
    (r_fpscr r) (r_lr r) (r_ctr r) (r_pc r) (r_spcflags r) (r_reserve_valid r) (r_reserve_addr r)) c.
Proof.
  unfold load_fprs. apply foldl_invariant.
  - intros i c' _ [f ->]. by eexists.
  - exists (r_fpr (regs c)). by destruct c as [[]].
Qed.

Lemma load_gprs_in_frame k base n l c : in_frame k c -> in_frame k (load_gprs base n l c).
Proof. intros Hc. destruct (load_gprs_frame base n l c) as [g ->]. exact Hc. Qed.
Lemma load_fprs_in_frame k base n l c : in_frame k c -> in_frame k (load_fprs base n l c).
Proof. intros Hc. destruct (load_fprs_frame base n l c) as [f ->]. exact Hc. Qed.

(** With a temporary of [size] bytes on the shared stack. *)
Definition push_data (size : Z) (k : frame) : frame :=
  Frame (fr_cache k) (fr_cache_p k) (fr_depth k) (fr_interrupt k) (fr_blocks k)
    (u64 (fr_data k - SheepMem.align size)).

(** A temporary is released at the end of its scope: the stack that is shared
    with Mac OS is where it was. *)
Lemma with_SheepVar_frame {A} k size (body : Z -> powerpc_cpu -> outcome (A * powerpc_cpu)) c :
  let k' := push_data (SheepMem.align size) k in
  in_frame k c ->
  (forall addr c, in_frame k' c -> outcome_holds (fun '(_, c') => in_frame k' c') (body addr c)) ->
  outcome_holds (fun '(_, c') => in_frame k c') (with_SheepVar size body c).
Proof.
  intros k' (E1 & E2 & E3 & E4 & E5 & E6) Hbody. unfold with_SheepVar, SheepMem.Reserve. cbn zeta.
  destruct (_ <? _); [exact I|]. cbn [mbind outcome_bind].
  eapply outcome_holds_bind.
  - apply Hbody. refine (conj E1 (conj E2 (conj E3 (conj E4 (conj _ E6))))). unfold k'. cbn.
    rewrite <- E5, trunc_trunc by lia. unfold Z.sub. by rewrite trunc_add_l.
  - intros [a c1] (D1 & D2 & D3 & D4 & D5 & D6). cbn [outcome_holds].
    refine (conj D1 (conj D2 (conj D3 (conj D4 (conj _ D6))))). unfold k' in D5. cbn in *.
    rewrite trunc_trunc, <- trunc_add_l, D5, trunc_add_l by lia. rewrite Z.sub_add, <- E5.
    by rewrite trunc_trunc by lia.
Qed.

Lemma drop_result {A} (P : powerpc_cpu -> Prop) (m : outcome (A * powerpc_cpu)) :
  outcome_holds (fun '(_, c) => P c) m -> outcome_holds P ('(_, c) ← m; Ok c).
Proof. by destruct m as [[a c]| | | |]. Qed.

Section Frames.
Context {DEV : Devices} {DL : DeviceLaws DEV} (execute : emulation) (HX : exec_frame execute).

Lemma execute_in_frame k entry c :
  in_frame k c -> 1 <= fr_depth k -> outcome_holds (in_frame k) (execute entry c).
Proof using HX.
  intros Hc Hk. eapply outcome_holds_weaken; [apply HX|intros c'; by apply in_frame_trans].
  destruct Hc as (_ & _ & -> & _). exact Hk.
Qed.

(** A sequence of steps that keep the frame [k]; [k] may have been pushed on. *)
Ltac frame_same := first [assumption | match goal with H : in_frame _ _ |- _ => exact H end].
Ltac deep := match goal with H : 1 <= fr_depth _ |- _ => exact H end.
Ltac frame_steps :=
  cbn zeta;
  repeat first
    [ lazymatch goal with |- outcome_holds _ Abort => exact I end
    | eapply outcome_holds_bind; [apply cpu_write_frame; frame_same|intros ? ?; cbn zeta]
    | eapply outcome_holds_bind; [apply execute_in_frame; [frame_same|deep]|intros ? ?; cbn zeta]
    | apply cpu_write_frame; frame_same
    | match goal with
      | |- outcome_holds _ (mbind _ (vm_read_memory_4 _ _)) => apply read_holds
      | |- outcome_holds _ (mbind _ (vm_read_memory_2 _ _)) => apply read_holds
      end; intros ?; cbn zeta ].

Lemma interrupt_frame k entry c :
  1 <= fr_depth k -> in_frame k c -> outcome_holds (in_frame k) (interrupt execute entry c).
Proof using HX.
  intros Hk Hc. unfold interrupt. cbn zeta.
  apply drop_result, with_SheepVar_frame; [exact Hc|]. intros addr c1 Hc1.
  unfold write_kernel_data, read_kernel_data, ReadMacInt32, WriteMacInt32. frame_steps.
  destruct (_ =? 0); [exact I|]. frame_steps. frame_same.
Qed.

Lemma enter_68k_frame k entry r c : in_frame k c -> outcome_holds (in_frame k) (enter_68k entry r c).
Proof using.
  intros Hc. unfold enter_68k, read_kernel_data, ReadMacInt32, ReadMacInt16, WriteMacInt32. cbn zeta.
  assert (H : in_frame k (load_gprs 16 7 (r68_a r) (load_gprs 8 8 (r68_d r) (set_cr (mask (CR_SO_field 2)) c))))
    by (do 2 apply load_gprs_in_frame; exact Hc).
  generalize dependent (load_gprs 16 7 (r68_a r) (load_gprs 8 8 (r68_d r) (set_cr (mask (CR_SO_field 2)) c))).
  intros c0 H0. frame_steps. frame_same.
Qed.

Lemma execute_68k_frame k entry r c :
  1 <= fr_depth k -> in_frame k c ->
  outcome_holds (fun '(_, c') => in_frame k c') (execute_68k execute entry r c).
Proof using HX.
  intros Hk Hc. unfold execute_68k. apply read_holds. intros mode. cbn zeta. unfold WriteMacInt32.
  eapply outcome_holds_bind; [apply cpu_write_frame; frame_same|intros c1 H1].
  eapply outcome_holds_bind; [apply enter_68k_frame, H1|intros c2 H2].
  frame_steps. cbn [outcome_holds].
  match goal with |- in_frame k (set_cr _ (set_ctr _ (set_lr _ (set_pc _ (set_gpr _ _ ?x))))) =>
    assert (H9 : in_frame k x); [|exact H9] end.
  apply load_fprs_in_frame, load_gprs_in_frame. frame_same.
Qed.

Lemma execute_macos_code_frame k tvect args c :
  1 <= fr_depth k -> in_frame k c ->
  outcome_holds (fun '(_, c') => in_frame k c') (execute_macos_code execute tvect args c).
Proof using HX.
  intros Hk Hc. unfold execute_macos_code. cbn zeta.
  apply with_SheepVar_frame; [exact Hc|]. intros addr c1 Hc1.
  unfold WriteMacInt32, ReadMacInt32.
  eapply outcome_holds_bind; [apply cpu_write_frame, Hc1|intros c2 H2]. cbn zeta.
  apply read_holds. intros proc. apply read_holds. intros toc. cbn zeta.
  eapply outcome_holds_bind; [apply execute_in_frame; [apply load_gprs_in_frame, H2|deep]|intros c3 H3].
  cbn [outcome_holds].
  match goal with |- in_frame ?k (set_ctr _ (set_lr _ (set_pc _ (set_gpr _ _ ?x)))) =>
    assert (H9 : in_frame k x); [|exact H9] end.
  apply load_gprs_in_frame, H3.
Qed.

Lemma execute_ppc_frame k entry c :
  1 <= fr_depth k -> in_frame k c -> outcome_holds (in_frame k) (execute_ppc execute entry c).
Proof using HX.
  intros Hk Hc. unfold execute_ppc. cbn zeta. apply drop_result, with_SheepVar_frame; [exact Hc|].
  intros addr c1 Hc1. unfold WriteMacInt32. frame_steps. frame_same.
Qed.

Lemma with_loaded_frame k h f c :
  (forall p n c, in_frame k c -> outcome_holds (in_frame k) (f p n c)) ->
  in_frame k c -> outcome_holds (in_frame k) (with_loaded h f c).
Proof using.
  intros Hf Hc. unfold with_loaded. destruct (_ =? 0); [exact Hc|]. apply read_holds. intros p.
  destruct (_ =? 0); [exact Hc|]. apply read_holds. intros n. by apply Hf.
Qed.

Lemma check_load_invoc_frame k type id h c :
  in_frame k c -> outcome_holds (in_frame k) (check_load_invoc type id h c).
Proof using DL.
  apply with_loaded_frame. intros p n c' Hc.
  eapply outcome_holds_weaken; [apply CheckLoad_frame|intros c2; by apply in_frame_trans].
Qed.
Lemma named_check_load_invoc_frame k type id h c :
  in_frame k c -> outcome_holds (in_frame k) (named_check_load_invoc type id h c).
Proof using DL.
  apply with_loaded_frame. intros p n c' Hc.
  eapply outcome_holds_weaken; [apply NamedCheckLoad_frame|intros c2; by apply in_frame_trans].
Qed.

Lemma get_resource_frame k old c :
  1 <= fr_depth k -> in_frame k c -> outcome_holds (in_frame k) (get_resource execute old c).
Proof using DL HX.
  intros Hk Hc. unfold get_resource. cbn zeta.
  eapply outcome_holds_bind; [apply execute_ppc_frame; [deep|exact Hc]|intros c1 H1].
  eapply outcome_holds_bind; [apply check_load_invoc_frame, H1|intros c2 H2]. exact H2.
Qed.

Lemma call_native_frame k f n u c :
  1 <= fr_depth k -> in_frame k c -> outcome_holds (in_frame k) (call_native execute f n u c).
Proof using DL HX.
  intros Hk Hc. unfold call_native.
  eapply outcome_holds_bind; [apply native_frame; [exact HX|]|].
  - destruct Hc as (_ & _ & -> & _). exact Hk.
  - intros [v c1] H1. apply (in_frame_trans _ _ _ Hc) in H1. destruct u; exact H1.
Qed.

Lemma MakeExecutable_frame k start n c : in_frame k c -> in_frame k (MakeExecutable start n c).
Proof using.
  intros Hc. unfold MakeExecutable, FlushCodeCache. destruct (_ && _); [exact Hc|].
  apply (invalidate_cache_range_at (pc c) k c). by split.
Qed.

Lemma execute_native_op_in_frame k selector c :
  1 <= fr_depth k -> in_frame k c ->
  outcome_holds (in_frame k) (execute_native_op execute selector c).
Proof using DL HX.
  intros Hk Hc. unfold execute_native_op.
  destruct (selector_of selector) as [[]|]; try exact I; try (by apply call_native_frame);
    try (apply read_holds; intros v; by apply get_resource_frame).
  - by apply MakeExecutable_frame.
  - by apply check_load_invoc_frame.
  - by apply named_check_load_invoc_frame.
Qed.

Lemma DisableInterrupt_frame k c : in_frame k c -> outcome_holds (in_frame k) (DisableInterrupt c).
Proof using. intros Hc. unfold DisableInterrupt, ReadMacInt32, WriteMacInt32. frame_steps. Qed.

(** Permanent procedures are at the other end of the shared area. *)
Lemma build_irq_proc_frame k c :
  in_frame k c -> outcome_holds (fun '(_, c') => in_frame k c') (build_irq_proc c).
Proof using.
  intros Hc. unfold build_irq_proc. destruct (_ =? 0); [|exact Hc].
  unfold SheepProc, SheepMem.ReserveProc. cbn zeta. destruct (_ <? _); [|exact I].
  cbn [mbind outcome_bind]. unfold Host2Mac_memcpy, cpu_write.
  destruct (memcpy _ _ _); try exact I. exact Hc.
Qed.

Lemma HandleInterrupt_in_frame k r c :
  1 <= fr_depth k -> in_frame k c ->
  outcome_holds (fun '(_, c') => in_frame k c') (HandleInterrupt execute r c).
Proof using HX.
  intros Hk Hc. unfold HandleInterrupt, ReadMacInt32, read_kernel_data, WriteMacInt16, WriteMacInt32,
    ReadMacInt32.
  apply read_holds. intros nest. destruct (_ <? _); [exact Hc|].
  apply read_holds. intros mode. destruct (_ =? _); [frame_steps; frame_same|].
  destruct (_ =? _).
  - destruct (negb _); [|exact Hc]. frame_steps.
    eapply outcome_holds_bind; [apply DisableInterrupt_frame; frame_same|intros c1 H1].
    eapply outcome_holds_bind; [apply interrupt_frame; [deep|frame_same]|intros c' H'; exact H'].
  - destruct (_ =? _); [|exact Hc]. apply read_holds. intros level.
    destruct (_ =? 0); [|exact Hc]. frame_steps.
    eapply outcome_holds_bind; [apply build_irq_proc_frame; frame_same|intros [proc c1] H1].
    eapply outcome_holds_bind; [apply execute_68k_frame; [deep|exact H1]|intros [r' c2] H2].
    frame_steps. frame_same.
Qed.
End Frames.

(** ** Well-formed machines *)

(** Well formed, with emulated code running. *)
Definition alive (c : powerpc_cpu) : Prop := cpu_wf c /\ 1 <= execute_depth c.

Lemma write_alive f c :
  (forall m, mem_wf m -> outcome_holds mem_wf (f m)) -> cpu_wf c -> 1 <= execute_depth c ->
  outcome_holds alive (cpu_write f c).
Proof.
  intros Hf Hc Hd. unfold cpu_write. pose proof (Hf _ (cpu_mem_wf _ Hc)) as H.
  destruct (f (mem c)) as [m| | | |]; try exact I. split; [by apply set_mem_wf|exact Hd].
Qed.

Lemma WriteMacInt32_alive a v c : alive c -> outcome_holds alive (WriteMacInt32 a v c).
Proof. intros [Hc Hd]. apply write_alive; [apply vm_write_memory_4_wf|done..]. Qed.
Lemma WriteMacInt16_alive a v c : alive c -> outcome_holds alive (WriteMacInt16 a v c).
Proof. intros [Hc Hd]. apply write_alive; [apply vm_write_memory_2_wf|done..]. Qed.

Lemma memcpy_wf src : forall a m, mem_wf m -> outcome_holds mem_wf (memcpy a src m).
Proof.
  induction src as [|b src IH]; intros a m Hm; cbn [memcpy]; [done|].
  eapply outcome_holds_bind; [by apply store_1_wf|]. intros. by apply IH.
Qed.

Lemma load_fprs_wf base n l c :
  cpu_wf c -> Forall (is_uint 64) l -> (n <= length l)%nat -> cpu_wf (load_fprs base n l c).
Proof.
  intros Hc Hl Hn. unfold load_fprs. apply foldl_invariant; [|done]. intros i c' Hi%elem_of_count_up Hc'.
  apply set_fpr_dw_wf; [done|]. apply (Forall_Zlookup (is_uint 64)); [done|lia].
Qed.
Lemma read_fprs_wf base n c :
  cpu_wf c -> 0 <= base -> base + Z.of_nat n <= 32 -> Forall (is_uint 64) (read_fprs base n c).
Proof.
  intros Hc Hb Hn. apply Forall_fmap, Forall_forall. intros i Hi%elem_of_count_up. cbn.
  apply fpr_range; [done|lia].
Qed.
Lemma load_gprs_alive base n l c :
  alive c -> Forall (is_uint 32) l -> (n <= length l)%nat -> alive (load_gprs base n l c).
Proof.
  intros [Hc Hd] Hl Hn. split; [by apply load_gprs_wf|].
  destruct (load_gprs_frame base n l c) as [g ->]. exact Hd.
Qed.
Lemma load_fprs_alive base n l c :
  alive c -> Forall (is_uint 64) l -> (n <= length l)%nat -> alive (load_fprs base n l c).
Proof.
  intros [Hc Hd] Hl Hn. split; [by apply load_fprs_wf|].
  destruct (load_fprs_frame base n l c) as [f ->]. exact Hd.
Qed.

Lemma length_read_gprs base n c : length (read_gprs base n c) = n.
Proof. unfold read_gprs, count_up. by rewrite !length_fmap, length_seq. Qed.
Lemma length_read_fprs base n c : length (read_fprs base n c) = n.
Proof. unfold read_fprs, count_up. by rewrite !length_fmap, length_seq. Qed.

Lemma with_SheepVar_wf {A} size (body : Z -> powerpc_cpu -> outcome (A * powerpc_cpu)) c (Q : A -> Prop) :
  alive c ->
  (forall addr c, is_uint 32 addr -> alive c -> outcome_holds (fun '(a, c') => Q a /\ alive c') (body addr c)) ->
  outcome_holds (fun '(a, c') => Q a /\ alive c') (with_SheepVar size body c).
Proof.
  intros Hc Hbody. unfold with_SheepVar, SheepMem.Reserve. cbn zeta.
  destruct (_ <? _); [exact I|]. cbn [mbind outcome_bind].
  eapply outcome_holds_bind; [apply Hbody; [apply trunc_range; lia|exact Hc]|].
  intros [a c1] H1. exact H1.
Qed.

#[local] Hint Extern 5 (is_uint _ (Zpos _)) => (split; [discriminate|reflexivity]) : word.

#[local] Hint Extern 5 (is_uint 32 KernelDataAddr) => (split; [discriminate|reflexivity]) : word.

#[local] Hint Extern 5 (0 <= _ <= 31) => lia : word.

(** Steps on a machine that is alive. *)
Ltac alive_facts :=
  repeat match goal with
  | H : alive ?c |- _ =>
      lazymatch goal with H' : cpu_wf c |- _ => fail | _ => pose proof (proj1 H) end
  end.
Ltac alive_same :=
  first [assumption|alive_facts; split; [wf|match goal with H : alive _ |- _ => exact (proj2 H) end]].
Ltac alive_step lem := eapply outcome_holds_bind; [apply lem; first [alive_same|alive_facts; wf]|intros ? ?; cbn zeta].
Ltac alive_steps :=
  cbn zeta;
  repeat lazymatch goal with
  | |- outcome_holds _ Abort => exact I
  | |- outcome_holds _ (mbind _ (WriteMacInt32 _ _ _)) => alive_step WriteMacInt32_alive
  | |- outcome_holds _ (mbind _ (WriteMacInt16 _ _ _)) => alive_step WriteMacInt16_alive
  | |- outcome_holds _ (mbind _ (ReadMacInt32 _ _)) => alive_step ReadMacInt32_range
  | |- outcome_holds _ (mbind _ (ReadMacInt16 _ _)) => alive_step ReadMacInt16_range
  end.

Section WF.
Context {DEV : Devices} {DL : DeviceLaws DEV} (execute : emulation).
Context (HX : exec_frame execute) (HW : exec_wf execute).

Lemma execute_alive entry c : is_uint 32 entry -> alive c -> outcome_holds alive (execute entry c).
Proof using HX HW.
  intros He [Hc Hd]. pose proof (HX entry c Hd) as H1. pose proof (HW entry c He Hc Hd) as H2.
  destruct (execute entry c) as [c'| | | |]; try exact I. split; [done|].
  by rewrite (in_frame_depth _ _ H1).
Qed.

(** One [let] of a chain of register updates. *)
Ltac alive_let :=
  lazymatch goal with
  | |- alive (let x := ?v in @?b x) =>
      let H := fresh in
      change (alive (b v)); assert (H : alive v) by alive_same; revert H; generalize v; cbv beta; intros ? H
  end.

Lemma nanokernel_registers_alive v trampoline c :
  is_uint 32 v -> is_uint 32 trampoline -> alive c -> alive (nanokernel_registers v trampoline c).
Proof using.
  intros Hv Ht Hc. cbv beta delta [nanokernel_registers]. do 5 alive_let.
  match goal with |- alive (let x := ?v in @?b x) =>
    change (alive (b v)); assert (Hr : is_uint 32 v) by apply op_ppc_rlwimi_range;
    revert Hr; generalize v; cbv beta; intros result Hr end.
  do 3 alive_let. split; [|apply H6]. apply set_cr_wf; [apply H6|].
  apply is_uint_lor; [lia|apply is_uint_land_r; [lia|done]|].
  apply is_uint_land_l; [lia|]. apply cr_range, H6.
Qed.

Lemma interrupt_alive entry c :
  is_uint 32 entry -> alive c -> outcome_holds alive (interrupt execute entry c).
Proof using HX HW.
  intros He Hc. unfold interrupt. cbn zeta.
  apply drop_result. eapply outcome_holds_weaken.
  - apply (with_SheepVar_wf _ _ _ (fun _ => True)).
    + alive_same.
    + intros addr c1 Ha Hc1. unfold write_kernel_data, read_kernel_data. alive_steps.
      destruct (_ =? 0); [exact I|]. alive_steps.
      eapply outcome_holds_bind; [apply execute_alive, nanokernel_registers_alive; try assumption; alive_same|].
      intros c2 H2'. split; [exact I|]. alive_same.
  - intros [u c']. by intros [_ H].
Qed.

Lemma enter_68k_alive entry r c :
  is_uint 32 entry -> r68_wf r -> alive c -> outcome_holds alive (enter_68k entry r c).
Proof using.
  intros He (Hd & Ha & Hld & Hla) Hc. unfold enter_68k, read_kernel_data. cbn zeta.
  assert (H : alive (load_gprs 16 7 (r68_a r) (load_gprs 8 8 (r68_d r) (set_cr (mask (CR_SO_field 2)) c)))).
  { apply load_gprs_alive; [apply load_gprs_alive|..]; [|done|lia|done|lia].
    assert (is_uint 32 (mask (CR_SO_field 2))) by by vm_compute. alive_same. }
  generalize dependent (load_gprs 16 7 (r68_a r) (load_gprs 8 8 (r68_d r) (set_cr (mask (CR_SO_field 2)) c))).
  intros c0 H0. alive_steps. cbn [outcome_holds]. alive_same.
Qed.

Lemma restore_68k_alive c' c :
  alive c' -> alive c ->
  alive (load_fprs 14 18 (read_fprs 14 18 c') (load_gprs 13 19 (read_gprs 13 19 c') c)).
Proof using.
  intros [Hc' _] Hc. apply load_fprs_alive; [apply load_gprs_alive|..];
    rewrite ?length_read_gprs, ?length_read_fprs; try done; [by apply read_gprs_wf|by apply read_fprs_wf].
Qed.

Lemma execute_68k_alive entry r c :
  is_uint 32 entry -> r68_wf r -> alive c ->
  outcome_holds (fun '(r', c') => r68_wf r' /\ alive c') (execute_68k execute entry r c).
Proof using HX HW.
  intros He Hr Hc. unfold execute_68k. apply read_holds. intros mode. cbn zeta.
  eapply outcome_holds_bind; [apply WriteMacInt32_alive; alive_same|intros c1 H1].
  eapply outcome_holds_bind; [by apply enter_68k_alive|intros c2 H2].
  eapply outcome_holds_bind; [apply execute_alive; alive_facts; auto with word|intros c3 H3].
  alive_steps. cbn [outcome_holds]. split.
  - destruct Hr as (_ & Ha & _ & Hla). alive_facts. split_and!; cbn [r68_d r68_a]; try done.
    + by apply read_gprs_wf.
    + apply Forall_app. split; [by apply read_gprs_wf|]. apply Forall_singleton.
      apply (Forall_Zlookup (is_uint 32)); [done|lia].
  - alive_facts.
    match goal with |- context [load_fprs 14 18 (read_fprs 14 18 ?x) (load_gprs 13 19 _ ?z)] =>
      assert (alive (load_fprs 14 18 (read_fprs 14 18 x) (load_gprs 13 19 (read_gprs 13 19 x) z)))
        by (by apply restore_68k_alive) end.
    alive_same.
Qed.

Lemma with_SheepVar32_alive {A} v (body : Z -> powerpc_cpu -> outcome (A * powerpc_cpu)) c (Q : A -> Prop) :
  alive c ->
  (forall addr c, is_uint 32 addr -> alive c -> outcome_holds (fun '(a, c') => Q a /\ alive c') (body addr c)) ->
  outcome_holds (fun '(a, c') => Q a /\ alive c') (with_SheepVar32 v body c).
Proof using.
  intros Hc Hb. apply with_SheepVar_wf; [done|]. intros addr c1 Ha H1.
  eapply outcome_holds_bind; [by apply WriteMacInt32_alive|]. intros c2 H2. by apply Hb.
Qed.

Lemma execute_macos_code_alive tvect args c :
  Forall (is_uint 32) args -> (length args <= 28)%nat -> alive c ->
  outcome_holds (fun '(v, c') => is_uint 32 v /\ alive c') (execute_macos_code execute tvect args c).
Proof using HX HW.
  intros Hargs Hlen Hc. unfold execute_macos_code. cbn zeta.
  apply with_SheepVar32_alive; [done|]. intros addr c1 Ha H1. alive_steps.
  match goal with |- context [execute _ ?x] => assert (alive x) end.
  { apply load_gprs_alive; [alive_same|done|lia]. }
  eapply outcome_holds_bind; [apply execute_alive; [alive_facts; auto with word|done]|intros c3 H3].
  cbn [outcome_holds]. split; [alive_facts; apply gpr_range; [done|lia]|].
  match goal with |- context [load_gprs 2 (S ?n) (read_gprs _ _ ?y) c3] =>
    assert (alive (load_gprs 2 (S n) (read_gprs 2 (S n) y) c3)) end.
  { apply load_gprs_alive; [done|..]; rewrite ?length_read_gprs; try done.
    apply read_gprs_wf; [alive_facts; wf|lia..]. }
  alive_same.
Qed.

Lemma execute_ppc_alive entry c :
  is_uint 32 entry -> alive c -> outcome_holds alive (execute_ppc execute entry c).
Proof using HX HW.
  intros He Hc. unfold execute_ppc. cbn zeta. apply drop_result. eapply outcome_holds_weaken.
  - apply (with_SheepVar32_alive _ _ _ (fun _ => True)); [done|]. intros addr c1 Ha Hc1. alive_steps.
    eapply outcome_holds_bind; [apply execute_alive; [done|alive_same]|].
    intros c2 H2. split; [exact I|]. alive_same.
  - intros [u c']. by intros [_ H].
Qed.

Lemma with_loaded_alive h f c :
  (forall p n c, alive c -> outcome_holds alive (f p n c)) -> alive c -> outcome_holds alive (with_loaded h f c).
Proof using.
  intros Hf Hc. unfold with_loaded. destruct (_ =? 0); [done|]. apply read_holds. intros p.
  destruct (_ =? 0); [done|]. apply read_holds. intros n. by apply Hf.
Qed.

(** What keeps the frame and well-formedness keeps the machine alive. *)
Lemma alive_both c m :
  alive c -> outcome_holds (in_frame (frame_of c)) m -> outcome_holds cpu_wf m -> outcome_holds alive m.
Proof using.
  intros [_ Hd] H1 H2. destruct m as [c'| | | |]; try exact I. split; [done|].
  by rewrite (in_frame_depth _ _ H1).
Qed.

Lemma check_load_invoc_alive type id h c :
  alive c -> outcome_holds alive (check_load_invoc type id h c).
Proof using DL.
  apply with_loaded_alive. intros p n c' Hc.
  apply (alive_both c'); [done|apply CheckLoad_frame|apply CheckLoad_wf, Hc].
Qed.
Lemma named_check_load_invoc_alive type id h c :
  alive c -> outcome_holds alive (named_check_load_invoc type id h c).
Proof using DL.
  apply with_loaded_alive. intros p n c' Hc.
  apply (alive_both c'); [done|apply NamedCheckLoad_frame|apply NamedCheckLoad_wf, Hc].
Qed.

Lemma get_resource_alive old c :
  is_uint 32 old -> alive c -> outcome_holds alive (get_resource execute old c).
Proof using DL HX HW.
  intros Ho Hc. unfold get_resource. cbn zeta.
  eapply outcome_holds_bind; [apply execute_ppc_alive; [done|alive_same]|intros c1 H1].
  eapply outcome_holds_bind; [by apply check_load_invoc_alive|intros c2 H2].
  cbn [outcome_holds]. alive_same.
Qed.

Lemma call_native_alive f n u c :
  (n <= 29)%nat -> alive c -> outcome_holds alive (call_native execute f n u c).
Proof using DL HX HW.
  intros Hn Hc. unfold call_native.
  eapply outcome_holds_bind.
  - apply outcome_holds_and.
    + apply (native_frame execute f (read_gprs 3 n c) c HX (proj2 Hc)).
    + apply (native_wf execute f (read_gprs 3 n c) c HX HW); [apply read_gprs_wf; [apply Hc|lia..]|apply Hc..].
  - intros [v c1] [H1 H2]. assert (alive c1).
    { split; [done|]. rewrite (in_frame_depth _ _ H1). apply Hc. }
    destruct u; cbn [outcome_holds]; [done|alive_same..].
Qed.

Lemma MakeExecutable_alive start n c : alive c -> alive (MakeExecutable start n c).
Proof using.
  intros [Hc Hd]. unfold MakeExecutable, FlushCodeCache. destruct (_ && _); [done|].
  split; [by apply invalidate_cache_range_wf|done].
Qed.

Lemma execute_native_op_alive selector c :
  alive c -> outcome_holds alive (execute_native_op execute selector c).
Proof using DL HX HW.
  intros Hc. unfold execute_native_op.
  destruct (selector_of selector) as [[]|]; try exact I; try (apply call_native_alive; [lia|done]);
    try (eapply outcome_holds_bind; [apply ReadMacInt32_range, Hc|intros v Hv; by apply get_resource_alive]).
  - by apply MakeExecutable_alive.
  - by apply check_load_invoc_alive.
  - by apply named_check_load_invoc_alive.
Qed.

Lemma DisableInterrupt_alive c : alive c -> outcome_holds alive (DisableInterrupt c).
Proof using.
  intros Hc. unfold DisableInterrupt. apply read_holds. intros n. by apply WriteMacInt32_alive.
Qed.

Lemma build_irq_proc_alive c :
  alive c -> outcome_holds (fun '(p, c') => is_uint 32 p /\ alive c') (build_irq_proc c).
Proof using.
  intros [Hc Hd]. unfold build_irq_proc. cbn zeta. destruct (_ =? 0).
  - generalize proc_template. intros l. unfold SheepProc, SheepMem.ReserveProc. cbn zeta. destruct (_ <? _); [|exact I].
    cbn [mbind outcome_bind]. unfold Host2Mac_memcpy, cpu_write.
    match goal with |- context [memcpy ?a ?l ?m] => pose proof (memcpy_wf l a m (cpu_mem_wf _ Hc)) as H;
      destruct (memcpy a l m) as [m'| | | |]; try exact I end.
    cbn [outcome_holds mbind outcome_bind]. split; [apply trunc_range; lia|].
    split; [|exact Hd]. split; [apply Hc|exact H].
  - split; [apply trunc_range; lia|by split].
Qed.

Lemma HandleInterrupt_alive r c :
  alive c ->
  outcome_holds (fun '(r', c') => (regs_wf r -> regs_wf r') /\ alive c') (HandleInterrupt execute r c).
Proof using DL HX HW.
  intros Hc. unfold HandleInterrupt, read_kernel_data.
  apply read_holds. intros nest. destruct (_ <? _); [done|].
  apply read_holds. intros mode. destruct (_ =? _).
  - alive_steps. cbn [outcome_holds]. split; [|done]. intros [? ? ? ?]. split; cbn; auto with word.
  - destruct (_ =? _); [destruct (negb _); [|done]|].
    + alive_steps. eapply outcome_holds_bind; [by apply DisableInterrupt_alive|intros c1 H1'].
      eapply outcome_holds_bind; [apply interrupt_alive; [apply trunc_range; lia|done]|intros c2 H2']. done.
    + destruct (_ =? _); [|done]. apply read_holds. intros level. destruct (_ =? 0); [|done].
      alive_steps. eapply outcome_holds_bind; [by apply build_irq_proc_alive|intros [p c1] [Hp H1']].
      eapply outcome_holds_bind.
      * apply execute_68k_alive; [done| |done]. pose proof host_uninit_range.
        split_and!; cbn; try done; repeat constructor; apply host_uninit_range.
      * intros [r' c2] [_ H2']. alive_steps. done.
Qed.
End WF.

Section Knot.
Context {FPU : HostFPU} {DEV : Devices} {DL : DeviceLaws DEV} {DEC : CpuDecoder}.

(** The code around the CPU promises what the emulation loops ask for. *)
Lemma host_frame execute : exec_frame execute -> HostFrame (host_of execute).
Proof using DL.
  intros HX. split.
  - intros r pc68 op c Hd. by apply emul_op_routine_frame.
  - intros op c Hd. by apply execute_native_op_in_frame; [..|apply in_frame_refl].
  - intros r c Hd. by apply HandleInterrupt_in_frame; [..|apply in_frame_refl].
Qed.

Lemma run_frame nest fuel : exec_frame (run nest fuel).
Proof using DL.
  induction nest as [|nest IH]; intros entry c Hd; [exact I|]. cbn [run].
  exact (execute_nested_frame (HF := host_frame _ IH) fuel entry c Hd).
Qed.

Lemma host_laws execute : exec_frame execute -> exec_wf execute -> HostLaws (host_of execute).
Proof using DL.
  intros HX HW. split.
  - apply machine_PVR_range.
  - apply machine_TimebaseSpeed_range.
  - apply host_usec_range.
  - apply host_uninit_range.
  - apply host_uninit_registers_wf.
  - intros r pc68 op c Hr Hc Hd. by apply emul_op_routine_wf.
  - intros op c Hc Hd.
    eapply outcome_holds_weaken; [by apply execute_native_op_alive|by intros c' []].
  - intros r c Hc Hd.
    eapply outcome_holds_weaken; [by apply HandleInterrupt_alive|intros [r' c'] (? & ? & ?)]. done.
Qed.

Lemma run_wf nest fuel : HostFPULaws FPU -> exec_wf (run nest fuel).
Proof using DL.
  intros FL. induction nest as [|nest IH]; intros entry c He Hc Hd; [exact I|]. cbn [run].
  exact (execute_nested_wf (HF := host_frame _ (run_frame nest fuel))
    (HL := host_laws _ (run_frame nest fuel) IH) fuel entry c Hc Hd He).
Qed.
End Knot.
