(* ===== verification/BlockSpec.v ===== *)
(** Predecoded blocks against the plain interpreter: running a block of the
    decode cache and looking at the special flags once does what one turn of
    [do_interpret] per instruction does. *)
From S2P Require Import Prelude Bitfields Registers HostFPU Operations Memory Handlers BlockCache Cpu Operands ExecInt ExecMem ExecSys Dispatch DecodeTable Decode Interp Frame InterpSpec PredecodeSpec.

Section Refine.
Context {FPU : HostFPU} {HOST : Host} {DEC : CpuDecoder}.
Context (Hignore : ignoreillegal = false).

(** ** One turn of the interpreter *)

(** The instruction at [pc], without looking at the flags. *)
Definition interp_insn (c : powerpc_cpu) : outcome powerpc_cpu :=
  opcode ← vm_read_memory_4 (mem c) (pc c);
  match cpu_decode opcode with
  | None => Abort
  | Some ii => run_handler (ii_execute ii) opcode c
  end.

(** What both loops do when special flags may be set. *)
Definition poll (c : powerpc_cpu) : outcome (bool * powerpc_cpu) :=
  if spcflags_empty (spcflags c) then Ok (true, c) else check_spcflags c.

Lemma interp_step_poll c : interp_step c = (c ← interp_insn c; poll c).
Proof using.
  unfold interp_step, interp_insn. rewrite bind_assoc. apply bind_ext. intros opcode.
  by destruct (cpu_decode opcode).
Qed.

(** The next [n] instructions from address [a] on are, when they are reached,
    the words that [m] holds, and none but the last raises a flag. *)
Fixpoint undisturbed (m : memory) (n : nat) (a : Z) (c : powerpc_cpu) : Prop :=
  match n with
  | O => True
  | S n =>
      vm_read_memory_4 (mem c) a = vm_read_memory_4 m a /\
      match interp_insn c with
      | Ok c' => (n = O \/ spcflags_empty (spcflags c') = true) /\ undisturbed m n (u32 (a + 4)) c'
      | _ => True
      end
  end.

(** ** Instructions inside a block *)

Lemma execute_syscall_next p k op c :
  at_pc p k c -> outcome_holds (at_pc (u32 (p + 4)) k) (execute_syscall op c).
Proof using Hignore. intros _. unfold execute_syscall, execute_illegal. by rewrite Hignore. Qed.

Lemma execute_mftbr_next TBR p k op c :
  at_pc p k c -> outcome_holds (at_pc (u32 (p + 4)) k) (execute_mftbr TBR op c).
Proof using Hignore.
  intros Hc. unfold execute_mftbr. cbn zeta.
  apply (outcome_holds_bind (fun '(_, c') => at_pc p k c')).
  - destruct (_ =? 268); [exact Hc|]. destruct (_ =? 269); [exact Hc|].
    unfold execute_illegal. by rewrite Hignore.
  - intros [d c'] Hc'. at_steps.
Qed.

(** An instruction that does not end a block continues at the next word and
    leaves the state of the loops alone. *)
Lemma inside_block_next ii op p k c :
  opcode_ok ii = true -> (Z.land (ii_cflow ii) CFLOW_END_BLOCK =? 0) = true -> at_pc p k c ->
  outcome_holds (at_pc (u32 (p + 4)) k) (run_handler (ii_execute ii) op c).
Proof using Hignore.
  intros Hok Hend Hc. unfold opcode_ok in Hok. rewrite Hend, orb_false_r in Hok.
  apply andb_prop in Hok as [_ [Hf|Hs]%orb_prop]; [by apply run_handler_next|].
  destruct (ii_execute ii); try discriminate Hs; cbn [run_handler].
  - by apply execute_syscall_next.
  - by apply execute_mftbr_next.
Qed.

Lemma block_code_tail m p t di n last :
  block_code m p t di (Z.of_nat (S n)) last -> block_code m (u32 (p + 4)) t (di + 1) (Z.of_nat n) last.
Proof using.
  intros H i Hi. specialize (H (i + 1) ltac:(lia)).
  rewrite trunc_add_l. replace (p + 4 + 4 * i) with (p + 4 * (i + 1)) by lia.
  replace (di + 1 + i) with (di + (i + 1)) by lia.
  replace (i =? Z.of_nat n - 1) with (i + 1 =? Z.of_nat (S n) - 1); [done|].
  destruct (Z.eqb_spec (i + 1) (Z.of_nat (S n) - 1)), (Z.eqb_spec i (Z.of_nat n - 1)); lia.
Qed.

(** The first entry of a block does what the interpreter does. *)
Lemma run_entry_insn m di n c :
  is_uint 32 (pc c) -> block_code m (pc c) (decode_cache c) di (Z.of_nat (S n)) true ->
  vm_read_memory_4 (mem c) (pc c) = vm_read_memory_4 m (pc c) ->
  exists opcode ii, cpu_decode opcode = Some ii /\ vm_read_memory_4 m (pc c) = Ok opcode /\
    run_entry di c = run_handler (ii_execute ii) opcode c /\
    interp_insn c = run_handler (ii_execute ii) opcode c /\
    (Z.land (ii_cflow ii) CFLOW_END_BLOCK =? 0) = negb (Nat.eqb n 0).
Proof using.
  intros Hpc Hcode Hread. destruct (Hcode 0 ltac:(lia)) as (opcode & ii & Hr & Hd & He & Hend).
  rewrite Z.mul_0_r, Z.add_0_r, trunc_small in Hr by done. rewrite Z.add_0_r in He.
  exists opcode, ii. split_and!; try done.
  - unfold run_entry. by rewrite He.
  - unfold interp_insn. rewrite Hread, Hr. cbn [mbind outcome_bind]. by rewrite Hd.
  - rewrite Hend. cbn [andb]. f_equal.
    destruct (Z.eqb_spec 0 (Z.of_nat (S n) - 1)), (Nat.eqb_spec n 0); (done || lia).
Qed.

Lemma entries_refine m n : mem_wf m -> forall fuel di c,
  is_uint 32 (pc c) -> block_code m (pc c) (decode_cache c) di (Z.of_nat (S n)) true ->
  undisturbed m (S n) (pc c) c ->
  do_interpret (S n + fuel) c =
    (c' ← foldM run_entry (range di (S n)) c;
     '(continue, c') ← poll c';
     if (continue : bool) then do_interpret fuel c' else Ok c').
Proof using Hignore.
  intros Hm. induction n as [|n IH]; intros fuel di c Hpc Hcode Hun;
    destruct Hun as [Hread Hun];
    destruct (run_entry_insn m di _ c Hpc Hcode Hread) as (opcode & ii & Hd & Hr & He & Hi & Hend).
  - cbn [do_interpret Nat.add range foldM]. rewrite interp_step_poll, He, Hi, !bind_assoc.
    apply bind_ext. intros c'. cbn [mbind outcome_bind]. done.
  - cbn [Nat.add]. cbn [do_interpret]. change (range di (S (S n))) with (di :: range (di + 1) (S n)).
    cbn [foldM]. rewrite interp_step_poll, He, Hi, !bind_assoc in *.
    assert (Hok : opcode_ok ii = true).
    { apply (cpu_decode_ok opcode); [|done].
      pose proof (vm_read_memory_4_range m (pc c) Hm) as H4. by rewrite Hr in H4. }
    pose proof (inside_block_next ii opcode (pc c) (frame_of c) c Hok Hend (at_pc_self c)) as Hnext.
    destruct (run_handler (ii_execute ii) opcode c) as [c'| | | |]; try done.
    cbn [mbind outcome_bind outcome_holds] in *. destruct Hnext as [Hpc' Hk].
    destruct Hun as [[?|Hflags] Hun]; [done|].
    unfold poll at 1. rewrite Hflags. cbn [mbind outcome_bind].
    apply IH.
    + rewrite Hpc'. apply trunc_range. lia.
    + rewrite Hpc'. rewrite (proj1 Hk).
      by apply block_code_tail.
    + by rewrite Hpc'.
Qed.

End Refine.

(** C8: A predecoded block refines the interpreter, when illegal instructions
    are not ignored ([ignoreillegal = false], the default of the preference; when
    they are, [sc] skips the instruction that follows it and the property fails).
    Running the [n] entries of a block and then looking at the special flags
    once is running [n] turns of the plain interpreter, which looks at them
    after every instruction, as long as the block's words in memory are still
    the ones that were decoded when they are reached and no instruction before
    the last raises a flag.  The program counter is never read inside a block,
    so this also says that every instruction but the last of a block continues
    at the next word. *)
Theorem block_refines_interpreter {FPU : HostFPU} {HOST : Host} {DEC : CpuDecoder} m di n fuel c :
  ignoreillegal = false ->
  mem_wf m -> is_uint 32 (pc c) -> 1 <= n ->
  block_code m (pc c) (decode_cache c) di n true ->
  undisturbed m (Z.to_nat n) (pc c) c ->
  do_interpret (Z.to_nat n + fuel) c =
    (c' ← run_block di n c;
     '(continue, c') ← poll c';
     if (continue : bool) then do_interpret fuel c' else Ok c').
Proof.
  intros Hignore Hm Hpc Hn Hcode Hun. rewrite run_block_entries by done.
  replace (Z.to_nat n) with (S (Z.to_nat (n - 1))) in * by lia.
  apply (entries_refine Hignore m); try done.
  replace (Z.of_nat (S (Z.to_nat (n - 1)))) with n by lia. done.
Qed.

Lemma block_refines_interpreter_witness :
  do_interpret (FPU := null_fpu) (HOST := null_host) (DEC := built_decoder) 5 sample_block =
    (c' ← run_block (FPU := null_fpu) (HOST := null_host) 0 3 sample_block;
     '(continue, c') ← poll (HOST := null_host) c';
     if (continue : bool)
     then do_interpret (FPU := null_fpu) (HOST := null_host) (DEC := built_decoder) 2 c'
     else Ok c').
Proof.
  apply (block_refines_interpreter (FPU := null_fpu) (HOST := null_host) (DEC := built_decoder)
    sample_program 0 3 2 sample_block eq_refl sample_program_wf).
  - vm_compute. split; [discriminate|reflexivity].
  - discriminate.
  - intros i Hi. assert (i = 0 \/ i = 1 \/ i = 2) as [-> |[-> | ->]] by lia.
    all: eexists _, _; split; [vm_compute; reflexivity|split; [vm_compute; reflexivity|]];
      split; [vm_compute; reflexivity|reflexivity].
  - cbn [undisturbed Z.to_nat Pos.to_nat Pos.iter_op Nat.add].
    vm_compute. intuition.
Defined.
