(* ===== verification/MachineSpec.v ===== *)
(** Properties of the whole machine: the CPU with the code around it, for any
    depth of nested calls of [execute] (Glue.v). *)
From S2P Require Import Prelude Bitfields Registers HostFPU Operations Memory Handlers BlockCache Cpu Operands ExecInt ExecMem ExecSys Dispatch DecodeTable Decode Interp Frame InterpSpec PredecodeSpec CacheSpec Thunks Glue GlueSpec.

(** Devices on which the external routines do nothing. *)
Definition null_devices : Devices := {|
  pref_ignoreillegal := false; machine_PVR := 0x000c0000; machine_TimebaseSpeed := 25000000;
  host_usec n := u64 n; host_uninit := 0; host_uninit_registers := zero_registers;
  ROMBase := 0x40800000; ROMTYPE_NEWWORLD := true; SignalStackBase := 0x68ff0000;
  emul_op_routine _ r _ _ c := Ok (r, c);
  native _ _ _ c := Ok (0, c);
  CheckLoad _ _ _ _ c := Ok c;
  NamedCheckLoad _ _ _ _ c := Ok c;
|}.

#[export] Instance null_devices_laws : DeviceLaws null_devices.
Proof.
  split; intros; cbn [null_devices machine_PVR machine_TimebaseSpeed host_usec host_uninit
    host_uninit_registers emul_op_routine native CheckLoad NamedCheckLoad outcome_holds];
    auto using in_frame_refl; try (split; [discriminate|reflexivity]).
  - apply trunc_range. lia.
  - exact (proj1 (cpu_init_wf ∅ ltac:(done))).
Qed.

Section Machine.
Context {FPU : HostFPU} {FL : HostFPULaws FPU} {DEV : Devices} {DL : DeviceLaws DEV} {DEC : CpuDecoder}.

(** C1: The whole machine is safe.  Emulated code that calls Mac OS, 68k and
    native routines that call emulated code again, to any depth of nesting:
    if [emul_ppc] returns, every register and every byte of memory holds a
    value of its type, the caches are coherent and only hold handlers of the
    decode table, and the nesting depth is what it was. *)
Theorem emul_ppc_safe nest fuel entry c :
  machine_wf cache_ok c -> coherent c -> 0 <= execute_depth c -> is_uint 32 entry ->
  outcome_holds (fun c' => machine_wf cache_ok c' /\ coherent c' /\ execute_depth c' = execute_depth c)
    (emul_ppc nest fuel entry c).
Proof using FL DL.
  intros Hc Hco Hd He. unfold emul_ppc. destruct nest as [|nest]; [exact I|]. cbn [run].
  pose proof (run_frame nest fuel) as HX. pose proof (run_wf nest fuel FL) as HW.
  pose proof (execute_safe (HF := host_frame _ HX) (HL := host_laws _ HX HW) fuel entry c Hc Hd He) as H1.
  pose proof (execute_coherent (HF := host_frame _ HX) fuel entry c Hco Hd) as H2.
  destruct (Interp.execute _ _ _); try exact I. by destruct H1.
Qed.
End Machine.

(** The area shared with Mac OS, and a Mac OS routine [GetResource] that native
    code calls: load 42 and return to the trampoline; the program calls the
    native [GetResource], adds 1 and returns. *)
Definition resource_program : memory :=
  bytes_at 0x1000 [0x48; 0; 0; 0x11; 0x38; 0x63; 0; 1; 0x18; 0; 0; 1; 0; 0; 0; 0; 0x18; 0; 0x15; 0x82] ∪
  bytes_at 0x2000 [0x38; 0x60; 0; 42; 0x4e; 0x80; 0; 0x20] ∪
  bytes_at XLM_GET_RESOURCE [0; 0; 0x20; 0] ∪
  bytes_at 42 (replicate 4 0) ∪
  bytes_at (SheepMem.base + SheepMem.size - 4) (replicate 4 0).

Definition resource_machine : powerpc_cpu := SheepMem.Init (cpu_init resource_program).

Definition result_of {A} (f : powerpc_cpu -> A) (m : outcome powerpc_cpu) : option A :=
  match m with Ok c => Some (f c) | _ => None end.

Lemma resource_program_wf : mem_wf resource_program.
Proof. apply (bool_decide_unpack _). vm_compute. exact I. Qed.

Lemma Init_machine_wf Q c : machine_wf Q c -> machine_wf Q (SheepMem.Init c).
Proof. intros H. exact H. Qed.
Lemma Init_coherent c : coherent c -> coherent (SheepMem.Init c).
Proof. intros H. exact H. Qed.

Lemma resource_machine_wf : machine_wf cache_ok resource_machine.
Proof. unfold resource_machine. apply Init_machine_wf, cpu_init_machine_wf, resource_program_wf. Qed.
Lemma resource_machine_coherent : coherent resource_machine.
Proof. unfold resource_machine. apply Init_coherent, cpu_init_coherent. Qed.
Lemma resource_machine_depth : 0 <= execute_depth resource_machine.
Proof. vm_compute. discriminate. Qed.

Lemma result_of_Ok {A} (f : powerpc_cpu -> A) m a : result_of f m = Some a -> exists c, m = Ok c /\ f c = a.
Proof. destruct m as [c| | | |]; try discriminate. cbn. intros [= <-]. by exists c. Qed.

Lemma emul_ppc_safe_witness : exists c',
  emul_ppc (FPU := null_fpu) (DEV := null_devices) (DEC := built_decoder) 3 9 0x1000 resource_machine = Ok c' /\
  gpr c' 3 = 43 /\ machine_wf cache_ok c' /\ coherent c' /\ execute_depth c' = execute_depth resource_machine.
Proof.
  destruct (result_of_Ok (fun c => gpr c 3) (emul_ppc (FPU := null_fpu) (DEV := null_devices)
    (DEC := built_decoder) 3 9 0x1000 resource_machine) 43) as (c' & E & H3).
  { vm_compute. reflexivity. }
  exists c'. split; [exact E|]. split; [exact H3|].
  pose proof (emul_ppc_safe (FPU := null_fpu) (FL := null_fpu_laws) (DEV := null_devices)
    (DEC := built_decoder) 3 9 0x1000 resource_machine resource_machine_wf resource_machine_coherent
    resource_machine_depth (bool_decide_unpack (is_uint 32 0x1000) I)) as H.
  rewrite E in H. exact H.
Defined.
