(* ===== verification/CallSpec.v ===== *)
(** Properties of the calls between emulated code, Mac OS, 68k code and native
    routines (Glue.v, Thunks.v), and of interrupts: what each of them restores,
    and that fake opcodes reach the routine they stand for. *)
From S2P Require Import Prelude Bitfields Registers HostFPU Operations Memory Handlers BlockCache Cpu Operands ExecInt ExecMem ExecSys Dispatch DecodeTable Decode Interp Frame InterpSpec PredecodeSpec CacheSpec Thunks Glue GlueSpec MachineSpec.

(** ** The copy of the registers that an interrupt saves *)

Lemma copy_files_lookup ig jf n : forall og of_ i,
  (n <= length og)%nat -> (n <= length of_)%nat -> 0 <= i ->
  let '(g, f) := foldl (fun '(og, of_) i => (Zinsert i (Zlookup ig i) og, Zinsert i (Zlookup jf i) of_))
    (og, of_) (count_up n) in
  length g = length og /\ length f = length of_ /\
  Zlookup g i = (if i <? Z.of_nat n then Zlookup ig i else Zlookup og i) /\
  Zlookup f i = (if i <? Z.of_nat n then Zlookup jf i else Zlookup of_ i).
Proof.
  induction n as [|n IH]; intros og of_ i Hg Hf Hi.
  { unfold count_up. cbn [seq fmap list_fmap foldl]. by destruct (Z.ltb_spec i (Z.of_nat 0)); [lia|]. }
  specialize (IH og of_ i ltac:(lia) ltac:(lia) Hi). revert IH.
  unfold count_up. rewrite seq_S, fmap_app, foldl_app. cbn [fmap list_fmap foldl].
  destruct (foldl _ _ _) as [g f]. intros (Lg & Lf & Eg & Ef). rewrite !length_Zinsert.
  split_and!; [done|done|..];
    (destruct (decide (i = Z.of_nat n)) as [->|Hne];
     [rewrite Zlookup_insert_eq by lia; by destruct (Z.ltb_spec (Z.of_nat n) (Z.of_nat (S n))); [|lia]
     |rewrite Zlookup_insert_ne by lia]).
  - rewrite Eg. by destruct (Z.ltb_spec i (Z.of_nat n)), (Z.ltb_spec i (Z.of_nat (S n))); try lia.
  - rewrite Ef. by destruct (Z.ltb_spec i (Z.of_nat n)), (Z.ltb_spec i (Z.of_nat (S n))); try lia.
Qed.

Lemma Zb_testbit v : Zb (Z.land v 1) = Z.testbit v 0.
Proof.
  rewrite Z.bit0_odd. change 1 with (Z.ones 1). rewrite Z.land_ones by lia. change (2 ^ 1) with 2.
  rewrite Zmod_odd. by destruct (Z.odd v).
Qed.

(** Bit [31 - i] of VRSAVE selects vector register [i]. *)
Lemma copy_vrs_lookup ivr n : forall v ovr i,
  (n <= length ovr)%nat -> 0 <= i ->
  Zlookup (copy_vrs n v ovr ivr) i =
    if (i <? Z.of_nat n) && Z.testbit v (Z.of_nat n - 1 - i) then Zlookup ivr i else Zlookup ovr i.
Proof.
  induction n as [|n IH]; intros v ovr i Hn Hi; cbn [copy_vrs].
  { by destruct (Z.ltb_spec i (Z.of_nat 0)); [lia|]. }
  rewrite IH by (try destruct (Zb _); rewrite ?length_Zinsert; lia). rewrite Zb_testbit.
  destruct (Z.ltb_spec i (Z.of_nat n)) as [Hlt|Hge], (Z.ltb_spec i (Z.of_nat (S n))); try lia; cbn [andb].
  - rewrite Z.shiftr_spec by lia.
    replace (Z.of_nat n - 1 - i + 1) with (Z.of_nat (S n) - 1 - i) by lia.
    destruct (Z.testbit v (Z.of_nat (S n) - 1 - i)); [done|].
    destruct (Z.testbit v 0); [|done]. by rewrite Zlookup_insert_ne by lia.
  - assert (i = Z.of_nat n) as -> by lia. replace (Z.of_nat (S n) - 1 - Z.of_nat n) with 0 by lia.
    destruct (Z.testbit v 0); [|done]. by rewrite Zlookup_insert_eq by lia.
  - destruct (Z.testbit v 0); [|done]. by rewrite Zlookup_insert_ne by lia.
Qed.

(** What [interrupt_copy] copies of the registers. *)
Definition same_saved (r r' : registers) : Prop :=
  (forall i, 0 <= i <= 31 -> Zlookup (r_gpr r') i = Zlookup (r_gpr r) i /\
     Zlookup (r_fpr r') i = Zlookup (r_fpr r) i /\
     (Z.testbit (r_vrsave r) (31 - i) = true -> Zlookup (r_vr r') i = Zlookup (r_vr r) i)) /\
  r_xer r' = r_xer r /\ r_vrsave r' = r_vrsave r /\ r_fpscr r' = r_fpscr r /\
  r_lr r' = r_lr r /\ r_ctr r' = r_ctr r /\ r_pc r' = r_pc r.

Lemma same_saved_trans a b c : same_saved a b -> same_saved b c -> same_saved a c.
Proof.
  intros [Hab (E1 & E2 & E3 & E4 & E5 & E6)] [Hbc (F1 & F2 & F3 & F4 & F5 & F6)].
  split; [|split_and!; congruence]. intros i Hi.
  destruct (Hab i Hi) as (G1 & G2 & G3), (Hbc i Hi) as (J1 & J2 & J3).
  split_and!; [congruence..|]. intros Hb. rewrite J3 by (by rewrite E2). by apply G3.
Qed.

Lemma interrupt_copy_saved o i :
  regs_wf o -> same_saved i (interrupt_copy o i) /\ r_cr (interrupt_copy o i) = r_cr i.
Proof.
  intros [[Hg _] [Hf _] [Hv _]]. unfold interrupt_copy.
  assert (H : forall j, 0 <= j <= 31 -> let '(g, f) := foldl (fun '(og, of_) i0 =>
    (Zinsert i0 (Zlookup (r_gpr i) i0) og, Zinsert i0 (Zlookup (r_fpr i) i0) of_))
    (r_gpr o, r_fpr o) (count_up 32) in Zlookup g j = Zlookup (r_gpr i) j /\ Zlookup f j = Zlookup (r_fpr i) j).
  { intros j Hj. pose proof (copy_files_lookup (r_gpr i) (r_fpr i) 32 (r_gpr o) (r_fpr o) j) as H.
    destruct (foldl _ _ _). destruct H as (_ & _ & -> & ->); [lia..|].
    change (Z.of_nat 32) with 32. by destruct (Z.ltb_spec j 32); [|lia]. }
  destruct (foldl _ _ _) as [g f]. split; [|done]. split; [|done].
  intros j Hj. cbn [r_gpr r_fpr r_vr]. destruct (H j Hj) as [-> ->]. split_and!; [done..|]. intros Hb.
  destruct (Zb (r_vrsave i)) eqn:E.
  - rewrite copy_vrs_lookup by lia. change (Z.of_nat 32 - 1) with 31. rewrite Hb.
    change (Z.of_nat 32) with 32. by destruct (Z.ltb_spec j 32); [|lia].
  - unfold Zb in E. apply negb_false_iff, Z.eqb_eq in E. rewrite E, Z.testbit_0_l in Hb. done.
Qed.

(** What [interrupt_copy] leaves as the other copy had it. *)
Definition not_saved (r o r' : registers) : Prop :=
  (forall i, 0 <= i <= 31 -> Z.testbit (r_vrsave r) (31 - i) = false ->
     Zlookup (r_vr r') i = Zlookup (r_vr o) i) /\
  r_vscr r' = r_vscr o /\ r_reserve_valid r' = r_reserve_valid o /\
  r_reserve_addr r' = r_reserve_addr o.

Lemma interrupt_copy_not_saved o i : regs_wf o -> not_saved i o (interrupt_copy o i).
Proof.
  intros [_ _ [Hv _]]. unfold interrupt_copy. destruct (foldl _ _ _) as [g f]. split; [|done].
  intros j Hj Hb. cbn [r_vr]. destruct (Zb (r_vrsave i)); [|done].
  rewrite copy_vrs_lookup by lia. change (Z.of_nat 32 - 1) with 31. by rewrite Hb, andb_false_r.
Qed.

(** ** Saved registers and memory *)

Lemma outcome_holds_Ok {A} (P : A -> Prop) m a : outcome_holds P m -> m = Ok a -> P a.
Proof. by intros H ->. Qed.

(** One step of a computation, with the equation of its result. *)
Lemma outcome_step {A B} (P : B -> Prop) (f : A -> outcome B) m :
  (forall a, m = Ok a -> outcome_holds P (f a)) -> outcome_holds P (mbind f m).
Proof. intros H. destruct m; try exact I. by apply H. Qed.

Lemma Zlookup_count_up n (f : Z -> Z) i : 0 <= i < Z.of_nat n -> Zlookup (f <$> count_up n) i = f i.
Proof.
  intros Hi. unfold Zlookup, count_up. apply list_lookup_total_correct.
  rewrite !list_lookup_fmap, lookup_seq_lt by lia. cbn. do 2 f_equal. lia.
Qed.

Lemma load_fprs_S base n l c :
  load_fprs base (S n) l c = set_fpr_dw (base + Z.of_nat n) (Zlookup l (Z.of_nat n)) (load_fprs base n l c).
Proof. unfold load_fprs, count_up. by rewrite seq_S, fmap_app, foldl_app. Qed.

Lemma load_fprs_fpr base n l c i :
  length (r_fpr (regs c)) = 32%nat -> 0 <= base -> base + Z.of_nat n <= 32 -> 0 <= i ->
  length (r_fpr (regs (load_fprs base n l c))) = 32%nat /\
  fpr_dw (load_fprs base n l c) i =
    if (base <=? i) && (i <? base + Z.of_nat n) then Zlookup l (i - base) else fpr_dw c i.
Proof.
  intros Hc Hb. revert i. induction n as [|n IH]; intros i Hn Hi.
  { split; [done|]. destruct (Z.leb_spec base i), (Z.ltb_spec i (base + Z.of_nat 0)); done || lia. }
  rewrite load_fprs_S. destruct (IH i) as [Hl Hg]; [lia..|]. split.
  { simpl_cpu. by rewrite length_Zinsert. }
  unfold fpr_dw at 1. cbn [set_fpr_dw with_regs regs r_fpr].
  destruct (decide (i = base + Z.of_nat n)) as [->|Hne].
  - rewrite Zlookup_insert_eq by lia.
    destruct (Z.leb_spec base (base + Z.of_nat n)); [|lia].
    destruct (Z.ltb_spec (base + Z.of_nat n) (base + Z.of_nat (S n))); [|lia]. cbn. f_equal. lia.
  - rewrite Zlookup_insert_ne by lia. fold (fpr_dw (load_fprs base n l c) i). rewrite Hg.
    destruct (Z.ltb_spec i (base + Z.of_nat n)), (Z.ltb_spec i (base + Z.of_nat (S n))); done || lia.
Qed.

(** Loading back what [read_gprs] and [read_fprs] saved. *)
Lemma restore_gprs base n c0 c i :
  cpu_wf c -> 0 <= base -> base + Z.of_nat n <= 32 -> 0 <= i <= 31 ->
  gpr (load_gprs base n (read_gprs base n c0) c) i =
    if (base <=? i) && (i <? base + Z.of_nat n) then gpr c0 i else gpr c i.
Proof.
  intros [[[Hl _]] _] Hb Hn Hi. destruct (load_gprs_gpr base n (read_gprs base n c0) c i) as [_ ->]; [lia..|].
  destruct (Z.leb_spec base i), (Z.ltb_spec i (base + Z.of_nat n)); cbn [andb]; try done.
  unfold read_gprs. rewrite Zlookup_count_up by lia. f_equal. lia.
Qed.
Lemma restore_fprs base n c0 c i :
  length (r_fpr (regs c)) = 32%nat -> 0 <= base -> base + Z.of_nat n <= 32 -> 0 <= i ->
  fpr_dw (load_fprs base n (read_fprs base n c0) c) i =
    if (base <=? i) && (i <? base + Z.of_nat n) then fpr_dw c0 i else fpr_dw c i.
Proof.
  intros Hl Hb Hn Hi. destruct (load_fprs_fpr base n (read_fprs base n c0) c i) as [_ ->]; [lia..|].
  destruct (Z.leb_spec base i), (Z.ltb_spec i (base + Z.of_nat n)); cbn [andb]; try done.
  unfold read_fprs. rewrite Zlookup_count_up by lia. f_equal. lia.
Qed.

Lemma WriteMacInt32_Ok a v c c' :
  mem_wf (mem c) -> WriteMacInt32 a v c = Ok c' ->
  mem_wf (mem c') /\ (exists m, c' = set_mem m c) /\ ReadMacInt32 a c' = Ok (u32 v) /\
  forall b, b + 4 <= a \/ a + 4 <= b -> ReadMacInt32 b c' = ReadMacInt32 b c.
Proof.
  intros Hc. rewrite WriteMacInt32_be. intros (m & Hm & [= <-])%outcome_bind_Ok.
  pose proof (store_be_wf 4 a v _ Hc) as Hw. rewrite Hm in Hw.
  split; [done|]. split; [by eexists|].
  unfold ReadMacInt32, vm_read_memory_4, vm_do_get_real_address. cbn [set_mem mem].
  rewrite vm_do_read_memory_4_be by done. rewrite (load_store_be 4 _ _ _ _ Hm). split; [done|].
  intros b Hb. rewrite !vm_do_read_memory_4_be by done.
  by apply (load_be_frame 4 4 a b v).
Qed.

(** Reading one general register after a chain of writes. *)
Definition gprs32 (c : powerpc_cpu) : Prop := length (r_gpr (regs c)) = 32%nat.
Lemma gprs32_set i v c : gprs32 c -> gprs32 (set_gpr i v c).
Proof. unfold gprs32. cbn. by rewrite length_Zinsert. Qed.
Lemma gpr_set_eq i v c : gprs32 c -> 0 <= i <= 31 -> gpr (set_gpr i v c) i = v.
Proof. unfold gprs32. intros. apply Zlookup_insert_eq. lia. Qed.
Lemma gpr_set_ne i j v c : 0 <= i -> 0 <= j -> i <> j -> gpr (set_gpr i v c) j = gpr c j.
Proof. intros. by apply Zlookup_insert_ne. Qed.
Lemma gpr_set_mem m c i : gpr (set_mem m c) i = gpr c i.
Proof. done. Qed.

Ltac gprs := repeat match goal with
  | |- gprs32 (set_gpr _ _ _) => apply gprs32_set
  | |- gprs32 (set_mem ?m ?c) => change (gprs32 c)
  end; assumption.
Ltac gpr_simp := repeat first
  [ rewrite gpr_set_mem | rewrite gpr_set_ne by lia | rewrite gpr_set_eq by (gprs || lia) ].

(** What [execute_68k] restores from [c0]. *)
Lemma restored_68k c0 c :
  cpu_wf c ->
  let y := load_fprs 14 18 (read_fprs 14 18 c0) (load_gprs 13 19 (read_gprs 13 19 c0) c) in
  mem y = mem c /\ gprs32 y /\ gpr y 1 = gpr c 1 /\
  (forall i, 13 <= i <= 31 -> gpr y i = gpr c0 i) /\ (forall i, 14 <= i <= 31 -> fpr_dw y i = fpr_dw c0 i).
Proof.
  intros Hc y. set (x := load_gprs 13 19 (read_gprs 13 19 c0) c) in *.
  assert (Hg : forall i, gpr y i = gpr x i).
  { intros i. unfold y. destruct (load_fprs_frame 14 18 (read_fprs 14 18 c0) x) as [f ->]. done. }
  assert (Hx : gprs32 x).
  { apply (load_gprs_gpr 13 19 (read_gprs 13 19 c0) c 0); try lia. apply Hc. }
  assert (Hxm : mem x = mem c).
  { unfold x. destruct (load_gprs_frame 13 19 (read_gprs 13 19 c0) c) as [g ->]. done. }
  assert (Hxf : length (r_fpr (regs x)) = 32%nat).
  { unfold x. destruct (load_gprs_frame 13 19 (read_gprs 13 19 c0) c) as [g ->]. apply Hc. }
  split_and!.
  - rewrite <- Hxm. unfold y. destruct (load_fprs_frame 14 18 (read_fprs 14 18 c0) x) as [f ->]. done.
  - unfold y, gprs32. destruct (load_fprs_frame 14 18 (read_fprs 14 18 c0) x) as [f ->]. exact Hx.
  - rewrite Hg. unfold x. by rewrite restore_gprs by (done || lia).
  - intros i Hi. rewrite Hg. unfold x. rewrite restore_gprs by (done || lia).
    destruct (Z.leb_spec 13 i), (Z.ltb_spec i (13 + Z.of_nat 19)); done || lia.
  - intros i Hi. unfold y. rewrite restore_fprs by (done || lia).
    destruct (Z.leb_spec 14 i), (Z.ltb_spec i (14 + Z.of_nat 18)); done || lia.
Qed.

(** The machine as the 68k emulator finds it: the 68k registers in r8 to r22,
    the address of the next instruction word in r24, that word extended in r27,
    the dispatch table entry of the first one in r29, and the return address
    on the stack. *)
Record entered_68k (entry : Z) (r : M68kRegisters) (c c' : powerpc_cpu) : Prop := {
  entered_d i : 0 <= i <= 7 -> gpr c' (8 + i) = Zlookup (r68_d r) i;
  entered_a i : 0 <= i <= 6 -> gpr c' (16 + i) = Zlookup (r68_a r) i;
  entered_sp : gpr c' 1 = u32 (gpr c 1 - 4);
  entered_pc : gpr c' 24 = u32 (entry + 2);
  entered_level : ReadMacInt32 XLM_68K_R25 c = Ok (gpr c' 25);
  entered_opcodes : exists op w t,
    ReadMacInt16 entry c' = Ok op /\ ReadMacInt16 (u32 (entry + 2)) c' = Ok w /\
    read_kernel_data (ed_offset + 0x74) c = Ok t /\
    gpr c' 27 = u32 (sext 16 w) /\ gpr c' 29 = u32 (t + op * 8);
  entered_mode : ReadMacInt32 XLM_RUN_MODE c' = Ok MODE_68K;
  entered_return : gpr c' 1 + 4 <= XLM_RUN_MODE \/ XLM_RUN_MODE + 4 <= gpr c' 1 ->
    ReadMacInt32 (gpr c' 1) c' = Ok (u32 XLM_EXEC_RETURN_OPCODE);
}.

Lemma enter_68k_spec entry r c c' :
  cpu_wf c -> r68_wf r -> enter_68k entry r c = Ok c' -> entered_68k entry r c c'.
Proof.
  intros Hc (Hrd & Hra & Hld & Hla). unfold enter_68k, read_kernel_data. cbn zeta.
  set (c0 := load_gprs 16 7 (r68_a r) (load_gprs 8 8 (r68_d r) (set_cr (mask (CR_SO_field 2)) c))).
  assert (H0 : gprs32 c0 /\ forall i, 0 <= i <= 31 ->
    gpr c0 i = if (8 <=? i) && (i <=? 15) then Zlookup (r68_d r) (i - 8)
             else if (16 <=? i) && (i <=? 22) then Zlookup (r68_a r) (i - 16) else gpr c i).
  { split; [eapply (load_68k_gpr _ _ _ 0)|intros i Hi; refine (proj2 (load_68k_gpr _ _ _ i _ Hi))];
      try lia; apply Hc. }
  assert (Hw0 : cpu_wf c0).
  { apply load_gprs_wf; [apply load_gprs_wf|..]; [|done|lia|done|lia]. apply set_cr_wf; [done|by vm_compute]. }
  assert (Hm : mem c0 = mem c).
  { unfold c0. destruct (load_68k_frame (r68_d r) (r68_a r) (set_cr (mask (CR_SO_field 2)) c)) as [g ->]. done. }
  destruct H0 as [H32 H0]. generalize dependent c0. intros c0 H32 H0 Hw0 Hm.
  intros (l & El & H)%outcome_bind_Ok. revert H.
  intros (t & Et & H)%outcome_bind_Ok. revert H.
  intros (k78 & Ek & H)%outcome_bind_Ok. revert H.
  match goal with |- (mbind _ (WriteMacInt32 _ _ ?x) = _) -> _ => set (x1 := x) end.
  assert (Hsp : gpr x1 1 = u32 (gpr c 1 - 4)).
  { unfold x1. gpr_simp. rewrite H0 by lia. done. }
  assert (Hx32 : gprs32 x1) by (unfold x1; gprs).
  assert (Hx : forall i, 8 <= i <= 22 -> gpr x1 i = gpr c0 i).
  { intros i Hi. unfold x1. by gpr_simp. }
  assert (Hx24 : gpr x1 24 = entry /\ gpr x1 25 = l /\ gpr x1 29 = t).
  { split_and!; unfold x1; by gpr_simp. }
  assert (Hxm : mem x1 = mem c) by exact Hm. generalize dependent x1.
  intros x1 Hsp Hx32 Hx (Hx24 & Hx25 & Hx29) Hxm.
  intros (c1 & E1 & H)%outcome_bind_Ok. revert H.
  intros (c2 & E2 & H)%outcome_bind_Ok. revert H.
  intros (op & Eop & H)%outcome_bind_Ok. revert H.
  intros (w & Ew & [= <-])%outcome_bind_Ok.
  destruct (WriteMacInt32_Ok _ _ _ _ ltac:(rewrite Hxm; apply Hc) E1) as (W1 & [m1 ->] & R1 & _).
  destruct (WriteMacInt32_Ok _ _ _ _ W1 E2) as (_ & [m2 ->] & R2 & F2).
  assert (Hy32 : gprs32 (set_mem m2 (set_mem m1 x1))) by gprs.
  assert (Hyg : forall i, gpr (set_mem m2 (set_mem m1 x1)) i = gpr x1 i) by done.
  generalize dependent (set_mem m2 (set_mem m1 x1)). intros y _ Eop Ew R2 F2 Hy Hyg.
  assert (Eg : gpr (set_gpr 0 0 y) 24 = entry) by (gpr_simp; by rewrite Hyg, Hx24).
  rewrite Eg in *. rewrite gpr_set_eq in Ew by (gprs || lia).
  split.
  - intros i Hi. gpr_simp. rewrite Hyg, Hx, H0 by lia.
    destruct (Z.leb_spec 8 (8 + i)), (Z.leb_spec (8 + i) 15); try lia. cbn [andb]. f_equal. lia.
  - intros i Hi. gpr_simp. rewrite Hyg, Hx, H0 by lia.
    destruct (Z.leb_spec 8 (16 + i)), (Z.leb_spec (16 + i) 15), (Z.leb_spec 16 (16 + i)),
      (Z.leb_spec (16 + i) 22); try lia. cbn [andb]. f_equal. lia.
  - gpr_simp. by rewrite Hyg.
  - by gpr_simp.
  - rewrite gpr_set_ne, gpr_set_ne, gpr_set_ne, gpr_set_ne, Hyg, Hx25 by lia.
    rewrite <- El. unfold ReadMacInt32. cbn [set_gpr mem with_regs]. by rewrite Hm.
  - exists op, w, t. split; [exact Eop|]. split; [exact Ew|]. split.
    + rewrite <- Et. unfold read_kernel_data, ReadMacInt32. cbn [set_gpr mem with_regs]. by rewrite Hm.
    + split; gpr_simp; [done|]. by rewrite Hyg, Hx29.
  - exact R2.
  - gpr_simp. rewrite Hyg. intros Hd. rewrite <- R1. by apply F2.
Qed.

Section Calls.
Context {FPU : HostFPU} {DEV : Devices} {DL : DeviceLaws DEV} {DEC : CpuDecoder}.
Context (execute : emulation) (HX : exec_frame execute) (HW : exec_wf execute).

(** The saved copy only changes in 68k mode, where the interrupt bits of the
    kernel data are ored into its condition register. *)
Definition cr_interrupted (c : powerpc_cpu) (v : Z) : Prop :=
  v = 0 \/ ReadMacInt32 XLM_RUN_MODE c = Ok MODE_68K /\
    exists a c', read_kernel_data 0x67c c = Ok a /\ WriteMacInt16 a 1 c = Ok c' /\
      read_kernel_data 0x674 c' = Ok v.

Definition or_cr (v : Z) (r : registers) : registers :=
  Regs (r_gpr r) (r_fpr r) (r_vr r) (Z.lor (r_cr r) v) (r_xer r) (r_vscr r) (r_vrsave r)
    (r_fpscr r) (r_lr r) (r_ctr r) (r_pc r) (r_spcflags r) (r_reserve_valid r) (r_reserve_addr r).

Ltac drop_steps H0 :=
  repeat lazymatch goal with
  | |- outcome_holds _ (mbind _ ?m) => destruct m; try exact I; cbn [mbind outcome_bind]
  | |- outcome_holds _ (let '(_, _) := ?x in _) => destruct x
  | |- outcome_holds _ (if ?b then _ else _) => destruct b
  | |- outcome_holds _ (Ok _) => exact H0
  end.

Lemma HandleInterrupt_regs r c :
  outcome_holds (fun '(r', _) => exists v, cr_interrupted c v /\ r' = or_cr v r)
    (HandleInterrupt execute r c).
Proof using.
  assert (H0 : exists v, cr_interrupted c v /\ r = or_cr v r).
  { exists 0. split; [by left|]. unfold or_cr. rewrite Z.lor_0_r. by destruct r. }
  unfold HandleInterrupt. apply read_holds. intros nest. destruct (_ <? _); [exact H0|].
  destruct (ReadMacInt32 XLM_RUN_MODE c) as [mode| | | |] eqn:Em; try exact I.
  cbn [mbind outcome_bind]. destruct (Z.eqb_spec mode MODE_68K) as [->|_]; [|drop_steps H0].
  destruct (read_kernel_data 0x67c c) as [a| | | |] eqn:Ea; try exact I. cbn [mbind outcome_bind].
  destruct (WriteMacInt16 a 1 c) as [c'| | | |] eqn:Ew; try exact I. cbn [mbind outcome_bind].
  destruct (read_kernel_data 0x674 c') as [v| | | |] eqn:Ev; try exact I. cbn [mbind outcome_bind].
  exists v. split; [right; eauto 6|done].
Qed.

(** C4: What an interrupt restores.  Whatever the interrupt routine runs, the
    interrupted code finds as they were r0 to r31, f0 to f31, XER, VRSAVE, FPSCR,
    LR, CTR, the program counter and the vector registers that VRSAVE names;
    its condition register is the old one, with the interrupt bits of the kernel
    data ored in when the 68k emulator was interrupted.  Nothing else is saved:
    VSCR, the vector registers VRSAVE does not name, the reservation and memory
    are what the routine left. *)
Theorem handle_interrupt_transparent c :
  alive c ->
  outcome_holds (fun c' => exists r' c2,
    HandleInterrupt execute (interrupt_copy host_uninit_registers (regs c))
      (set_processing_interrupt true c) = Ok (r', c2) /\
    same_saved (regs c) (regs c') /\
    (exists v, cr_interrupted (set_processing_interrupt true c) v /\ cr c' = Z.lor (cr c) v) /\
    not_saved (regs c) (regs c2) (regs c') /\ mem c' = mem c2)
    (handle_interrupt (HOST := host_of execute) c).
Proof using DL HX HW.
  intros Hc. unfold handle_interrupt. cbn zeta.
  set (c1 := set_processing_interrupt true c). change (regs c1) with (regs c).
  set (r := interrupt_copy host_uninit_registers (regs c)).
  assert (Hc1 : alive c1) by exact Hc.
  destruct (interrupt_copy_saved host_uninit_registers (regs c) host_uninit_registers_wf) as [Hs Hcr].
  fold r in Hs, Hcr.
  pose proof (HandleInterrupt_alive execute HX HW r c1 Hc1) as H1.
  pose proof (HandleInterrupt_regs r c1) as H2. cbn [Cpu.HandleInterrupt uninit_registers host_of]. fold r.
  destruct (HandleInterrupt execute r c1) as [[r' c2]| | | |]; try exact I.
  destruct H1 as [_ [Hc2 _]]. destruct H2 as (v & Hv & ->). cbn [mbind outcome_bind outcome_holds].
  destruct (interrupt_copy_saved (regs c2) (or_cr v r) (proj1 Hc2)) as [Hs2 Hcr2].
  exists (or_cr v r), c2. split; [done|]. split; [by apply (same_saved_trans _ (or_cr v r))|]. split_and!.
  - exists v. split; [exact Hv|]. unfold cr. cbn [with_regs set_processing_interrupt regs].
    rewrite Hcr2. cbn [or_cr r_cr]. by rewrite Hcr.
  - assert (r_vrsave (or_cr v r) = r_vrsave (regs c)) as Ev by apply Hs.
    pose proof (interrupt_copy_not_saved (regs c2) (or_cr v r) (proj1 Hc2)) as Hn.
    unfold not_saved in *. by rewrite Ev in Hn.
  - done.
Qed.
(** C2: A 68k call.  [execute_68k] builds a frame of 56 bytes, enters the 68k
    emulator with the 68k registers, the routine's first words decoded, and a
    return address that leads back; it hands back the 68k registers as the
    routine left them, with the old A7, and restores PC, LR, CTR, CR, r13 to
    r31 and f14 to f31; the run mode is EMUL_OP and the interrupt level is the
    routine's. *)
Theorem execute_68k_spec entry r c :
  is_uint 32 entry -> r68_wf r -> alive c ->
  outcome_holds (fun '(r', c') => exists c0 c1 c2,
    gpr c0 1 = u32 (gpr c 1 - 56) /\ enter_68k entry r c0 = Ok c1 /\ entered_68k entry r c0 c1 /\
    execute (gpr c1 29) c1 = Ok c2 /\
    r' = R68 (read_gprs 8 8 c2) (read_gprs 16 7 c2 ++ [Zlookup (r68_a r) 7]) /\
    ReadMacInt32 XLM_RUN_MODE c' = Ok MODE_EMUL_OP /\ ReadMacInt32 XLM_68K_R25 c' = Ok (gpr c2 25) /\
    gpr c' 1 = u32 (gpr c2 1 + 56) /\
    pc c' = pc c /\ lr c' = lr c /\ ctr c' = ctr c /\ cr c' = cr c /\
    (forall i, 13 <= i <= 31 -> gpr c' i = gpr c i) /\
    (forall i, 14 <= i <= 31 -> fpr_dw c' i = fpr_dw c i))
    (execute_68k execute entry r c).
Proof using HX HW.
  intros He Hr Hc. unfold execute_68k. apply read_holds. intros mode. cbn zeta.
  set (cs := set_gpr 1 (u32 (gpr c 1 - 56)) c).
  assert (Hcs : alive cs) by (unfold cs; alive_same).
  apply outcome_step. intros c0 E0.
  assert (Hc0 : alive c0).
  { exact (outcome_holds_Ok _ _ _ (WriteMacInt32_alive _ _ _ Hcs) E0). }
  destruct (WriteMacInt32_Ok _ _ _ _ (cpu_mem_wf _ (proj1 Hcs)) E0) as (_ & [m0 Em0] & _).
  apply outcome_step. intros c1 E1.
  assert (Hc1 : alive c1).
  { exact (outcome_holds_Ok _ _ _ (enter_68k_alive _ _ _ He Hr Hc0) E1). }
  apply outcome_step. intros c2 E2.
  assert (Hc2 : alive c2).
  { refine (outcome_holds_Ok _ _ _ (execute_alive execute HX HW _ _ _ Hc1) E2).
    apply gpr_range; [apply Hc1|lia]. }
  apply outcome_step. intros c3 E3.
  destruct (WriteMacInt32_Ok _ _ _ _ (cpu_mem_wf _ (proj1 Hc2)) E3) as (W3 & [m3 ->] & R3 & _).
  apply outcome_step. intros c4 E4. cbn [outcome_holds].
  destruct (WriteMacInt32_Ok _ _ _ _ W3 E4) as (W4 & [m4 ->] & R4 & F4).
  assert (Hy : cpu_wf (set_mem m4 (set_mem m3 c2))) by (split; [apply Hc2|exact W4]).
  destruct (restored_68k c0 _ Hy) as (Ym & Y32 & Y1 & Yg & Yf).
  match goal with |- context [load_fprs 14 18 ?l ?x] => generalize dependent (load_fprs 14 18 l x) end.
  intros y Ym Y32 Y1 Yg Yf. exists c0, c1, c2.
  assert (Ec0 : forall i, gpr c0 i = gpr cs i) by (intros i; by rewrite Em0).
  assert (Ef0 : forall i, fpr_dw c0 i = fpr_dw c i) by (intros i; by rewrite Em0).
  assert (Ey : forall a, ReadMacInt32 a y = ReadMacInt32 a (set_mem m4 (set_mem m3 c2)))
    by (intros a; unfold ReadMacInt32; by rewrite Ym).
  split_and!; try done.
  - rewrite Ec0. unfold cs. apply gpr_set_eq; [apply Hc|lia].
  - by apply enter_68k_spec; [apply Hc0|..].
  - etrans; [apply Ey|exact R4].
  - etrans; [apply Ey|]. rewrite F4 by (unfold XLM_68K_R25, XLM_RUN_MODE; lia). rewrite R3. f_equal. apply trunc_small.
    apply gpr_range; [apply Hc2|lia].
  - etrans; [exact (gpr_set_eq 1 _ y Y32 ltac:(lia))|]. by rewrite Y1.
  - intros i Hi. etrans; [exact (gpr_set_ne 1 i _ y ltac:(lia) ltac:(lia) ltac:(lia))|].
    rewrite Yg, Ec0 by done. unfold cs. by apply gpr_set_ne; lia.
  - intros i Hi. etrans; [exact (Yf i Hi)|apply Ef0].
Qed.
(** C3: A Mac OS call.  [execute_macos_code] runs the procedure of the
    transition vector with its TOC in r2, the arguments in r3, r4, ..., a
    64-byte frame, and LR at a word of shared memory that holds the opcode that
    leaves the emulation; it returns r3 and restores PC, LR, CTR, r2 and the
    argument registers, and releases the shared word. *)
Theorem execute_macos_code_spec tvect args c :
  Forall (is_uint 32) args -> (length args <= 28)%nat -> alive c ->
  outcome_holds (fun '(v, c') => exists proc c1 c2,
    ReadMacInt32 tvect c1 = Ok proc /\ ReadMacInt32 (u32 (tvect + 4)) c1 = Ok (gpr c1 2) /\
    ReadMacInt32 (lr c1) c1 = Ok POWERPC_EXEC_RETURN /\ gpr c1 1 = u32 (gpr c 1 - 64) /\
    (forall i, 0 <= i < Z.of_nat (length args) -> gpr c1 (3 + i) = Zlookup args i) /\
    execute proc c1 = Ok c2 /\ v = gpr c2 3 /\ gpr c' 1 = u32 (gpr c2 1 + 64) /\
    pc c' = pc c /\ lr c' = lr c /\ ctr c' = ctr c /\
    (forall i, 2 <= i <= 2 + Z.of_nat (length args) -> gpr c' i = gpr c i) /\
    u64 (sheep_data (sheep c')) = u64 (sheep_data (sheep c)))
    (execute_macos_code execute tvect args c).
Proof using HX HW.
  intros Hargs Hlen Hc. unfold execute_macos_code, with_SheepVar32, with_SheepVar, SheepMem.Reserve. cbn zeta.
  set (size := SheepMem.align (SheepMem.align 4)).
  destruct (_ <? _); [exact I|]. apply outcome_step. intros [addr c0] [= <- <-].
  set (cd := SheepMem.set_data _ c). assert (Hcd : alive cd) by exact Hc.
  apply outcome_step. intros [v c3] H. cbn [outcome_holds]. revert H.
  intros (ct & Et & H)%outcome_bind_Ok. revert H. intros (proc & Ep & H)%outcome_bind_Ok. revert H.
  intros (toc & Eo & H)%outcome_bind_Ok. revert H. intros (c2 & E2 & [= <- <-])%outcome_bind_Ok.
  pose proof (outcome_holds_Ok _ _ _ (WriteMacInt32_alive _ _ _ Hcd) Et) as Hct.
  destruct (WriteMacInt32_Ok _ _ _ _ (cpu_mem_wf _ (proj1 Hcd)) Et) as (_ & [m ->] & Rt & _).
  set (tr := u32 (u64 (sheep_data (sheep c) - size))) in *.
  assert (Htr : is_uint 32 tr) by (apply trunc_range; lia).
  set (x := set_gpr 1 _ (set_lr tr (set_mem m cd))) in *.
  assert (Hx : alive x) by (unfold x; alive_same).
  assert (Hxg : forall i, 2 <= i <= 31 -> gpr x i = gpr c i) 
    by (intros i Hi; etrans; [apply gpr_set_ne; lia|done]).
  assert (Hx1 : gpr x 1 = u32 (gpr c 1 - 64)) by (apply gpr_set_eq; [apply Hct|lia]).
  pose proof (outcome_holds_Ok _ _ _ (ReadMacInt32_range _ _ (proj1 Hx)) Eo) as Htoc.
  set (y := set_gpr 2 toc x) in *. assert (Hy : alive y) by (unfold y; alive_same).
  set (c1 := load_gprs 3 (length args) args y) in *.
  assert (Hc1 : alive c1) by (apply load_gprs_alive; [exact Hy|done|lia]).
  assert (Hc1g : forall i, 0 <= i <= 31 -> gpr c1 i =
    if (3 <=? i) && (i <? 3 + Z.of_nat (length args)) then Zlookup args (i - 3) else gpr y i).
  { intros i Hi. refine (proj2 (load_gprs_gpr 3 (length args) args y i _ _ _ Hi)); [apply Hy|lia..]. }
  assert (Hc1f : exists g, c1 = set_gprs g y) by apply load_gprs_frame.
  pose proof (outcome_holds_Ok _ _ _ (HX proc c1 (proj2 Hc1)) E2) as (_ & _ & _ & _ & Hs & _).
  pose proof (outcome_holds_Ok _ _ _ (execute_alive execute HX HW _ _
    (outcome_holds_Ok _ _ _ (ReadMacInt32_range _ _ (proj1 Hx)) Ep) Hc1) E2) as Hc2.
  exists proc, c1, c2. set (z := load_gprs 2 (S (length args)) (read_gprs 2 (S (length args)) x) c2).
  assert (Hz : forall i, 0 <= i <= 31 -> gpr z i =
    if (2 <=? i) && (i <? 2 + Z.of_nat (S (length args))) then gpr x i else gpr c2 i).
  { intros i Hi. apply restore_gprs; [apply Hc2|lia..]. }
  assert (Hz32 : gprs32 z).
  { refine (proj1 (load_gprs_gpr 2 _ _ c2 0 _ _ _ _)); try lia. apply Hc2. }
  assert (Hzf : exists g, z = set_gprs g c2) by apply load_gprs_frame.
  assert (Hm : forall a, ReadMacInt32 a c1 = ReadMacInt32 a x) by (destruct Hc1f as [g ->]; done).
  assert (Hlr : lr c1 = tr) by (destruct Hc1f as [g ->]; done).
  clearbody c1. split_and!; try done.
  - by rewrite Hm.
  - rewrite Hm, Eo, Hc1g by lia. cbn [andb Z.leb Z.compare]. f_equal. symmetry.
    unfold y. apply gpr_set_eq; [apply Hx|lia].
  - by rewrite Hlr, Hm.
  - rewrite Hc1g by lia. cbn [andb Z.leb Z.compare]. unfold y. by rewrite gpr_set_ne.
  - intros i Hi. rewrite Hc1g by lia. replace (3 + i - 3) with i by lia.
    destruct (Z.leb_spec 3 (3 + i)), (Z.ltb_spec (3 + i) (3 + Z.of_nat (length args))); done || lia.
  - etrans; [exact (gpr_set_eq 1 _ z Hz32 ltac:(lia))|]. rewrite (Hz 1) by lia. done.
  - intros i Hi. etrans; [exact (gpr_set_ne 1 i _ z ltac:(lia) ltac:(lia) ltac:(lia))|].
    rewrite Hz, <- Hxg by lia.
    destruct (Z.leb_spec 2 i), (Z.ltb_spec i (2 + Z.of_nat (S (length args)))); done || lia.
  - destruct Hzf as [g ->]. cbn. fold size. rewrite trunc_trunc, <- trunc_add_l by lia.
    rewrite Hs. destruct Hc1f as [g' ->]. cbn. fold size.
    rewrite !trunc_trunc, trunc_add_l by lia. f_equal. lia.
Qed.
End Calls.

(** ** A concrete machine *)

(** Low memory, a stack, kernel data, a 68k routine whose first word the 68k
    emulator's table sends to "load 7 into D0, pop, return", and a Mac OS
    routine that adds its two arguments. *)
Definition call_program : memory :=
  bytes_at XLM_RUN_MODE (replicate 64 0) ∪
  bytes_at 0x3000 [0; 0; 0x4e; 0x75; 0; 0; 0x91; 0; 0; 0; 0; 0] ∪
  bytes_at 0x8000 (replicate 128 0) ∪
  bytes_at 0x9000 [0x39; 0; 0; 7; 0x38; 0x21; 0; 4; 0x18; 0; 0; 1] ∪
  bytes_at 0x9100 [0x7c; 0x63; 0x22; 0x14; 0x4e; 0x80; 0; 0x20] ∪
  bytes_at (KERNEL_DATA_BASE + 0x674) [0; 0x10; 0; 0; 0; 0; 0; 0; 0; 0; 0x80; 0] ∪
  bytes_at (KERNEL_DATA_BASE + ed_offset + 0x74) [0; 0; 0x90; 0; 0; 0; 0; 0] ∪
  bytes_at (SheepMem.base + SheepMem.size - 4) (replicate 4 0).

Lemma call_program_wf : mem_wf call_program.
Proof. apply (bool_decide_unpack _). vm_compute. exact I. Qed.

Definition call_machine : powerpc_cpu :=
  set_execute_depth 1 (set_gpr 1 0x8060 (SheepMem.Init (cpu_init call_program))).

Lemma depth_alive c : cpu_wf c -> alive (set_execute_depth 1 c).
Proof. intros H. split; [exact H|]. change (1 <= 1). lia. Qed.

Lemma call_machine_alive : alive call_machine.
Proof.
  unfold call_machine. apply depth_alive, set_gpr_wf; [|by vm_compute].
  apply (Init_machine_wf (fun _ => True)). split; [|exact I]. apply cpu_init_wf, call_program_wf.
Qed.

Definition null_run : emulation :=
  run (FPU := null_fpu) (DEV := null_devices) (DEC := built_decoder) 1 9.
Lemma null_run_frame : exec_frame null_run.
Proof. apply run_frame. Qed.
Lemma null_run_wf : exec_wf null_run.
Proof. apply run_wf, null_fpu_laws. Qed.

Definition zero_68k : M68kRegisters := R68 (replicate 8 0) (replicate 8 0).
Lemma zero_68k_wf : r68_wf zero_68k.
Proof. split_and!; cbn; try done; repeat constructor; done. Qed.

Lemma handle_interrupt_transparent_witness : exists c',
  handle_interrupt (HOST := host_of (DEV := null_devices) null_run) call_machine = Ok c' /\
  gpr c' 1 = gpr call_machine 1 /\ cr c' = 0x100000.
Proof.
  destruct (result_of_Ok cr (handle_interrupt (HOST := host_of (DEV := null_devices) null_run) call_machine)
    0x100000) as (c' & E & Hcr); [by vm_compute|].
  exists c'. split; [exact E|]. split; [|exact Hcr].
  pose proof (handle_interrupt_transparent (DEV := null_devices) null_run null_run_frame null_run_wf
    call_machine call_machine_alive) as H.
  rewrite E in H. destruct H as (r' & c2 & _ & [Hg _] & _). apply (Hg 1). lia.
Defined.

Lemma result_of_pair {A B} (f : A -> powerpc_cpu -> B) (m : outcome (A * powerpc_cpu)) b :
  match m with Ok (a, c) => Some (f a c) | _ => None end = Some b ->
  exists a c, m = Ok (a, c) /\ f a c = b.
Proof. destruct m as [[a c]| | | |]; try discriminate. cbn. intros [= <-]. by exists a, c. Qed.

(** The 68k routine returned 7 in D0; the stack is where it was. *)
Lemma execute_68k_spec_witness : exists r' c',
  execute_68k null_run 0x3000 zero_68k call_machine = Ok (r', c') /\
  Zlookup (r68_d r') 0 = 7 /\ gpr c' 1 = 0x8060 /\ pc c' = pc call_machine /\
  ReadMacInt32 XLM_RUN_MODE c' = Ok MODE_EMUL_OP.
Proof.
  destruct (result_of_pair (fun r c => (Zlookup (r68_d r) 0, gpr c 1))
    (execute_68k null_run 0x3000 zero_68k call_machine) (7, 0x8060)) as (r' & c' & E & Hr); [by vm_compute|].
  injection Hr as H0 H1. exists r', c'. split; [exact E|]. split; [exact H0|]. split; [exact H1|].
  pose proof (execute_68k_spec null_run null_run_frame null_run_wf 0x3000 zero_68k call_machine
    (bool_decide_unpack (is_uint 32 0x3000) I) zero_68k_wf call_machine_alive) as H.
  rewrite E in H. destruct H as (c0 & c1 & c2 & H). by split; apply H.
Defined.

(** 20 + 22 in Mac OS. *)
Lemma execute_macos_code_spec_witness : exists c',
  execute_macos_code null_run 0x3004 [20; 22] call_machine = Ok (42, c') /\
  pc c' = pc call_machine /\ gpr c' 3 = gpr call_machine 3.
Proof.
  destruct (result_of_pair (fun v c => v) (execute_macos_code null_run 0x3004 [20; 22] call_machine) 42)
    as (v & c' & E & ->); [by vm_compute|].
  exists c'. split; [exact E|].
  pose proof (execute_macos_code_spec null_run null_run_frame null_run_wf 0x3004 [20; 22] call_machine
    ltac:(repeat constructor; done) ltac:(cbn; lia) call_machine_alive) as H.
  rewrite E in H. destruct H as (proc & c1 & c2 & _ & _ & _ & _ & _ & _ & _ & _ & Hpc & _ & _ & Hg & _).
  split; [exact Hpc|]. apply Hg. cbn. lia.
Defined.
