(* ===== verification/ThunkSpec.v ===== *)
(** Properties of the thunks (Thunks.v): start-up leaves, in the shared area,
    code for every native routine and descriptors that lead to it, and the fake
    opcodes dispatch to the routine they were made for. *)
From S2P Require Import Prelude Bitfields Registers HostFPU Operations Memory Handlers BlockCache Cpu Operands ExecInt ExecMem ExecSys Dispatch DecodeTable Decode Interp Frame InterpSpec PredecodeSpec CacheSpec Thunks Glue GlueSpec BlockSpec MachineSpec CallSpec.

(** ** Computations that succeed *)

Definition succeeds {A} (Q : A -> Prop) (m : outcome A) : Prop :=
  match m with Ok a => Q a | _ => False end.

Lemma succeeds_bind {A B} (P : A -> Prop) (Q : B -> Prop) f m :
  succeeds P m -> (forall a, P a -> succeeds Q (f a)) -> succeeds Q (mbind f m).
Proof. destruct m; cbn; [auto|done..]. Qed.
Lemma succeeds_weaken {A} (P Q : A -> Prop) m : succeeds P m -> (forall a, P a -> Q a) -> succeeds Q m.
Proof. destruct m; cbn; [auto|done..]. Qed.
Lemma succeeds_Ok {A} (Q : A -> Prop) m : succeeds Q m -> exists a, m = Ok a /\ Q a.
Proof. destruct m; cbn; [eauto|done..]. Qed.

Lemma Forall2_compose {A B C} (P : A -> B -> Prop) (Q : B -> C -> Prop) (R : A -> C -> Prop) l1 l2 l3 :
  (forall a b c, P a b -> Q b c -> R a c) -> Forall2 P l1 l2 -> Forall2 Q l2 l3 -> Forall2 R l1 l3.
Proof.
  intros H H1. revert l3. induction H1 as [|a b l1 l2 Hab H1 IH]; intros l3 H2; inversion H2; subst; constructor; eauto.
Qed.

(** ** The shared area *)

Section Area.
(** The area from [p] to [top]; all of it is mapped, at 32-bit addresses. *)
Context (p top : Z) (Hp : 0 <= p) (Htop : top <= 2 ^ 32).

(** The data end is [d]. *)
Record ready (d : Z) (c : powerpc_cpu) : Prop := {
  ready_data : sheep_data (sheep c) = d;
  ready_proc : sheep_proc (sheep c) = p;
  ready_mem : mem_wf (mem c);
  ready_mapped i : p <= i < top -> is_Some (mem c !! i);
}.

(** Nothing at or above [d] differs. *)
Definition above (d : Z) (c c' : powerpc_cpu) : Prop := forall i, d <= i -> mem c' !! i = mem c !! i.

Definition word (a v : Z) (c : powerpc_cpu) : Prop := ReadMacInt32 a c = Ok v.

Lemma above_refl d c : above d c c.
Proof using. done. Qed.
Lemma above_trans d c1 c2 c3 : above d c1 c2 -> above d c2 c3 -> above d c1 c3.
Proof using. intros H1 H2 i Hi. by rewrite H2, H1. Qed.
Lemma above_le d d' c c' : d' <= d -> above d' c c' -> above d c c'.
Proof using. intros Hd H i Hi. apply H. lia. Qed.

Lemma word_above d a v c c' :
  mem_wf (mem c) -> mem_wf (mem c') -> d <= a -> above d c c' -> word a v c -> word a v c'.
Proof using.
  intros Hm Hm' Ha H. unfold word, ReadMacInt32, vm_read_memory_4, vm_do_get_real_address.
  rewrite !vm_do_read_memory_4_be by done. intros <-. apply load_be_cong. intros i Hi. apply H. lia.
Qed.

Lemma Reserve_ready n d c :
  ready d c -> d <= top -> 0 < n -> SheepMem.align n = n -> p + n <= d ->
  exists c', SheepMem.Reserve n c = Ok (d - n, c') /\ ready (d - n) c' /\ mem c' = mem c.
Proof using Hp Htop.
  intros [Hd Hq Hm Hmap] Ht Hn Ha Hroom. unfold SheepMem.Reserve. cbn zeta.
  assert (2 ^ 32 < 2 ^ 64) by done.
  rewrite Ha, Hd, Hq. rewrite (trunc_small 64) by (unfold is_uint; lia).
  destruct (Z.ltb_spec (d - n) p); [lia|]. rewrite trunc_small by (unfold is_uint; lia).
  eexists. split; [reflexivity|]. by split.
Qed.

(** A store of [n] bytes inside the area. *)
Lemma store_ready n a v d c :
  ready d c -> p <= a -> a + Z.of_nat n <= top ->
  exists m, store_be n a v (mem c) = Ok m /\ ready d (set_mem m c) /\
    forall i, ~ (a <= i < a + Z.of_nat n) -> m !! i = mem c !! i.
Proof using.
  intros [Hd Hq Hm Hmap] Ha Hn.
  destruct (store_be_total n a v (mem c)) as [m Em]; [intros i Hi; apply Hmap; lia|].
  exists m. split; [exact Em|]. split.
  - split; [done|done| |].
    + pose proof (store_be_wf n a v _ Hm) as H. by rewrite Em in H.
    + intros i Hi. cbn. rewrite <- elem_of_dom, (store_be_dom _ _ _ _ _ Em), elem_of_dom. by apply Hmap.
  - intros i Hi. by eapply store_be_frame.
Qed.

(** What a store below [e] leaves. *)
Definition stored (e d : Z) (c c' : powerpc_cpu) : Prop := ready d c' /\ above e c c'.

Lemma WriteMacInt32_ready a v d c :
  ready d c -> p <= a -> a + 4 <= top ->
  succeeds (fun c' => stored (a + 4) d c c' /\ word a (u32 v) c' /\
    forall b w, b + 4 <= a \/ a + 4 <= b -> word b w c -> word b w c') (WriteMacInt32 a v c).
Proof using.
  intros Hc Ha Ht. rewrite WriteMacInt32_be. destruct (store_ready 4 a v d c Hc Ha Ht) as (m & Em & Hr & Hf).
  rewrite Em. cbn [mbind outcome_bind succeeds].
  assert (Ew : WriteMacInt32 a v c = Ok (set_mem m c)) by (rewrite WriteMacInt32_be, Em; done).
  destruct (WriteMacInt32_Ok _ _ _ _ (ready_mem _ _ Hc) Ew) as (_ & _ & R & F).
  split; [|split; [exact R|]].
  - split; [exact Hr|]. intros i Hi. apply Hf. lia.
  - intros b w Hb Hw. unfold word. by rewrite F.
Qed.

(** ** One native routine *)

(** The TVECT, the opcode and the return of routine [i]. *)
Definition thunk (i : Z) (op : native_op_t) (c : powerpc_cpu) : Prop :=
  p <= tvect op /\ tvect op + 16 <= top /\ word (tvect op) (tvect op + 8) c /\
  (exists opcode, NativeOpcode i = Ok opcode /\ word (tvect op + 8) opcode c) /\
  word (tvect op + 12) POWERPC_BLR c.

Lemma NativeOpcode_total i : 0 <= i < NATIVE_OP_MAX -> exists op, NativeOpcode i = Ok op /\ is_uint 32 op.
Proof using.
  intros Hi. assert (H : forallb (fun i => match NativeOpcode i with Ok op => bool_decide (is_uint 32 op) | _ => false end)
    (count_up (Z.to_nat NATIVE_OP_MAX)) = true) by (vm_compute; reflexivity).
  rewrite forallb_forall in H. specialize (H i). rewrite <- list_elem_of_In, elem_of_count_up in H.
  specialize (H ltac:(unfold NATIVE_OP_MAX in *; lia)). destruct (NativeOpcode i) as [op| | | |]; try done.
  apply bool_decide_eq_true in H. eauto.
Qed.

Lemma native_thunk_spec i d c :
  0 <= i < NATIVE_OP_MAX -> ready d c -> d <= top -> p + 16 <= d ->
  succeeds (fun '(op, c') => op = NativeOp (d - 16) (d - 8) None /\ thunk i op c' /\ stored d (d - 16) c c')
    (native_thunk i c).
Proof using Hp Htop.
  intros Hi Hc Hd Hroom. unfold native_thunk.
  destruct (Reserve_ready 16 d c Hc Hd ltac:(lia) eq_refl ltac:(lia)) as (c0 & -> & H0 & Hm0). cbn [mbind outcome_bind].
  rewrite !(trunc_small 32) by (unfold is_uint; lia). rewrite Z.add_0_r.
  eapply succeeds_bind; [apply (WriteMacInt32_ready _ _ _ _ H0); lia|]. intros c1 ((H1 & A1) & W1 & _).
  eapply succeeds_bind; [apply (WriteMacInt32_ready _ _ _ _ H1); lia|]. intros c2 ((H2 & A2) & _ & K2).
  destruct (NativeOpcode_total i Hi) as (opcode & Eo & Ho). rewrite Eo. cbn [mbind outcome_bind].
  eapply succeeds_bind; [apply (WriteMacInt32_ready _ _ _ _ H2); lia|]. intros c3 ((H3 & A3) & W3 & K3).
  eapply succeeds_bind; [apply (WriteMacInt32_ready _ _ _ _ H3); lia|]. intros c4 ((H4 & A4) & W4 & K4).
  rewrite !(trunc_small 32) in * by (done || unfold is_uint; lia).
  cbn [succeeds]. split; [f_equal; lia|]. split.
  - unfold thunk. cbn [tvect]. split_and!; [lia|lia| |exists opcode; split; [done|]|].
    + replace (d - 16 + 8) with (d - 8) by lia. apply K4; [lia|]. apply K3; [lia|]. apply K2; [lia|].
      by replace (d - 8) with (d - 16 + 8) by lia.
    + by apply K4; [lia|].
    + exact W4.
  - split; [exact H4|]. intros i0 Hi0. rewrite A4, A3, A2, A1 by lia. by rewrite Hm0.
Qed.

Lemma thunk_above i op c c' :
  mem_wf (mem c) -> mem_wf (mem c') -> above (tvect op) c c' -> thunk i op c -> thunk i op c'.
Proof using.
  intros Hc Hc' Ha (Hl & Hh & W1 & (opcode & Eo & W2) & W3).
  assert (K : forall a v, tvect op <= a -> word a v c -> word a v c')
    by (intros a v Hav; by apply (word_above (tvect op))).
  unfold thunk. split_and!; [done|done|by apply K|exists opcode; split; [done|apply K; [lia|done]]|apply K; [lia|done]].
Qed.

(** ** The loops *)

(** [f] takes [n] bytes of the area and leaves [Q] there; [Q] is not disturbed
    by stores below it. *)
Lemma for_each_op_spec {A B} (f : A -> powerpc_cpu -> outcome (B * powerpc_cpu)) (n : Z)
    (P : A -> Prop) (Q : A -> B -> powerpc_cpu -> Z -> Prop) :
  0 <= n ->
  (forall a d c, P a -> ready d c -> d <= top -> p + n <= d ->
    succeeds (fun '(b, c') => Q a b c' (d - n) /\ stored d (d - n) c c') (f a c)) ->
  (forall a b c c' d, mem_wf (mem c) -> mem_wf (mem c') -> above d c c' -> Q a b c d -> Q a b c' d) ->
  forall l d c, Forall P l -> ready d c -> d <= top -> p + n * Z.of_nat (length l) <= d ->
  succeeds (fun '(bs, c') => Forall2 (fun a b => exists e, d - n * Z.of_nat (length l) <= e /\ Q a b c' e) l bs /\
    stored d (d - n * Z.of_nat (length l)) c c') (for_each_op f l c).
Proof using.
  intros Hn Hf HQ. induction l as [|a l IH]; intros d c HP Hc Hd Hroom; cbn [for_each_op].
  { cbn [length succeeds] in *. rewrite Z.mul_0_r, Z.sub_0_r. split; [constructor|]. by split. }
  apply Forall_cons in HP as [Ha HP]. cbn [length] in *.
  eapply succeeds_bind; [apply (Hf a d c); [done|done|lia|lia]|]. intros [b c1] (Qb & R1 & A1).
  eapply succeeds_bind; [apply (IH (d - n) c1); [done|done|lia|lia]|]. intros [bs c2] (Qbs & R2 & A2).
  cbn [succeeds]. replace (d - n * Z.of_nat (S (length l))) with (d - n - n * Z.of_nat (length l)) by lia. split.
  - constructor; [|exact Qbs]. exists (d - n). split; [lia|].
    apply (HQ a b c1); [apply R1|apply R2|exact A2|exact Qb].
  - split; [exact R2|]. eapply above_trans; [exact A1|]. by apply (above_le _ (d - n)); [lia|].
Qed.

(** ** The thunks of the Resource Manager *)

Lemma memcpy_total src : forall a m,
  mem_wf m -> (forall i, a <= i < a + Z.of_nat (length src) -> is_Some (m !! i)) ->
  exists m', memcpy a src m = Ok m' /\ mem_wf m' /\ dom m' = dom m /\
    forall i, ~ (a <= i < a + Z.of_nat (length src)) -> m' !! i = m !! i.
Proof using.
  induction src as [|b src IH]; intros a m Hm Hmap; cbn [memcpy length] in *; [by exists m|].
  destruct (Hmap a ltac:(lia)) as [x Hx].
  assert (Es : exists m1, store_1 a b m = Ok m1) by (unfold store_1; rewrite Hx; eauto).
  destruct Es as [m1 Es]. rewrite Es. cbn [mbind outcome_bind].
  pose proof (store_1_wf a b m Hm) as Hm1. rewrite Es in Hm1.
  assert (Hd : dom m1 = dom m) by (by eapply store_1_mapped).
  destruct (IH (a + 1) m1 Hm1) as (m' & E' & Hm' & Hd' & Hf).
  { intros i Hi. rewrite <- elem_of_dom, Hd, elem_of_dom. apply Hmap. lia. }
  exists m'. split_and!; [done|done|congruence|]. intros i Hi. rewrite Hf by lia.
  eapply store_1_lookup_ne; [done|lia].
Qed.

Lemma memcpy_ready l a d c :
  ready d c -> p <= a -> a + Z.of_nat (length l) <= top ->
  succeeds (stored (a + Z.of_nat (length l)) d c) (cpu_write (memcpy a l) c).
Proof using.
  intros Hc Ha Ht. destruct (memcpy_total l a (mem c) (ready_mem _ _ Hc)) as (m & Em & Hm & Hdom & Hf).
  { intros i Hi. apply (ready_mapped _ _ Hc). lia. }
  unfold cpu_write. rewrite Em. split; [|intros i Hi; apply Hf; lia].
  split; [apply Hc|apply Hc|done|]. intros i Hi. cbn.
  rewrite <- elem_of_dom, Hdom, elem_of_dom. by apply (ready_mapped _ _ Hc).
Qed.

(** The two words that tell the seven thunks apart. *)
Definition resource_code (opcode xlm f : Z) (c : powerpc_cpu) : Prop :=
  p <= f /\ f + 76 <= top /\ word (f + 20) (Z.lor 0x80000000 xlm) c /\ word (f + 52) opcode c.

Lemma resource_code_above opcode xlm f d c c' :
  mem_wf (mem c) -> mem_wf (mem c') -> d <= f -> above d c c' ->
  resource_code opcode xlm f c -> resource_code opcode xlm f c'.
Proof using.
  intros Hc Hc' Hd Ha (Hl & Hh & W1 & W2). unfold resource_code.
  split_and!; [done|done|by apply (word_above d _ _ c); [..|lia| |]|by apply (word_above d _ _ c); [..|lia| |]].
Qed.

Lemma resource_thunk_spec template opcode xlm d c :
  length template = 19%nat ->
  is_uint 32 opcode -> is_uint 31 xlm -> ready d c -> d <= top -> p + 76 <= d ->
  succeeds (fun '(f, c') => f = d - 76 /\ resource_code opcode xlm f c' /\ stored d (d - 76) c c')
    (resource_thunk template opcode xlm c).
Proof using Hp Htop.
  intros Hl Ho Hx Hc Hd Hroom. unfold resource_thunk. 
  change (template_index 0 get_resource_template) with 5. change (template_index 1 get_resource_template) with 13.
  rewrite Hl. cbn [Z.eqb orb].
  change (Z.of_nat 19 * 4) with 76.
  destruct (Reserve_ready 76 d c Hc Hd ltac:(lia) eq_refl ltac:(lia)) as (c0 & -> & H0 & Hm0). cbn [mbind outcome_bind].
  assert (Hlen : length (mjoin (PL <$> template)) = 76%nat).
  { revert Hl. clear. intros Hl. do 19 (destruct template as [|? template]; [done|]). by destruct template. }
  unfold Host2Mac_memcpy, vm_do_get_real_address.
  eapply succeeds_bind; [apply (memcpy_ready _ _ _ _ H0); rewrite ?Hlen; lia|]. rewrite Hlen. intros c1 (H1 & A1).
  rewrite !(trunc_small 32) by (unfold is_uint; lia).
  eapply succeeds_bind; [apply (WriteMacInt32_ready _ _ _ _ H1); lia|]. intros c2 ((H2 & A2) & W2 & K2).
  eapply succeeds_bind; [apply (WriteMacInt32_ready _ _ _ _ H2); lia|]. intros c3 ((H3 & A3) & W3 & K3).
  rewrite !(trunc_small 32) in * by first [done|apply is_uint_lor; [lia|done|unfold is_uint in *; lia]].
  cbn [succeeds]. split; [done|]. split; [|split; [exact H3|]].
  - split_and!; [lia|lia|apply K3; [lia|exact W2]|exact W3].
  - intros i Hi. rewrite A3, A2, A1 by lia. by rewrite Hm0.
Qed.

(** The arguments of the seven calls of [resource_thunk]. *)
Definition resource_calls : list (list Z * Z * Z) :=
  let op1 := 0x18000702 in let op2 := 0x18000902 in
  [(get_resource_template, op1, XLM_GET_RESOURCE); (get_resource_template, op1, XLM_GET_1_RESOURCE);
   (get_resource_template, op1, XLM_GET_IND_RESOURCE); (get_resource_template, op1, XLM_GET_1_IND_RESOURCE);
   (get_resource_template, op1, XLM_R_GET_RESOURCE); (get_named_resource_template, op2, XLM_GET_NAMED_RESOURCE);
   (get_named_resource_template, op2, XLM_GET_1_NAMED_RESOURCE)].

Lemma generate_powerpc_thunks_eq c :
  generate_powerpc_thunks c = for_each_op (fun '(t, op, xlm) => resource_thunk t op xlm) resource_calls c.
Proof using.
  unfold generate_powerpc_thunks, resource_calls.
  change (NativeOpcode (selector_index NATIVE_CHECK_LOAD_INVOC)) with (@Ok Z 0x18000702).
  change (NativeOpcode (selector_index NATIVE_NAMED_CHECK_LOAD_INVOC)) with (@Ok Z 0x18000902).
  cbn [for_each_op mbind outcome_bind].
  repeat (match goal with |- context [resource_thunk ?t ?o ?x ?c] =>
    destruct (resource_thunk t o x c) as [[? ?]| | | |]; [|reflexivity..] end; cbn [mbind outcome_bind]).
  reflexivity.
Qed.

Definition resource_call_ok (a : list Z * Z * Z) : Prop :=
  let '(t, op, xlm) := a in
  length t = 19%nat /\ is_uint 32 op /\ is_uint 31 xlm.

Lemma resource_calls_ok : Forall resource_call_ok resource_calls.
Proof using. repeat constructor; by vm_compute. Qed.

Definition resource_placed (a : list Z * Z * Z) (f : Z) (c : powerpc_cpu) (e : Z) : Prop :=
  let '(_, op, xlm) := a in e <= f /\ resource_code op xlm f c.

Lemma generate_powerpc_thunks_spec d c :
  ready d c -> d <= top -> p + 532 <= d ->
  succeeds (fun '(fs, c') => Forall2 (fun a f => exists e, d - 532 <= e /\ resource_placed a f c' e) resource_calls fs /\
    stored d (d - 532) c c') (generate_powerpc_thunks c).
Proof using Hp Htop.
  intros Hc Hd Hroom. rewrite generate_powerpc_thunks_eq.
  apply (for_each_op_spec _ 76 resource_call_ok resource_placed); try done.
  - intros [[t op] xlm] d' c' (H1 & H2 & H3) Hc' Hd' Hr'.
    eapply succeeds_weaken; [by apply resource_thunk_spec|]. intros [f c''] (-> & H & Hs). split; [|done].
    split; [lia|done].
  - intros [[t op] xlm] f c1 c2 d' H1 H2 Ha [Hf H]. split; [done|]. by apply (resource_code_above _ _ _ d' c1).
  - apply resource_calls_ok.
Qed.

(** ** Routine descriptors *)

Lemma memset_memcpy v n : forall a m, memset a v n m = memcpy a (replicate n v) m.
Proof using.
  induction n as [|n IH]; intros a m; cbn [memset memcpy replicate]; [done|].
  destruct (store_1 a v m); [apply IH|done..].
Qed.

Definition half (a v : Z) (c : powerpc_cpu) : Prop := ReadMacInt16 a c = Ok v.

(** A store of [n] bytes at [a]: what is read elsewhere is not disturbed. *)
Definition elsewhere (a : Z) (n : nat) (c c' : powerpc_cpu) : Prop :=
  (forall b v, b + 4 <= a \/ a + Z.of_nat n <= b -> word b v c -> word b v c') /\
  (forall b v, b + 2 <= a \/ a + Z.of_nat n <= b -> half b v c -> half b v c').

Lemma store_elsewhere n a v d c :
  ready d c -> p <= a -> a + Z.of_nat n <= top ->
  succeeds (fun c' => stored (a + Z.of_nat n) d c c' /\ elsewhere a n c c' /\
      load_be n (mem c') a = Ok (trunc (8 * Z.of_nat n) v))
    (cpu_write (store_be n a v) c).
Proof using.
  intros Hc Ha Ht. destruct (store_ready n a v d c Hc Ha Ht) as (m & Em & Hr & Hf).
  unfold cpu_write. rewrite Em. cbn [succeeds].
  pose proof (ready_mem _ _ Hc). pose proof (ready_mem _ _ Hr).
  split; [split; [exact Hr|intros i Hi; apply Hf; lia]|]. split; [|by eapply load_store_be].
  split; intros b w Hb; unfold word, half, ReadMacInt32, ReadMacInt16, vm_read_memory_4, vm_read_memory_2,
    vm_do_get_real_address; rewrite ?vm_do_read_memory_4_be, ?vm_do_read_memory_2_be by done;
    intros <-; eapply load_be_frame; done.
Qed.

Lemma cpu_write_ext f g c : (forall m, f m = g m) -> cpu_write f c = cpu_write g c.
Proof using. intros H. unfold cpu_write. by rewrite H. Qed.
Lemma WriteMacInt8_be a v c : WriteMacInt8 a v c = cpu_write (store_be 1 a v) c.
Proof using.
  apply cpu_write_ext. intros m. unfold vm_write_memory_1, vm_do_write_memory_1, vm_do_get_real_address.
  cbn [store_be]. change (8 * Z.of_nat 0) with 0. rewrite Z.shiftr_0_r.
  by destruct (store_1 a v m).
Qed.
Lemma WriteMacInt16_be a v c : WriteMacInt16 a v c = cpu_write (store_be 2 a v) c.
Proof using. apply cpu_write_ext. intros m. apply vm_do_write_memory_2_be. Qed.
Lemma WriteMacInt32_be' a v c : WriteMacInt32 a v c = cpu_write (store_be 4 a v) c.
Proof using. apply cpu_write_ext. intros m. apply vm_do_write_memory_4_be. Qed.

(** A descriptor at [dd] that leads to [proc]. *)
Definition descriptor (dd proc : Z) (c : powerpc_cpu) : Prop :=
  p <= dd /\ dd + 32 <= top /\ half dd 0xAAFE c /\ word (dd + 12) 0 c /\ word (dd + 20) proc c.

Lemma word_be d a v c : ready d c -> load_be 4 (mem c) a = Ok v -> word a v c.
Proof using.
  intros H. unfold word, ReadMacInt32, vm_read_memory_4, vm_do_get_real_address.
  by rewrite vm_do_read_memory_4_be by apply H.
Qed.
Lemma half_be d a v c : ready d c -> load_be 2 (mem c) a = Ok v -> half a v c.
Proof using.
  intros H. unfold half, ReadMacInt16, vm_read_memory_2, vm_do_get_real_address.
  by rewrite vm_do_read_memory_2_be by apply H.
Qed.

Lemma SheepRoutineDescriptor_spec proc d c :
  is_uint 32 proc -> ready d c -> d <= top -> p + 32 <= d ->
  succeeds (fun '(dd, c') => dd = d - 32 /\ descriptor dd proc c' /\ stored d (d - 32) c c')
    (SheepRoutineDescriptor 0 proc c).
Proof using Hp Htop.
  intros Hpr Hc Hd Hroom. unfold SheepRoutineDescriptor. change (SheepMem.align 32) with 32.
  destruct (Reserve_ready 32 d c Hc Hd ltac:(lia) eq_refl ltac:(lia)) as (c0 & -> & H0 & Hm0). cbn [mbind outcome_bind].
  unfold Mac_memset. rewrite (cpu_write_ext _ (memcpy (d - 32) (replicate 32 0))) by (intros m; apply memset_memcpy).
  rewrite !(trunc_small 32) by (unfold is_uint; lia).
  eapply succeeds_bind; [apply (memcpy_ready _ _ _ _ H0); cbn; lia|]. cbn [length replicate]. intros c1 (H1 & A1).
  rewrite WriteMacInt16_be. eapply succeeds_bind; [apply (store_elsewhere _ _ _ _ _ H1); lia|]. intros c2 ((H2 & A2) & E2 & W2).
  rewrite WriteMacInt8_be. eapply succeeds_bind; [apply (store_elsewhere _ _ _ _ _ H2); lia|]. intros c3 ((H3 & A3) & E3 & W3).
  rewrite WriteMacInt32_be'. eapply succeeds_bind; [apply (store_elsewhere _ _ _ _ _ H3); lia|]. intros c4 ((H4 & A4) & E4 & W4).
  rewrite WriteMacInt8_be. eapply succeeds_bind; [apply (store_elsewhere _ _ _ _ _ H4); lia|]. intros c5 ((H5 & A5) & E5 & W5).
  rewrite WriteMacInt16_be. eapply succeeds_bind; [apply (store_elsewhere _ _ _ _ _ H5); lia|]. intros c6 ((H6 & A6) & E6 & W6).
  rewrite WriteMacInt32_be'. eapply succeeds_bind; [apply (store_elsewhere _ _ _ _ _ H6); lia|]. intros c7 ((H7 & A7) & E7 & W7).
  rewrite ?Z.add_0_r, <- ?Z.add_assoc in *.
  apply (half_be _ _ _ _ H2) in W2. apply (word_be _ _ _ _ H4) in W4. apply (word_be _ _ _ _ H7) in W7.
  rewrite (trunc_small _ proc) in W7 by done.
  cbn [succeeds]. split; [done|]. split; [|split; [exact H7|]].
  - split_and!; [lia|lia| | |].
    + apply E7, E6, E5, E4, E3; [lia..|]. exact W2.
    + apply E7, E6, E5; [lia..|]. exact W4.
    + exact W7.
  - intros i Hi. rewrite A7, A6, A5, A4, A3, A2, A1 by lia. by rewrite Hm0.
Qed.

(** ** Start-up *)

Definition resource_selectors : list native_selector :=
  [NATIVE_GET_RESOURCE; NATIVE_GET_1_RESOURCE; NATIVE_GET_IND_RESOURCE; NATIVE_GET_1_IND_RESOURCE;
   NATIVE_R_GET_RESOURCE; NATIVE_GET_NAMED_RESOURCE; NATIVE_GET_1_NAMED_RESOURCE].

(** What [NativeFunction] leads to for routine [i]. *)
Definition routine_func (i : Z) (op : native_op_t) (c : powerpc_cpu) : Prop :=
  (forall k s t o x, resource_selectors !! k = Some s -> resource_calls !! k = Some (t, o, x) ->
     i = selector_index s -> resource_code o x (func op) c) /\
  (Forall (fun s => i <> selector_index s) resource_selectors -> func op = tvect op + 8).

(** Everything that start-up leaves for routine [i]. *)
Definition routine_ready (i : Z) (op : native_op_t) (c : powerpc_cpu) : Prop :=
  thunk i op c /\ routine_func i op c /\
  exists dd, desc op = Some dd /\ descriptor dd (tvect op) c.

Lemma set_func_lookup s f ops n op :
  set_func s f ops !! n = Some op -> exists op', ops !! n = Some op' /\ tvect op = tvect op' /\
    func op = if decide (n = Z.to_nat (selector_index s)) then f else func op'.
Proof using.
  unfold set_func. destruct (decide (n = Z.to_nat (selector_index s))) as [->|Hne].
  - rewrite list_lookup_alter_eq. intros (op' & E & ->)%fmap_Some. by exists op'.
  - rewrite list_lookup_alter_ne by done. intros E. by exists op.
Qed.

Lemma descriptor_above dd proc d c c' :
  mem_wf (mem c) -> mem_wf (mem c') -> d <= dd -> above d c c' -> descriptor dd proc c -> descriptor dd proc c'.
Proof using.
  intros Hc Hc' Hd Ha (Hl & Hh & W0 & W1 & W2). split_and!; [done|done| |..].
  - revert W0. unfold half, ReadMacInt16, vm_read_memory_2, vm_do_get_real_address.
    rewrite !vm_do_read_memory_2_be by done. intros <-. apply load_be_cong. intros i Hi. apply Ha. lia.
  - by apply (word_above d _ _ c); [..|lia| |].
  - by apply (word_above d _ _ c); [..|lia| |].
Qed.

Definition native_placed (i : Z) (op : native_op_t) (c : powerpc_cpu) (e : Z) : Prop :=
  e <= tvect op /\ func op = tvect op + 8 /\ desc op = None /\ thunk i op c.

Lemma native_thunks_spec d c :
  ready d c -> d <= top -> p + 624 <= d ->
  succeeds (fun '(ops, c') =>
    Forall2 (fun i op => exists e, d - 624 <= e /\ native_placed i op c' e) (count_up (Z.to_nat NATIVE_OP_MAX)) ops /\
    stored d (d - 624) c c') (for_each_op native_thunk (count_up (Z.to_nat NATIVE_OP_MAX)) c).
Proof using Hp Htop.
  intros Hc Hd Hroom. apply (for_each_op_spec _ 16 (fun i => 0 <= i < NATIVE_OP_MAX) native_placed); try done.
  - intros i d' c' Hi Hc' Hd' Hr'.
    eapply succeeds_weaken; [by apply native_thunk_spec|]. intros [op c''] (-> & H & Hs). split; [|done].
    unfold native_placed. cbn [tvect func desc]. split_and!; [lia|lia|done|done].
  - intros i op c1 c2 d' H1 H2 Ha (He & Hf & Hn & Ht). split_and!; try done.
    apply (thunk_above i op c1); [done|done| |done]. by apply (above_le _ d').
  - apply Forall_forall. intros i Hi%elem_of_count_up. exact Hi.
Qed.

(** The descriptors; [op] is the table entry before. *)
Definition described (op op' : native_op_t) (c : powerpc_cpu) (e : Z) : Prop :=
  tvect op' = tvect op /\ func op' = func op /\ exists dd, desc op' = Some dd /\ e <= dd /\ descriptor dd (tvect op) c.

Lemma describe_all_spec ops d c :
  Forall (fun op => is_uint 32 (tvect op) /\ 0 < tvect op) ops ->
  ready d c -> d <= top -> p + 32 * Z.of_nat (length ops) <= d ->
  succeeds (fun '(ops', c') =>
    Forall2 (fun op op' => exists e, d - 32 * Z.of_nat (length ops) <= e /\ described op op' c' e) ops ops' /\
    stored d (d - 32 * Z.of_nat (length ops)) c c') (for_each_op describe ops c).
Proof using Hp Htop.
  intros Hops Hc Hd Hroom.
  apply (for_each_op_spec _ 32 (fun op => is_uint 32 (tvect op) /\ 0 < tvect op) described); try done.
  - intros op d' c' [Hu Hpos] Hc' Hd' Hr'. unfold describe. destruct (Z.eqb_spec (tvect op) 0); [lia|].
    eapply succeeds_bind; [by apply SheepRoutineDescriptor_spec|]. intros [dd c''] (-> & H & Hs).
    cbn [succeeds]. split; [|done]. split_and!; [done|done|]. exists (d' - 32). split_and!; [done|lia|done].
  - intros op op' c1 c2 d' H1 H2 Ha (Ht & Hf & dd & Hdd & He & HD). split_and!; [done|done|].
    exists dd. split_and!; [done|done|]. by apply (descriptor_above _ _ d' c1).
Qed.

(** The seven assignments between the loops. *)
Definition set_funcs (fs : list Z) (ops : list native_op_t) : list native_op_t :=
  set_func NATIVE_GET_1_NAMED_RESOURCE (Zlookup fs 6) (set_func NATIVE_GET_NAMED_RESOURCE (Zlookup fs 5)
  (set_func NATIVE_R_GET_RESOURCE (Zlookup fs 4) (set_func NATIVE_GET_1_IND_RESOURCE (Zlookup fs 3)
  (set_func NATIVE_GET_IND_RESOURCE (Zlookup fs 2) (set_func NATIVE_GET_1_RESOURCE (Zlookup fs 1)
  (set_func NATIVE_GET_RESOURCE (Zlookup fs 0) ops)))))).

Lemma ThunksInit_eq c :
  ThunksInit c =
    ('(ops, c) ← for_each_op native_thunk (count_up (Z.to_nat NATIVE_OP_MAX)) c;
     '(funcs, c) ← generate_powerpc_thunks c;
     for_each_op describe (set_funcs funcs ops) c).
Proof using. reflexivity. Qed.

(** The table between the loops: code in place, no descriptors yet. *)
Definition routine_set (d : Z) (c : powerpc_cpu) (i : Z) (op : native_op_t) : Prop :=
  thunk i op c /\ routine_func i op c /\ 0 < tvect op /\ d <= tvect op /\ d <= func op.

(** Stores below [d] do not disturb it. *)
Lemma routine_set_above d c1 c2 i op op' :
  mem_wf (mem c1) -> mem_wf (mem c2) -> above d c1 c2 -> tvect op' = tvect op -> func op' = func op ->
  routine_set d c1 i op -> thunk i op' c2 /\ routine_func i op' c2.
Proof using.
  intros Hm1 Hm2 Ha Et Ef (Hth & (Hr & Hno) & _ & Hdt & Hdf). split.
  - apply (thunk_above i op c1 c2 Hm1 Hm2) in Hth; [|by apply (above_le _ d)].
    unfold thunk in *. by rewrite Et.
  - split; rewrite Ef; [|rewrite Et; exact Hno].
    intros k s t o x Hs Hk Hi. by apply (resource_code_above _ _ _ d c1), (Hr k s t).
Qed.

(** Tests between two routine numbers. *)
Ltac decide_closed :=
  repeat first [rewrite decide_True by reflexivity|rewrite decide_False by (vm_compute; discriminate)].

Lemma set_funcs_spec c1 c2 d fs ops :
  mem_wf (mem c1) -> mem_wf (mem c2) -> above d c1 c2 -> 0 < d ->
  Forall2 (fun i op => exists e, d <= e /\ native_placed i op c1 e) (count_up (Z.to_nat NATIVE_OP_MAX)) ops ->
  Forall2 (fun a f => exists e, d - 532 <= e /\ resource_placed a f c2 e) resource_calls fs ->
  Forall2 (routine_set (d - 532) c2) (count_up (Z.to_nat NATIVE_OP_MAX)) (set_funcs fs ops).
Proof using.
  intros Hm1 Hm2 Ha Hd Hops Hfs.
  assert (Hf : forall k t o x, resource_calls !! k = Some (t, o, x) ->
    d - 532 <= Zlookup fs (Z.of_nat k) /\ resource_code o x (Zlookup fs (Z.of_nat k)) c2).
  { intros k t o x Hk. destruct (Forall2_lookup_l _ _ _ _ _ Hfs Hk) as (f & Ef & e & He & Hef & H).
    unfold Zlookup. rewrite Nat2Z.id, (list_lookup_total_correct _ _ _ Ef). split; [lia|done]. }
  clear Hfs. apply Forall2_same_length_lookup. split.
  { unfold set_funcs, set_func. rewrite !length_alter. by eapply Forall2_length. }
  intros n i op Ei Eo. unfold set_funcs in Eo.
  do 7 (apply set_func_lookup in Eo as (? & Eo & ?Ht & ?Hf)).
  match type of Eo with _ = Some ?x => rename x into op0 end.
  destruct (Forall2_lookup_lr _ _ _ _ _ _ Hops Ei Eo) as (e & He & Hte & Hfu & _ & Hth).
  apply (thunk_above i op0 c1 c2 Hm1 Hm2) in Hth; [|by apply (above_le _ d); [lia|]].
  assert (n = Z.to_nat i /\ 0 <= i) as [-> Hi].
  { unfold count_up in Ei. rewrite list_lookup_fmap in Ei. destruct (seq 0 _ !! n) eqn:Es; [|discriminate].
    apply lookup_seq in Es as [-> _]. injection Ei as <-. lia. }
  assert (Htv : tvect op = tvect op0) by congruence.
  repeat match goal with H : func ?x = _, H' : context [func ?x] |- _ => rewrite H in H'; clear H end.
  match goal with H : func op = _ |- _ => rename H into Eo' end.
  assert (Hfb : d - 532 <= func op).
  { pose proof (fun k t o x H => proj1 (Hf k t o x H)) as Hb.
    pose proof (Hb 0%nat _ _ _ eq_refl). pose proof (Hb 1%nat _ _ _ eq_refl). pose proof (Hb 2%nat _ _ _ eq_refl).
    pose proof (Hb 3%nat _ _ _ eq_refl). pose proof (Hb 4%nat _ _ _ eq_refl). pose proof (Hb 5%nat _ _ _ eq_refl).
    pose proof (Hb 6%nat _ _ _ eq_refl). rewrite Eo'. repeat (case_decide; [assumption|]). clear -Hte He. lia. }
  unfold routine_set, thunk. rewrite !Htv. split; [exact Hth|]. split; [|lia]. split.
  - intros k s t o x' Hs Hk ->. specialize (Hf k t o x' Hk). apply proj2 in Hf. rewrite Eo'.
    do 7 (destruct k as [|k]; [injection Hs as <-; decide_closed; exact Hf|]).
    discriminate.
  - intros Hno. rewrite Htv, Eo'. unfold resource_selectors in Hno. repeat (apply Forall_cons in Hno as [? Hno]).
    repeat (rewrite decide_False by (intros E%Z2Nat.inj; [done|lia|discriminate])). reflexivity.
Qed.

(** C18: Start-up builds a table that works.  When the shared area has room for
    2404 bytes, [ThunksInit] succeeds and leaves for each of the 39 routines a
    TVECT that points to its fake opcode followed by a return, a routine
    descriptor that leads to the TVECT, and a function address: the opcode
    itself, or for the seven Resource Manager routines a thunk that loads the
    right old routine and ends in the right opcode; nothing outside the area's
    data is written. *)
Theorem ThunksInit_spec c :
  ready top c -> 0 < p -> p + 2404 <= top ->
  succeeds (fun '(ops, c') =>
    Forall2 (fun i op => routine_ready i op c') (count_up (Z.to_nat NATIVE_OP_MAX)) ops /\
    stored top (top - 2404) c c') (ThunksInit c).
Proof using Hp Htop.
  intros Hc Hp0 Hroom. rewrite ThunksInit_eq.
  eapply succeeds_bind; [apply (native_thunks_spec top c Hc); lia|]. intros [ops c1] (Hops & R1 & A1).
  eapply succeeds_bind; [apply (generate_powerpc_thunks_spec _ c1 R1); lia|]. intros [fs c2] (Hfs & R2 & A2).
  pose proof (set_funcs_spec c1 c2 (top - 624) fs ops (ready_mem _ _ R1) (ready_mem _ _ R2) A2 ltac:(lia) Hops Hfs) as Hset.
  assert (Hl : length (set_funcs fs ops) = 39%nat) by (by rewrite <- (Forall2_length _ _ _ Hset)).
  eapply succeeds_weaken.
  - apply (describe_all_spec _ (top - 624 - 532) c2); [|exact R2|lia|rewrite Hl; lia].
    apply (Forall2_Forall_r _ _ _ _ Hset). apply Forall_forall. intros i _ op ((Hl' & Hh & _) & _ & Hpos & _).
    split; [unfold is_uint; lia|exact Hpos].
  - intros [ops' c3]. rewrite Hl. change (Z.of_nat 39) with 39. intros (Hd & R3 & A3). split.
    + refine (Forall2_compose _ _ _ _ _ _ _ Hset Hd). intros i op op' Hs (e & _ & Et & Ef & dd & Edd & _ & HD).
      destruct (routine_set_above _ c2 c3 i op op' (ready_mem _ _ R2) (ready_mem _ _ R3) A3 Et Ef Hs) as [H1 H2].
      split; [exact H1|]. split; [exact H2|]. exists dd. by rewrite Et.
    + split; [by replace (top - 2404) with (top - 624 - 532 - 32 * 39) by lia|].
      eapply above_trans; [exact A1|]. eapply above_trans; [apply (above_le _ (top - 624)); [lia|exact A2]|].
      apply (above_le _ (top - 624 - 532)); [lia|exact A3].
Qed.
End Area.

(** ** From a fake opcode to its routine *)

(** The opcodes that return to LR themselves; the others are followed by a
    return or stand inside a thunk. *)
Definition leaves (s : native_selector) : bool :=
  match s with
  | NATIVE_CHECK_LOAD_INVOC | NATIVE_NAMED_CHECK_LOAD_INVOC | NATIVE_NQD_SYNC_HOOK
  | NATIVE_NQD_BITBLT_HOOK | NATIVE_NQD_FILLRECT_HOOK | NATIVE_NQD_UNKNOWN_HOOK
  | NATIVE_NQD_BITBLT | NATIVE_NQD_INVRECT | NATIVE_NQD_FILLRECT => false
  | _ => true
  end.

Section Dispatch.
Context {FPU : HostFPU} {HOST : Host} {DEC : CpuDecoder}.

Lemma native_opcode_fields s :
  let i := selector_index s in
  exists opcode, NativeOpcode i = Ok opcode /\ is_uint 32 opcode /\ search_decode opcode =
      Some (II "sheep"%string execute_sheep_h D_form 6 0 (Z.lor CFLOW_JUMP CFLOW_TRAP)) /\
    Z.land opcode 0x3f = 2 /\ extract NATIVE_OP_field opcode = i /\ test FN_field opcode = leaves s /\
    selector_of i = Some s.
Proof using. destruct s; cbv zeta; eexists; (split; [reflexivity|]); vm_compute; repeat split; discriminate. Qed.

(** C19: A fake opcode reaches its routine.  In one turn of the interpreter, the
    machine at the function address of a thunk runs the native routine that
    the thunk was made for, and no other, and continues at LR or, for the
    routines whose opcode does not return, at the return that follows. *)
Theorem native_thunk_runs p top s op c :
  thunk p top (selector_index s) op c -> pc c = tvect op + 8 ->
  interp_step c =
    (c ← Cpu.execute_native_op (selector_index s) c;
     poll (if leaves s then set_pc (lr c) c else increment_pc 4 c)).
Proof using.
  intros (_ & _ & _ & (opcode & Eo & W) & _) Hpc.
  destruct (native_opcode_fields s) as (opcode' & Eo' & Hu & Hd & Hk & Hx & Hf & _).
  rewrite Eo in Eo'. injection Eo' as <-.
  rewrite interp_step_poll. unfold interp_insn. rewrite Hpc. unfold word, ReadMacInt32 in W. rewrite W.
  cbn [mbind outcome_bind]. rewrite cpu_decode_spec by done. unfold search_decode in Hd. rewrite Hd.
  cbn [run_handler ii_execute]. unfold execute_sheep. rewrite Hk. cbn [Z.eqb Pos.eqb].
  rewrite Hx, Hf, bind_assoc. reflexivity.
Qed.
End Dispatch.

(** ** A concrete machine *)

(** 2404 bytes of shared area at 0x1000. *)
Definition thunk_machine : powerpc_cpu :=
  SheepMem.set_data 0x1964 (SheepMem.set_proc 0x1000 (cpu_init (bytes_at 0x1000 (replicate 2404 0)))).

Lemma bytes_at_mapped l : forall a i, a <= i < a + Z.of_nat (length l) -> is_Some (bytes_at a l !! i).
Proof.
  induction l as [|b l IH]; intros a i Hi; cbn [bytes_at length] in *; [lia|].
  destruct (decide (i = a)) as [->|Hne]; [rewrite lookup_insert_eq; by eexists|].
  rewrite lookup_insert_ne by done. apply IH. lia.
Qed.

Lemma thunk_machine_ready : ready 0x1000 0x1964 0x1964 thunk_machine.
Proof.
  unfold thunk_machine.
  assert (Hw : mem_wf (bytes_at 0x1000 (replicate 2404 0))) by (by apply bytes_at_wf, Forall_replicate).
  assert (Hm : forall i, 0x1000 <= i < 0x1964 -> is_Some (bytes_at 0x1000 (replicate 2404 0) !! i)).
  { intros i Hi. apply bytes_at_mapped. rewrite length_replicate. lia. }
  generalize dependent (bytes_at 0x1000 (replicate 2404 0)). intros m Hw Hm.
  split; [reflexivity|reflexivity|exact Hw|exact Hm].
Qed.

Lemma ThunksInit_spec_witness : exists ops c',
  ThunksInit thunk_machine = Ok (ops, c') /\ length ops = 39%nat /\
  NativeTVECT ops (selector_index NATIVE_VIDEO_VBL) = Ok 0x1934.
Proof.
  pose proof (ThunksInit_spec 0x1000 0x1964 ltac:(lia) ltac:(lia) thunk_machine thunk_machine_ready
    ltac:(lia) ltac:(lia)) as H.
  apply succeeds_Ok in H as ([ops c'] & E & H & _). exists ops, c'. split; [exact E|].
  split; [by rewrite <- (Forall2_length _ _ _ H)|].
  assert (Hv : match ThunksInit thunk_machine with
    | Ok (ops, _) => NativeTVECT ops (selector_index NATIVE_VIDEO_VBL) | _ => Abort end = Ok 0x1934)
    by (vm_compute; reflexivity).
  by rewrite E in Hv.
Defined.

(** The thunk of [NATIVE_VIDEO_VBL] at 0x1000. *)
Definition vbl_machine : powerpc_cpu :=
  set_lr 0x5000 (set_pc 0x1008 (cpu_init (bytes_at 0x1000
    [0; 0; 0x10; 0x08; 0; 0; 0; 0; 0x18; 0; 0x10; 0x82; 0x4e; 0x80; 0; 0x20]))).
Definition vbl_op : native_op_t := NativeOp 0x1000 0x1008 None.

Lemma vbl_thunk : thunk 0x1000 0x1010 (selector_index NATIVE_VIDEO_VBL) vbl_op vbl_machine.
Proof.
  split_and!; [by vm_compute|by vm_compute|by vm_compute| |by vm_compute].
  exists 0x18001082. by split; vm_compute.
Qed.

Lemma null_native_leaves i c :
  spcflags_empty (spcflags c) = true ->
  (c ← Cpu.execute_native_op (Host := null_host) i c;
   poll (HOST := null_host) (if leaves NATIVE_VIDEO_VBL then set_pc (lr c) c else increment_pc 4 c)) =
    Ok (true, set_pc (lr c) c).
Proof. intros H. cbn. unfold poll. change (spcflags (set_pc (lr c) c)) with (spcflags c). by rewrite H. Qed.

Lemma native_thunk_runs_witness :
  interp_step (HOST := null_host) (FPU := null_fpu) (DEC := built_decoder) vbl_machine =
    Ok (true, set_pc (lr vbl_machine) vbl_machine).
Proof.
  rewrite (native_thunk_runs (HOST := null_host) (FPU := null_fpu) (DEC := built_decoder)
    0x1000 0x1010 NATIVE_VIDEO_VBL vbl_op vbl_machine vbl_thunk (eq_refl 0x1008)).
  apply null_native_leaves. vm_compute. reflexivity.
Defined.
