(* ===== verification/Adb.v ===== *)
(** Apple Desktop Bus (adb.cpp, include/adb.h): the registers of an emulated
    mouse and keyboard, the state the host's events are collected in, and the
    interrupt function that hands them to Mac OS.

    The object is shared with the ADBOp routine, which emulated code calls: a
    call of [Execute68k] takes the object and returns it. *)
From S2P Require Import Prelude Bitfields Registers HostFPU Operations Memory Handlers BlockCache Cpu Operands ExecInt ExecMem ExecSys Irq Thunks.

Definition KEY_BUFFER_SIZE := 16.
Definition KEY_STATE_SIZE := 16.

Record ADBInput := ADB {
  fMouseButton : list bool;
  fMouseOldButton : list bool;
  fMouseRelative : bool;
  fMouseCoordX : Z;
  fMouseCoordY : Z;
  fMouseOldCoordX : Z;
  fMouseOldCoordY : Z;
  fKeyboardType : Z;
  fKeyBuffer : list Z;
  fKeyStates : list Z;
  fKeyReadPtr : Z;
  fKeyWritePtr : Z;
  fMouseRegister3 : Z * Z;
  fKeyRegister2 : Z * Z;
  fKeyRegister3 : Z * Z;
  mouse_proc : Z;  (** the static procedure of [Interrupt], 0 until it is built *)
}.

(** ** Assignments to members *)

Definition set_buttons (l : list bool) (a : ADBInput) : ADBInput :=
  ADB l (fMouseOldButton a) (fMouseRelative a) (fMouseCoordX a) (fMouseCoordY a) (fMouseOldCoordX a)
    (fMouseOldCoordY a) (fKeyboardType a) (fKeyBuffer a) (fKeyStates a) (fKeyReadPtr a) (fKeyWritePtr a)
    (fMouseRegister3 a) (fKeyRegister2 a) (fKeyRegister3 a) (mouse_proc a).
Definition set_old_buttons (l : list bool) (a : ADBInput) : ADBInput :=
  ADB (fMouseButton a) l (fMouseRelative a) (fMouseCoordX a) (fMouseCoordY a) (fMouseOldCoordX a)
    (fMouseOldCoordY a) (fKeyboardType a) (fKeyBuffer a) (fKeyStates a) (fKeyReadPtr a) (fKeyWritePtr a)
    (fMouseRegister3 a) (fKeyRegister2 a) (fKeyRegister3 a) (mouse_proc a).
Definition set_coords (relative : bool) (x y : Z) (a : ADBInput) : ADBInput :=
  ADB (fMouseButton a) (fMouseOldButton a) relative x y (fMouseOldCoordX a)
    (fMouseOldCoordY a) (fKeyboardType a) (fKeyBuffer a) (fKeyStates a) (fKeyReadPtr a) (fKeyWritePtr a)
    (fMouseRegister3 a) (fKeyRegister2 a) (fKeyRegister3 a) (mouse_proc a).
Definition set_old_coords (x y : Z) (a : ADBInput) : ADBInput :=
  ADB (fMouseButton a) (fMouseOldButton a) (fMouseRelative a) (fMouseCoordX a) (fMouseCoordY a) x y
    (fKeyboardType a) (fKeyBuffer a) (fKeyStates a) (fKeyReadPtr a) (fKeyWritePtr a)
    (fMouseRegister3 a) (fKeyRegister2 a) (fKeyRegister3 a) (mouse_proc a).
Definition set_keys (buffer states : list Z) (rp wp : Z) (a : ADBInput) : ADBInput :=
  ADB (fMouseButton a) (fMouseOldButton a) (fMouseRelative a) (fMouseCoordX a) (fMouseCoordY a)
    (fMouseOldCoordX a) (fMouseOldCoordY a) (fKeyboardType a) buffer states rp wp
    (fMouseRegister3 a) (fKeyRegister2 a) (fKeyRegister3 a) (mouse_proc a).
Definition set_registers (m3 k2 k3 : Z * Z) (a : ADBInput) : ADBInput :=
  ADB (fMouseButton a) (fMouseOldButton a) (fMouseRelative a) (fMouseCoordX a) (fMouseCoordY a)
    (fMouseOldCoordX a) (fMouseOldCoordY a) (fKeyboardType a) (fKeyBuffer a) (fKeyStates a)
    (fKeyReadPtr a) (fKeyWritePtr a) m3 k2 k3 (mouse_proc a).
Definition set_mouse_proc (p : Z) (a : ADBInput) : ADBInput :=
  ADB (fMouseButton a) (fMouseOldButton a) (fMouseRelative a) (fMouseCoordX a) (fMouseCoordY a)
    (fMouseOldCoordX a) (fMouseOldCoordY a) (fKeyboardType a) (fKeyBuffer a) (fKeyStates a)
    (fKeyReadPtr a) (fKeyWritePtr a) (fMouseRegister3 a) (fKeyRegister2 a) (fKeyRegister3 a) p.

(** ** Construction *)

(** [buffer] and [states] are what the allocated memory held: the constructor
    does not write the key buffer and the key matrix. *)
Definition ADBInput_new (buffer states : list Z) (keyboardtype : Z) : ADBInput :=
  ADB [false; false; false] [false; false; false] false 0 0 0 0 (u8 keyboardtype) buffer states 0 0
    (0x63, 0x01) (0xff, 0xff) (0x62, u8 keyboardtype) 0.

(** ** [ADBInput::Op] *)

(** [MATRIX(code)], as a condition. *)
Definition MATRIX (code : Z) (a : ADBInput) : bool :=
  Zb (Z.land (Zlookup (fKeyStates a) (Z.shiftr code 3)) (Z.shiftl 1 (Z.land (Z.lnot code) 7))).

(** Writes of the bytes of a packet to [data]. *)
Fixpoint put_data (data : Z) (bytes : list Z) (m : memory) : outcome memory :=
  match bytes with
  | [] => Ok m
  | b :: bytes => m ← store_1 data b m; put_data (data + 1) bytes m
  end.

(** [x &= ~bit] if the key is down. *)
Definition clear_if (down : bool) (bit x : Z) : Z := if down then Z.land x (u8 (Z.lnot bit)) else x.

(** The bytes of keyboard register 2. *)
Definition modifiers (a : ADBInput) : Z * Z :=
  let reg2hi := 0xff in
  let reg2lo := Z.lor (snd (fKeyRegister2 a)) 0xf8 in
  let reg2lo := clear_if (MATRIX 0x6b a) 0x40 reg2lo in
  let reg2lo := clear_if (MATRIX 0x47 a) 0x80 reg2lo in
  let reg2hi := clear_if (MATRIX 0x37 a) 0x01 reg2hi in
  let reg2hi := clear_if (MATRIX 0x3a a) 0x02 reg2hi in
  let reg2hi := clear_if (MATRIX 0x38 a) 0x04 reg2hi in
  let reg2hi := clear_if (MATRIX 0x36 a) 0x08 reg2hi in
  let reg2hi := clear_if (MATRIX 0x39 a) 0x20 reg2hi in
  let reg2hi := clear_if (MATRIX 0x75 a) 0x40 reg2hi in
  (reg2hi, reg2lo).

(** Listen register 3 of the mouse and of the keyboard. *)
Definition mouse_listen_3 (d1 d2 : Z) (r3 : Z * Z) : Z * Z :=
  if d2 =? 0xfe then (Z.lor (Z.land (fst r3) 0xf0) (Z.land d1 0x0f), snd r3)
  else if (d2 =? 1) || (d2 =? 2) || (d2 =? 4) then (fst r3, d2)
  else if d2 =? 0x00 then (Z.lor (Z.land (fst r3) 0xd0) (Z.land d1 0x2f), snd r3)
  else r3.
Definition key_listen_3 (d1 d2 : Z) (r3 : Z * Z) : Z * Z :=
  if d2 =? 0xfe then (Z.lor (Z.land (fst r3) 0xf0) (Z.land d1 0x0f), snd r3)
  else if d2 =? 0x00 then (Z.lor (Z.land (fst r3) 0xd0) (Z.land d1 0x2f), snd r3)
  else r3.

(** [data] is the host address of the packet, [rnd] what [rand()] returns. *)
Definition Op (op data rnd : Z) (a : ADBInput) (m : memory) : outcome (ADBInput * memory) :=
  if Z.land op 0x0f =? 0 then
    Ok (set_registers (0x63, 0x01) (0xff, 0xff) (0x62, fKeyboardType a) a, m)
  else
    let adr := Z.shiftr op 4 in
    let cmd := Z.land (Z.shiftr op 2) 3 in
    let reg := Z.land op 3 in
    let talk bytes := m ← put_data data bytes m; Ok (a, m) in
    if adr =? Z.land (fst (fMouseRegister3 a)) 0x0f then
      if cmd =? 2 then
        if reg =? 3 then
          d2 ← load_1 m (data + 2);
          d1 ← load_1 m (data + 1);
          Ok (set_registers (mouse_listen_3 d1 d2 (fMouseRegister3 a)) (fKeyRegister2 a) (fKeyRegister3 a) a, m)
        else Ok (a, m)
      else if cmd =? 3 then
        if reg =? 1 then talk [8; 97; 112; 112; 108; Z.shiftr 300 8; Z.land 300 0xff; 1; 3]
        else if reg =? 3 then
          talk [2; Z.lor (Z.land (fst (fMouseRegister3 a)) 0xf0) (Z.land rnd 0x0f); snd (fMouseRegister3 a)]
        else talk [0]
      else Ok (a, m)
    else if adr =? Z.land (fst (fKeyRegister3 a)) 0x0f then
      if cmd =? 2 then
        if reg =? 2 then
          d1 ← load_1 m (data + 1);
          d2 ← load_1 m (data + 2);
          Ok (set_registers (fMouseRegister3 a) (d1, d2) (fKeyRegister3 a) a, m)
        else if reg =? 3 then
          d2 ← load_1 m (data + 2);
          d1 ← load_1 m (data + 1);
          Ok (set_registers (fMouseRegister3 a) (fKeyRegister2 a) (key_listen_3 d1 d2 (fKeyRegister3 a)) a, m)
        else Ok (a, m)
      else if cmd =? 3 then
        if reg =? 2 then let '(hi, lo) := modifiers a in talk [2; hi; lo]
        else if reg =? 3 then
          talk [2; Z.lor (Z.land (fst (fKeyRegister3 a)) 0xf0) (Z.land rnd 0x0f); snd (fKeyRegister3 a)]
        else talk [0]
      else Ok (a, m)
    else if cmd =? 3 then talk [0]
    else Ok (a, m).

(** ** Events of the host *)

(** A host event: the object, and [InterruptFlags] and the processor it
    signals. *)
Definition event_state : Type := ADBInput * (Z * powerpc_cpu).

Definition MouseMoved (x y : Z) (s : event_state) : event_state :=
  let a := fst s in
  let a := if fMouseRelative a
           then set_coords true (sext 32 (fMouseCoordX a + x)) (sext 32 (fMouseCoordY a + y)) a
           else set_coords false x y a in
  (a, signal INTFLAG_ADB (snd s)).

(** An index outside an array is undefined in C++; here it faults. *)
Definition MouseButton (down : bool) (button : Z) (s : event_state) : outcome event_state :=
  if (0 <=? button) && (button <? 3)
  then Ok (set_buttons (<[Z.to_nat button := down]> (fMouseButton (fst s))) (fst s), signal INTFLAG_ADB (snd s))
  else Segv button.
Definition MouseDown : Z -> event_state -> outcome event_state := MouseButton true.
Definition MouseUp : Z -> event_state -> outcome event_state := MouseButton false.

Definition SetRelMouseMode (relative : bool) (a : ADBInput) : ADBInput :=
  if Bool.eqb (fMouseRelative a) relative then a else set_coords relative 0 0 a.

Definition key_event (byte : Z) (update : Z -> Z) (code : Z) (s : event_state) : outcome event_state :=
  let a := fst s in
  let buffer := Zinsert (fKeyWritePtr a) (u8 byte) (fKeyBuffer a) in
  let wp := (fKeyWritePtr a + 1) mod KEY_BUFFER_SIZE in
  let i := Z.shiftr code 3 in
  if (0 <=? i) && (i <? KEY_STATE_SIZE) then
    let states := Zinsert i (u8 (update (Zlookup (fKeyStates a) i))) (fKeyStates a) in
    Ok (set_keys buffer states (fKeyReadPtr a) wp a, signal INTFLAG_ADB (snd s))
  else Segv i.

Definition KeyDown (code : Z) : event_state -> outcome event_state :=
  key_event code (fun s => Z.lor s (Z.shiftl 1 (Z.land (Z.lnot code) 7))) code.
Definition KeyUp (code : Z) : event_state -> outcome event_state :=
  key_event (Z.lor code 0x80) (fun s => Z.land s (Z.lnot (Z.shiftl 1 (Z.land (Z.lnot code) 7)))) code.

(** ** [ADBInput::Interrupt] *)

Section Interrupt.
(** [Execute68k], and the contents of uninitialised 68k registers. *)
Context (Execute68k : Z -> M68kRegisters -> ADBInput * powerpc_cpu ->
  outcome (M68kRegisters * (ADBInput * powerpc_cpu))).
Context (uninit_68k : M68kRegisters).

Definition set_r68 (d : list Z) (a : list Z) (r : M68kRegisters) : M68kRegisters :=
  R68 (d ++ drop (length d) (r68_d r)) (a ++ drop (length a) (r68_a r)).

(** The call of an ADB handler: [base] is the entry of the device, [d0] the
    byte of its Talk 0 command; [r] is the local register set. *)
Definition call_handler (adb_base tmp_data base r3 : Z) (r : M68kRegisters) (s : ADBInput * powerpc_cpu)
  : outcome (M68kRegisters * (ADBInput * powerpc_cpu)) :=
  p ← ReadMacInt32 base (snd s);
  q ← ReadMacInt32 (u32 (base + 4)) (snd s);
  Execute68k p (set_r68 [Z.lor (Z.shiftl r3 4) 0x0c] [tmp_data; p; q; adb_base] r) s.

(** Writes of a packet through the Mac's address space. *)
Fixpoint write_packet (addr : Z) (bytes : list Z) (c : powerpc_cpu) : outcome powerpc_cpu :=
  match bytes with
  | [] => Ok c
  | b :: bytes => c ← WriteMacInt8 addr b c; write_packet (u32 (addr + 1)) bytes c
  end.

Definition button (down : bool) (b : Z) : Z := if down then 0 else b.

(** A movement and the buttons in the extended mouse protocol and in the
    100/200 dpi mode. *)
Definition mouse_packet (extended : bool) (mx my : Z) (mb : list bool) : list Z :=
  let b1 := Z.lor (Z.land my 0x7f) (button (nth 0 mb false) 0x80) in
  let b2 := Z.lor (Z.land mx 0x7f) (button (nth 1 mb false) 0x80) in
  if extended then
    [3; b1; b2; Z.lor (Z.lor (Z.land (Z.shiftr my 3) 0x70) (Z.land (Z.shiftr mx 7) 0x07))
                  (if nth 2 mb false then 0x08 else 0x88)]
  else [2; b1; b2].

Definition button_packet (extended : bool) (mb : list bool) : list Z :=
  let b1 := button (nth 0 mb false) 0x80 in
  let b2 := button (nth 1 mb false) 0x80 in
  if extended then [3; b1; b2; if nth 2 mb false then 0x08 else 0x88] else [2; b1; b2].

Definition call_mouse (adb_base tmp_data : Z) (packet : bool -> list Z) (mb : list bool) (r : M68kRegisters)
    (s : ADBInput * powerpc_cpu) : outcome (M68kRegisters * (ADBInput * powerpc_cpu)) :=
  let '(a, c) := s in
  c ← write_packet tmp_data (packet (snd (fMouseRegister3 a) =? 4)) c;
  '(r, (a, c)) ← call_handler adb_base tmp_data (u32 (adb_base + 16)) (fst (fMouseRegister3 a)) r (a, c);
  Ok (r, (set_old_buttons mb a, c)).

Definition mouse_proc_template : list Z :=
  [0x2f; 0x08; 0x2f; 0x00; 0x2f; 0x01; 0x70; 0x01; 0xaa; 0xdb; Z.shiftr M68K_RTS 8; Z.land M68K_RTS 0xff].

Definition build_mouse_proc (s : ADBInput * powerpc_cpu) : outcome (Z * (ADBInput * powerpc_cpu)) :=
  let '(a, c) := s in
  let proc := u32 (mouse_proc a) in
  if proc =? 0 then
    '(p, c) ← SheepProc mouse_proc_template c;
    Ok (p, (set_mouse_proc p a, c))
  else Ok (proc, (a, c)).

(** The absolute position, through the cursor device manager. *)
Definition move_to (adb_base mx my : Z) (r : M68kRegisters) (s : ADBInput * powerpc_cpu)
  : outcome (M68kRegisters * (ADBInput * powerpc_cpu)) :=
  '(proc, s) ← build_mouse_proc s;
  a0 ← ReadMacInt32 (u32 (adb_base + 16 + 4)) (snd s);
  '(r, (a, c)) ← Execute68k proc (set_r68 [u32 mx; u32 my] [a0] r) s;
  Ok (r, (set_old_coords mx my a, c)).

(** The pending keyboard events. *)
Definition send_key (adb_base tmp_data mac_code : Z) (r : M68kRegisters) (s : ADBInput * powerpc_cpu)
  : outcome (M68kRegisters * (ADBInput * powerpc_cpu)) :=
  let '(a, c) := s in
  c ← write_packet tmp_data [2; mac_code; if mac_code =? 0x7f then 0x7f else 0xff] c;
  call_handler adb_base tmp_data (u32 (adb_base + 4)) (fst (fKeyRegister3 a)) r (a, c).

Fixpoint key_loop (fuel : nat) (adb_base tmp_data : Z) (r : M68kRegisters) (s : ADBInput * powerpc_cpu)
  : outcome (M68kRegisters * (ADBInput * powerpc_cpu)) :=
  match fuel with
  | O => Fuel
  | S fuel =>
      let '(a, c) := s in
      if fKeyReadPtr a =? fKeyWritePtr a then Ok (r, s)
      else
        let mac_code := Zlookup (fKeyBuffer a) (fKeyReadPtr a) in
        let a := set_keys (fKeyBuffer a) (fKeyStates a) ((fKeyReadPtr a + 1) mod KEY_BUFFER_SIZE) (fKeyWritePtr a) a in
        '(r, s) ← send_key adb_base tmp_data mac_code r (a, c);
        key_loop fuel adb_base tmp_data r s
  end.

Definition buttons_changed (mb : list bool) (a : ADBInput) : bool := negb (bool_decide (mb = fMouseOldButton a)).

(** [fuel] bounds the keyboard loop. *)
Definition Interrupt (fuel : nat) (s : ADBInput * powerpc_cpu) : outcome (ADBInput * powerpc_cpu) :=
  let '(a, c) := s in
  adb_base ← ReadMacInt32 0xcf8 c;
  if (adb_base =? 0) || (adb_base =? 0xffffffff) then Ok s
  else
    let tmp_data := u32 (adb_base + 0x163) in
    let mx := fMouseCoordX a in
    let my := fMouseCoordY a in
    let a := if fMouseRelative a then set_coords true 0 0 a else a in
    let mb := fMouseButton a in
    '(r, s) ←
      (if fMouseRelative a then
         if negb (mx =? 0) || negb (my =? 0) || buttons_changed mb a
         then call_mouse adb_base tmp_data (fun e => mouse_packet e mx my mb) mb uninit_68k (a, c)
         else Ok (uninit_68k, (a, c))
       else
         '(r, s) ← (if negb (mx =? fMouseOldCoordX a) || negb (my =? fMouseOldCoordY a)
                    then move_to adb_base mx my uninit_68k (a, c) else Ok (uninit_68k, (a, c)));
         if buttons_changed mb (fst s)
         then call_mouse adb_base tmp_data (fun e => button_packet e mb) mb r s
         else Ok (r, s));
    '(r, (a, c)) ← key_loop fuel adb_base tmp_data r s;
    c ← WriteMacInt32 tmp_data 0 c;
    c ← WriteMacInt32 (u32 (tmp_data + 4)) 0 c;
    Ok (a, c).
End Interrupt.
