(* ===== verification/AdbSpec.v ===== *)
(** Properties of the Apple Desktop Bus (Adb.v): the keyboard buffer is a
    queue, the interrupt function hands its events over in order, devices
    answer at the address they were given, and mouse packets carry the
    movement. *)
From S2P Require Import Prelude Bitfields Registers HostFPU Operations Memory Handlers BlockCache Cpu Operands ExecInt ExecMem ExecSys Irq Thunks Adb.

(** ** The keyboard buffer as a queue *)

Record queue_wf (a : ADBInput) : Prop := {
  queue_buffer : length (fKeyBuffer a) = 16%nat;
  queue_states : length (fKeyStates a) = 16%nat;
  queue_read : 0 <= fKeyReadPtr a < KEY_BUFFER_SIZE;
  queue_write : 0 <= fKeyWritePtr a < KEY_BUFFER_SIZE;
  queue_bytes : Forall (is_uint 8) (fKeyStates a);
}.

(** The events between the two pointers, oldest first. *)
Definition pending (a : ADBInput) : list Z :=
  (fun k => Zlookup (fKeyBuffer a) ((fKeyReadPtr a + k) mod KEY_BUFFER_SIZE)) <$>
  count_up (Z.to_nat ((fKeyWritePtr a - fKeyReadPtr a) mod KEY_BUFFER_SIZE)).

(** [fKeyReadPtr] past the oldest event. *)
Definition advance (a : ADBInput) : ADBInput :=
  set_keys (fKeyBuffer a) (fKeyStates a) ((fKeyReadPtr a + 1) mod KEY_BUFFER_SIZE) (fKeyWritePtr a) a.

Lemma length_pending a : Z.of_nat (length (pending a)) = (fKeyWritePtr a - fKeyReadPtr a) mod KEY_BUFFER_SIZE.
Proof.
  unfold pending, count_up. rewrite !length_fmap, length_seq.
  pose proof (Z.mod_pos_bound (fKeyWritePtr a - fKeyReadPtr a) KEY_BUFFER_SIZE eq_refl). lia.
Qed.

Ltac ring_lia := unfold KEY_BUFFER_SIZE in *; Z.div_mod_to_equations; lia.

Lemma pending_empty a : queue_wf a -> pending a = [] <-> fKeyReadPtr a = fKeyWritePtr a.
Proof.
  intros [_ _ Hr Hw _]. rewrite <- length_zero_iff_nil. pose proof (length_pending a) as H. ring_lia.
Qed.

Lemma advance_wf a : queue_wf a -> queue_wf (advance a).
Proof. intros [H1 H2 Hr Hw H5]. split; try done. cbn. by apply Z.mod_pos_bound. Qed.

Lemma pending_cons a :
  queue_wf a -> fKeyReadPtr a <> fKeyWritePtr a ->
  pending a = Zlookup (fKeyBuffer a) (fKeyReadPtr a) :: pending (advance a).
Proof.
  intros [_ _ Hr Hw _] Hne. unfold pending, advance. cbn.
  set (r := fKeyReadPtr a) in *. set (w := fKeyWritePtr a) in *.
  assert (E : (w - r) mod KEY_BUFFER_SIZE = Z.succ ((w - (r + 1) mod KEY_BUFFER_SIZE) mod KEY_BUFFER_SIZE)) by ring_lia.
  rewrite E, Z2Nat.inj_succ by (by apply Z.mod_pos_bound). rewrite count_up_S, fmap_cons, <- list_fmap_compose.
  rewrite Z.add_0_r, (Z.mod_small r) by done. f_equal. apply list_fmap_ext. intros ? k _. cbn. f_equal. ring_lia.
Qed.

(** ** Host events *)

Inductive key := Down (code : Z) | Up (code : Z).
Definition code_of (k : key) : Z := match k with Down c => c | Up c => c end.
Definition is_down (k : key) : bool := match k with Down _ => true | Up _ => false end.
(** The byte of the event. *)
Definition encode (k : key) : Z := match k with Down c => c | Up c => Z.lor c 0x80 end.
Definition press (k : key) : event_state -> outcome event_state :=
  match k with Down c => KeyDown c | Up c => KeyUp c end.

(** Events added to [a] lead to [a']. *)
Record recorded (ks : list key) (a a' : ADBInput) : Prop := {
  recorded_wf : queue_wf a';
  recorded_pending : pending a' = pending a ++ (encode <$> ks);
  recorded_matrix c : 0 <= c < 128 ->
    MATRIX c a' = fold_left (fun b k => if code_of k =? c then is_down k else b) ks (MATRIX c a);
}.

Lemma MATRIX_testbit c a :
  queue_wf a -> 0 <= c < 128 ->
  MATRIX c a = Z.testbit (Zlookup (fKeyStates a) (Z.shiftr c 3)) (Z.land (Z.lnot c) 7).
Proof.
  intros Hw Hc. unfold MATRIX. assert (Hk : 0 <= Z.land (Z.lnot c) 7) by (apply Z.land_nonneg; lia).
  rewrite (Z.shiftl_mul_pow2 1), Z.mul_1_l by done. by apply Zb_land_bit.
Qed.

(** Codes share a byte and a bit only when they are equal. *)
Lemma code_split c d :
  0 <= c < 128 -> 0 <= d < 128 -> Z.shiftr c 3 = Z.shiftr d 3 -> Z.land (Z.lnot c) 7 = Z.land (Z.lnot d) 7 -> c = d.
Proof.
  intros Hc Hd H1 H2. rewrite !Z.shiftr_div_pow2 in H1 by done. change 7 with (Z.ones 3) in H2.
  rewrite !Z.land_ones in H2 by done. change (2 ^ 3) with 8 in *. unfold Z.lnot in H2.
  Z.div_mod_to_equations. lia.
Qed.

Lemma key_bit_range c : 0 <= Z.land (Z.lnot c) 7 < 8.
Proof. change 7 with (Z.ones 3). rewrite Z.land_ones by done. by apply Z.mod_pos_bound. Qed.

Lemma key_byte_range c : 0 <= c < 128 -> 0 <= Z.shiftr c 3 < KEY_STATE_SIZE.
Proof. intros. unfold KEY_STATE_SIZE. rewrite Z.shiftr_div_pow2 by done. change (2 ^ 3) with 8. Z.div_mod_to_equations. lia. Qed.

(** One event of [key_event], with what it does to the byte of the matrix. *)
Lemma key_event_queue byte update code s :
  queue_wf (fst s) -> 0 <= code < 128 -> is_uint 8 byte ->
  Z.of_nat (length (pending (fst s))) + 1 < KEY_BUFFER_SIZE ->
  exists a', key_event byte update code s = Ok (a', signal INTFLAG_ADB (snd s)) /\ queue_wf a' /\
    pending a' = pending (fst s) ++ [byte] /\
    forall i, 0 <= i < KEY_STATE_SIZE -> Zlookup (fKeyStates a') i =
      if i =? Z.shiftr code 3 then u8 (update (Zlookup (fKeyStates (fst s)) i)) else Zlookup (fKeyStates (fst s)) i.
Proof.
  destruct s as [a s]. cbn [fst snd]. intros Hq Hc Hb Hroom. rewrite length_pending in Hroom.
  pose proof (key_byte_range code Hc) as Hi. unfold key_event. cbn [fst snd].
  rewrite (proj2 (Z.leb_le _ _)), (proj2 (Z.ltb_lt _ _)) by lia. cbn [andb].
  eexists. split; [reflexivity|]. destruct Hq as [H1 H2 Hr Hw H5]. split_and!.
  - split; cbn; rewrite ?length_Zinsert; try done; [by apply Z.mod_pos_bound|].
    apply Forall_Zinsert; [done|]. by apply trunc_range.
  - unfold pending. cbn. set (r := fKeyReadPtr a) in *. set (w := fKeyWritePtr a) in *.
    assert (E : ((w + 1) mod KEY_BUFFER_SIZE - r) mod KEY_BUFFER_SIZE = Z.succ ((w - r) mod KEY_BUFFER_SIZE)) by ring_lia.
    rewrite E, Z2Nat.inj_succ by (by apply Z.mod_pos_bound). rewrite count_up_snoc, fmap_app. f_equal.
    + apply Forall_fmap_ext_1, Forall_forall. intros k Hk%elem_of_count_up. apply Zlookup_insert_ne; ring_lia.
    + cbn. f_equal. rewrite Z2Nat.id by (by apply Z.mod_pos_bound).
      replace ((r + (w - r) mod KEY_BUFFER_SIZE) mod KEY_BUFFER_SIZE) with w by ring_lia.
      rewrite Zlookup_insert_eq by (rewrite H1; ring_lia). by apply trunc_small.
  - intros i Hi'. cbn. destruct (Z.eqb_spec i (Z.shiftr code 3)) as [->|].
    + apply Zlookup_insert_eq. unfold KEY_STATE_SIZE in *. lia.
    + by apply Zlookup_insert_ne; [lia|lia|].
Qed.

Definition matrix_update (k : key) (s : Z) : Z :=
  match k with
  | Down code => Z.lor s (Z.shiftl 1 (Z.land (Z.lnot code) 7))
  | Up code => Z.land s (Z.lnot (Z.shiftl 1 (Z.land (Z.lnot code) 7)))
  end.

Lemma matrix_update_testbit k s i :
  0 <= i < 8 -> Z.testbit (u8 (matrix_update k s)) i =
    if Z.land (Z.lnot (code_of k)) 7 =? i then is_down k else Z.testbit s i.
Proof.
  intros Hi. destruct k as [c|c]; cbn [matrix_update code_of is_down]; pose proof (key_bit_range c) as Hk;
    rewrite testbit_trunc, Z.shiftl_mul_pow2, Z.mul_1_l by lia;
    rewrite ?Z.lor_spec, ?Z.land_spec, ?testbit_lnot, testbit_pow2 by lia;
    rewrite (Z.eqb_sym i), (proj2 (Z.ltb_lt i 8)), ?(proj2 (Z.leb_le 0 i)) by lia;
    destruct (_ =? i); cbn; rewrite ?orb_true_r, ?orb_false_r, ?andb_true_r, ?andb_false_r; done.
Qed.

Lemma encode_range k : 0 <= code_of k < 128 -> is_uint 8 (encode k).
Proof.
  intros. destruct k; cbn in *; [unfold is_uint; lia|]. apply is_uint_lor; [done|unfold is_uint; lia|done].
Qed.

Lemma press_recorded k s :
  queue_wf (fst s) -> 0 <= code_of k < 128 -> Z.of_nat (length (pending (fst s))) + 1 < KEY_BUFFER_SIZE ->
  exists a', press k s = Ok (a', signal INTFLAG_ADB (snd s)) /\ recorded [k] (fst s) a'.
Proof.
  intros Hq Hc Hroom.
  destruct (key_event_queue (encode k) (matrix_update k) (code_of k) s Hq Hc (encode_range k Hc) Hroom)
    as (a' & E & Hq' & Hp & Hs).
  exists a'. split; [by destruct k|]. split; [done|done|]. intros c Hc'. cbn [fold_left].
  rewrite !MATRIX_testbit, Hs by (done || by apply key_byte_range).
  pose proof (key_bit_range c).
  destruct (Z.eqb_spec (Z.shiftr c 3) (Z.shiftr (code_of k) 3)) as [E1|].
  - rewrite matrix_update_testbit by done. destruct (Z.eqb_spec (Z.land (Z.lnot (code_of k)) 7) (Z.land (Z.lnot c) 7)) as [E2|].
    + by rewrite (proj2 (Z.eqb_eq _ _) (code_split (code_of k) c Hc Hc' ltac:(congruence) E2)).
    + destruct (Z.eqb_spec (code_of k) c) as [E3|]; [congruence|done].
  - destruct (Z.eqb_spec (code_of k) c) as [E3|]; [congruence|done].
Qed.

Lemma recorded_app ks ks' a a' a'' : recorded ks a a' -> recorded ks' a' a'' -> recorded (ks ++ ks') a a''.
Proof.
  intros [W1 P1 M1] [W2 P2 M2]. split; [done| |].
  - by rewrite P2, P1, fmap_app, app_assoc.
  - intros c Hc. by rewrite M2, M1, fold_left_app.
Qed.

(** C20: Host key events are queued and tracked.  From any state of the keyboard
    a run of key events for which the 16-byte ring has room (15 events at
    most are pending) succeeds; the ring then holds what it held followed by
    the bytes of the events in the order they came, a key code is down in the
    matrix exactly if its last event was a key-down, and the processor has
    been signalled with [INTFLAG_ADB]. *)
Theorem key_events_recorded ks a f c :
  queue_wf a -> Forall (fun k => 0 <= code_of k < 128) ks ->
  Z.of_nat (length (pending a)) + Z.of_nat (length ks) < KEY_BUFFER_SIZE ->
  exists a' s', foldM press ks (a, (f, c)) = Ok (a', s') /\ recorded ks a a' /\
    s' = Nat.iter (length ks) (signal INTFLAG_ADB) (f, c).
Proof.
  generalize (f, c) as s. clear f c. revert a. induction ks as [|k ks IH]; intros a s Hq Hks Hroom; cbn [foldM length] in *.
  { exists a, s. split; [done|]. split; [|done]. split; [done|by rewrite app_nil_r|done]. }
  apply Forall_cons in Hks as [Hk Hks].
  destruct (press_recorded k (a, s) Hq Hk ltac:(cbn [fst]; lia)) as (a1 & E & R). cbn [fst snd] in *.
  destruct (IH a1 (signal INTFLAG_ADB s) (recorded_wf _ _ _ R) Hks) as (a2 & s2 & E2 & R2 & Hs).
  { rewrite (recorded_pending _ _ _ R), length_app, length_fmap. cbn [length]. lia. }
  exists a2, s2. rewrite E. cbn [mbind outcome_bind]. split; [done|]. split; [by apply (recorded_app [k] ks a a1 a2)|].
  by rewrite Hs, <- Nat.iter_succ_r.
Qed.

(** Nothing is queued and no key is down. *)
Definition idle : ADBInput := ADBInput_new (replicate 16 0) (replicate 16 0) 5.
Lemma idle_wf : queue_wf idle.
Proof. split; try done. by apply (bool_decide_unpack _). Qed.

Lemma key_events_recorded_witness :
  exists a' s', foldM press [Down 0x37; Down 0x0c; Up 0x0c] (idle, (0, cpu_init ∅)) = Ok (a', s') /\
    pending a' = [0x37; 0x0c; 0x8c] /\ MATRIX 0x37 a' = true /\ MATRIX 0x0c a' = false.
Proof.
  destruct (key_events_recorded [Down 0x37; Down 0x0c; Up 0x0c] idle 0 (cpu_init ∅) idle_wf) as (a' & s' & E & [_ P M] & _).
  - repeat (constructor; [cbn; lia|]). constructor.
  - vm_compute. reflexivity.
  - exists a', s'. split; [exact E|]. split; [exact P|]. split; [by rewrite (M 0x37) by lia|by rewrite (M 0x0c) by lia].
Defined.

(** The ring has no overflow check: the sixteenth event makes it look empty. *)
Lemma key_ring_overflow c :
  outcome_holds (fun s => pending (fst s) = []) (foldM press (replicate 16 (Down 1)) (idle, (0, c))).
Proof. vm_compute. reflexivity. Qed.

(** ** The interrupt function *)

Section Interrupt.
Context (Execute68k : Z -> M68kRegisters -> ADBInput * powerpc_cpu ->
  outcome (M68kRegisters * (ADBInput * powerpc_cpu))).
Context (uninit_68k : M68kRegisters).

(** Emulated code reaches the object through ADBOp only, which leaves the
    keyboard buffer alone (see [Op_queue]). *)
Definition keeps_queue : Prop := forall p r s r' s', Execute68k p r s = Ok (r', s') ->
  fKeyBuffer (fst s') = fKeyBuffer (fst s) /\ fKeyStates (fst s') = fKeyStates (fst s) /\
  fKeyReadPtr (fst s') = fKeyReadPtr (fst s) /\ fKeyWritePtr (fst s') = fKeyWritePtr (fst s).

(** The events of a list handed over one by one, each of them off the queue
    when the handler runs. *)
Fixpoint deliver (adb_base tmp_data : Z) (keys : list Z) (r : M68kRegisters) (s : ADBInput * powerpc_cpu)
  : outcome (M68kRegisters * (ADBInput * powerpc_cpu)) :=
  match keys with
  | [] => Ok (r, s)
  | k :: keys =>
      '(r, s) ← send_key Execute68k adb_base tmp_data k r (advance (fst s), snd s);
      deliver adb_base tmp_data keys r s
  end.

Lemma send_key_queue base tmp k r s r' s' :
  keeps_queue -> send_key Execute68k base tmp k r s = Ok (r', s') ->
  fKeyBuffer (fst s') = fKeyBuffer (fst s) /\ fKeyStates (fst s') = fKeyStates (fst s) /\
  fKeyReadPtr (fst s') = fKeyReadPtr (fst s) /\ fKeyWritePtr (fst s') = fKeyWritePtr (fst s).
Proof using.
  intros K. destruct s as [a c]. unfold send_key, call_handler. intros H.
  apply outcome_bind_Ok in H as (c1 & _ & H). apply outcome_bind_Ok in H as (p & _ & H).
  apply outcome_bind_Ok in H as (q & _ & H). by apply K in H.
Qed.

Lemma queue_same a b :
  fKeyBuffer b = fKeyBuffer a -> fKeyStates b = fKeyStates a ->
  fKeyReadPtr b = fKeyReadPtr a -> fKeyWritePtr b = fKeyWritePtr a ->
  pending b = pending a /\ (queue_wf a -> queue_wf b).
Proof using.
  intros H1 H2 H3 H4. split; [unfold pending; by rewrite H1, H3, H4|].
  intros [? ? ? ? ?]. split; congruence.
Qed.

(** C21: Every pending key event is handed to the keyboard handler, once and in
    order.  The loop of the interrupt function ends within one iteration more
    than there are pending events (so 16 are always enough): it calls the
    handler for exactly the pending bytes, oldest first, an error of a handler
    ends it, and when it completes the queue is empty.  The handler may do
    anything to the machine and to the ADB registers, but it does not touch the
    queue. *)
Theorem key_loop_delivers fuel base tmp r a c :
  keeps_queue -> queue_wf a -> (length (pending a) < fuel)%nat ->
  key_loop Execute68k fuel base tmp r (a, c) = deliver base tmp (pending a) r (a, c) /\
  outcome_holds (fun rs => pending (fst (snd rs)) = []) (deliver base tmp (pending a) r (a, c)).
Proof using.
  intros K. revert r a c. induction fuel as [|fuel IH]; intros r a c Hq Hf; [lia|]. cbn [key_loop].
  destruct (Z.eqb_spec (fKeyReadPtr a) (fKeyWritePtr a)) as [E|Hne].
  { apply pending_empty in E; [|done]. by rewrite E. }
  rewrite (pending_cons a Hq Hne) in *. cbn [length deliver fst snd] in *. fold (advance a).
  destruct (send_key _ _ _ _ r (advance a, c)) as [[r1 [a1 c1]]| | | |] eqn:Es; cbn [mbind outcome_bind]; try done.
  apply send_key_queue in Es as (E1 & E2 & E3 & E4); [|done]. cbn [fst] in *.
  destruct (queue_same _ _ E1 E2 E3 E4) as [Hp Hw]. rewrite <- Hp.
  apply IH; [by apply Hw, advance_wf|]. rewrite Hp. lia.
Qed.
End Interrupt.

Lemma Op_queue op data rnd a m :
  outcome_holds (fun s => fKeyBuffer (fst s) = fKeyBuffer a /\ fKeyStates (fst s) = fKeyStates a /\
    fKeyReadPtr (fst s) = fKeyReadPtr a /\ fKeyWritePtr (fst s) = fKeyWritePtr a) (Op op data rnd a m).
Proof.
  assert (T : forall bytes, outcome_holds (fun s : ADBInput * memory => fKeyBuffer (fst s) = fKeyBuffer a /\
    fKeyStates (fst s) = fKeyStates a /\ fKeyReadPtr (fst s) = fKeyReadPtr a /\ fKeyWritePtr (fst s) = fKeyWritePtr a)
    (m ← put_data data bytes m; Ok (a, m))).
  { intros bytes. by destruct (put_data data bytes m). }
  unfold Op. cbn zeta.
  repeat match goal with
  | |- context [if ?b then _ else _] => destruct b; try done; try apply T
  | |- context [load_1 m ?d] => destruct (load_1 m d); cbn [mbind outcome_bind]; try done
  | |- context [let '(_, _) := modifiers a in _] => destruct (modifiers a)
  end; try done; apply T.
Qed.

(** A handler that returns at once, and two key events: both are delivered. *)
Definition two_keys : ADBInput :=
  set_keys [0x37; 0xb7; 0; 0; 0; 0; 0; 0; 0; 0; 0; 0; 0; 0; 0; 0] (replicate 16 0) 0 2 idle.
Definition adb_machine : powerpc_cpu :=
  cpu_init (list_to_map ((fun i => (0x1000 + i, 0)) <$> count_up 12 ++ [0x163; 0x164; 0x165])).
Definition return_at_once (p : Z) (r : M68kRegisters) (s : ADBInput * powerpc_cpu)
  : outcome (M68kRegisters * (ADBInput * powerpc_cpu)) := Ok (r, s).

Lemma key_loop_delivers_witness :
  pending two_keys = [0x37; 0xb7] /\
  exists r a c, key_loop return_at_once 16 0x1000 0x1163 (R68 [] []) (two_keys, adb_machine) = Ok (r, (a, c)) /\
    pending a = [].
Proof.
  split; [reflexivity|].
  destruct (key_loop_delivers return_at_once 16 0x1000 0x1163 (R68 [] []) two_keys adb_machine) as [E H].
  - intros p r s r' s' [= -> ->]. done.
  - split; try done; cbn; try lia. by apply (bool_decide_unpack _).
  - vm_compute. lia.
  - rewrite E. destruct (completes_holds (fun rs => pending (fst (snd rs)) = [])
      (deliver return_at_once 0x1000 0x1163 (pending two_keys) (R68 [] []) (two_keys, adb_machine)))
      as ([r [a c]] & D & P); [vm_compute; reflexivity|exact H|]. exists r, a, c. by split.
Defined.

(** ** Mouse packets *)

(** What the Mac's driver reads from a packet: movement and the buttons that
    are down. *)
Definition decode_packet (p : list Z) : Z * Z * list bool :=
  match p with
  | [2; b1; b2] => (sext 7 b2, sext 7 b1, [negb (Z.testbit b1 7); negb (Z.testbit b2 7)])
  | [3; b1; b2; b3] =>
      (sext 10 (Z.lor (Z.land b2 0x7f) (Z.shiftl (Z.land b3 0x07) 7)),
       sext 10 (Z.lor (Z.land b1 0x7f) (Z.shiftl (Z.land b3 0x70) 3)),
       [negb (Z.testbit b1 7); negb (Z.testbit b2 7); negb (Z.testbit b3 7)])
  | _ => (0, 0, [])
  end.

Lemma button_byte x down : Z.testbit (Z.lor (Z.land x 0x7f) (button down 0x80)) 7 = negb down.
Proof.
  change 0x7f with (Z.ones 7). rewrite Z.lor_spec, Z.land_spec, Z.testbit_ones by done.
  by destruct down; rewrite ?andb_false_r.
Qed.

Lemma movement_byte x b k : 0 <= k < 7 -> Z.testbit (Z.lor (Z.land x 0x7f) (button b 0x80)) k = Z.testbit x k.
Proof.
  intros Hk. change 0x80 with (Z.shiftl 1 7). change 0x7f with (Z.ones 7).
  rewrite Z.lor_spec, Z.land_spec, Z.testbit_ones by lia. split_cmp.
  assert (E : Z.testbit (button b (Z.shiftl 1 7)) k = false).
  { destruct b; cbn [button]; [apply Z.bits_0|]. rewrite testbit_shiftl. change 1 with (bZ true).
    rewrite testbit_bZ. split_cmp; by rewrite ?andb_false_r. }
  rewrite E. bool_simpl. done.
Qed.

(** The high bits of an extended movement. *)
Lemma high_bits mx my (down : bool) k :
  0 <= k < 8 ->
  Z.testbit (Z.lor (Z.lor (Z.land (Z.shiftr my 3) 0x70) (Z.land (Z.shiftr mx 7) 0x07)) (if down then 0x08 else 0x88)) k =
    if k <? 3 then Z.testbit mx (k + 7) else if k =? 3 then true else if k <? 7 then Z.testbit my (k + 3) else negb down.
Proof.
  intros Hk. assert (k = 0 \/ k = 1 \/ k = 2 \/ k = 3 \/ k = 4 \/ k = 5 \/ k = 6 \/ k = 7) as E by lia.
  rewrite !Z.lor_spec, !Z.land_spec, !testbit_shiftr.
  destruct E as [->|[->|[->|[->|[->|[->|[->| ->]]]]]]]; destruct down; cbn [Z.leb Z.ltb Z.eqb Z.compare Pos.compare Pos.compare_cont andb Z.testbit Pos.testbit Pos.pred_N Pos.pred_double];
    rewrite ?andb_false_r, ?andb_true_r, ?orb_false_r, ?orb_true_r; reflexivity.
Qed.

Lemma movement_byte7 x b : trunc 7 (Z.lor (Z.land x 0x7f) (button b 0x80)) = trunc 7 x.
Proof.
  apply Z.bits_inj'; intros k Hk. rewrite !testbit_trunc by done.
  destruct (Z.ltb_spec k 7); cbn [andb]; [apply movement_byte; lia|done].
Qed.

(** Ten bits put together from the low byte and the field [m] at [n] of the
    third byte. *)
Lemma movement_join x b h n :
  (forall k, 0 <= k < 3 -> Z.testbit h k = Z.testbit x (k + 7)) ->
  (forall k, 3 <= k -> Z.testbit h k = false) -> n = 7 ->
  trunc 10 (Z.lor (Z.land (Z.lor (Z.land x 0x7f) (button b 0x80)) 0x7f) (Z.shiftl h n)) = trunc 10 x.
Proof.
  intros Hlow Hhigh ->. change 0x7f with (Z.ones 7). apply Z.bits_inj'; intros k Hk. rewrite !testbit_trunc by done.
  destruct (Z.ltb_spec k 10); cbn [andb]; [|done].
  rewrite Z.lor_spec, Z.land_spec, Z.testbit_ones, testbit_shiftl by done.
  destruct (Z.ltb_spec k 7).
  - change (Z.ones 7) with 0x7f. rewrite movement_byte by lia. rewrite (Z.testbit_neg_r h) by lia.
    split_cmp. bool_simpl. done.
  - rewrite Hlow by lia. replace (k - 7 + 7) with k by lia. split_cmp. by rewrite !andb_false_r.
Qed.

Lemma low_field y k : 0 <= k < 3 -> Z.testbit (Z.land y 0x07) k = Z.testbit y k.
Proof.
  intros. change 0x07 with (Z.ones 3). rewrite Z.land_spec, Z.testbit_ones by done.
  split_cmp. apply andb_true_r.
Qed.
Lemma high_field y k : 3 <= k -> Z.testbit (Z.land y 0x07) k = false.
Proof.
  intros. change 0x07 with (Z.ones 3). rewrite Z.land_spec, Z.testbit_ones by done.
  split_cmp. apply andb_false_r.
Qed.
Lemma field_at y : Z.shiftl (Z.land y 0x70) 3 = Z.shiftl (Z.land (Z.shiftr y 4) 0x07) 7.
Proof. change 0x70 with (Z.shiftl (Z.ones 3) 4). change (Z.land (Z.shiftr y 4) 0x07) with (Z.land (Z.shiftr y 4) (Z.ones 3)). bits. Qed.

(** Mouse packets carry the movement.  The Mac decodes from the packet
    exactly the movement accumulated and the buttons, if the movement fits the
    packet: 7 bits signed in the 100/200 dpi mode and 10 bits in the extended
    protocol (a larger movement wraps around).  A packet that reports buttons
    only decodes to no movement. *)
Theorem mouse_packet_roundtrip (extended : bool) (mx my : Z) (b0 b1 b2 : bool) :
  let w := if extended then 10 else 7 in
  let mb := [b0; b1; b2] in
  let decoded := if extended then mb else [b0; b1] in
  (- 2 ^ (w - 1) <= mx < 2 ^ (w - 1) -> - 2 ^ (w - 1) <= my < 2 ^ (w - 1) ->
   decode_packet (mouse_packet extended mx my mb) = (mx, my, decoded)) /\
  decode_packet (button_packet extended mb) = (0, 0, decoded).
Proof.
  cbn zeta. split; [intros Hx Hy|by destruct extended, b0, b1, b2].
  destruct extended; unfold mouse_packet, decode_packet; cbn [nth];
    rewrite !button_byte, !negb_involutive.
  - rewrite (high_bits mx my b2 7) by lia. cbn [Z.ltb Z.eqb Pos.eqb Z.compare Pos.compare Pos.compare_cont].
    rewrite negb_involutive, field_at.
    apply (f_equal2 pair); [apply (f_equal2 pair)|done]; (etrans; [apply sext_cong|by apply sext_small]).
    + apply movement_join; [|apply high_field|done].
      intros k Hk. rewrite low_field, high_bits by lia. split_cmp. done.
    + apply movement_join; [|apply high_field|done].
      intros k Hk. rewrite low_field, testbit_shiftr, high_bits by lia. split_cmp. cbn [andb]. f_equal. lia.
  - apply (f_equal2 pair); [apply (f_equal2 pair)|done]; (etrans; [apply sext_cong, movement_byte7|by apply sext_small]).
Qed.

Lemma mouse_packet_roundtrip_witness :
  mouse_packet true (-5) 100 [true; false; false] = [3; 0x64; 0xfb; 0x8f] /\
  decode_packet [3; 0x64; 0xfb; 0x8f] = (-5, 100, [true; false; false]).
Proof.
  split; [reflexivity|].
  exact (proj1 (mouse_packet_roundtrip true (-5) 100 true false false) ltac:(done) ltac:(done)).
Defined.

(** A movement of 64 in the 100/200 dpi mode is read as one of -64. *)
Lemma mouse_packet_wraps : decode_packet (mouse_packet false 64 0 [false; false; false]) = (-64, 0, [false; false]).
Proof. reflexivity. Qed.

(** ** Addresses *)

Definition mouse_address (a : ADBInput) : Z := Z.land (fst (fMouseRegister3 a)) 0x0f.
Definition key_address (a : ADBInput) : Z := Z.land (fst (fKeyRegister3 a)) 0x0f.

Lemma op_fields adr low :
  0 <= low < 16 ->
  Z.land (adr * 16 + low) 0x0f = low /\ Z.shiftr (adr * 16 + low) 4 = adr /\
  Z.land (Z.shiftr (adr * 16 + low) 2) 3 = low / 4 /\ Z.land (adr * 16 + low) 3 = low mod 4.
Proof.
  intros Hl. change 0x0f with (Z.ones 4). change 3 with (Z.ones 2).
  rewrite !Z.land_ones, !Z.shiftr_div_pow2 by done. change (2 ^ 4) with 16. change (2 ^ 2) with 4.
  Z.div_mod_to_equations. lia.
Qed.

(** The new register 3 has the low nibble of the packet's first byte. *)
Lemma readdress x d : Z.land (Z.lor (Z.land x 0xf0) (Z.land d 0x0f)) 0x0f = Z.land d 0x0f /\
  Z.land (Z.lor (Z.land x 0xf0) (Z.land d 0x0f)) 0xf0 = Z.land x 0xf0.
Proof.
  change 0xf0 with (Z.shiftl (Z.ones 4) 4). change 0x0f with (Z.ones 4). split; bits.
Qed.

Lemma talk_Ok data bytes (a : ADBInput) m m' : put_data data bytes m = Ok m' ->
  (m ← put_data data bytes m; Ok (a, m)) = Ok (a, m').
Proof. by intros ->. Qed.

Ltac run_op adr := unfold Op; cbn zeta;
  destruct (op_fields adr 0x0b ltac:(done)) as (-> & -> & -> & ->) ||
  destruct (op_fields adr 0x0f ltac:(done)) as (-> & -> & -> & ->);
  change (0x0b / 4) with 2; change (0x0b mod 4) with 3; change (0x0f / 4) with 3; change (0x0f mod 4) with 3;
  cbn [Z.eqb Pos.eqb].

(** An ADB device answers where it was told to.  Listen to register 3 with
    handler 0xfe moves the addressed device to the address in the packet and
    changes nothing else, and Talk at the new address then gives the two bytes
    of register 3: the device's flags, a random address, and its handler.
    This holds for the mouse, and for the keyboard while the mouse has another
    address both times. *)
Theorem listen_moves_device data rnd rnd' d1 a m :
  load_1 m (data + 1) = Ok d1 -> load_1 m (data + 2) = Ok 0xfe ->
  let new := Z.land d1 0x0f in
  let reply r3 := [2; Z.lor (Z.land (fst r3) 0xf0) (Z.land rnd' 0x0f); snd r3] in
  (exists r3, let a' := set_registers r3 (fKeyRegister2 a) (fKeyRegister3 a) a in
    Op (mouse_address a * 16 + 0x0b) data rnd a m = Ok (a', m) /\ mouse_address a' = new /\
    Op (new * 16 + 0x0f) data rnd' a' m = (m' ← put_data data (reply (fMouseRegister3 a)) m; Ok (a', m'))) /\
  (mouse_address a <> key_address a -> mouse_address a <> new ->
   exists r3, let a' := set_registers (fMouseRegister3 a) (fKeyRegister2 a) r3 a in
    Op (key_address a * 16 + 0x0b) data rnd a m = Ok (a', m) /\ key_address a' = new /\
    Op (new * 16 + 0x0f) data rnd' a' m = (m' ← put_data data (reply (fKeyRegister3 a)) m; Ok (a', m'))).
Proof.
  intros H1 H2 new reply. split.
  - exists (mouse_listen_3 d1 0xfe (fMouseRegister3 a)). cbn zeta.
    destruct (readdress (fst (fMouseRegister3 a)) d1) as [R1 R2].
    split_and!; [|exact R1|].
    + run_op (mouse_address a). fold (mouse_address a). rewrite Z.eqb_refl, H1, H2. done.
    + run_op new. cbn. rewrite R1, Z.eqb_refl, R2. done.
  - intros Hk Hn. exists (key_listen_3 d1 0xfe (fKeyRegister3 a)). cbn zeta.
    destruct (readdress (fst (fKeyRegister3 a)) d1) as [R1 R2].
    split_and!; [|exact R1|].
    + run_op (key_address a). fold (mouse_address a). fold (key_address a).
      rewrite Z.eqb_refl, H1, H2, (proj2 (Z.eqb_neq _ _)) by congruence. done.
    + run_op new. cbn [set_registers fMouseRegister3 fKeyRegister3]. fold (mouse_address a).
      rewrite (proj2 (Z.eqb_neq new _)) by congruence. cbn. rewrite R1, Z.eqb_refl, R2. done.
Qed.

Definition adb_packet : memory := list_to_map [(0, 2); (1, 0x0a); (2, 0xfe)].

Lemma listen_moves_device_witness :
  exists r3, Op 0x3b 0 7 idle adb_packet = Ok (set_registers r3 (0xff, 0xff) (0x62, 5) idle, adb_packet) /\
    mouse_address (set_registers r3 (0xff, 0xff) (0x62, 5) idle) = 0x0a.
Proof.
  destruct (listen_moves_device 0 7 9 0x0a idle adb_packet) as [(r3 & E & A & _) _];
    [vm_compute; reflexivity|vm_compute; reflexivity|].
  exists r3. split; [exact E|exact A].
Defined.
