(* ===== verification/Prefs.v ===== *)
(** The settings (prefs.cpp, prefs_items.cpp, Unix/prefs_unix.cpp): the list of
    items, look-up, replacement and removal, the settings file, and command
    line options.

    C strings are lists of characters without the terminator; a [FILE] is the
    list of characters that are left to read or have been written. *)
From Stdlib Require Import Ascii String.
From S2P Require Import Prelude.

#[local] Open Scope list_scope.

Abbreviation cstring := (list ascii).
Definition cstr (s : string) : cstring := list_ascii_of_string s.
Definition NUL : ascii := "000".
Definition newline : ascii := "010".

(** ** Items *)

Inductive prefs_type := TYPE_STRING | TYPE_BOOLEAN | TYPE_INT32 | TYPE_ANY.

#[export] Instance prefs_type_eq_dec : EqDecision prefs_type.
Proof. solve_decision. Defined.

(** What [data] points to; the type of the node says which. *)
Inductive prefs_data := DString (s : cstring) | DBool (b : bool) | DInt32 (z : Z).

Definition type_of (d : prefs_data) : prefs_type :=
  match d with DString _ => TYPE_STRING | DBool _ => TYPE_BOOLEAN | DInt32 _ => TYPE_INT32 end.

Record prefs_node := Node { name : cstring; data : prefs_data }.

(** The list [the_prefs], first node first. *)
Abbreviation prefs := (list prefs_node).

Record prefs_desc := PDesc { d_name : cstring; d_type : prefs_type; d_multiple : bool }.

#[export] Instance prefs_desc_eq_dec : EqDecision prefs_desc.
Proof. solve_decision. Defined.

Definition str_item (n : string) := PDesc (cstr n) TYPE_STRING false.
Definition multi_item (n : string) := PDesc (cstr n) TYPE_STRING true.
Definition bool_item (n : string) := PDesc (cstr n) TYPE_BOOLEAN false.
Definition int_item (n : string) := PDesc (cstr n) TYPE_INT32 false.

Definition common_prefs_items : list prefs_desc :=
  [multi_item "disk"; multi_item "floppy"; multi_item "cdrom"; str_item "extfs";
   str_item "scsi0"; str_item "scsi1"; str_item "scsi2"; str_item "scsi3"; str_item "scsi4";
   str_item "scsi5"; str_item "scsi6"; str_item "screen"; int_item "windowmodes"; int_item "screenmodes";
   str_item "seriala"; str_item "serialb"; str_item "rom"; int_item "bootdrive"; int_item "bootdriver";
   int_item "ramsize"; int_item "frameskip"; bool_item "gfxaccel"; bool_item "nocdrom"; bool_item "nonet";
   bool_item "nosound"; bool_item "nogui"; bool_item "noclipconversion"; bool_item "ignoresegv";
   bool_item "ignoreillegal"; bool_item "jit"; bool_item "jit68k"; int_item "keyboardtype"].

(** With [HAVE_SIGSEGV_SKIP_INSTRUCTION]. *)
Definition platform_prefs_items : list prefs_desc :=
  [str_item "ether"; str_item "etherconfig"; bool_item "keycodes"; str_item "keycodefile";
   int_item "mousewheelmode"; int_item "mousewheellines"; str_item "dsp"; str_item "mixer";
   bool_item "ignoresegv"; bool_item "idlewait"].

Fixpoint find_in_list (n : cstring) (items : list prefs_desc) : option prefs_desc :=
  match items with
  | [] => None
  | d :: items => if decide (d_name d = n) then Some d else find_in_list n items
  end.
Definition find_prefs_desc (n : cstring) : option prefs_desc :=
  match find_in_list n common_prefs_items with
  | Some d => Some d
  | None => find_in_list n platform_prefs_items
  end.

(** ** Look-up and replacement *)

(** [malloc] does not fail. *)
Definition add_data (n : cstring) (d : prefs_data) (ps : prefs) : prefs := ps ++ [Node n d].

Definition PrefsAddString (n s : cstring) : prefs -> prefs := add_data n (DString s).
Definition PrefsAddBool (n : cstring) (b : bool) : prefs -> prefs := add_data n (DBool b).
Definition PrefsAddInt32 (n : cstring) (z : Z) : prefs -> prefs := add_data n (DInt32 z).

Definition node_matches (n : cstring) (t : prefs_type) (p : prefs_node) : bool :=
  (bool_decide (t = TYPE_ANY) || bool_decide (type_of (data p) = t)) && bool_decide (name p = n).

(** The position of the node: [i] counts the matching ones before it. *)
Fixpoint find_from (i : Z) (pos : nat) (n : cstring) (t : prefs_type) (index : Z) (ps : prefs) : option nat :=
  match ps with
  | [] => None
  | p :: ps =>
      if node_matches n t p then if i =? index then Some pos else find_from (i + 1) (S pos) n t index ps
      else find_from i (S pos) n t index ps
  end.
Definition find_node (n : cstring) (t : prefs_type) (index : Z) (ps : prefs) : option nat :=
  find_from 0 0 n t index ps.

(** [p->data = d] *)
Definition set_data (d : prefs_data) (p : prefs_node) : prefs_node := Node (name p) d.

Definition replace (n : cstring) (t : prefs_type) (index : Z) (d : prefs_data) (ps : prefs) : prefs :=
  match find_node n t index ps with
  | Some k => alter (set_data d) k ps
  | None => add_data n d ps
  end.
Definition PrefsReplaceString (n s : cstring) (index : Z) : prefs -> prefs := replace n TYPE_STRING index (DString s).
Definition PrefsReplaceBool (n : cstring) (b : bool) : prefs -> prefs := replace n TYPE_BOOLEAN 0 (DBool b).
Definition PrefsReplaceInt32 (n : cstring) (z : Z) : prefs -> prefs := replace n TYPE_INT32 0 (DInt32 z).

Definition found (n : cstring) (t : prefs_type) (index : Z) (ps : prefs) : option prefs_data :=
  k ← find_node n t index ps; p ← ps !! k; Some (data p).
Definition PrefsFindString (n : cstring) (index : Z) (ps : prefs) : option cstring :=
  match found n TYPE_STRING index ps with Some (DString s) => Some s | _ => None end.
Definition PrefsFindBool (n : cstring) (ps : prefs) : bool :=
  match found n TYPE_BOOLEAN 0 ps with Some (DBool b) => b | _ => false end.
Definition PrefsFindInt32 (n : cstring) (ps : prefs) : Z :=
  match found n TYPE_INT32 0 ps with Some (DInt32 z) => z | _ => 0 end.

(** If the node is the first, the list is set to [NULL]. *)
Definition PrefsRemoveItem (n : cstring) (index : Z) (ps : prefs) : prefs :=
  match find_node n TYPE_ANY index ps with
  | None => ps
  | Some O => []
  | Some k => delete k ps
  end.

(** ** Reading the settings file *)

Definition isspace (c : ascii) : bool :=
  let v := Z.of_N (N_of_ascii c) in (v =? 32) || ((9 <=? v) && (v <=? 13)).

(** The line that [fgets(line, n + 1, f)] reads, and the rest. *)
Fixpoint fgets (n : nat) (f : cstring) : cstring * cstring :=
  match n, f with
  | O, _ | _, [] => ([], f)
  | S n, c :: f => if decide (c = newline) then ([c], f) else let '(l, f) := fgets n f in (c :: l, f)
  end.

(** C strings in a buffer. *)
Fixpoint c_string (b : list ascii) : option cstring :=
  match b with
  | [] => None
  | c :: b => if decide (c = NUL) then Some [] else s ← c_string b; Some (c :: s)
  end.

(** The loop that advances [p] while [P] holds of what it points to: the distance; [None] if it leaves the buffer. *)
Fixpoint skip (P : ascii -> bool) (b : list ascii) : option nat :=
  match b with
  | [] => None
  | c :: b => if P c then k ← skip P b; Some (S k) else Some O
  end.

Definition digit (c : ascii) : option Z :=
  let v := Z.of_N (N_of_ascii c) in if (48 <=? v) && (v <=? 57) then Some (v - 48) else None.
Fixpoint digits (acc : Z) (s : cstring) : Z :=
  match s with
  | [] => acc
  | c :: s => match digit c with Some d => digits (acc * 10 + d) s | None => acc end
  end.
Fixpoint skip_space (s : cstring) : cstring :=
  match s with c :: s' => if isspace c then skip_space s' else s | [] => [] end.

(** [atol]: white space, a sign, digits; out of range it gives the nearest [long]. *)
Definition atol (s : cstring) : Z :=
  let clamp z := Z.max (- 2 ^ 63) (Z.min z (2 ^ 63 - 1)) in
  match skip_space s with
  | "-"%char :: s => clamp (- digits 0 s)
  | "+"%char :: s => clamp (digits 0 s)
  | s => clamp (digits 0 s)
  end.

(** The item of one line. *)
Definition load_item (keyword value : cstring) (ps : prefs) : prefs :=
  match find_prefs_desc keyword with
  | None => ps
  | Some d =>
      match d_type d with
      | TYPE_STRING => if d_multiple d then PrefsAddString keyword value ps else PrefsReplaceString keyword value 0 ps
      | TYPE_BOOLEAN => PrefsReplaceBool keyword (bool_decide (value = cstr "true")) ps
      | TYPE_INT32 => PrefsReplaceInt32 keyword (s32 (atol value)) ps
      | TYPE_ANY => ps
      end
  end.

(** One line in the buffer [line]; an access outside it is undefined, and here
    faults at that index. *)
Definition load_line (line : list ascii) (ps : prefs) : outcome (list ascii * prefs) :=
  let overrun := Segv (Z.of_nat (length line)) in
  match c_string line with
  | None => overrun
  | Some s =>
      if decide (s = []) then Ok (line, ps)
      else
        let line := <[(length s - 1)%nat := NUL]> line in
        if bool_decide (line !! O = Some "#"%char) || bool_decide (line !! O = Some ";"%char) then Ok (line, ps)
        else
          match skip (fun c => negb (isspace c)) line with
          | None => overrun
          | Some p =>
              let line := <[p := NUL]> line in
              match skip isspace (drop (S p) line) with
              | None => overrun
              | Some q =>
                  match c_string line, c_string (drop (S p + q) line) with
                  | Some keyword, Some value => Ok (line, load_item keyword value ps)
                  | _, _ => overrun
                  end
              end
          end
  end.

(** The bytes [fgets] stores, over what the buffer held. *)
Definition store_line (l : cstring) (line : list ascii) : list ascii :=
  l ++ NUL :: drop (S (length l)) line.

(** The loop; [line] is the buffer of 256 bytes, [fuel] bounds the lines. *)
Fixpoint load_lines (fuel : nat) (f : cstring) (line : list ascii) (ps : prefs) : outcome prefs :=
  match fuel with
  | O => Fuel
  | S fuel =>
      match fgets 254 f with
      | ([], _) => Ok ps
      | (l, f) => '(line, ps) ← load_line (store_line l line) ps; load_lines fuel f line ps
      end
  end.

(** Every line takes a character at least. *)
Definition LoadPrefsFromStream (f : cstring) (line : list ascii) (ps : prefs) : outcome prefs :=
  load_lines (S (length f)) f line ps.

(** ** Writing it *)

(** [%d] *)
Fixpoint decimal (fuel : nat) (z : Z) : cstring :=
  match fuel with
  | O => []
  | S fuel =>
      let d := ascii_of_N (Z.to_N (48 + z mod 10)) in
      if z <? 10 then [d] else decimal fuel (z / 10) ++ [d]
  end.
Definition print_int (z : Z) : cstring :=
  if z <? 0 then "-"%char :: decimal 10 (- z) else decimal 10 z.

Definition pref_line (n v : cstring) : cstring := n ++ " "%char :: v ++ [newline].

(** The loop over the values of a string item. *)
Fixpoint write_strings (fuel : nat) (n : cstring) (index : Z) (ps : prefs) : cstring :=
  match fuel with
  | O => []
  | S fuel =>
      match PrefsFindString n index ps with
      | Some s => pref_line n s ++ write_strings fuel n (index + 1) ps
      | None => []
      end
  end.

Definition write_item (d : prefs_desc) (ps : prefs) : cstring :=
  match d_type d with
  | TYPE_STRING => write_strings (S (length ps)) (d_name d) 0 ps
  | TYPE_BOOLEAN => pref_line (d_name d) (if PrefsFindBool (d_name d) ps then cstr "true" else cstr "false")
  | TYPE_INT32 => pref_line (d_name d) (print_int (PrefsFindInt32 (d_name d) ps))
  | TYPE_ANY => []
  end.
Definition write_prefs (items : list prefs_desc) (ps : prefs) : cstring := mjoin ((fun d => write_item d ps) <$> items).
Definition SavePrefsToStream (ps : prefs) : cstring :=
  write_prefs common_prefs_items ps ++ write_prefs platform_prefs_items ps.

(** ** Defaults *)

(** On Linux; [access] tells whether the host has a file. *)
Definition SysAddSerialPrefs (access : string -> bool) (ps : prefs) : prefs :=
  if negb (access "/dev/.devfsd"%string)
  then PrefsAddString (cstr "serialb") (cstr "/dev/ttyS1") (PrefsAddString (cstr "seriala") (cstr "/dev/ttyS0") ps)
  else PrefsAddString (cstr "serialb") (cstr "/dev/tts/1") (PrefsAddString (cstr "seriala") (cstr "/dev/tts/0") ps).

Definition AddPrefsDefaults (access : string -> bool) (USE_JIT : bool) (ps : prefs) : prefs :=
  let ps := SysAddSerialPrefs access ps in
  let ps := PrefsAddInt32 (cstr "bootdriver") 0 ps in
  let ps := PrefsAddInt32 (cstr "bootdrive") 0 ps in
  let ps := PrefsAddInt32 (cstr "ramsize") (16 * 1024 * 1024) ps in
  let ps := PrefsAddInt32 (cstr "frameskip") 8 ps in
  let ps := PrefsAddBool (cstr "gfxaccel") true ps in
  let ps := PrefsAddBool (cstr "nocdrom") false ps in
  let ps := PrefsAddBool (cstr "nonet") false ps in
  let ps := PrefsAddBool (cstr "nosound") false ps in
  let ps := PrefsAddBool (cstr "nogui") false ps in
  let ps := PrefsAddBool (cstr "noclipconversion") false ps in
  let ps := PrefsAddBool (cstr "ignoresegv") false ps in
  let ps := PrefsAddBool (cstr "ignoreillegal") false ps in
  let ps := PrefsAddBool (cstr "jit") USE_JIT ps in
  let ps := PrefsAddBool (cstr "jit68k") false ps in
  PrefsAddInt32 (cstr "keyboardtype") 5 ps.

Definition AddPlatformPrefsDefaults (access : string -> bool) (ps : prefs) : prefs :=
  let ps := PrefsAddBool (cstr "keycodes") false ps in
  let ps := PrefsReplaceString (cstr "extfs") (cstr "/") 0 ps in
  let ps := PrefsReplaceInt32 (cstr "mousewheelmode") 1 ps in
  let ps := PrefsReplaceInt32 (cstr "mousewheellines") 3 ps in
  let ps := PrefsReplaceString (cstr "dsp")
    (cstr (if access "/dev/sound/dsp"%string then "/dev/sound/dsp" else "/dev/dsp")) 0 ps in
  let ps := PrefsReplaceString (cstr "mixer")
    (cstr (if access "/dev/sound/mixer"%string then "/dev/sound/mixer" else "/dev/mixer")) 0 ps in
  let ps := PrefsAddBool (cstr "ignoresegv") false ps in
  PrefsAddBool (cstr "idlewait") true ps.

(** ** Command line options ([PrefsInit]) *)

(** Comparison of a value with a literal. *)
Definition is_str (s : cstring) (l : string) : bool := bool_decide (s = cstr l).

(** One option with its value; a boolean that is neither leaves the settings. *)
Definition option_value (d : prefs_desc) (keyword value : cstring) (ps : prefs) : prefs :=
  match d_type d with
  | TYPE_STRING => if d_multiple d then PrefsAddString keyword value ps else PrefsReplaceString keyword value 0 ps
  | TYPE_BOOLEAN =>
      if is_str value "true" || is_str value "on" || is_str value "yes" then PrefsReplaceBool keyword true ps
      else if is_str value "false" || is_str value "off" || is_str value "no" then PrefsReplaceBool keyword false ps
      else ps
  | TYPE_INT32 => PrefsReplaceInt32 keyword (s32 (atol value)) ps
  | TYPE_ANY => ps
  end.

(** The keyword of ['--keyword'], if there is a descriptor for it. *)
Definition option_desc (arg : cstring) : option (cstring * prefs_desc) :=
  match arg with
  | "-"%char :: "-"%char :: ((_ :: _) as keyword) => d ← find_prefs_desc keyword; Some (keyword, d)
  | _ => None
  end.

(** The loop over [argv] from [argv[1]]: arguments that are processed become
    [NULL]. *)
Fixpoint process_args (args : list cstring) (ps : prefs) : list (option cstring) * prefs :=
  match args with
  | [] => ([], ps)
  | a :: args =>
      match option_desc a with
      | None => let '(r, ps) := process_args args ps in (Some a :: r, ps)
      | Some (keyword, d) =>
          match args with
          | [] => ([None], ps)
          | value :: args =>
              let '(r, ps) := process_args args (option_value d keyword value ps) in (None :: None :: r, ps)
          end
      end
  end.

(** The second loop: [argv] without its prefix of [i] elements, where the run of
    [NULL]s at its front is closed up before every element. *)
Fixpoint leading_nulls (argv : list (option cstring)) : nat :=
  match argv with None :: argv => S (leading_nulls argv) | _ => O end.
Fixpoint remove_processed (fuel i : nat) (argv : list (option cstring)) : list (option cstring) :=
  match fuel with
  | O => argv
  | S fuel =>
      if decide (i < length argv)%nat
      then remove_processed fuel (S i) (take i argv ++ drop (i + leading_nulls (drop i argv)) argv)
      else argv
  end.

(** [PrefsInit] after the defaults and the settings file: [argv] and the
    settings. *)
Definition override_prefs (argv : list cstring) (ps : prefs) : list (option cstring) * prefs :=
  match argv with
  | [] => ([], ps)
  | program :: args =>
      let '(r, ps) := process_args args ps in
      (remove_processed (length argv) 1 (Some program :: r), ps)
  end.
