(* ===== verification/PrefsSpec.v ===== *)
(** Properties of the settings (Prefs.v): the list of items as values by name
    and type, the settings file read back after it is written, and the effect
    of removal and of command line options. *)
From Stdlib Require Import Ascii String.
From S2P Require Import Prelude Prefs.

#[local] Open Scope list_scope.

(** ** Values by name and type *)

Definition vals (n : cstring) (t : prefs_type) (ps : prefs) : list prefs_data :=
  data <$> filter (fun p => name p = n /\ type_of (data p) = t) ps.

Lemma node_matches_spec n t p : t <> TYPE_ANY -> node_matches n t p = bool_decide (name p = n /\ type_of (data p) = t).
Proof.
  intros Ht. unfold node_matches. rewrite (bool_decide_eq_false_2 (t = TYPE_ANY)) by done. cbn [orb].
  apply eq_true_iff_eq. rewrite andb_true_iff, !bool_decide_eq_true. tauto.
Qed.

Lemma vals_cons n t p ps :
  vals n t (p :: ps) = if bool_decide (name p = n /\ type_of (data p) = t) then data p :: vals n t ps else vals n t ps.
Proof. unfold vals. rewrite filter_cons. case_decide; case_bool_decide; done. Qed.

Lemma find_from_vals n t index : t <> TYPE_ANY -> forall ps i pos, i <= index ->
  match find_from i pos n t index ps with
  | Some q => exists k p, q = (pos + k)%nat /\ ps !! k = Some p /\ vals n t ps !! Z.to_nat (index - i) = Some (data p)
  | None => vals n t ps !! Z.to_nat (index - i) = None
  end.
Proof.
  intros Ht. induction ps as [|p ps IH]; intros i pos Hi; [done|]. cbn [find_from].
  rewrite node_matches_spec, vals_cons by done. case_bool_decide as Hm.
  - destruct (Z.eqb_spec i index) as [->|].
    + exists O, p. rewrite Nat.add_0_r, Z.sub_diag. done.
    + specialize (IH (i + 1) (S pos) ltac:(lia)).
      replace (Z.to_nat (index - i)) with (S (Z.to_nat (index - (i + 1)))) by lia. cbn [lookup list_lookup].
      destruct (find_from _ _ _ _ _ _) as [q|]; [|done]. destruct IH as (k & p' & -> & Hk & Hv). exists (S k), p'. split; [lia|done].
  - specialize (IH i (S pos) Hi). destruct (find_from _ _ _ _ _ _) as [q|]; [|done].
    destruct IH as (k & p' & -> & Hk & Hv). exists (S k), p'. split; [lia|done].
Qed.

Lemma found_vals n t index ps : t <> TYPE_ANY -> 0 <= index -> found n t index ps = vals n t ps !! Z.to_nat index.
Proof.
  intros Ht Hi. unfold found, find_node. pose proof (find_from_vals n t index Ht ps 0 O Hi) as H.
  rewrite Z.sub_0_r in H. destruct (find_from _ _ _ _ _ _) as [q|]; [|done].
  destruct H as (k & p & -> & Hk & ->). cbn. by rewrite Hk.
Qed.

Lemma vals_add n t m d ps :
  vals n t (add_data m d ps) = vals n t ps ++ (if bool_decide (m = n /\ type_of d = t) then [d] else []).
Proof.
  unfold add_data, vals. rewrite filter_app, fmap_app. f_equal. rewrite filter_cons. cbn [name data].
  case_decide; case_bool_decide; done.
Qed.

(** Replacement of the first value. *)
Lemma find_from_first n t : forall ps pos, find_from 0 pos n t 0 ps = (fun k => (pos + k)%nat) <$> (fst <$> list_find (fun p => node_matches n t p = true) ps).
Proof.
  induction ps as [|p ps IH]; intros pos; [done|]. cbn [find_from list_find].
  destruct (node_matches n t p) eqn:E; case_decide; try done.
  - cbn. f_equal. lia.
  - rewrite IH. destruct (list_find _ ps) as [[k q]|]; cbn; [|done]. f_equal. lia.
Qed.

Lemma find_node_cons n t p ps :
  find_node n t 0 (p :: ps) = if node_matches n t p then Some O else S <$> find_node n t 0 ps.
Proof.
  unfold find_node. rewrite !find_from_first. cbn [list_find].
  destruct (node_matches n t p) eqn:E; case_decide; try done.
  by destruct (list_find _ ps) as [[k q]|].
Qed.

Lemma replace_cons n t d p ps :
  replace n t 0 d (p :: ps) = if node_matches n t p then set_data d p :: ps else p :: replace n t 0 d ps.
Proof.
  unfold replace. rewrite find_node_cons. destruct (node_matches n t p); [done|].
  by destruct (find_node n t 0 ps).
Qed.

Lemma vals_replace n t m d ps :
  t <> TYPE_ANY -> type_of d <> TYPE_ANY ->
  vals n t (replace m (type_of d) 0 d ps) =
    if bool_decide (m = n /\ type_of d = t) then d :: tail (vals n t ps) else vals n t ps.
Proof.
  intros Ht Hd. induction ps as [|p ps IH].
  - change (replace m (type_of d) 0 d []) with (add_data m d []). rewrite vals_add. by case_bool_decide.
  - rewrite replace_cons, node_matches_spec by done.
    destruct (decide (name p = m /\ type_of (data p) = type_of d)) as [[<- Hm]|Hm].
    + rewrite (bool_decide_eq_true_2 (name p = name p /\ _)) by done. rewrite !vals_cons. cbn [set_data name data].
      rewrite Hm. by case_bool_decide.
    + rewrite (bool_decide_eq_false_2 (name p = m /\ _)) by done. rewrite !vals_cons, IH.
      destruct (decide (m = n /\ type_of d = t)) as [[-> <-]|H2].
      * rewrite (bool_decide_eq_true_2 (n = n /\ _)), bool_decide_eq_false_2 by done. done.
      * by rewrite (bool_decide_eq_false_2 (m = n /\ _)) by done.
Qed.

(** ** One line of the settings file *)

(** What [load_item] makes of a value. *)
Definition convert (t : prefs_type) (value : cstring) : prefs_data :=
  match t with
  | TYPE_BOOLEAN => DBool (bool_decide (value = cstr "true"))
  | TYPE_INT32 => DInt32 (s32 (atol value))
  | _ => DString value
  end.

Lemma vals_load_item n t keyword value d ps :
  t <> TYPE_ANY -> find_prefs_desc keyword = Some d -> d_type d <> TYPE_ANY ->
  vals n t (load_item keyword value ps) =
    if bool_decide (keyword = n /\ d_type d = t) then
      if bool_decide (d_type d = TYPE_STRING) && d_multiple d then vals n t ps ++ [convert t value]
      else convert t value :: tail (vals n t ps)
    else vals n t ps.
Proof.
  intros Ht Hd Hany. unfold load_item. rewrite Hd.
  destruct (d_type d) eqn:Et; try done; cbn [convert bool_decide decide_rel prefs_type_eq_dec].
  - rewrite (bool_decide_eq_true_2 (TYPE_STRING = TYPE_STRING)) by done. cbn [andb]. destruct (d_multiple d).
    + unfold PrefsAddString. rewrite vals_add. cbn [type_of]. case_bool_decide as H; [|apply app_nil_r]. by destruct H as [_ <-].
    + unfold PrefsReplaceString. rewrite (vals_replace n t keyword (DString value)) by done. cbn [type_of].
      case_bool_decide as H; [|done]. by destruct H as [_ <-].
  - unfold PrefsReplaceBool. rewrite (vals_replace n t keyword (DBool _)) by done. cbn [type_of andb].
    rewrite (bool_decide_eq_false_2 (TYPE_BOOLEAN = TYPE_STRING)) by done. cbn [andb]. case_bool_decide as H; [|done]. by destruct H as [_ <-].
  - unfold PrefsReplaceInt32. rewrite (vals_replace n t keyword (DInt32 _)) by done. cbn [type_of andb].
    rewrite (bool_decide_eq_false_2 (TYPE_INT32 = TYPE_STRING)) by done. cbn [andb]. case_bool_decide as H; [|done]. by destruct H as [_ <-].
Qed.

(** A keyword and a value that survive in a line. *)
Record line_ok (n v : cstring) : Prop := {
  ok_keyword : n <> [] /\ Forall (fun c => isspace c = false /\ c <> NUL) n;
  ok_comment : head n <> Some "#"%char /\ head n <> Some ";"%char;
  ok_value : Forall (fun c => c <> newline /\ c <> NUL) v;
  ok_start : forall c, head v = Some c -> isspace c = false;
  ok_length : (length n + length v <= 252)%nat;
}.

Lemma fgets_line l : forall k f, newline ∉ l -> (length l < k)%nat -> fgets k (l ++ newline :: f) = (l ++ [newline], f).
Proof.
  induction l as [|c l IH]; intros k f Hn Hk; (destruct k as [|k]; [cbn in Hk; lia|]); cbn [fgets app].
  - by case_decide.
  - rewrite not_elem_of_cons in Hn. case_decide; [naive_solver|]. rewrite IH; [done|naive_solver|cbn in Hk; lia].
Qed.

Lemma c_string_app l b : NUL ∉ l -> c_string (l ++ NUL :: b) = Some l.
Proof.
  induction l as [|c l IH]; intros Hn; cbn [c_string app]; [by case_decide|].
  rewrite not_elem_of_cons in Hn. case_decide; [naive_solver|]. by rewrite IH by naive_solver.
Qed.

Lemma skip_app P l c b : Forall (fun c => P c = true) l -> P c = false -> skip P (l ++ c :: b) = Some (length l).
Proof. intros Hl Hc. induction Hl as [|x l Hx Hl IH]; cbn [skip app]; [by rewrite Hc|]. by rewrite Hx, IH. Qed.

Lemma insert_middle {A} (l : list A) x y k : <[length l := x]> (l ++ y :: k) = l ++ x :: k.
Proof. induction l as [|z l IH]; [done|]. apply (f_equal (cons z)), IH. Qed.

Lemma load_line_pair n v line ps :
  line_ok n v -> length line = 256%nat ->
  exists line', load_line (store_line (pref_line n v) line) ps = Ok (line', load_item n v ps) /\ length line' = 256%nat.
Proof.
  intros [[Hn Hk] [Hc1 Hc2] Hv Hs Hl] Hlen. unfold store_line, pref_line.
  set (tl := drop _ line).
  assert (Htl : length ((n ++ " "%char :: v ++ [newline]) ++ NUL :: tl) = 256%nat).
  { subst tl. rewrite length_app. cbn [length]. rewrite length_drop. rewrite !length_app. cbn [length]. rewrite length_app. cbn [length]. lia. }
  assert (HnN : NUL ∉ n). { rewrite Forall_forall in Hk. intros H. by destruct (Hk _ H). }
  assert (HvN : NUL ∉ v). { rewrite Forall_forall in Hv. intros H. by destruct (Hv _ H). }
  unfold load_line. rewrite c_string_app by set_solver.
  rewrite decide_False by (by destruct n).
  assert (E1 : <[(length (n ++ " "%char :: v ++ [newline]) - 1)%nat:=NUL]> ((n ++ " "%char :: v ++ [newline]) ++ NUL :: tl)
    = n ++ " "%char :: v ++ NUL :: NUL :: tl).
  { replace ((n ++ " "%char :: v ++ [newline]) ++ NUL :: tl) with ((n ++ " "%char :: v) ++ newline :: NUL :: tl)
      by (by rewrite <- !app_assoc, <- !app_comm_cons, <- app_assoc).
    replace (length (n ++ " "%char :: v ++ [newline]) - 1)%nat with (length (n ++ " "%char :: v))
      by (rewrite !length_app; cbn [length]; rewrite length_app; cbn [length]; lia).
    rewrite insert_middle. by rewrite <- app_assoc. }
  rewrite E1. clear E1.
  assert (E2 : (n ++ " "%char :: v ++ NUL :: NUL :: tl) !! O = head n) by (by destruct n). rewrite E2.
  rewrite !bool_decide_eq_false_2 by done. cbn [orb].
  rewrite (skip_app _ n); [|by eapply Forall_impl; [exact Hk|intros c [-> _]]|done].
  assert (E3 : <[length n := NUL]> (n ++ " "%char :: v ++ NUL :: NUL :: tl) = n ++ NUL :: v ++ NUL :: NUL :: tl).
  { apply insert_middle. }
  rewrite E3. clear E3.
  assert (E4 : drop (S (length n)) (n ++ NUL :: v ++ NUL :: NUL :: tl) = v ++ NUL :: NUL :: tl).
  { rewrite cons_middle, app_assoc. rewrite drop_app_length' by (rewrite length_app; cbn [length]; lia). done. }
  rewrite E4.
  assert (E5 : skip isspace (v ++ NUL :: NUL :: tl) = Some O).
  { destruct v as [|c v]; cbn [skip app]; [done|]. by rewrite (Hs c). }
  rewrite E5, Nat.add_0_r, E4, !c_string_app by done.
  eexists. split; [reflexivity|]. revert Htl. rewrite !length_app. cbn [length]. rewrite !length_app. cbn [length]. lia.
Qed.

Lemma load_lines_pairs pairs : forall fuel line ps,
  Forall (fun '(n, v) => line_ok n v) pairs -> length line = 256%nat -> (length pairs < fuel)%nat ->
  load_lines fuel (mjoin ((fun '(n, v) => pref_line n v) <$> pairs)) line ps =
    Ok (fold_left (fun ps '(n, v) => load_item n v ps) pairs ps).
Proof.
  induction pairs as [|[n v] pairs IH]; intros fuel line ps Hp Hl Hf; (destruct fuel as [|fuel]; [cbn in Hf; lia|]);
    cbn [load_lines fmap list_fmap mjoin list_join fold_left]; [done|].
  apply Forall_cons in Hp as [Hnv Hp]. pose proof Hnv as [[Hn Hk] _ Hv _ Hlen].
  set (rest := mjoin _).
  assert (E : fgets 254 (pref_line n v ++ rest) = (pref_line n v, rest)).
  { unfold pref_line. rewrite <- app_assoc, <- app_comm_cons, <- app_assoc. cbn [app].
    replace (n ++ " "%char :: v ++ newline :: rest) with ((n ++ " "%char :: v) ++ newline :: rest)
      by (by rewrite <- app_assoc).
    rewrite fgets_line; [by rewrite <- app_assoc| |rewrite length_app; cbn [length]; lia].
    rewrite Forall_forall in Hk, Hv. rewrite elem_of_app, elem_of_cons. intros [H|[H|H]]; [by destruct (Hk _ H)|done|by destruct (Hv _ H)]. }
  rewrite E. destruct (load_line_pair n v line ps Hnv Hl) as (line' & El & Hl').
  destruct (pref_line n v) as [|c0 l0] eqn:Epl; [by destruct n|].
  rewrite El. cbn [mbind outcome_bind]. apply IH; [done|done|cbn in Hf; lia].
Qed.

(** ** Numbers *)

Lemma digit_of_digit d : 0 <= d < 10 -> digit (ascii_of_N (Z.to_N (48 + d))) = Some d /\
  isspace (ascii_of_N (Z.to_N (48 + d))) = false /\ ascii_of_N (Z.to_N (48 + d)) <> newline /\
  ascii_of_N (Z.to_N (48 + d)) <> NUL.
Proof.
  intros Hd. assert (d = 0 \/ d = 1 \/ d = 2 \/ d = 3 \/ d = 4 \/ d = 5 \/ d = 6 \/ d = 7 \/ d = 8 \/ d = 9) as E by lia.
  repeat destruct E as [->|E]; [split_and!; done..|]. subst. split_and!; done.
Qed.

Lemma digits_snoc l : forall acc c d,
  Forall (fun c => is_Some (digit c)) l -> digit c = Some d -> digits acc (l ++ [c]) = digits acc l * 10 + d.
Proof.
  induction l as [|x l IH]; intros acc c d Hl Hc; cbn [digits app]; [by rewrite Hc|].
  apply Forall_cons in Hl as [[y Hy] Hl]. rewrite Hy. by apply IH.
Qed.

Definition plain (c : ascii) : Prop := is_Some (digit c) /\ isspace c = false /\ c <> newline /\ c <> NUL.

Lemma plain_digit d : 0 <= d < 10 -> plain (ascii_of_N (Z.to_N (48 + d))).
Proof. intros (H1 & H2 & H3 & H4)%digit_of_digit. split_and!; [by eexists|done..]. Qed.

Lemma decimal_spec fuel : forall z, 0 <= z < 10 ^ Z.of_nat fuel -> (0 < fuel)%nat ->
  digits 0 (decimal fuel z) = z /\ Forall plain (decimal fuel z) /\ decimal fuel z <> [] /\ (length (decimal fuel z) <= fuel)%nat.
Proof.
  induction fuel as [|fuel IH]; intros z Hz Hf; [lia|]. cbn [decimal].
  pose proof (Z.mod_pos_bound z 10 ltac:(lia)) as Hm. destruct (digit_of_digit _ Hm) as (Hd & _).
  pose proof (plain_digit _ Hm) as Hpl. set (c := ascii_of_N _) in *.
  destruct (Z.ltb_spec z 10).
  - rewrite Z.mod_small in Hd by lia. cbn [digits app length]. rewrite Hd. split_and!; [lia|by constructor|done|lia].
  - destruct fuel as [|fuel']; [cbn in Hz; lia|]. set (fuel := S fuel') in *.
    destruct (IH (z / 10)) as (E & Hp & Hne & Hl); [|lia|].
    { rewrite Nat2Z.inj_succ, Z.pow_succ_r in Hz by lia. Z.div_mod_to_equations. nia. }
    split_and!.
    + rewrite (digits_snoc _ _ _ (z mod 10)) by (done || (eapply Forall_impl; [exact Hp|by intros ? [? _]])).
      rewrite E. Z.div_mod_to_equations. lia.
    + apply Forall_app. split; [done|by constructor].
    + intros H'. by apply app_eq_nil in H' as [_ ?].
    + rewrite length_app. cbn [length]. lia.
Qed.

Lemma skip_space_plain c s : isspace c = false -> skip_space (c :: s) = c :: s.
Proof. intros H. cbn. by rewrite H. Qed.

Lemma print_int_spec z : - 2 ^ 31 <= z < 2 ^ 31 ->
  s32 (atol (print_int z)) = z /\ Forall (fun c => c <> newline /\ c <> NUL) (print_int z) /\
  (forall c, head (print_int z) = Some c -> isspace c = false) /\ (length (print_int z) <= 11)%nat.
Proof.
  intros Hz. change (2 ^ 31) with 2147483648 in *. unfold print_int.
  assert (Hs : forall z, -2147483648 <= z < 2147483648 -> s32 (Z.max (- 2 ^ 63) (Z.min z (2 ^ 63 - 1))) = z).
  { intros y Hy. change (2 ^ 63) with 9223372036854775808. rewrite Z.min_l, Z.max_r by lia.
    apply sext_small; [done|]. change (2 ^ (32 - 1)) with 2147483648. lia. }
  assert (Hp : forall y, 0 <= y <= 2147483648 -> digits 0 (decimal 10 y) = y /\ Forall plain (decimal 10 y) /\
    decimal 10 y <> [] /\ (length (decimal 10 y) <= 10)%nat).
  { intros y Hy. apply decimal_spec; [|lia]. change (10 ^ Z.of_nat 10) with 10000000000. lia. }
  destruct (Z.ltb_spec z 0).
  - destruct (Hp (- z) ltac:(lia)) as (E & Hpl & Hne & Hl). split_and!.
    + unfold atol. rewrite skip_space_plain by done. rewrite E, Z.opp_involutive. apply Hs. lia.
    + constructor; [done|]. eapply Forall_impl; [exact Hpl|]. by intros c (_ & _ & ? & ?).
    + by intros c [= <-].
    + cbn [length]. lia.
  - destruct (Hp z ltac:(lia)) as (E & Hpl & Hne & Hl).
    destruct (decimal 10 z) as [|c s] eqn:Ed; [done|]. pose proof Hpl as Hpl0. apply Forall_cons in Hpl as [(Hc1 & Hc2 & _ & _) _].
    split_and!.
    + unfold atol. rewrite skip_space_plain by done.
      assert (Hc : c <> "-"%char /\ c <> "+"%char) by (split; intros ->; by destruct Hc1).
      destruct c as [b0 b1 b2 b3 b4 b5 b6 b7]. destruct Hc as [Hc3 Hc4].
      destruct b0, b1, b2, b3, b4, b5, b6, b7; try done; rewrite E; apply Hs; lia.
    + eapply Forall_impl; [exact Hpl0|]. by intros x (_ & _ & ? & ?).
    + by intros x [= <-].
    + lia.
Qed.

(** ** The file *)

Definition items : list prefs_desc := common_prefs_items ++ platform_prefs_items.

(** The strings of an item. *)
Definition strings (n : cstring) (ps : prefs) : list cstring :=
  omap (fun d => match d with DString s => Some s | _ => None end) (vals n TYPE_STRING ps).

Lemma vals_type n t ps d : d ∈ vals n t ps -> type_of d = t.
Proof. unfold vals. intros (p & -> & [[_ <-] _]%list_elem_of_filter)%list_elem_of_fmap. done. Qed.

Lemma vals_strings n ps : vals n TYPE_STRING ps = DString <$> strings n ps.
Proof.
  unfold strings. pose proof (vals_type n TYPE_STRING ps) as H. induction (vals n TYPE_STRING ps) as [|d l IH]; [done|].
  specialize (IH ltac:(intros x Hx; apply H; by right)).
  pose proof (H d ltac:(left)) as Hd. destruct d; try done. cbn. f_equal. exact IH.
Qed.

Lemma strings_of_vals n ps l : vals n TYPE_STRING ps = DString <$> l -> strings n ps = l.
Proof. unfold strings. intros ->. induction l as [|s l IH]; [done|]. cbn. f_equal. exact IH. Qed.

Lemma PrefsFindString_strings n i ps : 0 <= i -> PrefsFindString n i ps = strings n ps !! Z.to_nat i.
Proof.
  intros Hi. unfold PrefsFindString. rewrite found_vals, vals_strings, list_lookup_fmap by done.
  by destruct (strings n ps !! Z.to_nat i).
Qed.

Lemma PrefsFindBool_vals n ps : PrefsFindBool n ps = match vals n TYPE_BOOLEAN ps with DBool b :: _ => b | _ => false end.
Proof. unfold PrefsFindBool. rewrite found_vals by done. by destruct (vals n TYPE_BOOLEAN ps) as [|[] ?]. Qed.
Lemma PrefsFindInt32_vals n ps : PrefsFindInt32 n ps = match vals n TYPE_INT32 ps with DInt32 z :: _ => z | _ => 0 end.
Proof. unfold PrefsFindInt32. rewrite found_vals by done. by destruct (vals n TYPE_INT32 ps) as [|[] ?]. Qed.

(** The keywords and values that are written for an item. *)
Definition item_values (d : prefs_desc) (ps : prefs) : list cstring :=
  match d_type d with
  | TYPE_STRING => strings (d_name d) ps
  | TYPE_BOOLEAN => [if PrefsFindBool (d_name d) ps then cstr "true" else cstr "false"]
  | TYPE_INT32 => [print_int (PrefsFindInt32 (d_name d) ps)]
  | TYPE_ANY => []
  end.
Definition saved (l : list prefs_desc) (ps : prefs) : list (cstring * cstring) :=
  mjoin ((fun d => pair (d_name d) <$> item_values d ps) <$> l).

Lemma write_strings_spec n ps : forall k i, (length (strings n ps) < i + k)%nat ->
  write_strings k n (Z.of_nat i) ps = mjoin (pref_line n <$> drop i (strings n ps)).
Proof.
  induction k as [|k IH]; intros i Hk; cbn [write_strings].
  - by rewrite drop_ge by lia.
  - rewrite PrefsFindString_strings, Nat2Z.id by lia. destruct (strings n ps !! i) as [s|] eqn:E.
    + rewrite (drop_S _ _ _ E). cbn. f_equal. replace (Z.of_nat i + 1) with (Z.of_nat (S i)) by lia. apply IH. lia.
    + by rewrite drop_ge by (by apply lookup_ge_None).
Qed.

Lemma length_strings n ps : (length (strings n ps) <= length ps)%nat.
Proof.
  pose proof (f_equal length (vals_strings n ps)) as H. rewrite length_fmap in H. rewrite <- H.
  unfold vals. rewrite length_fmap. apply length_filter.
Qed.

Lemma write_prefs_saved l ps : write_prefs l ps = mjoin ((fun '(n, v) => pref_line n v) <$> saved l ps).
Proof.
  induction l as [|d l IH]; [done|].
  change (write_prefs (d :: l) ps) with (write_item d ps ++ write_prefs l ps).
  change (saved (d :: l) ps) with ((pair (d_name d) <$> item_values d ps) ++ saved l ps).
  rewrite IH, fmap_app, join_app. f_equal. unfold write_item, item_values.
  destruct (d_type d); [|by cbn; rewrite app_nil_r..|done].
  pose proof (write_strings_spec (d_name d) ps (S (length ps)) O) as H. change (Z.of_nat 0) with 0 in H. cbn [drop] in H.
  rewrite H by (pose proof (length_strings (d_name d) ps); lia). by rewrite <- list_fmap_compose.
Qed.

(** Settings that the file can hold: strings without line ends that do not
    start with white space and fit a line, one string for an item that is
    not a list, and 32-bit numbers. *)
Record saveable (ps : prefs) : Prop := {
  sv_strings d s : d ∈ items -> d_type d = TYPE_STRING -> s ∈ strings (d_name d) ps -> line_ok (d_name d) s;
  sv_single d : d ∈ items -> d_type d = TYPE_STRING -> d_multiple d = false -> (length (strings (d_name d) ps) <= 1)%nat;
  sv_numbers d : d ∈ items -> d_type d = TYPE_INT32 -> - 2 ^ 31 <= PrefsFindInt32 (d_name d) ps < 2 ^ 31;
}.

(** What the tables guarantee. *)
Definition table_ok (d : prefs_desc) : bool :=
  bool_decide (find_prefs_desc (d_name d) = Some d) && bool_decide (d_type d <> TYPE_ANY) &&
  (bool_decide (filter (fun e => d_name e = d_name d) items = [d]) ||
   bool_decide (filter (fun e => d_name e = d_name d) items = [d; d] /\ d_type d = TYPE_BOOLEAN)) &&
  negb (bool_decide (d_name d = [])) && forallb (fun c => negb (isspace c) && negb (bool_decide (c = NUL))) (d_name d) &&
  negb (bool_decide (head (d_name d) = Some "#"%char)) && negb (bool_decide (head (d_name d) = Some ";"%char)) &&
  (length (d_name d) <=? 20)%nat.

Lemma tables_ok : forallb table_ok items = true.
Proof. vm_compute. reflexivity. Qed.

Lemma item_ok d : d ∈ items -> table_ok d = true.
Proof. intros Hd. pose proof tables_ok as H. rewrite forallb_forall in H. apply H. by rewrite <- list_elem_of_In. Qed.

Record table_facts (d : prefs_desc) : Prop := {
  tf_desc : find_prefs_desc (d_name d) = Some d;
  tf_type : d_type d <> TYPE_ANY;
  tf_once : filter (fun e => d_name e = d_name d) items = [d] \/
    filter (fun e => d_name e = d_name d) items = [d; d] /\ d_type d = TYPE_BOOLEAN;
  tf_name : d_name d <> [] /\ Forall (fun c => isspace c = false /\ c <> NUL) (d_name d);
  tf_comment : head (d_name d) <> Some "#"%char /\ head (d_name d) <> Some ";"%char;
  tf_length : (length (d_name d) <= 20)%nat;
}.

Lemma item_facts d : d ∈ items -> table_facts d.
Proof.
  intros Hd. pose proof (item_ok d Hd) as H. unfold table_ok in H.
  rewrite !andb_true_iff, orb_true_iff, !bool_decide_eq_true, !negb_true_iff, !bool_decide_eq_false, Nat.leb_le, forallb_forall in H.
  destruct H as (((((((H1 & H2) & H3) & H4) & H5) & H6) & H7) & H8). split; try done.
  split; [done|]. apply Forall_forall. intros c Hc. rewrite list_elem_of_In in Hc. apply H5 in Hc.
  rewrite andb_true_iff, !negb_true_iff, bool_decide_eq_false in Hc. done.
Qed.

Lemma item_values_ok d v ps : saveable ps -> d ∈ items -> v ∈ item_values d ps -> line_ok (d_name d) v.
Proof.
  intros Hs Hd Hv. destruct (item_facts d Hd) as [_ Ht _ Hn Hc Hl]. unfold item_values in Hv.
  destruct (d_type d) eqn:Et; [by apply (sv_strings _ Hs)| | |done].
  - apply list_elem_of_singleton in Hv as ->.
    destruct (PrefsFindBool _ _); split; try done; try (by repeat constructor); try (by intros c [= <-]); cbn [length cstr list_ascii_of_string]; lia.
  - apply list_elem_of_singleton in Hv as ->. destruct (print_int_spec _ (sv_numbers _ Hs d Hd Et)) as (_ & H1 & H2 & H3).
    split; try done. lia.
Qed.

(** The values of one name after the lines have been read. *)
Lemma vals_fold_left n t d pairs : forall ps,
  t <> TYPE_ANY -> find_prefs_desc n = Some d -> d_type d = t ->
  Forall (fun '(m, _) => exists e, find_prefs_desc m = Some e /\ d_type e <> TYPE_ANY) pairs ->
  let mine := snd <$> filter (fun p => fst p = n) pairs in
  vals n t (fold_left (fun ps '(m, v) => load_item m v ps) pairs ps) =
    if bool_decide (t = TYPE_STRING) && d_multiple d then vals n t ps ++ (convert t <$> mine)
    else match last mine with Some v => convert t v :: tail (vals n t ps) | None => vals n t ps end.
Proof.
  intros ps Ht Hd Hdt. cbn zeta. revert ps. induction pairs as [|[m v] pairs IH]; intros ps Hp; cbn [fold_left].
  { cbn. rewrite app_nil_r. by destruct (_ && _). }
  apply Forall_cons in Hp as [(e & He & Het) Hp]. rewrite (IH _ Hp), (vals_load_item n t m v e) by done.
  rewrite filter_cons. cbn [fst]. destruct (decide (m = n)) as [->|Hm].
  - assert (e = d) as -> by congruence. rewrite (bool_decide_eq_true_2 (n = n /\ _)) by done. rewrite Hdt.
    cbn [fmap list_fmap snd]. destruct (bool_decide (t = TYPE_STRING) && d_multiple d).
    + by rewrite <- app_assoc.
    + rewrite last_cons. destruct (last _); done.
  - by rewrite (bool_decide_eq_false_2 (m = n /\ _)) by naive_solver.
Qed.

Lemma saved_of_name n ps : forall l,
  snd <$> filter (fun p => fst p = n) (saved l ps) = mjoin ((fun d => item_values d ps) <$> filter (fun d => d_name d = n) l).
Proof.
  induction l as [|d l IH]; [done|].
  change (saved (d :: l) ps) with ((pair (d_name d) <$> item_values d ps) ++ saved l ps).
  rewrite filter_app, fmap_app, IH, filter_cons.
  assert (E : forall vs, snd <$> filter (fun p => fst p = n) (pair (d_name d) <$> vs) = if decide (d_name d = n) then vs else ([] : list cstring)).
  { induction vs as [|v vs IHv]; [by destruct (decide _)|]. cbn [fmap list_fmap]. rewrite filter_cons. cbn [fst].
    destruct (decide (d_name d = n)); [|done]. cbn [fmap list_fmap snd]. f_equal. exact IHv. }
  rewrite E. by destruct (decide (d_name d = n)).
Qed.

Lemma length_lines (pairs : list (cstring * cstring)) :
  (length pairs <= length (mjoin ((fun '(n, v) => pref_line n v) <$> pairs)))%nat.
Proof.
  induction pairs as [|[n v] pairs IH]; [done|]. 
  change (mjoin ((fun '(n, v) => pref_line n v) <$> (n, v) :: pairs)) with
    (pref_line n v ++ mjoin ((fun '(n, v) => pref_line n v) <$> pairs)).
  rewrite length_app. unfold pref_line at 1. rewrite length_app. cbn [length]. lia.
Qed.

(** C27: The settings file holds the settings.  For settings it can hold,
    loading what was saved into empty settings succeeds, whatever the line
    buffer holds, and gives every item of both tables the value it had: the
    same strings in the same order, the same number, the same truth value. *)
Theorem prefs_roundtrip ps line :
  saveable ps -> length line = 256%nat ->
  exists ps', LoadPrefsFromStream (SavePrefsToStream ps) line [] = Ok ps' /\
    forall d, d ∈ items ->
      match d_type d with
      | TYPE_STRING => forall i, 0 <= i -> PrefsFindString (d_name d) i ps' = PrefsFindString (d_name d) i ps
      | TYPE_BOOLEAN => PrefsFindBool (d_name d) ps' = PrefsFindBool (d_name d) ps
      | TYPE_INT32 => PrefsFindInt32 (d_name d) ps' = PrefsFindInt32 (d_name d) ps
      | TYPE_ANY => False
      end.
Proof.
  intros Hs Hline.
  assert (Hsave : SavePrefsToStream ps = mjoin ((fun '(n, v) => pref_line n v) <$> saved items ps)).
  { unfold SavePrefsToStream. rewrite !write_prefs_saved, <- join_app, <- fmap_app. do 2 f_equal.
    unfold items, saved. by rewrite fmap_app, join_app. }
  assert (Hpairs : Forall (fun '(n, v) => line_ok n v /\ exists e, find_prefs_desc n = Some e /\ d_type e <> TYPE_ANY) (saved items ps)).
  { apply Forall_forall. intros [n v] Hin. unfold saved in Hin. apply list_elem_of_join in Hin as (l & Hl & (d & -> & Hd)%list_elem_of_fmap).
    apply list_elem_of_fmap in Hl as (v' & [= -> ->] & Hv). split; [by apply (item_values_ok d _ ps)|].
    exists d. destruct (item_facts d Hd). done. }
  eexists. split.
  - unfold LoadPrefsFromStream. rewrite Hsave. apply load_lines_pairs; [|done|].
    + eapply Forall_impl; [exact Hpairs|]. by intros [n v] [? _].
    + apply Nat.lt_succ_r, length_lines.
  - intros d Hd. destruct (item_facts d Hd) as [Hdesc Ht Honce _ _ _].
    pose proof (vals_fold_left (d_name d) (d_type d) d (saved items ps) [] Ht Hdesc eq_refl) as Hv.
    specialize (Hv ltac:(eapply Forall_impl; [exact Hpairs|by intros [n v] [_ ?]])). cbn zeta in Hv.
    rewrite saved_of_name in Hv. set (ps' := fold_left _ (saved items ps) []) in *.
    change (vals (d_name d) (d_type d) []) with (@nil prefs_data) in Hv. cbn [tail app] in Hv.
    assert (Hlast : last (mjoin ((fun d => item_values d ps) <$> filter (fun e => d_name e = d_name d) items)) = last (item_values d ps) /\
      (d_type d = TYPE_STRING -> mjoin ((fun d => item_values d ps) <$> filter (fun e => d_name e = d_name d) items) = item_values d ps)).
    { destruct Honce as [->|[-> Hb]]; cbn [fmap list_fmap mjoin list_join]; rewrite ?app_nil_r; [done|]. rewrite Hb. split; [|done].
      unfold item_values. by rewrite Hb. }
    destruct Hlast as [Hlast Hmine]. rewrite Hlast in Hv. unfold item_values in Hv, Hmine.
    destruct (d_type d) eqn:Et; [|..|done].
    + rewrite Hmine in Hv by done. intros i Hi. rewrite !PrefsFindString_strings by done. f_equal.
      assert (Hvals : vals (d_name d) TYPE_STRING ps' = DString <$> strings (d_name d) ps).
      { rewrite Hv, (bool_decide_eq_true_2 (TYPE_STRING = TYPE_STRING)) by done. cbn [andb]. destruct (d_multiple d) eqn:Em; [done|].
        pose proof (sv_single _ Hs d Hd Et Em) as H1. destruct (strings (d_name d) ps) as [|x [|y l]]; [done|done|cbn in H1; lia]. }
      by apply strings_of_vals.
    + rewrite PrefsFindBool_vals, Hv. cbn [last convert andb bool_decide decide_rel prefs_type_eq_dec].
      rewrite (bool_decide_eq_false_2 (TYPE_BOOLEAN = TYPE_STRING)) by done. cbn [andb].
      by destruct (PrefsFindBool (d_name d) ps).
    + rewrite PrefsFindInt32_vals, Hv. rewrite (bool_decide_eq_false_2 (TYPE_INT32 = TYPE_STRING)) by done. cbn [andb last convert].
      by apply print_int_spec, (sv_numbers _ Hs).
Qed.

(** Two disks, a truth value and a negative number. *)
Definition some_prefs : prefs :=
  [Node (cstr "disk") (DString (cstr "/home/me/Mac OS 9.dsk")); Node (cstr "nogui") (DBool true);
   Node (cstr "frameskip") (DInt32 (-8)); Node (cstr "disk") (DString (cstr "b"))].

(** [line_ok] and [saveable] as tests. *)
Definition line_okb (n v : cstring) : bool :=
  negb (bool_decide (n = [])) && forallb (fun c => negb (isspace c) && negb (bool_decide (c = NUL))) n &&
  negb (bool_decide (head n = Some "#"%char)) && negb (bool_decide (head n = Some ";"%char)) &&
  forallb (fun c => negb (bool_decide (c = newline)) && negb (bool_decide (c = NUL))) v &&
  match v with c :: _ => negb (isspace c) | [] => true end && (length n + length v <=? 252)%nat.
Definition saveableb (ps : prefs) : bool :=
  forallb (fun d => match d_type d with
    | TYPE_STRING => forallb (line_okb (d_name d)) (strings (d_name d) ps) &&
        (d_multiple d || (length (strings (d_name d) ps) <=? 1)%nat)
    | TYPE_INT32 => (- 2 ^ 31 <=? PrefsFindInt32 (d_name d) ps) && (PrefsFindInt32 (d_name d) ps <? 2 ^ 31)
    | _ => true
    end) items.

Lemma line_okb_ok n v : line_okb n v = true -> line_ok n v.
Proof.
  unfold line_okb. rewrite !andb_true_iff, !negb_true_iff, !bool_decide_eq_false, !forallb_forall, Nat.leb_le.
  intros ((((((H1 & H2) & H3) & H4) & H5) & H6) & H7). split; try done.
  - split; [done|]. apply Forall_forall. intros c Hc. rewrite list_elem_of_In in Hc. apply H2 in Hc.
    rewrite andb_true_iff, !negb_true_iff, bool_decide_eq_false in Hc. done.
  - apply Forall_forall. intros c Hc. rewrite list_elem_of_In in Hc. apply H5 in Hc.
    rewrite andb_true_iff, !negb_true_iff, !bool_decide_eq_false in Hc. done.
  - intros c Hc. destruct v; [done|]. injection Hc as ->. by apply negb_true_iff.
Qed.

Lemma saveableb_ok ps : saveableb ps = true -> saveable ps.
Proof.
  unfold saveableb. rewrite forallb_forall. intros H.
  assert (K : forall d, d ∈ items -> _) by (intros d Hd; rewrite list_elem_of_In in Hd; exact (H d Hd)). clear H.
  split; intros d.
  - intros s Hd Et Hs. specialize (K d Hd). rewrite Et, andb_true_iff, forallb_forall in K.
    apply line_okb_ok, K. by rewrite <- list_elem_of_In.
  - intros Hd Et Em. specialize (K d Hd). rewrite Et, Em, andb_true_iff in K. destruct K as [_ K]. by apply Nat.leb_le, K.
  - intros Hd Et. specialize (K d Hd). rewrite Et, andb_true_iff, Z.leb_le, Z.ltb_lt in K. done.
Qed.

Lemma prefs_roundtrip_witness :
  exists ps', LoadPrefsFromStream (SavePrefsToStream some_prefs) (replicate 256 "x"%char) [] = Ok ps' /\
    PrefsFindString (cstr "disk") 1 ps' = Some (cstr "b") /\ PrefsFindInt32 (cstr "frameskip") ps' = -8.
Proof.
  destruct (prefs_roundtrip some_prefs (replicate 256 "x"%char)) as (ps' & E & H).
  - apply saveableb_ok. vm_compute. reflexivity.
  - reflexivity.
  - exists ps'. split; [exact E|]. split.
    + exact (H (multi_item "disk") ltac:(unfold items; apply elem_of_app; left; left) 1 ltac:(lia)).
    + exact (H (int_item "frameskip") ltac:(unfold items; apply elem_of_app; left; do 20 right; left)).
Defined.

(** A line with a keyword only takes its value from what the buffer held
    before: the search for white space does not stop at the end of the line. *)
Lemma keyword_only_reads_stale_value :
  LoadPrefsFromStream (cstr "seriala /dev/ttyS0" ++ newline :: cstr "extfs" ++ [newline]) (replicate 256 "x"%char) []
  <> LoadPrefsFromStream (cstr "seriala /dev/ttyS0" ++ newline :: cstr "extfs " ++ [newline]) (replicate 256 "x"%char) [].
Proof. intros H. vm_compute in H. done. Qed.

(** ** Removal *)

Lemma find_any_spec n index : forall ps i pos, i <= index ->
  match find_from i pos n TYPE_ANY index ps with
  | Some q => exists pre p post, ps = pre ++ p :: post /\ q = (pos + length pre)%nat /\ name p = n /\
      Z.of_nat (length (filter (fun p => name p = n) pre)) = index - i
  | None => Z.of_nat (length (filter (fun p => name p = n) ps)) <= index - i
  end.
Proof.
  induction ps as [|p ps IH]; intros i pos Hi; cbn [find_from]; [cbn; lia|].
  assert (Em : node_matches n TYPE_ANY p = bool_decide (name p = n)) by done. rewrite Em, filter_cons.
  destruct (decide (name p = n)) as [Hn|Hn]; [rewrite bool_decide_eq_true_2 by done|rewrite bool_decide_eq_false_2 by done].
  - destruct (Z.eqb_spec i index) as [->|].
    + exists [], p, ps. cbn. split_and!; try done; lia.
    + specialize (IH (i + 1) (S pos) ltac:(lia)). cbn [length]. destruct (find_from _ _ _ _ _ _) as [q|]; [|lia].
      destruct IH as (pre & p' & post & -> & -> & Hp & Hl). exists (p :: pre), p', post.
      rewrite filter_cons, decide_True by done. cbn [length app]. split_and!; try done; lia.
  - specialize (IH i (S pos) Hi). destruct (find_from _ _ _ _ _ _) as [q|]; [|done].
    destruct IH as (pre & p' & post & -> & -> & Hp & Hl). exists (p :: pre), p', post.
    rewrite filter_cons, decide_False by done. cbn [length app]. split_and!; try done; lia.
Qed.

(** Removal takes out one item, or all of them.  If the settings have an
    item number [index] of the name, of any type, exactly that item is removed
    unless it is the first of the list, when the whole list is dropped; if
    there is none nothing changes. *)
Theorem PrefsRemoveItem_spec n index ps :
  0 <= index ->
  (Z.of_nat (length (filter (fun p => name p = n) ps)) <= index /\ PrefsRemoveItem n index ps = ps) \/
  exists pre p post, ps = pre ++ p :: post /\ name p = n /\
    Z.of_nat (length (filter (fun p => name p = n) pre)) = index /\
    PrefsRemoveItem n index ps = if decide (pre = []) then [] else pre ++ post.
Proof.
  intros Hi. unfold PrefsRemoveItem, find_node. pose proof (find_any_spec n index ps 0 O Hi) as H. rewrite Z.sub_0_r in H.
  destruct (find_from _ _ _ _ _ _) as [q|]; [right|by left].
  destruct H as (pre & p & post & -> & -> & Hn & Hl). exists pre, p, post. split_and!; try done.
  destruct pre as [|x pre]; [done|]. rewrite decide_False by done. cbn [length plus app].
  change (delete (S (length pre)) (x :: pre ++ p :: post)) with (x :: delete (length pre) (pre ++ p :: post)).
  f_equal. clear. induction pre as [|y pre IH]; [done|]. by apply (f_equal (cons y)).
Qed.

Lemma PrefsRemoveItem_spec_witness :
  PrefsRemoveItem (cstr "disk") 1 some_prefs =
    [Node (cstr "disk") (DString (cstr "/home/me/Mac OS 9.dsk")); Node (cstr "nogui") (DBool true); Node (cstr "frameskip") (DInt32 (-8))] /\
  PrefsRemoveItem (cstr "disk") 0 some_prefs = [].
Proof.
  split; [vm_compute; reflexivity|].
  destruct (PrefsRemoveItem_spec (cstr "disk") 0 some_prefs ltac:(lia)) as [[H _]|(pre & p & post & E & Hn & Hl & ->)].
  - exfalso. vm_compute in H. by apply H.
  - destruct pre as [|x pre]; [done|]. exfalso. injection E as <- E. rewrite filter_cons in Hl. cbn [name] in Hl.
    rewrite decide_True in Hl by done. cbn [length] in Hl. lia.
Defined.

(** ** Command line *)

(** The options the program knows with their values, and the other arguments. *)
Fixpoint known_options (args : list cstring) : list (cstring * prefs_desc * cstring) * list cstring :=
  match args with
  | [] => ([], [])
  | a :: args =>
      match option_desc a with
      | None => let '(o, r) := known_options args in (o, a :: r)
      | Some (k, d) =>
          match args with
          | [] => ([], [])
          | v :: args => let '(o, r) := known_options args in ((k, d, v) :: o, r)
          end
      end
  end.

Definition is_arg (a : option cstring) : Prop := is_Some a.
#[export] Instance is_arg_dec a : Decision (is_arg a).
Proof. unfold is_arg. apply _. Defined.

Lemma leading_nulls_spec l : exists rest, l = replicate (leading_nulls l) None ++ rest /\
  (rest = [] \/ exists a r, rest = Some a :: r) /\ filter is_arg l = filter is_arg rest.
Proof.
  induction l as [|[a|] l IH]; [by exists []; auto| |].
  - exists (Some a :: l). split; [done|]. split; [|done]. right. by exists a, l.
  - destruct IH as (rest & E & Hr & Hf). exists rest. cbn [leading_nulls replicate app]. split; [by f_equal|]. split; [done|].
    rewrite filter_cons, decide_False; [done|]. intros [x [=]].
Qed.

Lemma remove_processed_spec : forall fuel i argv,
  (length argv <= i + fuel)%nat -> remove_processed fuel i argv = take i argv ++ filter is_arg (drop i argv).
Proof.
  induction fuel as [|fuel IH]; intros i argv Hf; cbn [remove_processed].
  { rewrite take_ge, drop_ge by lia. cbn. by rewrite app_nil_r. }
  destruct (decide (i < length argv)%nat) as [Hi|Hi]; [|rewrite take_ge, drop_ge by lia; cbn; by rewrite app_nil_r].
  destruct (leading_nulls_spec (drop i argv)) as (rest & E & Hr & Hfilter).
  assert (Ed : drop (i + leading_nulls (drop i argv)) argv = rest).
  { rewrite <- drop_drop. rewrite E at 2. by rewrite drop_app_length' by (by rewrite length_replicate). }
  assert (Hlen : length (take i argv) = i) by (rewrite length_take; lia).
  rewrite Ed, Hfilter. destruct Hr as [->|(a & r & ->)].
  - rewrite app_nil_r, IH by (rewrite Hlen; lia). rewrite take_ge, drop_ge by lia. done.
  - assert (Hl2 : (length r < length (drop i argv))%nat) by (rewrite E, length_app; cbn [length]; lia).
    rewrite length_drop in Hl2. rewrite IH by (rewrite length_app, Hlen; cbn [length]; lia).
    rewrite cons_middle, app_assoc. rewrite take_app_length', drop_app_length' by (rewrite length_app, Hlen; cbn [length]; lia).
    rewrite filter_cons, decide_True by (by eexists). by rewrite <- app_assoc.
Qed.

(** Command line options.  The options of the program with their values
    change the settings in the order they are given, and exactly they are taken
    out of [argv]: the program's name and every other argument stay, in order. *)
Theorem override_prefs_spec program args ps :
  override_prefs (program :: args) ps =
    (Some <$> program :: snd (known_options args),
     fold_left (fun ps '(k, d, v) => option_value d k v ps) (fst (known_options args)) ps).
Proof.
  assert (H : forall n args ps, (length args <= n)%nat ->
    filter is_arg (fst (process_args args ps)) = (Some <$> snd (known_options args)) /\
    snd (process_args args ps) = fold_left (fun ps '(k, d, v) => option_value d k v ps) (fst (known_options args)) ps /\
    (length (fst (process_args args ps)) <= length args)%nat).
  { clear. induction n as [|n IH]; intros args ps Hn; (destruct args as [|a args]; [done|]); [cbn in Hn; lia|].
    cbn [process_args known_options]. destruct (option_desc a) as [[k d]|].
    - destruct args as [|v args]; [cbn; split_and!; try done; lia|]. destruct (IH args (option_value d k v ps)) as (H1 & H2 & H3); [cbn in Hn; lia|].
      destruct (process_args args _) as [r ps'], (known_options args) as [o r']. cbn [fst snd fold_left] in *.
      rewrite !filter_cons, !decide_False by (by intros [? [=]]). cbn [length]. split_and!; try done; lia.
    - destruct (IH args ps) as (H1 & H2 & H3); [cbn in Hn; lia|].
      destruct (process_args args ps) as [r ps'], (known_options args) as [o r']. cbn [fst snd fold_left] in *.
      rewrite filter_cons, decide_True by (by eexists). cbn [length fmap list_fmap]. split_and!; [by f_equal|done|lia]. }
  destruct (H _ args ps (Nat.le_refl _)) as (H1 & H2 & H3). unfold override_prefs.
  destruct (process_args args ps) as [r ps']. cbn [fst snd] in *.
  rewrite remove_processed_spec by (cbn [length]; lia). rewrite H2. apply (f_equal2 pair); [|done].
  exact (f_equal (cons (Some program)) H1).
Qed.
