(* ===== verification/Rom.v ===== *)
(** The ROM image (rom_patches.cpp): decompression, searches in the image, the
    space for patches, and the list of audio sifters.

    The file that is read from disk is a buffer of its own, a list of bytes
    that is addressed by offsets; reading outside it is undefined, and here
    faults at that offset.  The ROM itself is Mac memory at [ROMBase], which
    with real addressing is also [ROMBaseHost]. *)
From Stdlib Require Import Ascii String.
From S2P Require Import Prelude Memory.

#[local] Open Scope list_scope.

(** ** Decompression *)

(** [buf[i]] *)
Definition rd (buf : list Z) (i : Z) : outcome Z :=
  if i <? 0 then Segv i else match buf !! Z.to_nat i with Some b => Ok b | None => Segv i end.

(** The output side of [decode_lzss]: [dict[0x1000]], [dict_idx] and [dest],
    and the memory that [dest] points to. *)
Record lz_out := LzOut { dict : Z -> Z; dict_idx : Z; lz_dest : Z; lz_mem : memory }.

Definition dict_get (d : Z -> Z) (i : Z) : outcome Z :=
  if (0 <=? i) && (i <? 0x1000) then Ok (d i) else Segv i.
Definition dict_put (i c : Z) (d : Z -> Z) : outcome (Z -> Z) :=
  if (0 <=? i) && (i <? 0x1000) then Ok (fun j => if j =? i then c else d j) else Segv i.

(** [dict[dict_idx++] = c; *dest++ = c; dict_idx &= 0xfff] *)
Definition lz_emit (c : Z) (o : lz_out) : outcome lz_out :=
  d ← dict_put (dict_idx o) c (dict o);
  m ← store_1 (lz_dest o) c (lz_mem o);
  Ok (LzOut d (Z.land (dict_idx o + 1) 0xfff) (lz_dest o + 1) m).

(** [while (cnt--)] *)
Fixpoint lz_copy (cnt : nat) (idx : Z) (o : lz_out) : outcome lz_out :=
  match cnt with
  | O => Ok o
  | S cnt =>
      c ← dict_get (dict o) idx;
      o ← lz_emit c o;
      lz_copy cnt (Z.land (idx + 1) 0xfff) o
  end.

(** A turn once there are flags; [loop] is the next turn. *)
Definition lz_turn (loop : list Z -> Z -> Z -> Z -> lz_out -> outcome lz_out)
    (buf : list Z) (src size run_mask : Z) (o : lz_out) : outcome lz_out :=
  let bit := Zb (Z.land run_mask 1) in
  let run_mask := Z.shiftr run_mask 1 in
  if bit then
    let size := size - 1 in
    if size <? 0 then Ok o
    else
      c ← rd buf src;
      o ← lz_emit c o;
      loop buf (src + 1) size run_mask o
  else
    let size := size - 1 in
    if size <? 0 then Ok o
    else
      idx ← rd buf src;
      let size := size - 1 in
      if size <? 0 then Ok o
      else
        cnt ← rd buf (src + 1);
        let idx := Z.lor idx (Z.land (Z.shiftl cnt 4) 0xf00) in
        let cnt := Z.land cnt 0x0f + 3 in
        o ← lz_copy (Z.to_nat cnt) idx o;
        loop buf (src + 2) size run_mask o.

(** The loop; every turn takes a byte or ends it, so [fuel] is at most the size. *)
Fixpoint lz_loop (fuel : nat) (buf : list Z) (src size run_mask : Z) (o : lz_out) : outcome lz_out :=
  match fuel with
  | O => Fuel
  | S fuel =>
      if run_mask <? 0x100 then
        let size := size - 1 in
        if size <? 0 then Ok o
        else
          c ← rd buf src;
          lz_turn (lz_loop fuel) buf (src + 1) size (Z.lor c 0xff00) o
      else lz_turn (lz_loop fuel) buf src size run_mask o
  end.

(** [junk] is what the array [dict] holds before it is written. *)
Definition decode_lzss (junk : Z -> Z) (buf : list Z) (src dest size : Z) (m : memory) : outcome memory :=
  o ← lz_loop (Z.to_nat size + 1) buf src size 0 (LzOut junk 0xfee dest m);
  Ok (lz_mem o).

(** [ntohl] of the word at an offset of the buffer. *)
Definition rd_be32 (buf : list Z) (i : Z) : outcome Z :=
  b0 ← rd buf i; b1 ← rd buf (i + 1); b2 ← rd buf (i + 2); b3 ← rd buf (i + 3);
  Ok (((b0 * 256 + b1) * 256 + b2) * 256 + b3).

Definition FOURCC (a b c d : ascii) : Z :=
  let v x := Z.of_N (N_of_ascii x) in
  Z.lor (Z.lor (Z.lor (Z.shiftl (v a) 24) (Z.shiftl (v b) 16)) (Z.shiftl (v c) 8)) (v d).

(** One parcel at [src + parcel_offset]: the memory and the next offset. *)
Definition decode_parcel (junk : Z -> Z) (buf : list Z) (src dest parcel_offset : Z) (m : memory) : outcome (memory * Z) :=
  let parcel_data := src + parcel_offset in
  next_offset ← rd_be32 buf parcel_data;
  parcel_type ← rd_be32 buf (parcel_data + 4);
  m ← (if parcel_type =? FOURCC "r" "o" "m" " " then
         lzss_offset ← rd_be32 buf (parcel_data + 8);
         let lzss_size := u32 ((src + next_offset) - (parcel_data + lzss_offset)) in
         decode_lzss junk buf (parcel_data + lzss_offset) dest (s32 lzss_size) m
       else Ok m);
  Ok (m, next_offset).

(** [while (parcel_offset != 0)]; nothing in the code bounds it. *)
Fixpoint parcel_loop (fuel : nat) (junk : Z -> Z) (buf : list Z) (src dest parcel_offset : Z) (m : memory) : outcome memory :=
  match fuel with
  | O => Fuel
  | S fuel =>
      if parcel_offset =? 0 then Ok m
      else
        '(m, next_offset) ← decode_parcel junk buf src dest parcel_offset m;
        parcel_loop fuel junk buf src dest next_offset m
  end.
Definition decode_parcels (fuel : nat) (junk : Z -> Z) (buf : list Z) (src dest : Z) (m : memory) : outcome memory :=
  parcel_loop fuel junk buf src dest 0x14 m.

(** *** The C library's string functions, on the buffer *)

Definition bytes_of (s : string) : list Z := (fun c => Z.of_N (N_of_ascii c)) <$> list_ascii_of_string s.

(** [strncmp(buf + i, s, strlen(s)) == 0] *)
Fixpoint starts_with (buf : list Z) (i : Z) (s : list Z) : outcome bool :=
  match s with
  | [] => Ok true
  | c :: s => b ← rd buf i; if b =? c then starts_with buf (i + 1) s else Ok false
  end.

(** [strstr(buf + i, s)]: the offset of the first occurrence before the null byte. *)
Fixpoint strstr (fuel : nat) (buf : list Z) (i : Z) (s : list Z) : outcome (option Z) :=
  match fuel with
  | O => Fuel
  | S fuel =>
      b ← starts_with buf i s;
      if (b : bool) then Ok (Some i)
      else c ← rd buf i; if c =? 0 then Ok None else strstr fuel buf (i + 1) s
  end.

Definition hex_digit (b : Z) : option Z :=
  if (48 <=? b) && (b <=? 57) then Some (b - 48)
  else if (65 <=? b) && (b <=? 70) then Some (b - 55)
  else if (97 <=? b) && (b <=? 102) then Some (b - 87)
  else None.
Definition is_space (b : Z) : bool := (b =? 32) || ((9 <=? b) && (b <=? 13)).

(** Hexadecimal digits, at most [width], from [i]. *)
Fixpoint scan_digits (width : nat) (buf : list Z) (i : Z) (acc : option Z) : outcome (option Z) :=
  match width with
  | O => Ok acc
  | S width =>
      b ← rd buf i;
      match hex_digit b with
      | Some d => scan_digits width buf (i + 1) (Some (default 0 acc * 16 + d))
      | None => Ok acc
      end
  end.
Fixpoint skip_spaces (fuel : nat) (buf : list Z) (i : Z) : outcome Z :=
  match fuel with
  | O => Fuel
  | S fuel => b ← rd buf i; if is_space b then skip_spaces fuel buf (i + 1) else Ok i
  end.
(** [sscanf(buf + i, "%06x", &x)]: white space, a sign, a prefix [0x], digits,
    in 6 characters. *)
Definition scan_hex6 (buf : list Z) (i : Z) : outcome (option Z) :=
  i ← skip_spaces (length buf) buf i;
  b ← rd buf i;
  let signed := (b =? 43) || (b =? 45) in
  let '(i, w) := if signed then (i + 1, 5%nat) else (i, 6%nat) in
  z ← rd buf i;
  x ← (if z =? 48 then rd buf (i + 1) else Ok 0);
  v ← (if (z =? 48) && ((x =? 120) || (x =? 88)) then scan_digits (w - 2) buf (i + 2) None
       else scan_digits w buf i None);
  Ok ((fun v => u32 (if b =? 45 then - v else v)) <$> v).

(** *** The image *)

Definition ROM_SIZE := 0x400000.

(** [memcpy(dest, buf, n)] *)
Fixpoint copy_in (n : nat) (buf : list Z) (i dest : Z) (m : memory) : outcome memory :=
  match n with
  | O => Ok m
  | S n => b ← rd buf i; m ← store_1 dest b m; copy_in n buf (i + 1) (dest + 1) m
  end.

(** Offset and size of the image, from the comments of the boot script whose
    names are given. *)
Definition image_info (buf : list Z) (offset_key size_key : string) : outcome (option (option (Z * Z))) :=
  s ← strstr (length buf) buf 0 (bytes_of offset_key);
  match s with
  | None => Ok None
  | Some s =>
      image_offset ← scan_hex6 buf (s - 7);
      match image_offset with
      | None => Ok (Some None)
      | Some image_offset =>
          s ← strstr (length buf) buf 0 (bytes_of size_key);
          match s with
          | None => Ok (Some None)
          | Some s =>
              image_size ← scan_hex6 buf (s - 7);
              Ok (Some (option_map (pair image_offset) image_size))
          end
      end
  end.

Definition chrp_info (buf : list Z) : outcome (option (Z * Z)) :=
  lzss ← image_info buf "constant lzss-offset" "constant lzss-size";
  match lzss with
  | Some info => Ok info
  | None =>
      parcels ← image_info buf "constant parcels-offset" "constant parcels-size";
      Ok (default None parcels)
  end.

Definition DecodeROM (fuel : nat) (junk : Z -> Z) (buf : list Z) (size ROMBaseHost : Z) (m : memory) : outcome (bool * memory) :=
  if size =? ROM_SIZE then m ← copy_in (Z.to_nat ROM_SIZE) buf 0 ROMBaseHost m; Ok (true, m)
  else
    chrp ← starts_with buf 0 (bytes_of "<CHRP-BOOT>");
    if (chrp : bool) then
      info ← chrp_info buf;
      match info with
      | None => Ok (false, m)
      | Some (image_offset, image_size) =>
          rom_signature ← rd_be32 buf image_offset;
          m ← (if rom_signature =? FOURCC "p" "r" "c" "l"
               then decode_parcels fuel junk buf image_offset ROMBaseHost m
               else decode_lzss junk buf image_offset ROMBaseHost (s32 image_size) m);
          Ok (true, m)
      end
    else Ok (false, m).

(** ** Searches *)

(** [memcmp(a, data, len) == 0] *)
Fixpoint mem_equal (m : memory) (a : Z) (data : list Z) : outcome bool :=
  match data with
  | [] => Ok true
  | b :: data => x ← load_1 m a; if x =? b then mem_equal m (a + 1) data else Ok false
  end.

(** [while (ofs < end)]: at most [n] turns. *)
Fixpoint find_data_loop (n : nat) (m : memory) (base ofs : Z) (data : list Z) : outcome (option Z) :=
  match n with
  | O => Ok None
  | S n =>
      b ← mem_equal m (base + ofs) data;
      if (b : bool) then Ok (Some ofs) else find_data_loop n m base (ofs + 1) data
  end.
Definition find_rom_data (m : memory) (ROMBase start end_ : Z) (data : list Z) : outcome (option Z) :=
  find_data_loop (Z.to_nat (end_ - start)) m ROMBase start data.

(** The loop over the resource headers: the data offset, or [0], and [rsrc_ptr]. *)
Fixpoint find_resource_loop (fuel : nat) (m : memory) (ROMBase header_size s_type s_id rsrc_ptr : Z) : outcome (Z * Z) :=
  match fuel with
  | O => Fuel
  | S fuel =>
      rsrc_ptr ← vm_read_memory_4 m (u32 (ROMBase + rsrc_ptr));
      if rsrc_ptr =? 0 then Ok (0, rsrc_ptr)
      else
        let rsrc_ptr := u32 (rsrc_ptr + header_size) in
        let lp := u32 (ROMBase + rsrc_ptr + 4) in
        data ← vm_read_memory_4 m lp;
        type ← vm_read_memory_4 m (u32 (lp + 4));
        id ← vm_read_memory_2 m (u32 (lp + 8));
        if (type =? s_type) && ((s16 id =? s_id) || (s_id =? 4711)) then Ok (data, rsrc_ptr)
        else find_resource_loop fuel m ROMBase header_size s_type s_id rsrc_ptr
  end.

(** With [cont] the search goes on from the static [rsrc_ptr]; the result is the
    offset and the new [rsrc_ptr]. *)
Definition find_rom_resource (fuel : nat) (m : memory) (ROMBase s_type s_id : Z) (cont : bool) (rsrc_ptr : Z) : outcome (Z * Z) :=
  x ← vm_read_memory_4 m (u32 (ROMBase + 0x1a));
  header_size ← vm_read_memory_1 m (u32 (ROMBase + x + 5));
  if cont && (rsrc_ptr =? 0) then Ok (0, rsrc_ptr)
  else find_resource_loop fuel m ROMBase header_size s_type s_id (if cont then rsrc_ptr else x).

Definition find_rom_trap (m : memory) (ROMBase trap : Z) : outcome Z :=
  table ← vm_read_memory_4 m (u32 (ROMBase + 0x22));
  let lp := u32 (ROMBase + table) in
  if 0xa800 <? trap then vm_read_memory_4 m (u32 (lp + 4 * Z.land trap 0x3ff))
  else vm_read_memory_4 m (u32 (lp + 4 * (Z.land trap 0xff + 0x400))).

(** [addr] is an offset in the ROM, and so is a relative target. *)
Definition rom_powerpc_branch_target (m : memory) (ROMBase addr : Z) : outcome Z :=
  opcode ← vm_do_read_memory_4 m (ROMBase + addr);
  let primop := Z.shiftr opcode 26 in
  Ok (if primop =? 18 then
        let target := Z.land opcode 0x3fffffc in
        let target := if Zb (Z.land target 0x2000000) then Z.lor target 0xfc000000 else target in
        if Z.land opcode 2 =? 0 then u32 (target + addr) else target
      else if primop =? 16 then
        let target := u32 (s16 (Z.land opcode 0xfffc)) in
        if Z.land opcode 2 =? 0 then u32 (target + addr) else target
      else 0).

(** [for (addr = start; addr < end; addr += 4)] *)
Fixpoint find_branch_loop (n : nat) (m : memory) (ROMBase addr target : Z) : outcome (option Z) :=
  match n with
  | O => Ok None
  | S n =>
      t ← rom_powerpc_branch_target m ROMBase addr;
      if t =? target then Ok (Some addr) else find_branch_loop n m ROMBase (addr + 4) target
  end.
Definition find_rom_powerpc_branch (m : memory) (ROMBase start end_ target : Z) : outcome (option Z) :=
  find_branch_loop (Z.to_nat ((end_ - start + 3) / 4)) m ROMBase start target.

Fixpoint patch_space_loop (n : nat) (m : memory) (a : Z) : outcome bool :=
  match n with
  | O => Ok true
  | S n =>
      x ← vm_do_read_memory_4 m a;
      if negb (x =? 0x6b636b63) && negb (x =? 0) then Ok false else patch_space_loop n m (a + 4)
  end.
Definition check_rom_patch_space (m : memory) (ROMBase base size : Z) : outcome bool :=
  let size := Z.land (u32 (size + 3)) (u32 (-4)) in
  patch_space_loop (Z.to_nat (size / 4)) m (ROMBase + base).

(** ** Audio sifters *)

(** [sifter_list] up to [num_sifters]; the array has room for 32, and writing
    past it is undefined. *)
Abbreviation sift_entry := (Z * Z)%type.
Definition FindSifter (type id : Z) (l : list sift_entry) : bool :=
  existsb (fun e => (fst e =? type) && (snd e =? id)) l.
Definition AddSifter (type id : Z) (l : list sift_entry) : outcome (list sift_entry) :=
  if FindSifter type id l then Ok l
  else if (length l <? 32)%nat then Ok (l ++ [(type, id)])
  else Segv (Z.of_nat (length l)).
