(* ===== verification/RomSpec.v ===== *)
(** Properties of the ROM tools: the decompressor against a reference
    definition of LZSS, its bounds on any input, the searches, the space check
    and the sifters. *)
From Stdlib Require Import Ascii String.
From S2P Require Import Prelude Memory Rom.

#[local] Open Scope list_scope.

(** ** LZSS

    The reference: a token is a literal byte, or a copy of [n] bytes from [d]
    bytes back in the output, where a copy may overlap its own result. *)
Inductive token := Lit (c : Z) | Copy (d n : nat).

Fixpoint copies (n d : nat) (out : list Z) : list Z :=
  match n with O => out | S n => copies n d (out ++ [out !!! (length out - d)%nat]) end.
Definition expand_token (out : list Z) (t : token) : list Z :=
  match t with Lit c => out ++ [c] | Copy d n => copies n d out end.
Definition expand (out : list Z) (ts : list token) : list Z := fold_left expand_token ts out.

(** A copy stays within the window and what has been written. *)
Definition token_ok (out : list Z) (t : token) : Prop :=
  match t with
  | Lit c => is_uint 8 c
  | Copy d n => (1 <= d <= 4096 /\ d <= length out /\ 3 <= n <= 18)%nat
  end.
Fixpoint tokens_ok (out : list Z) (ts : list token) : Prop :=
  match ts with [] => True | t :: ts => token_ok out t /\ tokens_ok (expand_token out t) ts end.

Lemma length_copies n d : forall out, length (copies n d out) = (length out + n)%nat.
Proof. induction n as [|n IH]; intros out; cbn; [lia|]. rewrite IH, length_app. cbn. lia. Qed.

Lemma length_expand ts : forall out, (length out <= length (expand out ts))%nat.
Proof.
  induction ts as [|t ts IH]; intros out; cbn; [done|]. etransitivity; [|apply IH].
  destruct t; cbn; [rewrite length_app|rewrite length_copies]; lia.
Qed.

(** The encoding: groups of eight tokens after a byte of flags, a copy as the
    place in the 4096-byte ring and the length. *)
Definition encode_token (out : list Z) (t : token) : list Z :=
  match t with
  | Lit c => [c]
  | Copy d n =>
      let i := (0xfee + Z.of_nat (length out) - Z.of_nat d) mod 4096 in
      [i mod 256; i / 256 * 16 + (Z.of_nat n - 3)]
  end.
Fixpoint encode_tokens (out : list Z) (ts : list token) : list Z :=
  match ts with [] => [] | t :: ts => encode_token out t ++ encode_tokens (expand_token out t) ts end.
Definition flag (t : token) : Z := match t with Lit _ => 1 | Copy _ _ => 0 end.
Fixpoint flags (ts : list token) : Z := match ts with [] => 0 | t :: ts => flag t + 2 * flags ts end.
Fixpoint encode_groups (k : nat) (out : list Z) (ts : list token) : list Z :=
  match k, ts with
  | S k, _ :: _ =>
      let g := take 8 ts in
      flags g :: encode_tokens out g ++ encode_groups k (expand out g) (drop 8 ts)
  | _, _ => []
  end.
Definition encode (ts : list token) : list Z := encode_groups (length ts) [] ts.

Lemma expand_app out ts us : expand out (ts ++ us) = expand (expand out ts) us.
Proof. apply fold_left_app. Qed.

Lemma tokens_ok_app out ts us : tokens_ok out (ts ++ us) <-> tokens_ok out ts /\ tokens_ok (expand out ts) us.
Proof. revert out. induction ts as [|t ts IH]; intros out; cbn [app tokens_ok expand fold_left]; [tauto|]. rewrite IH. unfold expand. tauto. Qed.

Lemma length_encode_tokens ts : forall out, (length ts <= length (encode_tokens out ts))%nat.
Proof.
  induction ts as [|t ts IH]; intros out; [done|]. cbn [encode_tokens length]. rewrite length_app.
  pose proof (IH (expand_token out t)). destruct t; cbn [encode_token length]; lia.
Qed.

Lemma length_encode_groups k : forall out ts, (length ts <= k)%nat -> (length ts <= length (encode_groups k out ts))%nat.
Proof.
  induction k as [|k IH]; intros out ts Hk; (destruct ts as [|t ts]; [done|]); [done|]. cbn [encode_groups].
  set (l := t :: ts) in *. cbn [length]. rewrite length_app.
  pose proof (length_encode_tokens (take 8 l) out). pose proof (IH (expand out (take 8 l)) (drop 8 l)).
  rewrite length_take in *. rewrite length_drop in *. subst l. cbn [length] in *. lia.
Qed.

(** *** Reading the buffer *)

Definition at_buf (buf : list Z) (src : Z) (l : list Z) : Prop :=
  forall i b, l !! i = Some b -> rd buf (src + Z.of_nat i) = Ok b.

Lemma at_buf_app buf src l l' : at_buf buf src (l ++ l') -> at_buf buf src l /\ at_buf buf (src + Z.of_nat (length l)) l'.
Proof.
  intros H. split; intros i b Hi.
  - apply H. by apply lookup_app_l_Some.
  - rewrite <- Z.add_assoc, <- Nat2Z.inj_add. apply H. rewrite lookup_app_r by lia. rewrite <- Hi. f_equal. lia.
Qed.

Lemma at_buf_cons buf src b l : at_buf buf src (b :: l) -> rd buf src = Ok b /\ at_buf buf (src + 1) l.
Proof.
  intros H. split; [by rewrite <- (H 0%nat b eq_refl), Z.add_0_r|].
  intros i c Hi. rewrite <- (H (S i) c Hi). f_equal. lia.
Qed.

Lemma at_buf_part pre l post : at_buf (pre ++ l ++ post) (Z.of_nat (length pre)) l.
Proof.
  intros i b Hi. unfold rd. replace (_ <? 0) with false by (symmetry; apply Z.ltb_ge; lia).
  rewrite <- Nat2Z.inj_add, Nat2Z.id, lookup_app_r by lia. rewrite lookup_app_l by (apply lookup_lt_Some in Hi; lia).
  replace (length pre + i - length pre)%nat with i by lia. by rewrite Hi.
Qed.

Lemma rd_total buf i : Forall (is_uint 8) buf -> 0 <= i < Z.of_nat (length buf) -> exists b, rd buf i = Ok b /\ is_uint 8 b.
Proof.
  intros Hb Hi. unfold rd. replace (i <? 0) with false by (symmetry; apply Z.ltb_ge; lia).
  destruct (lookup_lt_is_Some_2 buf (Z.to_nat i)) as [b E]; [lia|]. rewrite E. exists b. split; [done|].
  by apply (Forall_lookup_1 _ _ _ _ Hb E).
Qed.

(** *** The output side

    [o] holds the output [out] of the memory [m]: the ring has its last 4096
    bytes. *)
Record lz_holds (dest : Z) (m : memory) (out : list Z) (o : lz_out) : Prop := {
  lzh_bytes : Forall (is_uint 8) out;
  lzh_idx : dict_idx o = (0xfee + Z.of_nat (length out)) mod 4096;
  lzh_dest : lz_dest o = dest + Z.of_nat (length out);
  lzh_mem : lz_mem o = blit dest out m;
  lzh_dict k : (k < length out)%nat -> (length out <= k + 4096)%nat -> dict o ((0xfee + Z.of_nat k) mod 4096) = out !!! k;
}.

Lemma land_fff x : 0 <= x -> Z.land x 0xfff = x mod 4096.
Proof. intros. change 0xfff with (Z.ones 12). by rewrite Z.land_ones. Qed.

Lemma ring_next x : Z.land (x mod 4096 + 1) 0xfff = (x + 1) mod 4096.
Proof. rewrite land_fff by (pose proof (Z.mod_pos_bound x 4096); lia). apply (trunc_add_l 12). Qed.

Lemma in_ring x : (0 <=? x mod 4096) && (x mod 4096 <? 0x1000) = true.
Proof. pose proof (Z.mod_pos_bound x 4096 eq_refl). apply andb_true_iff. split; [apply Z.leb_le|apply Z.ltb_lt]; lia. Qed.

Lemma emit_holds dest m out o c :
  lz_holds dest m out o -> is_uint 8 c -> mapped (S (length out)) dest m ->
  exists o', lz_emit c o = Ok o' /\ lz_holds dest m (out ++ [c]) o'.
Proof.
  intros [Hb Hi Hd Hm Hk] Hc Hmap. unfold lz_emit, dict_put. rewrite Hi, in_ring, Hd, Hm.
  cbn [mbind outcome_bind].
  assert (E : store_1 (dest + Z.of_nat (length out)) c (blit dest out m) = Ok (<[dest + Z.of_nat (length out) := u8 c]> (blit dest out m))).
  { apply store_1_Ok. split; [|done]. apply (blit_mapped out dest (S (length out)) dest m Hmap). lia. }
  rewrite E. clear E.
  cbn [mbind outcome_bind]. eexists. split; [reflexivity|]. split; cbn.
  - by apply Forall_app_2; [|constructor].
  - rewrite ring_next, length_app. f_equal. cbn. lia.
  - rewrite length_app. cbn. lia.
  - by rewrite blit_snoc, trunc_small.
  - intros k Hk1 Hk2. rewrite length_app in Hk1, Hk2. cbn in Hk1, Hk2.
    destruct (decide (k = length out)) as [->|].
    + rewrite Z.eqb_refl. by rewrite list_lookup_total_middle.
    + rewrite lookup_total_app_l by lia. rewrite (proj2 (Z.eqb_neq _ _)); [apply Hk; lia|].
      Z.div_mod_to_equations. lia.
Qed.

Lemma copy_holds dest m n : forall out o d,
  lz_holds dest m out o -> (1 <= d <= 4096)%nat -> (d <= length out)%nat -> mapped (length out + n) dest m ->
  exists o', lz_copy n ((0xfee + Z.of_nat (length out) - Z.of_nat d) mod 4096) o = Ok o' /\ lz_holds dest m (copies n d out) o'.
Proof.
  induction n as [|n IH]; intros out o d Ho Hd Hl Hmap; [by exists o|].
  cbn [lz_copy copies]. unfold dict_get. rewrite in_ring. cbn [mbind outcome_bind].
  replace (0xfee + Z.of_nat (length out) - Z.of_nat d) with (0xfee + Z.of_nat (length out - d)) by lia.
  rewrite (lzh_dict _ _ _ _ Ho) by lia.
  destruct (emit_holds dest m out o (out !!! (length out - d)%nat) Ho) as (o' & -> & Ho').
  - apply Forall_lookup_total_1; [apply Ho|lia].
  - intros j Hj; apply Hmap; lia.
  - cbn [mbind outcome_bind]. rewrite ring_next.
    replace (0xfee + Z.of_nat (length out - d) + 1)
      with (0xfee + Z.of_nat (length (out ++ [out !!! (length out - d)%nat])) - Z.of_nat d) by (rewrite length_app; cbn; lia).
    apply IH; [done|done|rewrite length_app; lia|].
    rewrite length_app. cbn. by replace (length out + 1 + n)%nat with (length out + S n)%nat by lia.
Qed.

(** *** The loop *)

Lemma copy_bytes i n :
  0 <= i < 4096 -> 3 <= n <= 18 ->
  Z.lor (i mod 256) (Z.land (Z.shiftl (i / 256 * 16 + (n - 3)) 4) 0xf00) = i /\
  Z.land (i / 256 * 16 + (n - 3)) 0x0f + 3 = n.
Proof.
  intros Hi Hn. set (h := i / 256). set (l := n - 3).
  assert (Hh : 0 <= h < 16) by (subst h; Z.div_mod_to_equations; lia).
  assert (Hl : 0 <= l < 16) by lia.
  replace (h * 16 + l) with (Z.lor (Z.shiftl h 4) l) by (by apply (lor_shiftl_add h l 4)).
  split.
  - transitivity (Z.lor (Z.shiftl h 8) (i mod 256)).
    + assert (is_uint 4 h) by done. assert (is_uint 4 l) by done. change 0xf00 with (Z.shiftl (Z.ones 4) 8). rewrite Z.lor_comm. f_equal. bits.
    + rewrite lor_shiftl_add by (done || apply (trunc_range 8); lia). subst h. change (2 ^ 8) with 256. pose proof (Z.div_mod i 256). lia.
  - change 0x0f with (Z.ones 4). replace (Z.land _ _) with l; [lia|]. assert (is_uint 4 l) by done. bits.
Qed.

Lemma flags_range ts : 0 <= flags ts < 2 ^ Z.of_nat (length ts).
Proof.
  induction ts as [|t ts IH]; [done|]. cbn [flags length]. rewrite Nat2Z.inj_succ, Z.pow_succ_r by lia.
  destruct t; cbn [flag]; lia.
Qed.

(** What is left of the flags of a group: [hi] are the bits above them. *)
Definition mask_of (g : list token) (hi : Z) : Z := flags g + 2 ^ Z.of_nat (length g) * hi.

Lemma mask_of_cons t g hi :
  Zb (Z.land (mask_of (t :: g) hi) 1) = bool_decide (flag t = 1) /\ Z.shiftr (mask_of (t :: g) hi) 1 = mask_of g hi.
Proof.
  unfold mask_of. cbn [flags length]. rewrite Nat2Z.inj_succ, Z.pow_succ_r by lia.
  replace (flag t + 2 * flags g + 2 * 2 ^ Z.of_nat (length g) * hi)
    with (flag t + (flags g + 2 ^ Z.of_nat (length g) * hi) * 2) by lia.
  split.
  - set (x := flag t + _ * 2). pose proof (Zb_land_bit x 0 ltac:(done)) as E. change (2 ^ 0) with 1 in E. rewrite E.
    rewrite Z.bit0_odd. subst x. rewrite Z.add_comm, Z.mul_comm, Z.add_comm, Z.odd_add_mul_2. by destruct t.
  - rewrite Z.shiftr_div_pow2 by done. change (2 ^ 1) with 2. rewrite Z.div_add by done. by destruct t.
Qed.

Lemma mask_of_new g hi : g <> [] -> 255 <= hi -> mask_of g hi <? 0x100 = false.
Proof.
  intros Hg Hh. apply Z.ltb_ge. destruct g as [|t g]; [done|]. unfold mask_of.
  pose proof (flags_range (t :: g)). cbn [length]. rewrite Nat2Z.inj_succ, Z.pow_succ_r by lia.
  assert (0 < 2 ^ Z.of_nat (length g)) by (apply Z.pow_pos_nonneg; lia). nia.
Qed.

Lemma lz_loop_token dest m t g hi fuel buf src size out o :
  255 <= hi -> lz_holds dest m out o -> token_ok out t ->
  mapped (length (expand_token out t)) dest m ->
  at_buf buf src (encode_token out t) -> Z.of_nat (length (encode_token out t)) <= size ->
  exists o', lz_holds dest m (expand_token out t) o' /\
    lz_loop (S fuel) buf src size (mask_of (t :: g) hi) o =
    lz_loop fuel buf (src + Z.of_nat (length (encode_token out t))) (size - Z.of_nat (length (encode_token out t))) (mask_of g hi) o'.
Proof.
  intros Hh Ho Hok Hmap Hbuf Hsize. cbn [lz_loop]. rewrite mask_of_new by done. unfold lz_turn.
  destruct (mask_of_cons t g hi) as [-> ->]. destruct t as [c|d n]; cbn [flag encode_token expand_token] in *.
  - rewrite bool_decide_true by done. cbn [length] in *. replace (size - 1 <? 0) with false by (symmetry; apply Z.ltb_ge; lia).
    apply at_buf_cons in Hbuf as [-> _]. cbn [mbind outcome_bind].
    destruct (emit_holds dest m out o c Ho Hok) as (o' & -> & Ho'); [intros j Hj; apply Hmap; rewrite length_app; cbn; lia|].
    by exists o'.
  - rewrite bool_decide_false by done. cbn [length] in *. destruct Hok as (Hd & Hl & Hn).
    set (i := (0xfee + Z.of_nat (length out) - Z.of_nat d) mod 4096) in *.
    assert (Hi : 0 <= i < 4096) by (apply Z.mod_pos_bound; lia).
    replace (size - 1 <? 0) with false by (symmetry; apply Z.ltb_ge; lia).
    apply at_buf_cons in Hbuf as [-> Hbuf]. apply at_buf_cons in Hbuf as [Hb2 _]. cbn [mbind outcome_bind].
    replace (size - 1 - 1 <? 0) with false by (symmetry; apply Z.ltb_ge; lia). rewrite Hb2. cbn [mbind outcome_bind].
    destruct (copy_bytes i (Z.of_nat n) Hi ltac:(lia)) as [-> ->]. rewrite Nat2Z.id.
    destruct (copy_holds dest m n out o d Ho Hd Hl) as (o' & E & Ho').
    { intros j Hj. apply Hmap. rewrite length_copies. lia. }
    fold i in E. rewrite E. exists o'. split; [done|]. cbn [mbind outcome_bind]. f_equal; lia.
Qed.

Lemma lz_loop_tokens dest m hi buf g : forall fuel src size out o,
  255 <= hi -> lz_holds dest m out o -> tokens_ok out g ->
  mapped (length (expand out g)) dest m ->
  at_buf buf src (encode_tokens out g) -> Z.of_nat (length (encode_tokens out g)) <= size ->
  exists o', lz_holds dest m (expand out g) o' /\
    lz_loop (length g + fuel) buf src size (mask_of g hi) o =
    lz_loop fuel buf (src + Z.of_nat (length (encode_tokens out g))) (size - Z.of_nat (length (encode_tokens out g))) hi o'.
Proof.
  induction g as [|t g IH]; intros fuel src size out o Hh Ho Hok Hmap Hbuf Hsize.
  - exists o. split; [done|]. unfold mask_of. cbn [flags length encode_tokens Nat.add]. f_equal; lia.
  - destruct Hok as [Ht Hg]. cbn [encode_tokens] in *. apply at_buf_app in Hbuf as [Hb1 Hb2]. rewrite length_app in Hsize |- *.
    destruct (lz_loop_token dest m t g hi (length g + fuel) buf src size out o) as (o1 & Ho1 & E1); try done; [|lia|].
    { intros j Hj. apply Hmap. cbn [expand fold_left]. pose proof (length_expand g (expand_token out t)). fold (expand (expand_token out t) g). lia. }
    destruct (IH fuel (src + Z.of_nat (length (encode_token out t))) (size - Z.of_nat (length (encode_token out t))) (expand_token out t) o1)
      as (o2 & Ho2 & E2); try done; [lia|].
    exists o2. split; [done|]. cbn [length Nat.add]. rewrite E1, E2. f_equal; lia.
Qed.

Lemma lz_loop_end fuel buf src run_mask o : lz_loop (S fuel) buf src 0 run_mask o = Ok o.
Proof. cbn [lz_loop]. unfold lz_turn. destruct (run_mask <? 0x100); [done|]. by destruct (Zb _). Qed.

Lemma lor_ff00 c : is_uint 8 c -> Z.lor c 0xff00 = c + 0xff00.
Proof. intros Hc. rewrite Z.lor_comm, Z.add_comm. apply (lor_shiftl_add 0xff c 8); done. Qed.

Lemma lz_loop_flags fuel buf src size run_mask o c :
  run_mask < 0x100 -> 1 <= size -> rd buf src = Ok c -> is_uint 8 c ->
  lz_loop (S fuel) buf src size run_mask o = lz_loop (S fuel) buf (src + 1) (size - 1) (c + 0xff00) o.
Proof.
  intros Hm Hs Hr Hc. cbn [lz_loop]. rewrite (proj2 (Z.ltb_lt _ _) Hm).
  replace (size - 1 <? 0) with false by (symmetry; apply Z.ltb_ge; lia). rewrite Hr. cbn [mbind outcome_bind].
  rewrite lor_ff00 by done. replace (c + 0xff00 <? 0x100) with false; [done|]. symmetry. apply Z.ltb_ge. destruct Hc. lia.
Qed.

(** The mask of a new group, and what is above the flags. *)
Lemma group_mask g : (length g <= 8)%nat -> exists hi, flags g + 0xff00 = mask_of g hi /\ 255 <= hi /\ (length g = 8%nat -> hi = 255).
Proof.
  intros Hg. exists (0xff00 / 2 ^ Z.of_nat (length g)). unfold mask_of. generalize (flags g). revert Hg. generalize (length g).
  intros n Hn f. do 9 (destruct n as [|n]; [split_and!; [apply (f_equal (Z.add f)); reflexivity|by vm_compute|by intros]|]). lia.
Qed.

Lemma lz_loop_groups dest m buf k : forall fuel src run_mask out ts o,
  (length ts <= k)%nat -> (length ts < fuel)%nat -> run_mask < 0x100 \/ ts = [] ->
  lz_holds dest m out o -> tokens_ok out ts -> mapped (length (expand out ts)) dest m ->
  at_buf buf src (encode_groups k out ts) ->
  exists o', lz_loop fuel buf src (Z.of_nat (length (encode_groups k out ts))) run_mask o = Ok o' /\
    lz_holds dest m (expand out ts) o'.
Proof.
  induction k as [|k IH]; intros fuel src run_mask out ts o Hk Hf Hm Ho Hok Hmap Hbuf;
    (destruct fuel as [|fuel]; [lia|]); (destruct ts as [|t ts]; [exists o; split; [by apply lz_loop_end|done]|]); [cbn in Hk; lia|].
  destruct Hm as [Hm|]; [|done]. cbn [encode_groups] in *. set (g := take 8 (t :: ts)) in *. set (r := drop 8 (t :: ts)) in *.
  assert (E : t :: ts = g ++ r) by (symmetry; apply take_drop).
  apply at_buf_cons in Hbuf as [Hc Hbuf]. apply at_buf_app in Hbuf as [Hb1 Hb2].
  assert (Hg : (length g <= 8)%nat) by (subst g; rewrite length_take; lia).
  destruct (group_mask g Hg) as (hi & Ehi & Hhi & Hfull).
  rewrite E in Hok, Hmap |- *. apply tokens_ok_app in Hok as [Hok1 Hok2]. rewrite expand_app in Hmap |- *.
  assert (Hlen : (length g + length r)%nat = S (length ts)) by (rewrite <- length_app, <- E; done).
  assert (Hg1 : (1 <= length g)%nat) by (subst g; cbn; lia). cbn [length] in Hk, Hf.
  rewrite (lz_loop_flags _ _ _ _ _ _ (flags g)); [|done|cbn [length]; lia|done|]; cycle 1.
  { pose proof (flags_range g). assert (2 ^ Z.of_nat (length g) <= 2 ^ 8) by (apply Z.pow_le_mono_r; lia). unfold is_uint. lia. }
  rewrite Ehi. cbn [length]. rewrite Nat2Z.inj_succ, length_app.
  replace (S fuel) with (length g + (S fuel - length g))%nat by lia.
  destruct (lz_loop_tokens dest m hi buf g (S fuel - length g) (src + 1)
    (Z.succ (Z.of_nat (length (encode_tokens out g) + length (encode_groups k (expand out g) r))) - 1) out o) as (o1 & Ho1 & ->);
    try done; [|lia|].
  { intros j Hj. apply Hmap. pose proof (length_expand r (expand out g)). lia. }
  replace (Z.succ _ - 1 - _) with (Z.of_nat (length (encode_groups k (expand out g) r))) by lia.
  apply IH; try done; [lia|lia|].
  destruct (decide (8 <= S (length ts))%nat) as [H8|H8].
  - left. rewrite Hfull; [lia|]. subst g. rewrite length_take. cbn [length]. lia.
  - right. subst r. apply drop_ge. cbn. lia.
Qed.

(** C28: LZSS data that encode a list of tokens (literals and overlapping copies)
    are decoded to the output the tokens stand for, from anywhere in a buffer, and
    nothing else in memory changes; what the ring holds at first does not matter. *)
Theorem decode_lzss_spec junk pre ts post dest m :
  tokens_ok [] ts -> mapped (length (expand [] ts)) dest m ->
  decode_lzss junk (pre ++ encode ts ++ post) (Z.of_nat (length pre)) dest (Z.of_nat (length (encode ts))) m =
  Ok (blit dest (expand [] ts) m).
Proof.
  intros Hok Hmap. unfold decode_lzss.
  destruct (lz_loop_groups dest m (pre ++ encode ts ++ post) (length ts) (Z.to_nat (Z.of_nat (length (encode ts))) + 1)
    (Z.of_nat (length pre)) 0 [] ts (LzOut junk 0xfee dest m)) as (o & E & Ho); try done.
  - rewrite Nat2Z.id. unfold encode. pose proof (length_encode_groups (length ts) [] ts). lia.
  - left. lia.
  - split; cbn; [constructor|done|lia|done|lia].
  - apply at_buf_part.
  - fold (encode ts) in E. rewrite E. cbn [mbind outcome_bind]. by rewrite (lzh_mem _ _ _ _ Ho).
Qed.

Lemma decode_lzss_spec_witness :
  let ts := [Lit 65; Lit 66; Copy 2 5; Lit 67; Copy 8 3; Lit 68; Lit 69; Lit 70; Lit 71; Copy 1 4] in
  let m := list_to_map ((fun a => (a, 0)) <$> count_up 30) in
  tokens_ok [] ts /\ encode ts = [235; 65; 66; 238; 242; 67; 238; 240; 68; 69; 70; 1; 71; 252; 241] /\
  expand [] ts = [65; 66; 65; 66; 65; 66; 65; 67; 65; 66; 65; 68; 69; 70; 71; 71; 71; 71; 71] /\
  decode_lzss (fun _ => 0) ([1; 2] ++ encode ts ++ [3]) 2 5 15 m = Ok (blit 5 (expand [] ts) m).
Proof.
  split_and!; [cbn; unfold is_uint; lia|reflexivity|reflexivity|].
  apply (decode_lzss_spec (fun _ => 0) [1; 2] [Lit 65; Lit 66; Copy 2 5; Lit 67; Copy 8 3; Lit 68; Lit 69; Lit 70; Lit 71; Copy 1 4] [3] 5).
  - cbn; unfold is_uint; lia.
  - intros i Hi. cbn in Hi. change (is_Some (list_to_map (M := memory) ((fun a => (a, 0)) <$> count_up 30) !! i)).
    exists 0. apply elem_of_list_to_map_1; [|apply list_elem_of_fmap; exists i; split; [done|apply elem_of_count_up; lia]].
    rewrite <- list_fmap_compose. unfold compose. cbn [fst]. rewrite list_fmap_id. unfold count_up. apply NoDup_fmap_2; [apply _|apply NoDup_seq].
Defined.

(** *** Bounds on any input *)

(** [o] has written [lz_mem o] over the memory [m], from [dest] to [lz_dest o],
    inside the [n] bytes that are mapped there. *)
Record lz_within (dest : Z) (n : nat) (m : memory) (o : lz_out) : Prop := {
  lzw_idx : 0 <= dict_idx o < 4096;
  lzw_dest : dest <= lz_dest o <= dest + Z.of_nat n;
  lzw_wf : mem_wf (lz_mem o);
  lzw_dom : dom (lz_mem o) = dom m;
  lzw_frame i : ~ (dest <= i < lz_dest o) -> lz_mem o !! i = m !! i;
}.

Section Within.
Context (dest : Z) (n : nat) (m : memory) (Hmap : mapped n dest m).

Lemma emit_within o c :
  lz_within dest n m o -> lz_dest o < dest + Z.of_nat n ->
  exists o', lz_emit c o = Ok o' /\ lz_dest o' = lz_dest o + 1 /\ lz_within dest n m o'.
Proof using Hmap.
  intros [Hi Hd Hw Hdom Hf] Hn. unfold lz_emit, dict_put.
  rewrite (proj2 (andb_true_iff _ _)) by (split; [apply Z.leb_le|apply Z.ltb_lt]; lia). cbn [mbind outcome_bind].
  assert (Hs : is_Some (lz_mem o !! lz_dest o)).
  { apply elem_of_dom. rewrite Hdom. apply elem_of_dom, Hmap. lia. }
  pose proof (store_1_wf (lz_dest o) c _ Hw) as W.
  assert (E : store_1 (lz_dest o) c (lz_mem o) = Ok (<[lz_dest o := u8 c]> (lz_mem o))) by (by apply store_1_Ok).
  rewrite E in W |- *. cbn [mbind outcome_bind]. eexists. split; [reflexivity|]. split; [done|]. split; cbn; [|lia|done| |].
  - rewrite land_fff by lia. by apply Z.mod_pos_bound.
  - by rewrite dom_insert_lookup_L.
  - intros i Hni. rewrite lookup_insert_ne by lia. apply Hf. lia.
Qed.

Lemma copy_within cnt : forall idx o,
  lz_within dest n m o -> 0 <= idx < 4096 -> lz_dest o + Z.of_nat cnt <= dest + Z.of_nat n ->
  exists o', lz_copy cnt idx o = Ok o' /\ lz_dest o' = lz_dest o + Z.of_nat cnt /\ lz_within dest n m o'.
Proof using Hmap.
  induction cnt as [|cnt IH]; intros idx o Ho Hidx Hn; [exists o; split_and!; [done|lia|done]|].
  cbn [lz_copy]. unfold dict_get. rewrite (proj2 (andb_true_iff _ _)) by (split; [apply Z.leb_le|apply Z.ltb_lt]; lia).
  cbn [mbind outcome_bind]. destruct (emit_within o (dict o idx) Ho) as (o' & -> & Hd & Ho'); [lia|]. cbn [mbind outcome_bind].
  destruct (IH (Z.land (idx + 1) 0xfff) o' Ho') as (o2 & E & Hd2 & Ho2); [rewrite land_fff by lia; by apply Z.mod_pos_bound|lia|].
  exists o2. split_and!; [done|lia|done].
Qed.

Lemma loop_within buf fuel : forall src size run_mask o,
  Forall (is_uint 8) buf -> 0 <= src -> 0 <= size -> src + size <= Z.of_nat (length buf) ->
  lz_within dest n m o -> lz_dest o + 9 * size <= dest + Z.of_nat n -> size < Z.of_nat fuel ->
  exists o', lz_loop fuel buf src size run_mask o = Ok o' /\ lz_within dest n m o'.
Proof using Hmap.
  induction fuel as [|fuel IH]; intros src size run_mask o Hb Hs Hl Hl0 Ho Hn Hf; [lia|]. cbn [lz_loop].
  assert (Body : forall src size run_mask, 0 <= src -> 0 <= size -> src + size <= Z.of_nat (length buf) ->
    lz_dest o + 9 * size <= dest + Z.of_nat n -> size < Z.of_nat (S fuel) ->
    exists o', lz_turn (lz_loop fuel) buf src size run_mask o = Ok o' /\ lz_within dest n m o').
  { clear src size run_mask Hs Hl Hl0 Hn Hf. intros src size run_mask Hs Hl0 Hl Hn Hf. unfold lz_turn.
    destruct (Z.ltb_spec (size - 1) 0); [by destruct (Zb _); exists o|].
    destruct (rd_total buf src Hb) as (b & -> & Hb1); [lia|]. cbn [mbind outcome_bind]. destruct (Zb _).
    { destruct (emit_within o b Ho) as (o1 & -> & Hd1 & Ho1); [lia|]. cbn [mbind outcome_bind]. apply IH; try done; lia. }
    destruct (Z.ltb_spec (size - 1 - 1) 0); [by exists o|]. destruct (rd_total buf (src + 1) Hb) as (b2 & -> & Hb2); [lia|]. cbn [mbind outcome_bind].
    assert (H15 : 0 <= Z.land b2 15 < 16) by (change 15 with (Z.ones 4); rewrite Z.land_ones by done; by apply Z.mod_pos_bound).
    destruct (copy_within (Z.to_nat (Z.land b2 15 + 3)) (Z.lor b (Z.land (Z.shiftl b2 4) 0xf00)) o Ho) as (o1 & -> & Hd1 & Ho1); [|lia|].
    - apply (is_uint_lor 12); [done|by apply (is_uint_mono 8)|by apply is_uint_land_r].
    - cbn [mbind outcome_bind]. apply IH; try done; lia. }
  destruct (run_mask <? 0x100); [|apply Body; lia].
  destruct (Z.ltb_spec (size - 1) 0); [by exists o|]. destruct (rd_total buf src Hb) as (c & -> & _); [lia|]. apply Body; lia.
Qed.
End Within.

(** C29: On any input the decompressor ends, reads inside its input and its ring,
    and writes at most nine bytes for every byte of input, from [dest] on. *)
Theorem decode_lzss_bounds junk buf src dest size m :
  Forall (is_uint 8) buf -> 0 <= src -> 0 <= size -> src + size <= Z.of_nat (length buf) ->
  mem_wf m -> mapped (Z.to_nat (9 * size)) dest m ->
  exists m', decode_lzss junk buf src dest size m = Ok m' /\ mem_wf m' /\ dom m' = dom m /\
    forall i, ~ (dest <= i < dest + 9 * size) -> m' !! i = m !! i.
Proof.
  intros Hb Hs Hz Hl Hw Hmap. unfold decode_lzss.
  destruct (loop_within dest _ m Hmap buf (Z.to_nat size + 1) src size 0 (LzOut junk 0xfee dest m)) as (o & -> & [? ? ? ? Hf]);
    [done|done|done|lia| |cbn; lia|lia|].
  - split; cbn; [lia|lia|done|done|done].
  - exists (lz_mem o). split_and!; try done. intros i Hi. apply Hf. lia.
Qed.

Lemma decode_lzss_bounds_witness :
  let m := list_to_map ((fun a => (a, 7)) <$> count_up 40) in
  exists m', decode_lzss (fun _ => 0) [1; 65; 9; 255] 0 2 4 m = Ok m' /\ mem_wf m' /\ dom m' = dom m /\
    forall i, ~ (2 <= i < 2 + 9 * 4) -> m' !! i = m !! i.
Proof.
  apply (decode_lzss_bounds (fun _ => 0) [1; 65; 9; 255] 0 2 4); try lia.
  - repeat constructor; unfold is_uint; lia.
  - cbn. lia.
  - apply (bool_decide_eq_true_1 _). vm_compute. reflexivity.
  - intros i Hi. change (Z.of_nat (Z.to_nat (9 * 4))) with 36 in Hi. apply elem_of_dom. rewrite dom_list_to_map_L, <- list_fmap_compose.
    unfold compose. cbn [fst]. rewrite list_fmap_id. apply elem_of_list_to_set, elem_of_count_up. lia.
Defined.

(** ** Parcels *)

(** A parcel that names itself as the next one is decoded for ever. *)
Lemma parcel_cycle fuel junk buf src dest off m :
  off <> 0 -> rd_be32 buf (src + off) = Ok off ->
  (exists t, rd_be32 buf (src + off + 4) = Ok t /\ t <> FOURCC "r" "o" "m" " ") ->
  parcel_loop fuel junk buf src dest off m = Fuel.
Proof.
  intros H0 Hn (t & Ht & Hrom). induction fuel as [|fuel IH]; [done|]. cbn [parcel_loop].
  rewrite (proj2 (Z.eqb_neq _ _) H0). unfold decode_parcel. rewrite Hn. cbn [mbind outcome_bind]. rewrite Ht. cbn [mbind outcome_bind].
  by rewrite (proj2 (Z.eqb_neq _ _) Hrom).
Qed.

(** ** Searches *)

Lemma mem_equal_spec m data : forall a,
  (forall i, a <= i < a + Z.of_nat (length data) -> is_Some (m !! i)) ->
  exists b, mem_equal m a data = Ok b /\ (b = true <-> forall k x, data !! k = Some x -> m !! (a + Z.of_nat k) = Some x).
Proof.
  induction data as [|x data IH]; intros a Hm; cbn [mem_equal]; [by exists true|].
  cbn [length] in Hm. destruct (Hm a) as [y Hy]; [lia|]. unfold load_1. rewrite Hy. cbn [mbind outcome_bind].
  destruct (Z.eqb_spec y x) as [->|Hne].
  - destruct (IH (a + 1)) as (b & E & Hb); [intros; apply Hm; lia|]. exists b. split; [done|]. rewrite Hb. split.
    + intros H [|k] z Hz; [injection Hz as ->; by rewrite Z.add_0_r|]. rewrite <- (H k z Hz). f_equal. lia.
    + intros H k z Hz. rewrite <- (H (S k) z Hz). f_equal. lia.
  - exists false. split; [done|]. split; [done|]. intros H. specialize (H O x eq_refl). rewrite Z.add_0_r, Hy in H. by injection H as ->.
Qed.

(** The first place in the range where the bytes are, or none. *)
Lemma find_rom_data_spec m ROMBase start end_ data :
  (forall i, ROMBase + start <= i < ROMBase + end_ + Z.of_nat (length data) -> is_Some (m !! i)) ->
  let here o := forall k x, data !! k = Some x -> m !! (ROMBase + o + Z.of_nat k) = Some x in
  exists r, find_rom_data m ROMBase start end_ data = Ok r /\
    match r with
    | Some o => start <= o < end_ /\ here o /\ forall o', start <= o' < o -> ~ here o'
    | None => forall o', start <= o' < end_ -> ~ here o'
    end.
Proof.
  intros Hm here. unfold find_rom_data.
  assert (H : forall n ofs, ofs + Z.of_nat n <= Z.max start end_ -> start <= ofs -> exists r, find_data_loop n m ROMBase ofs data = Ok r /\
    match r with
    | Some o => ofs <= o < ofs + Z.of_nat n /\ here o /\ forall o', ofs <= o' < o -> ~ here o'
    | None => forall o', ofs <= o' < ofs + Z.of_nat n -> ~ here o'
    end).
  { induction n as [|n IH]; intros ofs Hn Hs; cbn [find_data_loop]; [exists None; split; [done|lia]|].
    destruct (mem_equal_spec m data (ROMBase + ofs)) as (b & -> & Hb); [intros; apply Hm; lia|]. cbn [mbind outcome_bind].
    destruct b; [exists (Some ofs); split; [done|]; split_and!; [lia|lia|exact (proj1 Hb eq_refl)|lia]|].
    assert (Hno : ~ here ofs) by (intros H; by apply (proj2 Hb) in H). destruct (IH (ofs + 1)) as (r & -> & Hr); [lia|lia|]. exists r. split; [done|].
    destruct r as [o|].
    - destruct Hr as (? & ? & Hmin). split_and!; [lia|lia|done|]. intros o' Ho'. destruct (decide (o' = ofs)) as [->|]; [done|]. apply Hmin. lia.
    - intros o' Ho'. destruct (decide (o' = ofs)) as [->|]; [done|]. apply Hr. lia. }
  destruct (H (Z.to_nat (end_ - start)) start) as (r & E & Hr); [lia|lia|]. exists r. split; [done|].
  destruct r as [o|]; [destruct Hr as (? & ? & ?); split_and!; [lia|lia|done|done]|]. intros o' Ho'. apply Hr. lia.
Qed.

(** The space is free exactly if every word of it is zero or the filler [kckc]. *)
Lemma check_rom_patch_space_spec m ROMBase base size :
  mem_wf m -> 0 <= size <= 2 ^ 32 - 4 -> mapped (Z.to_nat (4 * ((size + 3) / 4))) (ROMBase + base) m ->
  exists b, check_rom_patch_space m ROMBase base size = Ok b /\
    (b = true <-> forall k, 0 <= k -> 4 * k < size ->
      load_be 4 m (ROMBase + base + 4 * k) = Ok 0x6b636b63 \/ load_be 4 m (ROMBase + base + 4 * k) = Ok 0).
Proof.
  intros Hm Hs Hmap. unfold check_rom_patch_space. set (n := (size + 3) / 4) in *.
  assert (Hn : Z.to_nat (Z.land (u32 (size + 3)) (u32 (-4)) / 4) = Z.to_nat n).
  { rewrite trunc_small by (split; lia). f_equal. replace (Z.land (size + 3) (u32 (-4))) with (n * 4); [by apply Z.div_mul|].
    subst n. replace (u32 (-4)) with (Z.shiftl (Z.ones 30) 2) by reflexivity. change 4 with (2 ^ 2).
    rewrite <- Z.shiftr_div_pow2, <- Z.shiftl_mul_pow2 by done. assert (is_uint 32 (size + 3)) by (split; lia). bits. }
  rewrite Hn. clear Hn.
  assert (H : forall n a, mapped (4 * n) a m -> exists b, patch_space_loop n m a = Ok b /\
    (b = true <-> forall k, 0 <= k < Z.of_nat n -> load_be 4 m (a + 4 * k) = Ok 0x6b636b63 \/ load_be 4 m (a + 4 * k) = Ok 0)).
  { clear -Hm. induction n as [|n IH]; intros a Hmap; cbn [patch_space_loop]; [exists true; split; [done|]; split; [lia|done]|].
    destruct (load_be_total 4 m a) as [x E]; [intros i Hi; apply Hmap; lia|]. rewrite vm_do_read_memory_4_be, E by done. cbn [mbind outcome_bind].
    destruct (IH (a + 4)) as (b & Eb & Hb); [intros i Hi; apply Hmap; lia|].
    destruct (negb (x =? 0x6b636b63) && negb (x =? 0)) eqn:Ex.
    - exists false. split; [done|]. split; [done|]. intros H. specialize (H 0 ltac:(lia)). rewrite Z.mul_0_r, Z.add_0_r, E in H.
      by destruct H as [[= ->]|[= ->]].
    - exists b. split; [done|]. rewrite Hb. apply andb_false_iff in Ex. rewrite !negb_false_iff, !Z.eqb_eq in Ex. split.
      + intros H k Hk. destruct (decide (k = 0)) as [->|]; [rewrite Z.mul_0_r, Z.add_0_r, E; destruct Ex as [->| ->]; auto|].
        replace (a + 4 * k) with (a + 4 + 4 * (k - 1)) by lia. apply H. lia.
      + intros H k Hk. replace (a + 4 + 4 * k) with (a + 4 * (k + 1)) by lia. apply H. lia. }
  destruct (H (Z.to_nat n) (ROMBase + base)) as (b & E & Hb); [intros i Hi; apply Hmap; lia|]. exists b. split; [done|]. rewrite Hb.
  split; intros Hk k Hk1; [intros Hk2; apply Hk; subst n; Z.div_mod_to_equations; lia|apply Hk; [lia|subst n; Z.div_mod_to_equations; lia]].
Qed.

(** ** Sifters *)

Lemma FindSifter_In type id l : FindSifter type id l = true <-> (type, id) ∈ l.
Proof.
  unfold FindSifter. rewrite existsb_exists. split.
  - intros ([t i] & Hin & Heq). apply andb_true_iff in Heq as [Ht%Z.eqb_eq Hi%Z.eqb_eq]. cbn in *. subst. by apply list_elem_of_In.
  - intros Hin. exists (type, id). split; [by apply list_elem_of_In|]. cbn. by rewrite !Z.eqb_refl.
Qed.

(** Sifters are recorded once each, in order, until there are 32; the next one
    overruns the array. *)
Lemma AddSifter_spec type id l :
  NoDup l -> (length l <= 32)%nat ->
  ((type, id) ∈ l /\ AddSifter type id l = Ok l) \/
  ((type, id) ∉ l /\ if (length l <? 32)%nat then AddSifter type id l = Ok (l ++ [(type, id)]) /\ NoDup (l ++ [(type, id)])
   else AddSifter type id l = Segv 32).
Proof.
  intros Hd Hl. unfold AddSifter. destruct (FindSifter type id l) eqn:E.
  - left. by apply FindSifter_In in E.
  - right. assert (Hn : (type, id) ∉ l) by (by rewrite <- FindSifter_In, E). split; [done|].
    destruct (Nat.ltb_spec (length l) 32).
    + split; [done|]. apply NoDup_app. split_and!; [done| |by apply NoDup_singleton]. intros x Hx Hx'%list_elem_of_singleton. by subst.
    + f_equal. lia.
Qed.
