(* ===== verification/RomBranch.v ===== *)
(** The search for branches in the ROM (rom_patches.cpp) against the
    interpreter: what it finds are instructions that the interpreter decodes as
    branches, and the target it computes is where they go. *)
From S2P Require Import Prelude Bitfields Registers HostFPU Operations Memory Handlers BlockCache Cpu Operands ExecInt ExecMem ExecSys Dispatch DecodeTable Decode Interp InterpSpec MacMem Rom.

(** The displacement fields as the search reads them. *)
Lemma rom_LI opcode :
  is_uint 32 opcode ->
  (let target := Z.land opcode 0x3fffffc in if Zb (Z.land target 0x2000000) then Z.lor target 0xfc000000 else target) =
  op_sign_extend_LI_32 (extract LI_field opcode).
Proof.
  intros Ho. unfold op_sign_extend_LI_32. cbn zeta.
  assert (Hx : is_uint 24 (extract LI_field opcode)) by (apply (extract_range LI_field); solve_bf).
  rewrite (trunc_small 32 (extract _ _)) by (by apply (is_uint_mono 24)).
  change 0x2000000 with (2 ^ 25). change 0x800000 with (2 ^ 23). rewrite !Zb_land_bit by done.
  rewrite testbit_extract by solve_bf. change 0x3fffffc with (Z.shiftl (Z.ones 24) 2).
  change 0xfc000000 with (Z.shiftl (Z.ones 6) 26). change 0xff000000 with (Z.shiftl (Z.ones 8) 24).
  replace (Z.testbit (Z.land opcode (Z.shiftl (Z.ones 24) 2)) 25) with (Z.testbit opcode 25)
    by (push_testbit; split_cmp; close_bits).
  change ((23 <? bf_len LI_field) && ((0 <=? 23) && Z.testbit opcode (23 + (31 - FE LI_field)))) with (Z.testbit opcode 25).
  destruct (Z.testbit opcode 25) eqn:E; apply Z.bits_inj'; intros i Hi; push_testbit; rewrite ?testbit_extract by solve_bf;
    change (bf_len LI_field) with 24; change (31 - FE LI_field) with 2; split_cmp; close_bits.
Qed.

Lemma rom_BD opcode : is_uint 32 opcode -> u32 (s16 (Z.land opcode 0xfffc)) = op_sign_extend_BD_32 (extract BD_field opcode).
Proof.
  intros Ho. unfold op_sign_extend_BD_32, op_sign_extend_16_32. rewrite trunc_sext by done. f_equal. apply sext_cong.
  assert (Hx : is_uint 14 (extract BD_field opcode)) by (apply (extract_range BD_field); solve_bf).
  change 0xfffc with (Z.shiftl (Z.ones 14) 2). apply Z.bits_inj'; intros i Hi. push_testbit. rewrite testbit_extract by solve_bf.
  change (bf_len BD_field) with 14. change (31 - FE BD_field) with 2. split_cmp; close_bits.
Qed.

(** The target of the branch [opcode] at [addr], in the interpreter's terms. *)
Definition branch_dest (addr opcode : Z) : option Z :=
  let base := if bp_test AA_BIT_G opcode then 0 else addr in
  let primop := Z.shiftr opcode 26 in
  if primop =? 18 then Some (u32 (base + op_sign_extend_LI_32 (extract LI_field opcode)))
  else if primop =? 16 then Some (u32 (base + op_sign_extend_BD_32 (extract BD_field opcode)))
  else None.

Lemma rom_powerpc_branch_target_dest m ROMBase addr opcode :
  mem_wf m -> load_be 4 m (ROMBase + addr) = Ok opcode -> is_uint 32 addr ->
  rom_powerpc_branch_target m ROMBase addr = Ok (default 0 (branch_dest addr opcode)).
Proof.
  intros Hm E Ha. unfold rom_powerpc_branch_target. rewrite vm_do_read_memory_4_be, E by done. cbn [mbind outcome_bind].
  assert (Ho : is_uint 32 opcode) by (pose proof (load_be_range 4 m (ROMBase + addr) Hm) as H; by rewrite E in H).
  pose proof (rom_LI opcode Ho) as HL. cbn zeta in HL. rewrite HL, rom_BD by done. clear HL. f_equal.
  assert (HA : (Z.land opcode 2 =? 0) = negb (bp_test AA_BIT_G opcode)).
  { cbn [bp_test AA_BIT_G]. rewrite test_bit by solve_bf. pose proof (Zb_land_bit opcode 1 ltac:(done)) as H. unfold Zb in H.
    change (2 ^ 1) with 2 in H. change (31 - FB AA_field) with 1. by rewrite <- H, negb_involutive. }
  rewrite HA. unfold branch_dest, op_sign_extend_LI_32, op_sign_extend_BD_32, op_sign_extend_16_32.
  destruct (bp_test _ _); cbn [negb]; destruct (_ =? 18); [| destruct (_ =? 16)|  | destruct (_ =? 16)]; cbn [default]; try done.
  - by rewrite Z.add_0_l, trunc_trunc.
  - rewrite Z.add_0_l. symmetry. by apply trunc_trunc.
  - by rewrite Z.add_comm.
  - by rewrite Z.add_comm.
Qed.

(** ** The search *)

Lemma find_branch_loop_spec m ROMBase target n : forall addr,
  mem_wf m -> mapped (4 * n) (ROMBase + addr) m -> 0 <= addr -> addr + 4 * Z.of_nat n <= 2 ^ 32 ->
  let hit a := exists opcode, load_be 4 m (ROMBase + a) = Ok opcode /\ default 0 (branch_dest a opcode) = target in
  exists r, find_branch_loop n m ROMBase addr target = Ok r /\
    match r with
    | Some a => exists k, (k < n)%nat /\ a = addr + 4 * Z.of_nat k /\ hit a /\ forall j, (j < k)%nat -> ~ hit (addr + 4 * Z.of_nat j)
    | None => forall j, (j < n)%nat -> ~ hit (addr + 4 * Z.of_nat j)
    end.
Proof.
  induction n as [|n IH]; intros addr Hm Hmap H0 Hn; cbn zeta; [exists None; split; [done|lia]|].
  destruct (load_be_total 4 m (ROMBase + addr)) as [opcode E]; [apply (mapped_le 4 (4 * S n) _ (ROMBase + addr)); [lia|lia|done]|].
  cbn [find_branch_loop]. rewrite (rom_powerpc_branch_target_dest m ROMBase addr opcode Hm E) by (split; lia). cbn [mbind outcome_bind].
  destruct (Z.eqb_spec (default 0 (branch_dest addr opcode)) target) as [Ht|Ht].
  - exists (Some addr). split; [done|]. exists O. split_and!; [lia|lia|by exists opcode|lia].
  - destruct (IH (addr + 4)) as (r & Er & Hr); [done| |lia|lia|].
    { rewrite Z.add_assoc. apply (mapped_le (4 * n) (4 * S n) _ (ROMBase + addr)); [lia|lia|done]. }
    assert (Hfst : ~ exists opcode, load_be 4 m (ROMBase + addr) = Ok opcode /\ default 0 (branch_dest addr opcode) = target).
    { intros (o & Eo & Ho). rewrite E in Eo. by injection Eo as <-. }
    assert (Hshift : forall j, addr + 4 * Z.of_nat (S j) = addr + 4 + 4 * Z.of_nat j) by lia.
    exists r. split; [done|]. destruct r as [a|].
    + destruct Hr as (k & Hk & -> & Hhit & Hmin). exists (S k). split_and!; [lia|lia| |].
      * done.
      * intros [|j] Hj; [by rewrite Z.mul_0_r, Z.add_0_r|]. rewrite Hshift. apply Hmin. lia.
    + intros [|j] Hj; [by rewrite Z.mul_0_r, Z.add_0_r|]. rewrite Hshift. apply Hr. lia.
Qed.

(** ** The interpreter *)

Section Executes.
Context {FPU : HostFPU} {HOST : Host} {DEC : CpuDecoder}.

(** The two branches of the table that have a displacement. *)
Definition b_entry := II "b" (execute_branch_h operand_PC (immediate_value (BO_MAKE false false false false)) operand_LI
  AA_BIT_G LK_BIT_G) I_form 18 0 CFLOW_BRANCH.
Definition bc_entry := II "bc" (execute_branch_h operand_PC operand_BO operand_BD AA_BIT_G LK_BIT_G) B_form 16 0 CFLOW_BRANCH.

Lemma decode_entry opcode ii :
  is_uint 32 opcode -> ii ∈ all_entries -> matches opcode ii = true -> cpu_decode opcode = Some ii.
Proof using.
  intros Ho Hi Hm. rewrite cpu_decode_spec by done.
  apply (proj1 (foldl_match_step opcode all_entries (Some invalid_entry)
    (fun ii jj Hi Hj => matches_unique opcode ii jj Ho Hi Hj))); done.
Qed.

Lemma u32_m4 z : is_uint 32 z -> Z.land z (u32 (-4)) = 4 * (z / 4).
Proof using.
  intros Hz. replace (4 * (z / 4)) with (Z.shiftl (Z.shiftr z 2) 2)
    by (rewrite Z.shiftl_mul_pow2, Z.shiftr_div_pow2 by lia; change (2 ^ 2) with 4; lia).
  replace (u32 (-4)) with (Z.shiftl (Z.ones 30) 2) by reflexivity. bits.
Qed.

(** A branch goes to the next instruction or to its displacement from its own
    address, rounded down to a word; if it tests nothing, to the latter. *)
Lemma execute_branch_goes BO DP AA LK op c :
  (forall c c', operand_get DP c op = operand_get DP c' op) ->
  exists c', execute_branch operand_PC BO DP AA LK op c = Ok c' /\
    (pc c' = 4 * (u32 ((if bp_test AA op then 0 else pc c) + operand_get DP c op) / 4) \/
     pc c' = u32 (pc c + 4) /\
       (BO_DECREMENT_CTR (operand_get BO c op) || BO_CONDITIONAL_BRANCH (operand_get BO c op)) = true).
Proof using.
  intros HDP. unfold execute_branch. cbn zeta.
  set (cond := if BO_CONDITIONAL_BRANCH _ then _ else true).
  assert (Hcond : cond = false -> BO_CONDITIONAL_BRANCH (operand_get BO c op) = true) by (subst cond; by destruct (BO_CONDITIONAL_BRANCH _)).
  assert (Hz : forall c, is_uint 32 (u32 ((if bp_test AA op then 0 else pc c) + operand_get DP c op))) by (intros; by apply trunc_range).
  destruct (BO_DECREMENT_CTR _) eqn:ED; cbn [andb orb].
  - set (taken := _ && cond). eexists. split; [reflexivity|]. rewrite (HDP c (set_ctr (u32 (ctr c - 1)) c)).
    destruct taken, (bp_test LK op); cbn [operand_get]; simpl_cpu; [left|left|right|right]; try done; by apply u32_m4, trunc_range.
  - destruct cond; eexists; (split; [reflexivity|]); destruct (bp_test LK op); simpl_cpu; cbn [operand_get];
      [left|left|right|right]; try (by apply u32_m4, trunc_range); (split; [done|by apply Hcond]).
Qed.

(** The word at offset [a] of the ROM is a branch to [target] (an offset too,
    unless the branch is absolute), in the interpreter: it decodes as [b] or
    [bc], and from any state at that address it goes to [target] or, if it is a
    [bc], to the next instruction. *)
Definition branches_to (m : memory) (ROMBase a target : Z) : Prop :=
  exists opcode ii, load_be 4 m (ROMBase + a) = Ok opcode /\ cpu_decode opcode = Some ii /\ (ii = b_entry \/ ii = bc_entry) /\
    forall c, pc c = u32 (ROMBase + a) ->
      exists c', run_handler (ii_execute ii) opcode c = Ok c' /\
        (pc c' = 4 * (u32 ((if bp_test AA_BIT_G opcode then 0 else ROMBase) + target) / 4) \/
         ii = bc_entry /\ pc c' = u32 (pc c + 4)).

Lemma dest_branches_to m ROMBase a opcode target :
  mem_wf m -> load_be 4 m (ROMBase + a) = Ok opcode -> branch_dest a opcode = Some target -> branches_to m ROMBase a target.
Proof using.
  intros Hm E Hd. assert (Ho : is_uint 32 opcode) by (pose proof (load_be_range 4 m (ROMBase + a) Hm) as H; by rewrite E in H).
  assert (Hadd : forall d c, pc c = u32 (ROMBase + a) -> u32 ((if bp_test AA_BIT_G opcode then 0 else a) + d) = target ->
    u32 ((if bp_test AA_BIT_G opcode then 0 else pc c) + d) = u32 ((if bp_test AA_BIT_G opcode then 0 else ROMBase) + target)).
  { intros d c -> <-. rewrite trunc_add_r. destruct (bp_test _ _); [done|]. rewrite trunc_add_l. f_equal. lia. }
  unfold branch_dest in Hd. exists opcode.
  destruct (Z.eqb_spec (Z.shiftr opcode 26) 18) as [H18|]; [|destruct (Z.eqb_spec (Z.shiftr opcode 26) 16) as [H16|]; [|done]].
  - exists b_entry. assert (Hm18 : matches opcode b_entry = true) by (unfold matches; cbn; by rewrite H18).
    split_and!; [done|by apply decode_entry; [|apply (list_elem_of_lookup_2 _ 13); vm_compute|]|by left|].
    intros c Hc. destruct (execute_branch_goes (immediate_value (BO_MAKE false false false false)) operand_LI AA_BIT_G LK_BIT_G opcode c) as (c' & Ec & [Hp|[_ Hf]]);
      [done| |by vm_compute in Hf]. exists c'. split; [done|]. left. injection Hd as Hd. by rewrite Hp, (Hadd _ c).
  - exists bc_entry. assert (Hm16 : matches opcode bc_entry = true) by (unfold matches; cbn; by rewrite H16).
    split_and!; [done|by apply decode_entry; [|apply (list_elem_of_lookup_2 _ 14); vm_compute|]|by right|].
    intros c Hc. destruct (execute_branch_goes operand_BO operand_BD AA_BIT_G LK_BIT_G opcode c) as (c' & Ec & [Hp|[Hp _]]); [done| |];
      exists c'; (split; [done|]); [left|by right]. injection Hd as Hd. by rewrite Hp, (Hadd _ c).
Qed.

(** C30: The search for a branch finds the first word of the range that the
    interpreter runs as a branch to the target; if it finds nothing, no word of
    the range has a displacement with that target. *)
Theorem find_rom_powerpc_branch_spec m ROMBase start end_ target :
  let n := Z.to_nat ((end_ - start + 3) / 4) in
  mem_wf m -> mapped (4 * n) (ROMBase + start) m -> 0 <= start -> start + 4 * Z.of_nat n <= 2 ^ 32 -> target <> 0 ->
  let hit a := exists opcode, load_be 4 m (ROMBase + a) = Ok opcode /\ branch_dest a opcode = Some target in
  exists r, find_rom_powerpc_branch m ROMBase start end_ target = Ok r /\
    match r with
    | Some a => start <= a < end_ /\ branches_to m ROMBase a target /\ forall j, 0 <= j -> start + 4 * j < a -> ~ hit (start + 4 * j)
    | None => forall j, 0 <= j -> start + 4 * j < end_ -> ~ hit (start + 4 * j)
    end.
Proof using.
  intros n Hm Hmap Hs Hn Ht hit.
  destruct (find_branch_loop_spec m ROMBase target n start Hm Hmap Hs Hn) as (r & E & Hr). exists r. split; [done|].
  assert (Hd : forall j, hit j -> exists opcode, load_be 4 m (ROMBase + j) = Ok opcode /\ default 0 (branch_dest j opcode) = target).
  { intros j (o & Eo & Ho). exists o. split; [done|]. by rewrite Ho. }
  assert (Hcount : forall j, 0 <= j -> start + 4 * j < end_ -> (Z.to_nat j < n)%nat) by (intros; subst n; Z.div_mod_to_equations; lia).
  destruct r as [a|].
  - destruct Hr as (k & Hk & -> & (o & Eo & Ho) & Hmin). split_and!; [lia|subst n; Z.div_mod_to_equations; lia| |].
    + apply (dest_branches_to m ROMBase _ o target); [done..|]. destruct (branch_dest _ o); cbn in Ho; by subst.
    + intros j Hj Hlt H%Hd. apply (Hmin (Z.to_nat j)); [lia|]. by rewrite Z2Nat.id.
  - intros j Hj Hlt H%Hd. apply (Hr (Z.to_nat j)); [by apply Hcount|]. by rewrite Z2Nat.id.
Qed.
End Executes.

(** [nop; b +12; nop] at offset 0 of the ROM. *)
Definition sample_rom : memory :=
  list_to_map (zip ((fun i => 0x40800000 + i) <$> count_up 12) [0x60; 0; 0; 0; 0x48; 0; 0; 0x0c; 0x60; 0; 0; 0]).

Lemma find_rom_powerpc_branch_spec_witness :
  find_rom_powerpc_branch sample_rom 0x40800000 0 12 16 = Ok (Some 4) /\
  branches_to (FPU := null_fpu) (HOST := null_host) (DEC := built_decoder) sample_rom 0x40800000 4 16.
Proof.
  assert (Hw : mem_wf sample_rom) by (apply (bool_decide_eq_true_1 _); vm_compute; reflexivity).
  assert (Hmap : mapped 12 (0x40800000 + 0) sample_rom).
  { intros i Hi. assert (H : i ∈ (fun i => 0x40800000 + i) <$> count_up 12).
    { apply list_elem_of_fmap. exists (i - 0x40800000). split; [lia|]. apply elem_of_count_up. lia. }
    apply elem_of_dom. unfold sample_rom. rewrite dom_list_to_map_L. rewrite fst_zip by done. by apply elem_of_list_to_set. }
  assert (E : find_rom_powerpc_branch sample_rom 0x40800000 0 12 16 = Ok (Some 4)) by (vm_compute; reflexivity).
  split; [exact E|].
  destruct (find_rom_powerpc_branch_spec (FPU := null_fpu) (HOST := null_host) (DEC := built_decoder)
    sample_rom 0x40800000 0 12 16 Hw Hmap ltac:(lia) ltac:(vm_compute; discriminate) ltac:(discriminate)) as (r & Er & Hr).
  rewrite E in Er. injection Er as <-. apply Hr.
Defined.
