(* ===== verification/Scsi.v ===== *)
(** The old SCSI Manager (scsi.cpp and the SCSI dispatcher of emul_op.cpp):
    the phases of the bus, the scatter/gather table that transfer instruction
    blocks fill, and the calls of Mac OS.

    The targets are host devices behind the functions of scsi.h, which every
    platform implements; [Targets] is that interface. *)
From S2P Require Import Prelude Bitfields Registers HostFPU Operations Memory Handlers BlockCache Cpu Operands ExecInt ExecMem ExecSys Glue.

#[local] Open Scope list_scope.

Definition scCommErr := 2.
Definition scBadParmsErr := 4.
Definition scPhaseErr := 5.
Definition scCompareErr := 6.
Definition scMgrBusyErr := 7.
Definition scSequenceErr := 8.
Definition memFullErr := -108.

Definition scInc := 1.
Definition scNoInc := 2.
Definition scAdd := 3.
Definition scMove := 4.
Definition scLoop := 5.
Definition scNop := 6.
Definition scStop := 7.
Definition scComp := 8.

Inductive scsi_phase := PH_FREE | PH_ARBITRATED | PH_SELECTED | PH_TRANSFER.

#[export] Instance scsi_phase_eq_dec : EqDecision scsi_phase.
Proof. solve_decision. Defined.

Definition SG_TABLE_SIZE := 1024.

(** The globals; the table is a list of [sg_index] entries, pointer and length. *)
Record scsi := Scsi {
  target_id : Z;
  phase : scsi_phase;
  fake_status : Z;
  reading : bool;
  sg : list (Z * Z);
  sg_total_length : Z;
}.

Definition set_bus (p : scsi_phase) (status : Z) (s : scsi) : scsi :=
  Scsi (target_id s) p status (reading s) (sg s) (sg_total_length s).
Definition set_target_id (id : Z) (s : scsi) : scsi :=
  Scsi id (phase s) (fake_status s) (reading s) (sg s) (sg_total_length s).
Definition set_sg (l : list (Z * Z)) (total : Z) (s : scsi) : scsi :=
  Scsi (target_id s) (phase s) (fake_status s) (reading s) l total.
Definition set_reading (b : bool) (s : scsi) : scsi :=
  Scsi (target_id s) (phase s) (fake_status s) b (sg s) (sg_total_length s).

(** The state before any call. *)
Definition scsi_init : scsi := Scsi 0 PH_FREE 0 false [] 0.

(** ** Transfer instruction blocks *)

(** Scatter/gather: a range that continues the last entry is merged with it;
    [None] if the table is full.  Pointers are host addresses and do not wrap. *)
Definition sg_add (ptr len : Z) (s : scsi) : option scsi :=
  let total := u32 (sg_total_length s + len) in
  match last (sg s) with
  | Some (p, l) =>
      if ptr =? p + l then Some (set_sg (removelast (sg s) ++ [(p, u32 (l + len))]) total s)
      else if Z.of_nat (length (sg s)) =? SG_TABLE_SIZE then None
      else Some (set_sg (sg s ++ [(ptr, len)]) total s)
  | None => Some (set_sg [(ptr, len)] total s)
  end.

(** One instruction, after [tib] has been advanced past it: what to do next and
    the state. *)
Inductive tib_next := Return (result : Z) | Continue (tib : Z).

Definition tib_data (ptr len tib : Z) (s : scsi) (c : powerpc_cpu) : outcome (tib_next * scsi * powerpc_cpu) :=
  match sg_add ptr len s with
  | None => Ok (Return memFullErr, s, c)
  | Some s => Ok (Continue tib, s, c)
  end.

Definition tib_insn (cmd ptr len tib : Z) (s : scsi) (c : powerpc_cpu) : outcome (tib_next * scsi * powerpc_cpu) :=
  if cmd =? scInc then
    c ← WriteMacInt32 (u32 (tib - 8)) (u32 (ptr + len)) c;
    tib_data ptr len tib s c
  else if cmd =? scNoInc then tib_data ptr len tib s c
  else if cmd =? scAdd then
    x ← ReadMacInt32 ptr c;
    c ← WriteMacInt32 ptr (u32 (x + len)) c;
    Ok (Continue tib, s, c)
  else if cmd =? scMove then
    x ← ReadMacInt32 ptr c;
    c ← WriteMacInt32 len x c;
    Ok (Continue tib, s, c)
  else if cmd =? scLoop then
    c ← WriteMacInt32 (u32 (tib - 4)) (u32 (len - 1)) c;
    Ok (Continue (if 0 <? u32 (len - 1) then u32 (tib + (s32 ptr - 10)) else tib), s, c)
  else if cmd =? scNop then Ok (Continue tib, s, c)
  else if cmd =? scStop then Ok (Return 0, s, c)
  else if cmd =? scComp then Ok (Return scCompareErr, s, c)
  else Ok (Return scBadParmsErr, s, c).

(** [for (;;)]; the code has no bound, [fuel] counts instructions. *)
Fixpoint exec_tib (fuel : nat) (tib : Z) (s : scsi) (c : powerpc_cpu) : outcome (Z * scsi * powerpc_cpu) :=
  match fuel with
  | O => Fuel
  | S fuel =>
      cmd ← ReadMacInt16 tib c;
      ptr ← ReadMacInt32 (u32 (tib + 2)) c;
      len ← ReadMacInt32 (u32 (tib + 6)) c;
      '(next, s, c) ← tib_insn cmd ptr len (u32 (tib + 10)) s c;
      match next with
      | Return result => Ok (result, s, c)
      | Continue tib => exec_tib fuel tib s c
      end
  end.

(** ** The calls *)

(** The devices: whether a target answers, the command for it, the logical unit,
    and the execution of the command, which moves the data and gives the
    status. *)
Class Targets (B : Type) := {
  scsi_is_target_present : Z -> B -> bool;
  scsi_set_cmd : list Z -> B -> B;
  scsi_set_target : Z -> Z -> B -> bool * B;
  scsi_send_cmd : Z -> bool -> list (Z * Z) -> Z -> B -> powerpc_cpu -> outcome (bool * Z * B * powerpc_cpu);
}.

(** [n] bytes of host memory. *)
Fixpoint read_bytes (n : nat) (a : Z) (c : powerpc_cpu) : outcome (list Z) :=
  match n with
  | O => Ok []
  | S n => b ← load_1 (mem c) a; l ← read_bytes n (a + 1) c; Ok (b :: l)
  end.

Section Calls.
Context {B : Type} {TARGETS : Targets B} (tib_fuel : nat).

(** The SCSI Manager, its targets and the processor. *)
Abbreviation state := (scsi * B * powerpc_cpu)%type.

Definition SCSIReset (st : state) : Z * state :=
  let '(s, b, c) := st in
  (0, (set_target_id 8 (set_sg [] (sg_total_length s) (set_bus PH_FREE 0x0000 s)), b, c)).

Definition SCSIGet (st : state) : Z * state :=
  let '(s, b, c) := st in
  if decide (phase s = PH_FREE)
  then (0, (set_sg [] 0 (set_reading false (set_bus PH_ARBITRATED 0x0040 s)), b, c))
  else (scMgrBusyErr, st).

Definition SCSISelect (id : Z) (st : state) : Z * state :=
  let '(s, b, c) := st in
  if decide (phase s = PH_ARBITRATED) then
    let error s := (scCommErr, (set_bus PH_FREE 0x0000 s, b, c)) in
    if (0 <=? id) && (id <=? 7) then
      let s := set_target_id id s in
      if scsi_is_target_present (target_id s) b then (0, (set_bus PH_SELECTED 0x006a s, b, c)) else error s
    else error s
  else (scSequenceErr, st).

Definition SCSICmd (cmd_length cmd : Z) (st : state) : outcome (Z * state) :=
  let '(s, b, c) := st in
  if decide (phase s = PH_SELECTED) then
    if negb (cmd_length =? 6) && negb (cmd_length =? 10) && negb (cmd_length =? 12) then Ok (scBadParmsErr, st)
    else
      bytes ← read_bytes (Z.to_nat cmd_length) cmd c;
      let b := scsi_set_cmd bytes b in
      let lun := Z.land (Z.shiftr (Zlookup bytes 1) 5) 7 in
      let '(selected, b) := scsi_set_target (target_id s) lun b in
      if (selected : bool) then Ok (0, (set_bus PH_TRANSFER 0x006e s, b, c))
      else Ok (scCommErr, (set_bus PH_FREE 0x0000 s, b, c))
  else Ok (scPhaseErr, st).

Definition SCSIRead (tib : Z) (st : state) : outcome (Z * state) :=
  let '(s, b, c) := st in
  if decide (phase s = PH_TRANSFER) then
    '(r, s, c) ← exec_tib tib_fuel tib (set_reading true s) c;
    Ok (r, (s, b, c))
  else Ok (scPhaseErr, st).

Definition SCSIWrite (tib : Z) (st : state) : outcome (Z * state) :=
  let '(s, b, c) := st in
  if decide (phase s = PH_TRANSFER) then
    '(r, s, c) ← exec_tib tib_fuel tib s c;
    Ok (r, (s, b, c))
  else Ok (scPhaseErr, st).

Definition SCSIComplete (timeout message stat : Z) (st : state) : outcome (Z * state) :=
  let '(s, b, c) := st in
  c ← WriteMacInt16 message 0 c;
  if decide (phase s = PH_TRANSFER) then
    '(success, scsi_stat, b, c) ← scsi_send_cmd (sg_total_length s) (reading s) (sg s) timeout b c;
    c ← WriteMacInt16 stat scsi_stat c;
    Ok (if (success : bool) then 0 else scCommErr, (set_bus PH_FREE 0x0000 s, b, c))
  else Ok (scPhaseErr, (s, b, c)).

Definition SCSIStat (st : state) : Z := let '(s, _, _) := st in fake_status s.
Definition SCSIMgrBusy (st : state) : Z := let '(s, _, _) := st in bZ (negb (bool_decide (phase s = PH_FREE))).

(** ** The dispatcher (OP_SCSI_DISPATCH)

    [sp] is the stack pointer behind the return address and the selector. *)

Definition with_cpu (f : powerpc_cpu -> outcome powerpc_cpu) (st : state) : outcome state :=
  let '(s, b, c) := st in c ← f c; Ok (s, b, c).
Definition cpu_of (st : state) : powerpc_cpu := let '(_, _, c) := st in c.

(** The bytes of arguments and the state, with the result stored. *)
Definition scsi_call (sel sp : Z) (st : state) : outcome (Z * state) :=
  let result stack (rst : Z * state) := st ← with_cpu (WriteMacInt16 (u32 (sp + stack)) (fst rst)) (snd rst); Ok (stack, st) in
  let c := cpu_of st in
  if sel =? 0 then result 0 (SCSIReset st)
  else if sel =? 1 then result 0 (SCSIGet st)
  else if (sel =? 2) || (sel =? 11) then
    id ← vm_read_memory_1 (mem c) (u32 (sp + 1));
    result 2 (SCSISelect id st)
  else if sel =? 3 then
    len ← ReadMacInt16 sp c;
    cmd ← ReadMacInt32 (u32 (sp + 2)) c;
    rst ← SCSICmd len cmd st;
    result 6 rst
  else if sel =? 4 then
    timeout ← ReadMacInt32 sp c;
    message ← ReadMacInt32 (u32 (sp + 4)) c;
    stat ← ReadMacInt32 (u32 (sp + 8)) c;
    rst ← SCSIComplete timeout message stat st;
    result 12 rst
  else if (sel =? 5) || (sel =? 8) then
    tib ← ReadMacInt32 sp c;
    rst ← SCSIRead tib st;
    result 4 rst
  else if (sel =? 6) || (sel =? 9) then
    tib ← ReadMacInt32 sp c;
    rst ← SCSIWrite tib st;
    result 4 rst
  else if sel =? 10 then result 0 (SCSIStat st, st)
  else if sel =? 12 then result 4 (0, st)
  else if sel =? 13 then result 2 (0, st)
  else if sel =? 14 then result 0 (SCSIMgrBusy st, st)
  else Ok (0, st).

Definition SCSIDispatch (r : M68kRegisters) (st : state) : outcome (M68kRegisters * state) :=
  let a7 := Zlookup (r68_a r) 7 in
  ret ← ReadMacInt32 a7 (cpu_of st);
  sel ← ReadMacInt16 (u32 (a7 + 4)) (cpu_of st);
  let a7 := u32 (a7 + 6) in
  '(stack, st) ← scsi_call sel a7 st;
  Ok (R68 (r68_d r) (Zinsert 7 (u32 (a7 + stack)) (Zinsert 0 ret (r68_a r))), st).
End Calls.
