(* ===== verification/ScsiSpec.v ===== *)
(** Properties of the SCSI Manager: the scatter/gather table holds the bytes a
    transfer block asks for, Apple's canonical block ends, and the dispatcher
    refines the protocol of the bus. *)
From S2P Require Import Prelude Bitfields Registers HostFPU Operations Memory Handlers BlockCache Cpu Operands ExecInt ExecMem ExecSys Glue MacMem Scsi.

#[local] Open Scope list_scope.

(** ** The scatter/gather table *)

(** The addresses a list of ranges stands for, in order, and their number. *)
Definition sg_bytes (l : list (Z * Z)) : list Z := mjoin ((fun e => seqZ (fst e) (snd e)) <$> l).
Definition sg_size (l : list (Z * Z)) : Z := foldr (fun e n => snd e + n) 0 l.

Lemma sg_bytes_app l k : sg_bytes (l ++ k) = sg_bytes l ++ sg_bytes k.
Proof. unfold sg_bytes. by rewrite fmap_app, join_app. Qed.

Lemma sg_bytes_1 p n : sg_bytes [(p, n)] = seqZ p n.
Proof. unfold sg_bytes. cbn. by rewrite app_nil_r. Qed.

Lemma sg_size_app l k : sg_size (l ++ k) = sg_size l + sg_size k.
Proof. unfold sg_size. induction l as [|e l IH]; cbn [foldr app]; lia. Qed.

Lemma sg_size_nonneg l : Forall (fun e => 0 <= snd e) l -> 0 <= sg_size l.
Proof. unfold sg_size. induction 1; cbn in *; lia. Qed.

Lemma sg_size_1 p n : sg_size [(p, n)] = n.
Proof. cbn. lia. Qed.

(** The same machine apart from the table. *)
Definition same_bus (s s' : scsi) : Prop :=
  phase s' = phase s /\ fake_status s' = fake_status s /\ target_id s' = target_id s /\ reading s' = reading s.

(** The table of [s] holds the ranges [l], merged, and their total. *)
Record holds_ranges (l : list (Z * Z)) (s : scsi) : Prop := {
  hr_bytes : sg_bytes (sg s) = sg_bytes l;
  hr_size : sg_size (sg s) = sg_size l;
  hr_total : sg_total_length s = sg_size l;
  hr_entries : Forall (fun e => 0 <= snd e) (sg s);
  hr_length : (length (sg s) <= length l)%nat;
}.

Lemma last_removelast {A} (l : list A) x : last l = Some x -> l = removelast l ++ [x].
Proof. intros H. destruct l as [|y l] using rev_ind; [done|]. rewrite last_snoc in H. injection H as ->. by rewrite removelast_last. Qed.

Lemma sg_add_holds l s ptr len :
  holds_ranges l s -> 0 <= len -> sg_size l + len < 2 ^ 32 -> (length l < 1024)%nat ->
  exists s', sg_add ptr len s = Some s' /\ holds_ranges (l ++ [(ptr, len)]) s' /\ same_bus s s'.
Proof.
  intros [Hb Hs Ht He Hl] H0 Hlt H1024. unfold sg_add.
  assert (Hn : 0 <= sg_size l) by (rewrite <- Hs; by apply sg_size_nonneg).
  rewrite Ht, (trunc_small 32 (sg_size l + len)) by (split; lia).
  pose proof Hb as Hb0. pose proof Hs as Hs0. pose proof He as He0.
  destruct (last (sg s)) as [[p n]|] eqn:E.
  - apply last_removelast in E. rewrite E in Hb, Hs, He, Hl. apply Forall_app in He as [He Hp]. inversion Hp as [|? ? Hp0 _]; subst. cbn in Hp0.
    rewrite sg_size_app, sg_size_1 in Hs. pose proof (sg_size_nonneg _ He) as Hr. rewrite length_app in Hl. cbn in Hl.
    destruct (Z.eqb_spec ptr (p + n)) as [->|].
    + eexists. split; [reflexivity|]. split; [|done]. rewrite trunc_small by (split; lia). split; cbn [set_sg sg sg_total_length].
      * rewrite !sg_bytes_app, <- Hb, sg_bytes_app, <- app_assoc, !sg_bytes_1. f_equal. by apply seqZ_app.
      * rewrite !sg_size_app, !sg_size_1. lia.
      * rewrite sg_size_app, sg_size_1. lia.
      * apply Forall_app. split; [done|]. constructor; [cbn; lia|done].
      * rewrite !length_app. cbn. lia.
    + pose proof (f_equal length E) as EL. rewrite length_app in EL. cbn [length] in EL. rewrite (proj2 (Z.eqb_neq _ _)) by (unfold SG_TABLE_SIZE; lia).
      eexists. split; [reflexivity|]. split; [|done]. split; cbn [set_sg sg sg_total_length].
      * by rewrite !sg_bytes_app, Hb0.
      * rewrite !sg_size_app, !sg_size_1. lia.
      * rewrite sg_size_app, sg_size_1. lia.
      * apply Forall_app. split; [done|by constructor].
      * rewrite !length_app. cbn. lia.
  - apply last_None in E. rewrite E in Hb, Hs. cbn in Hs.
    eexists. split; [reflexivity|]. split; [|done]. split; cbn [set_sg sg sg_total_length].
    + by rewrite sg_bytes_app, <- Hb.
    + rewrite sg_size_app, sg_size_1. lia.
    + rewrite sg_size_app, sg_size_1. lia.
    + by constructor.
    + rewrite length_app. cbn. lia.
Qed.

(** *** What a block asks for

    The same instructions without a table: the ranges they transfer, in order. *)
Definition insn_ranges (cmd ptr len : Z) : list (Z * Z) :=
  if (cmd =? scInc) || (cmd =? scNoInc) then [(ptr, len)] else [].

Fixpoint transfers (fuel : nat) (tib : Z) (c : powerpc_cpu) : outcome (list (Z * Z) * Z * powerpc_cpu) :=
  match fuel with
  | O => Fuel
  | S fuel =>
      cmd ← ReadMacInt16 tib c;
      ptr ← ReadMacInt32 (u32 (tib + 2)) c;
      len ← ReadMacInt32 (u32 (tib + 6)) c;
      '(next, _, c) ← tib_insn cmd ptr len (u32 (tib + 10)) scsi_init c;
      match next with
      | Return result => Ok (insn_ranges cmd ptr len, result, c)
      | Continue tib => '(l, result, c) ← transfers fuel tib c; Ok (insn_ranges cmd ptr len ++ l, result, c)
      end
  end.

Lemma WriteMacInt32_mem_wf a v c : mem_wf (mem c) -> outcome_holds (fun c' => mem_wf (mem c')) (WriteMacInt32 a v c).
Proof.
  intros Hm. rewrite WriteMacInt32_be. eapply outcome_holds_bind; [by apply store_be_wf|]. by intros m' Hm'.
Qed.

Lemma ReadMacInt32_nonneg a c : mem_wf (mem c) -> outcome_holds (fun v => 0 <= v < 2 ^ 32) (ReadMacInt32 a c).
Proof. intros Hm. rewrite ReadMacInt32_be by done. by apply (load_be_range 4). Qed.

(** One instruction, with a table and without. *)
Lemma tib_insn_ranges cmd ptr len tib c next s0 c' l s :
  tib_insn cmd ptr len tib scsi_init c = Ok (next, s0, c') -> holds_ranges l s -> 0 <= len -> mem_wf (mem c) ->
  sg_size (l ++ insn_ranges cmd ptr len) < 2 ^ 32 -> (length (l ++ insn_ranges cmd ptr len) <= 1024)%nat ->
  exists s', tib_insn cmd ptr len tib s c = Ok (next, s', c') /\ holds_ranges (l ++ insn_ranges cmd ptr len) s' /\ same_bus s s' /\ mem_wf (mem c').
Proof.
  intros E Hl H0 Hm Hsize Hlen. unfold tib_insn, insn_ranges in *.
  assert (Hdata : forall c1, mem_wf (mem c1) -> tib_data ptr len tib scsi_init c1 = Ok (next, s0, c') ->
    (length (l ++ [(ptr, len)]) <= 1024)%nat -> sg_size (l ++ [(ptr, len)]) < 2 ^ 32 ->
    exists s', tib_data ptr len tib s c1 = Ok (next, s', c') /\ holds_ranges (l ++ [(ptr, len)]) s' /\ same_bus s s' /\ mem_wf (mem c')).
  { intros c1 Hm1 E1 Hlen1 Hs1. rewrite length_app in Hlen1. rewrite sg_size_app, sg_size_1 in Hs1. cbn [length] in Hlen1.
    destruct (sg_add_holds l s ptr len Hl H0 Hs1 ltac:(lia)) as (s' & Es & Hs' & Hb). unfold tib_data in *.
    rewrite Es. change (sg_add ptr len scsi_init) with (Some (set_sg [(ptr, len)] (u32 (0 + len)) scsi_init)) in E1. cbn in E1.
    injection E1 as <- <- <-. by exists s'. }
  destruct (cmd =? scInc); cbn [orb] in *.
  { pose proof (WriteMacInt32_mem_wf (u32 (tib - 8)) (u32 (ptr + len)) c Hm) as Hw. destruct (WriteMacInt32 _ _ _) as [c1| | | |]; try done.
    by apply (Hdata c1). }
  destruct (cmd =? scNoInc); cbn [orb] in *; [by apply (Hdata c)|]. rewrite app_nil_r in *.
  destruct (cmd =? scAdd).
  { destruct (ReadMacInt32 ptr c) as [x| | | |]; try done. cbn [mbind outcome_bind] in *.
    pose proof (WriteMacInt32_mem_wf ptr (u32 (x + len)) c Hm) as Hw. destruct (WriteMacInt32 _ _ _) as [c1| | | |]; try done.
    cbn in *. injection E as <- <- <-. by exists s. }
  destruct (cmd =? scMove).
  { destruct (ReadMacInt32 ptr c) as [x| | | |]; try done. cbn [mbind outcome_bind] in *.
    pose proof (WriteMacInt32_mem_wf len x c Hm) as Hw. destruct (WriteMacInt32 _ _ _) as [c1| | | |]; try done.
    cbn in *. injection E as <- <- <-. by exists s. }
  destruct (cmd =? scLoop).
  { pose proof (WriteMacInt32_mem_wf (u32 (tib - 4)) (u32 (len - 1)) c Hm) as Hw. destruct (WriteMacInt32 _ _ _) as [c1| | | |]; try done.
    cbn in *. injection E as <- <- <-. by exists s. }
  repeat (destruct (cmd =? _); [injection E as <- <- <-; by exists s|]). injection E as <- <- <-. by exists s.
Qed.

Lemma exec_tib_holds fuel : forall tib c k s l result c',
  transfers fuel tib c = Ok (l, result, c') -> mem_wf (mem c) -> holds_ranges k s ->
  sg_size (k ++ l) < 2 ^ 32 -> (length (k ++ l) <= 1024)%nat -> Forall (fun e => 0 <= snd e) l ->
  exists s', exec_tib fuel tib s c = Ok (result, s', c') /\ holds_ranges (k ++ l) s' /\ same_bus s s'.
Proof.
  induction fuel as [|fuel IH]; intros tib c k s l result c' E Hm Hs Hsize Hlen Hpos; [done|]. cbn [transfers exec_tib] in *.
  destruct (ReadMacInt16 tib c) as [cmd| | | |]; try done. cbn [mbind outcome_bind] in *.
  destruct (ReadMacInt32 (u32 (tib + 2)) c) as [ptr| | | |]; try done. cbn [mbind outcome_bind] in *.
  pose proof (ReadMacInt32_nonneg (u32 (tib + 6)) c Hm) as H0.
  destruct (ReadMacInt32 (u32 (tib + 6)) c) as [len| | | |]; try done. cbn [mbind outcome_bind outcome_holds] in *.
  destruct (tib_insn cmd ptr len (u32 (tib + 10)) scsi_init c) as [[[next s0] c1]| | | |] eqn:Ei; try done. cbn [mbind outcome_bind] in *.
  assert (Hins : forall r, l = insn_ranges cmd ptr len ++ r ->
    exists s', tib_insn cmd ptr len (u32 (tib + 10)) s c = Ok (next, s', c1) /\ holds_ranges (k ++ insn_ranges cmd ptr len) s' /\ same_bus s s' /\ mem_wf (mem c1)).
  { intros r ->. rewrite app_assoc in Hsize, Hlen. rewrite sg_size_app in Hsize. rewrite length_app in Hlen.
    apply Forall_app in Hpos as [_ Hr]. pose proof (sg_size_nonneg r Hr). apply (tib_insn_ranges cmd ptr len _ c next s0 c1); done || lia. }
  destruct next as [r|tib'].
  - injection E as <- <- <-. destruct (Hins []) as (s' & -> & Hs' & Hb & _); [by rewrite app_nil_r|]. by exists s'.
  - destruct (transfers fuel tib' c1) as [[[l' r'] c2]| | | |] eqn:Et; try done. cbn in E. injection E as <- <- <-.
    destruct (Hins l' eq_refl) as (s' & -> & Hs' & Hb & Hm1). cbn [mbind outcome_bind].
    rewrite app_assoc in Hsize, Hlen |- *. apply Forall_app in Hpos as [_ Hr].
    destruct (IH tib' c1 _ s' l' r' c2 Et Hm1 Hs' Hsize Hlen Hr) as (s2 & -> & Hs2 & Hb2). exists s2. split_and!; try done.
    unfold same_bus in *. intuition congruence.
Qed.

Lemma transfers_nonneg fuel : forall tib c, mem_wf (mem c) ->
  outcome_holds (fun '(l, _, _) => Forall (fun e => 0 <= snd e) l) (transfers fuel tib c).
Proof.
  induction fuel as [|fuel IH]; intros tib c Hm; [done|]. cbn [transfers].
  destruct (ReadMacInt16 tib c) as [cmd| | | |]; try done. cbn [mbind outcome_bind].
  destruct (ReadMacInt32 (u32 (tib + 2)) c) as [ptr| | | |]; try done. cbn [mbind outcome_bind].
  eapply outcome_holds_bind; [by apply ReadMacInt32_nonneg|]. intros len H0. cbn beta in H0.
  assert (Hi : Forall (fun e : Z * Z => 0 <= snd e) (insn_ranges cmd ptr len)) by (unfold insn_ranges; destruct (_ || _); [constructor; [cbn; lia|done]|done]).
  destruct (tib_insn cmd ptr len (u32 (tib + 10)) scsi_init c) as [[[next s0] c1]| | | |] eqn:Ei; try done. cbn [mbind outcome_bind].
  destruct next as [r|tib']; [done|]. eapply (outcome_holds_bind (fun '(l, _, _) => Forall (fun e => 0 <= snd e) l)).
  - apply IH. assert (Hh : holds_ranges [] scsi_init) by (split; cbn; try done; by constructor).
    destruct (tib_insn_ranges cmd ptr len _ c _ _ _ [] scsi_init Ei Hh) as (_ & _ & _ & _ & H); try done; [lia| |].
    + unfold insn_ranges. destruct (_ || _); cbn; lia.
    + unfold insn_ranges. destruct (_ || _); cbn; lia.
  - intros [[l r] c2] Hl. cbn. by apply Forall_app.
Qed.

(** C32: A transfer block leaves the same memory and the same result as its
    instructions without a table, and the scatter/gather table, whatever was merged
    in it, names exactly the bytes that they transfer, in order, after the ones it
    held before, and their total, as long as they fit. *)
Theorem exec_tib_transfers fuel tib s c k l result c' :
  transfers fuel tib c = Ok (l, result, c') -> mem_wf (mem c) -> holds_ranges k s ->
  sg_size (k ++ l) < 2 ^ 32 -> (length (k ++ l) <= 1024)%nat ->
  exists s', exec_tib fuel tib s c = Ok (result, s', c') /\ same_bus s s' /\
    sg_bytes (sg s') = sg_bytes k ++ sg_bytes l /\ sg_total_length s' = sg_size k + sg_size l /\
    (length (sg s') <= length (k ++ l))%nat.
Proof.
  intros E Hm Hk Hs Hl. pose proof (transfers_nonneg fuel tib c Hm) as Hp. rewrite E in Hp. cbn in Hp.
  destruct (exec_tib_holds fuel tib c k s l result c' E Hm Hk Hs Hl Hp) as (s' & Es & [Hb _ Ht _ Hlen] & Hsame).
  exists s'. split_and!; try done; [by rewrite Hb, sg_bytes_app|by rewrite Ht, sg_size_app].
Qed.

(** [INC 0x2000 512; NOINC 0x2200 512; ADD 0x2000 1; NOINC 0x3000 16; STOP] at 0x1000. *)
Definition sample_tib : list Z :=
  [0; 1; 0; 0; 0x20; 0; 0; 0; 2; 0;  0; 2; 0; 0; 0x22; 0; 0; 0; 2; 0;  0; 3; 0; 0; 0x20; 0; 0; 0; 0; 1;
   0; 2; 0; 0; 0x30; 0; 0; 0; 0; 16;  0; 7; 0; 0; 0; 0; 0; 0; 0; 0].
Definition tib_machine : powerpc_cpu :=
  cpu_init (list_to_map (zip ((fun i => 0x1000 + i) <$> count_up 50) sample_tib ++ ((fun i => (0x2000 + i, 0)) <$> count_up 4))).

Lemma exec_tib_transfers_witness :
  exists s' c', exec_tib 5 0x1000 scsi_init tib_machine = Ok (0, s', c') /\
    sg_bytes (sg s') = sg_bytes [(0x2000, 512); (0x2200, 512); (0x3000, 16)] /\ sg_total_length s' = 1040.
Proof.
  assert (Hw : mem_wf (mem tib_machine)) by (apply (bool_decide_eq_true_1 _); vm_compute; reflexivity).
  assert (Hk : holds_ranges [] scsi_init) by (split; cbn; try done; by constructor).
  assert (Et : exists c', transfers 5 0x1000 tib_machine = Ok ([(0x2000, 512); (0x2200, 512); (0x3000, 16)], 0, c')) by (eexists; vm_compute; reflexivity).
  destruct Et as [c' Et].
  destruct (exec_tib_transfers 5 0x1000 scsi_init tib_machine [] _ 0 c' Et Hw Hk) as (s' & Es & _ & Hb & Ht & _); [done|cbn; lia|].
  exists s', c'. split; [exact Es|]. split; [exact Hb|exact Ht].
Defined.

(** ** The bus protocol *)

(** What a caller of the SCSI Manager sees: from a phase, a selector gives a
    result and a phase. *)
Inductive bus_step : scsi_phase -> Z -> Z -> scsi_phase -> Prop :=
| bus_reset p : bus_step p 0 0 PH_FREE
| bus_get : bus_step PH_FREE 1 0 PH_ARBITRATED
| bus_get_busy p : p <> PH_FREE -> bus_step p 1 scMgrBusyErr p
| bus_select sel : sel = 2 \/ sel = 11 -> bus_step PH_ARBITRATED sel 0 PH_SELECTED
| bus_select_fails sel : sel = 2 \/ sel = 11 -> bus_step PH_ARBITRATED sel scCommErr PH_FREE
| bus_select_sequence p sel : sel = 2 \/ sel = 11 -> p <> PH_ARBITRATED -> bus_step p sel scSequenceErr p
| bus_cmd : bus_step PH_SELECTED 3 0 PH_TRANSFER
| bus_cmd_fails : bus_step PH_SELECTED 3 scCommErr PH_FREE
| bus_cmd_length : bus_step PH_SELECTED 3 scBadParmsErr PH_SELECTED
| bus_cmd_phase p : p <> PH_SELECTED -> bus_step p 3 scPhaseErr p
| bus_transfer sel res : sel = 5 \/ sel = 8 \/ sel = 6 \/ sel = 9 ->
    res ∈ [0; scCompareErr; scBadParmsErr; memFullErr] -> bus_step PH_TRANSFER sel res PH_TRANSFER
| bus_transfer_phase p sel : sel = 5 \/ sel = 8 \/ sel = 6 \/ sel = 9 -> p <> PH_TRANSFER -> bus_step p sel scPhaseErr p
| bus_complete res : res = 0 \/ res = scCommErr -> bus_step PH_TRANSFER 4 res PH_FREE
| bus_complete_phase p : p <> PH_TRANSFER -> bus_step p 4 scPhaseErr p
| bus_stat p status : status = match p with PH_FREE => 0 | PH_ARBITRATED => 0x40 | PH_SELECTED => 0x6a | PH_TRANSFER => 0x6e end ->
    bus_step p 10 status p
| bus_message p sel : sel = 12 \/ sel = 13 -> bus_step p sel 0 p
| bus_busy p busy : busy = bZ (negb (bool_decide (p = PH_FREE))) -> bus_step p 14 busy p.

(** The bytes of arguments that a call takes off the stack. *)
Definition arg_bytes (sel : Z) : option Z :=
  if (sel =? 0) || (sel =? 1) || (sel =? 10) || (sel =? 14) then Some 0
  else if (sel =? 2) || (sel =? 11) || (sel =? 13) then Some 2
  else if (sel =? 5) || (sel =? 8) || (sel =? 6) || (sel =? 9) || (sel =? 12) then Some 4
  else if sel =? 3 then Some 6
  else if sel =? 4 then Some 12
  else None.

Definition sg_inv (s : scsi) : Prop := (length (sg s) <= 1024)%nat /\ sg_total_length s = u32 (sg_size (sg s)).

(** The faked status is the phase's, and in a transaction the table fits its
    array and its total is right. *)
Definition scsi_inv (s : scsi) : Prop :=
  fake_status s = match phase s with PH_FREE => 0 | PH_ARBITRATED => 0x40 | PH_SELECTED => 0x6a | PH_TRANSFER => 0x6e end /\
  (length (sg s) <= 1024)%nat /\ (phase s <> PH_FREE -> sg_inv s).

Lemma sg_add_inv ptr len s : sg_inv s -> match sg_add ptr len s with Some s' => sg_inv s' /\ same_bus s s' | None => True end.
Proof.
  intros [Hl Ht]. unfold sg_add, sg_inv. destruct (last (sg s)) as [[p n]|] eqn:E.
  - apply last_removelast in E. destruct (ptr =? p + n).
    + split; [|done]. cbn [set_sg sg sg_total_length]. rewrite E, length_app in Hl. split; [rewrite length_app; cbn in *; lia|].
      rewrite Ht, E at 1. rewrite !sg_size_app, !sg_size_1, trunc_add_l, trunc_add_r. f_equal. lia.
    + destruct (_ =? SG_TABLE_SIZE) eqn:Ef; [done|]. apply Z.eqb_neq in Ef. unfold SG_TABLE_SIZE in Ef. split; [|done]. cbn [set_sg sg sg_total_length].
      split; [rewrite length_app; cbn; lia|]. by rewrite Ht, sg_size_app, sg_size_1, trunc_add_l.
  - apply last_None in E. split; [|done]. cbn [set_sg sg sg_total_length]. split; [cbn; lia|].
    rewrite Ht, E, sg_size_1. by cbn [sg_size foldr]; rewrite trunc_add_l.
Qed.

Definition tib_results : list Z := [0; scCompareErr; scBadParmsErr; memFullErr].

(** After an instruction. *)
Definition insn_kept (s : scsi) (x : tib_next * scsi * powerpc_cpu) : Prop :=
  let '(next, s', _) := x in
  sg_inv s' /\ same_bus s s' /\ match next with Return r => r ∈ tib_results | Continue _ => True end.

Lemma tib_insn_inv cmd ptr len tib s c : sg_inv s -> outcome_holds (insn_kept s) (tib_insn cmd ptr len tib s c).
Proof.
  intros Hs. unfold tib_insn.
  assert (Hd : forall c, outcome_holds (insn_kept s) (tib_data ptr len tib s c)).
  { intros c1. unfold tib_data. pose proof (sg_add_inv ptr len s Hs) as H. destruct (sg_add ptr len s); cbn; [tauto|].
    split_and!; try done. unfold tib_results. set_solver. }
  assert (Hb : forall (m : outcome powerpc_cpu) f, (forall c, outcome_holds (insn_kept s) (f c)) -> outcome_holds (insn_kept s) (mbind f m)).
  { intros m f Hf. destruct m; cbn; try done; apply Hf. }
  repeat (destruct (cmd =? _)); try (apply Hb; intros); try apply Hd; try (destruct (ReadMacInt32 _ _); cbn; try done; apply Hb; intros);
    cbn; split_and!; try done; unfold tib_results; set_solver.
Qed.

Lemma exec_tib_inv fuel : forall tib s c, sg_inv s ->
  outcome_holds (fun '(r, s', _) => sg_inv s' /\ same_bus s s' /\ r ∈ tib_results) (exec_tib fuel tib s c).
Proof.
  induction fuel as [|fuel IH]; intros tib s c Hs; cbn [exec_tib]; [done|].
  do 3 (match goal with |- context [mbind ?f ?m] => destruct m; cbn [mbind outcome_bind]; try done end).
  match goal with |- context [tib_insn ?a ?b ?d ?e s c] => pose proof (tib_insn_inv a b d e s c Hs) as H; destruct (tib_insn a b d e s c) as [[[next s'] c']| | | |]; try done end.
  cbn in H |- *. destruct H as (H1 & H2 & H3). destruct next as [r|tib']; cbn; [done|].
  pose proof (IH tib' s' c' H1) as H. destruct (exec_tib fuel tib' s' c') as [[[r s2] c2]| | | |]; try done. cbn in *.
  destruct H as (? & Hb & ?). split_and!; try done. unfold same_bus in *. intuition congruence.
Qed.

Section Protocol.
Context {B : Type} {TARGETS : Targets B} (tib_fuel : nat).
Abbreviation state := (scsi * B * powerpc_cpu)%type.
Definition bus_of (st : state) : scsi := let '(s, _, _) := st in s.

(** A call with selector [sel] from [s]: result and state. *)
Definition call_ok (sel : Z) (s : scsi) (rst : Z * state) : Prop :=
  scsi_inv (bus_of (snd rst)) /\ bus_step (phase s) sel (fst rst) (phase (bus_of (snd rst))).

Lemma SCSIReset_ok s b c : scsi_inv s -> call_ok 0 s (SCSIReset (s, b, c)).
Proof using. intros _. split; [|constructor]. split_and!; [done|cbn; lia|done]. Qed.

Lemma SCSIGet_ok s b c : scsi_inv s -> call_ok 1 s (SCSIGet (s, b, c)).
Proof using.
  intros Hs. unfold SCSIGet. destruct (decide (phase s = PH_FREE)) as [E|]; [|split; [done|by apply bus_get_busy]].
  split; [|cbn; rewrite E; constructor]. split_and!; [done|cbn; lia|]. intros _. split; cbn; [lia|done].
Qed.

Lemma SCSISelect_ok sel id s b c : sel = 2 \/ sel = 11 -> scsi_inv s -> call_ok sel s (SCSISelect id (s, b, c)).
Proof using.
  intros Hsel (Hst & Hl & Hinv). unfold SCSISelect. destruct (decide (phase s = PH_ARBITRATED)) as [E|]; [|split; [done|by apply bus_select_sequence]].
  assert (Hf : forall s', sg s' = sg s -> call_ok sel s (scCommErr, (set_bus PH_FREE 0x0000 s', b, c))).
  { intros s' Es. split; [|cbn; rewrite E; by constructor]. split_and!; [done|cbn; by rewrite Es|done]. }
  destruct (_ && _); [|by apply Hf]. destruct (scsi_is_target_present _ b); [|by apply Hf].
  split; [|cbn; rewrite E; by constructor]. split_and!; [done|done|]. intros _. apply Hinv. by rewrite E.
Qed.

Lemma SCSICmd_ok n a s b c : scsi_inv s -> outcome_holds (call_ok 3 s) (SCSICmd n a (s, b, c)).
Proof using.
  intros (Hst & Hl & Hinv). unfold SCSICmd. destruct (decide (phase s = PH_SELECTED)) as [E|]; [|split; [done|by apply bus_cmd_phase]].
  destruct (_ && _); [split; [done|cbn; rewrite E; constructor]|].
  destruct (read_bytes _ a c) as [bytes| | | |]; try done. cbn [mbind outcome_bind]. destruct (scsi_set_target _ _ _) as [[] b'].
  - split; [|cbn; rewrite E; constructor]. split_and!; [done|done|]. intros _. apply Hinv. by rewrite E.
  - split; [|cbn; rewrite E; constructor]. by split_and!.
Qed.

Lemma SCSITransfer_ok sel b s s0 tib c :
  sel = 5 \/ sel = 8 \/ sel = 6 \/ sel = 9 -> scsi_inv s -> sg s0 = sg s -> sg_total_length s0 = sg_total_length s ->
  phase s0 = phase s -> fake_status s0 = fake_status s -> phase s = PH_TRANSFER ->
  outcome_holds (call_ok sel s) ('(r, s, c) ← exec_tib tib_fuel tib s0 c; Ok (r, (s, b, c))).
Proof using.
  intros Hsel (Hst & Hl & Hinv) E1 E2 E3 E4 E. assert (H0 : sg_inv s0) by (unfold sg_inv; rewrite E1, E2; apply Hinv; by rewrite E).
  pose proof (exec_tib_inv tib_fuel tib s0 c H0) as H. destruct (exec_tib _ _ _ _) as [[[r s'] c']| | | |]; try done.
  cbn in H |- *. destruct H as ([Hl' Ht'] & (Hp & Hf & _) & Hr). split; cbn.
  - split_and!; [by rewrite Hp, Hf, E3, E4|done|done].
  - rewrite Hp, E3, E. by constructor.
Qed.

Lemma SCSIRead_ok sel tib s b c : sel = 5 \/ sel = 8 -> scsi_inv s -> outcome_holds (call_ok sel s) (SCSIRead tib_fuel tib (s, b, c)).
Proof using.
  intros Hsel Hs. unfold SCSIRead. destruct (decide (phase s = PH_TRANSFER)); [apply SCSITransfer_ok; tauto|].
  split; [done|]. apply bus_transfer_phase; tauto.
Qed.

Lemma SCSIWrite_ok sel tib s b c : sel = 6 \/ sel = 9 -> scsi_inv s -> outcome_holds (call_ok sel s) (SCSIWrite tib_fuel tib (s, b, c)).
Proof using.
  intros Hsel Hs. unfold SCSIWrite. destruct (decide (phase s = PH_TRANSFER)); [apply SCSITransfer_ok; tauto|].
  split; [done|]. apply bus_transfer_phase; tauto.
Qed.

Lemma SCSIComplete_ok timeout message stat s b c : scsi_inv s -> outcome_holds (call_ok 4 s) (SCSIComplete timeout message stat (s, b, c)).
Proof using.
  intros Hs. unfold SCSIComplete. destruct (WriteMacInt16 message 0 c) as [c1| | | |]; try done. cbn [mbind outcome_bind].
  destruct (decide (phase s = PH_TRANSFER)) as [E|]; [|by split; [|apply bus_complete_phase]].
  destruct (scsi_send_cmd _ _ _ _ _ _) as [[[[success st] b'] c2]| | | |]; try done. cbn [mbind outcome_bind].
  destruct (WriteMacInt16 stat st c2) as [c3| | | |]; try done. cbn [mbind outcome_bind]. destruct Hs as (_ & Hl & _).
  split; [by split_and!|]. cbn. rewrite E. constructor. destruct success; auto.
Qed.

(** The stack contract: the result is the word at [sp + stack]. *)
Definition dispatched (sel sp : Z) (s : scsi) (x : Z * state) : Prop :=
  let '(stack, (s', b', c')) := x in
  scsi_inv s' /\
  match arg_bytes sel with
  | Some n => stack = n /\ exists res, bus_step (phase s) sel res (phase s') /\ load_be 2 (mem c') (u32 (sp + n)) = Ok (u16 res)
  | None => stack = 0 /\ s' = s
  end.

Lemma WriteMacInt16_load a v c c' : WriteMacInt16 a v c = Ok c' -> load_be 2 (mem c') a = Ok (u16 v).
Proof using.
  unfold WriteMacInt16, cpu_write, vm_write_memory_2, vm_do_get_real_address. rewrite vm_do_write_memory_2_be.
  destruct (store_be 2 a v (mem c)) as [m| | | |] eqn:E; cbn; try done. intros [= <-]. by apply (load_store_be 2 _ _ _ _ E).
Qed.

Lemma result_ok sel sp s n rst :
  arg_bytes sel = Some n -> outcome_holds (call_ok sel s) rst ->
  outcome_holds (dispatched sel sp s) (rst ← rst; st ← with_cpu (WriteMacInt16 (u32 (sp + n)) (fst rst)) (snd rst); Ok (n, st)).
Proof using.
  intros Hn Hr. destruct rst as [[res [[s' b'] c']]| | | |]; try done. cbn [mbind outcome_bind with_cpu fst snd].
  destruct (WriteMacInt16 _ res c') as [c2| | | |] eqn:E; try done. cbn. destruct Hr as [Hinv Hstep]. cbn in Hinv, Hstep.
  split; [done|]. rewrite Hn. split; [done|]. exists res. split; [done|]. by apply WriteMacInt16_load in E.
Qed.

Lemma scsi_call_ok sel sp s b c : scsi_inv s -> outcome_holds (dispatched sel sp s) (scsi_call tib_fuel sel sp (s, b, c)).
Proof using.
  intros Hs. unfold scsi_call. cbn zeta. cbn [cpu_of].
  destruct (Z.eqb_spec sel 0) as [->|]; [exact (result_ok 0 sp s 0 (Ok (SCSIReset (s, b, c))) eq_refl (SCSIReset_ok s b c Hs))|].
  destruct (Z.eqb_spec sel 1) as [->|]; [exact (result_ok 1 sp s 0 (Ok (SCSIGet (s, b, c))) eq_refl (SCSIGet_ok s b c Hs))|].
  destruct ((sel =? 2) || (sel =? 11)) eqn:E2.
  { apply orb_true_iff in E2. rewrite !Z.eqb_eq in E2. destruct (vm_read_memory_1 _ _) as [id| | | |]; try done. cbn [mbind outcome_bind].
    refine (result_ok sel sp s 2 (Ok (SCSISelect id (s, b, c))) _ (SCSISelect_ok sel id s b c E2 Hs)). by destruct E2 as [->| ->]. }
  destruct (Z.eqb_spec sel 3) as [->|].
  { destruct (ReadMacInt16 sp c) as [len| | | |]; try done. cbn [mbind outcome_bind]. destruct (ReadMacInt32 _ c) as [cmd| | | |]; try done.
    exact (result_ok 3 sp s 6 _ eq_refl (SCSICmd_ok len cmd s b c Hs)). }
  destruct (Z.eqb_spec sel 4) as [->|].
  { do 3 (match goal with |- context [ReadMacInt32 ?a c] => destruct (ReadMacInt32 a c); cbn [mbind outcome_bind]; try done end).
    exact (result_ok 4 sp s 12 _ eq_refl (SCSIComplete_ok _ _ _ s b c Hs)). }
  destruct ((sel =? 5) || (sel =? 8)) eqn:E5.
  { apply orb_true_iff in E5. rewrite !Z.eqb_eq in E5. destruct (ReadMacInt32 sp c) as [tib| | | |]; try done.
    refine (result_ok sel sp s 4 _ _ (SCSIRead_ok sel tib s b c E5 Hs)). by destruct E5 as [->| ->]. }
  destruct ((sel =? 6) || (sel =? 9)) eqn:E6.
  { apply orb_true_iff in E6. rewrite !Z.eqb_eq in E6. destruct (ReadMacInt32 sp c) as [tib| | | |]; try done.
    refine (result_ok sel sp s 4 _ _ (SCSIWrite_ok sel tib s b c E6 Hs)). by destruct E6 as [->| ->]. }
  destruct (Z.eqb_spec sel 10) as [->|].
  { refine (result_ok 10 sp s 0 (Ok (SCSIStat (s, b, c), (s, b, c))) eq_refl _). split; [done|]. constructor. apply Hs. }
  destruct (Z.eqb_spec sel 12) as [->|]; [refine (result_ok 12 sp s 4 (Ok (0, (s, b, c))) eq_refl _); split; [done|apply bus_message; auto]|].
  destruct (Z.eqb_spec sel 13) as [->|]; [refine (result_ok 13 sp s 2 (Ok (0, (s, b, c))) eq_refl _); split; [done|apply bus_message; auto]|].
  destruct (Z.eqb_spec sel 14) as [->|]; [refine (result_ok 14 sp s 0 (Ok (SCSIMgrBusy (s, b, c), (s, b, c))) eq_refl _); split; [done|by apply bus_busy]|].
  cbn. split; [done|]. unfold arg_bytes. apply orb_false_iff in E2, E5, E6. destruct E2, E5, E6.
  repeat match goal with H : (sel =? _) = false |- _ => rewrite H end.
  by rewrite !(proj2 (Z.eqb_neq _ _)) by done.
Qed.

(** C31: A SCSIDispatch call refines the protocol of the SCSI Manager.  The bus
    makes a step that the protocol allows for the selector, the step's result is
    the word that the stack pointer names afterwards, the return address, the
    selector and exactly the arguments are off the stack, A0 is the return address,
    and the other registers are unchanged; an unknown selector only takes itself and
    the return address.  The status and the scatter/gather table stay consistent. *)
Theorem SCSIDispatch_refines r s b c r' s' b' c' :
  scsi_inv s -> length (r68_a r) = 8%nat -> SCSIDispatch tib_fuel r (s, b, c) = Ok (r', (s', b', c')) ->
  let sp := Zlookup (r68_a r) 7 in
  exists ret sel, ReadMacInt32 sp c = Ok ret /\ ReadMacInt16 (u32 (sp + 4)) c = Ok sel /\ scsi_inv s' /\
    r68_d r' = r68_d r /\ Zlookup (r68_a r') 0 = ret /\ (forall i, 1 <= i < 7 -> Zlookup (r68_a r') i = Zlookup (r68_a r) i) /\
    match arg_bytes sel with
    | Some n => Zlookup (r68_a r') 7 = u32 (sp + 6 + n) /\
        exists res, bus_step (phase s) sel res (phase s') /\ load_be 2 (mem c') (Zlookup (r68_a r') 7) = Ok (u16 res)
    | None => Zlookup (r68_a r') 7 = u32 (sp + 6) /\ s' = s
    end.
Proof using.
  intros Hs Hlen E sp. unfold SCSIDispatch in E. cbn [cpu_of] in E. fold sp in E. cbn zeta in E.
  destruct (ReadMacInt32 sp c) as [ret| | | |]; try done. cbn [mbind outcome_bind] in E.
  destruct (ReadMacInt16 (u32 (sp + 4)) c) as [sel| | | |]; try done. cbn [mbind outcome_bind] in E.
  pose proof (scsi_call_ok sel (u32 (sp + 6)) s b c Hs) as H.
  destruct (scsi_call tib_fuel sel (u32 (sp + 6)) (s, b, c)) as [[stack [[s1 b1] c1]]| | | |]; try done. cbn in E, H.
  injection E as <- -> -> ->. exists ret, sel. destruct H as [Hs' H]. cbn [r68_d r68_a].
  rewrite Zlookup_insert_eq by (rewrite length_Zinsert, Hlen; done).
  rewrite Zlookup_insert_ne by lia. rewrite Zlookup_insert_eq by (rewrite Hlen; done). split_and!; try done.
  - intros i Hi. by rewrite !Zlookup_insert_ne by lia.
  - destruct (arg_bytes sel) as [n|]; [destruct H as [-> H]|destruct H as [-> H]]; rewrite trunc_add_l.
    + split; [done|]. rewrite trunc_add_l in H. exact H.
    + by rewrite Z.add_0_r.
Qed.
End Protocol.

(** A bus with one target, 3, that answers every command. *)
Definition one_target : Targets unit := {|
  scsi_is_target_present id _ := id =? 3;
  scsi_set_cmd _ b := b;
  scsi_set_target _ _ b := (true, b);
  scsi_send_cmd _ _ _ _ b c := Ok (true, 0, b, c);
|}.

(** SCSISelect(3) with the stack pointer at 0x1000. *)
Definition select_machine : powerpc_cpu :=
  cpu_init (list_to_map (zip ((fun i => 0x1000 + i) <$> count_up 10) [0; 0; 0x12; 0x34; 0; 2; 0; 3; 0; 0])).

Lemma SCSIDispatch_refines_witness :
  let s := Scsi 8 PH_ARBITRATED 0x40 false [] 0 in
  let r := R68 (replicate 8 0) (replicate 7 0 ++ [0x1000]) in
  exists r' s' b' c', SCSIDispatch (TARGETS := one_target) 0 r (s, tt, select_machine) = Ok (r', (s', b', c')) /\
    phase s' = PH_SELECTED /\ exists ret, Zlookup (r68_a r') 0 = ret /\ ReadMacInt32 0x1000 select_machine = Ok ret.
Proof.
  intros s r.
  assert (Es : exists r' s' b' c', SCSIDispatch (TARGETS := one_target) 0 r (s, tt, select_machine) = Ok (r', (s', b', c')) /\ phase s' = PH_SELECTED)
    by (do 4 eexists; split; vm_compute; reflexivity).
  destruct Es as (r' & s' & b' & c' & E & Hp). exists r', s', b', c'. split; [exact E|]. split; [exact Hp|].
  destruct (SCSIDispatch_refines (TARGETS := one_target) 0 r s tt select_machine r' s' b' c') as (ret & sel & H1 & H2 & _ & _ & H3 & _).
  - split; [reflexivity|]. split; [cbn; lia|]. intros _. split; [cbn; lia|reflexivity].
  - reflexivity.
  - exact E.
  - exists ret. split; [exact H3|exact H1].
Defined.

(** ** The canonical block

    [INC buf len; LOOP -10 n; STOP] transfers [n] blocks one after the other. *)
Record block_at (tib ptr len cnt : Z) (c : powerpc_cpu) : Prop := {
  ba_wf : mem_wf (mem c);
  ba_mapped : mapped 30 tib (mem c);
  ba_inc : load_be 2 (mem c) tib = Ok scInc;
  ba_ptr : load_be 4 (mem c) (tib + 2) = Ok ptr;
  ba_len : load_be 4 (mem c) (tib + 6) = Ok len;
  ba_loop : load_be 2 (mem c) (tib + 10) = Ok scLoop;
  ba_back : load_be 4 (mem c) (tib + 12) = Ok (u32 (-10));
  ba_cnt : load_be 4 (mem c) (tib + 16) = Ok cnt;
  ba_stop : load_be 2 (mem c) (tib + 20) = Ok scStop;
}.

(** Memory changes only in the block. *)
Definition block_frame (tib : Z) (c c' : powerpc_cpu) : Prop :=
  forall i, ~ (tib + 2 <= i < tib + 20) -> mem c' !! i = mem c !! i.

Lemma block_set_ptr tib ptr len cnt c v :
  block_at tib ptr len cnt c -> is_uint 32 v ->
  exists c', WriteMacInt32 (tib + 2) v c = Ok c' /\ block_at tib v len cnt c' /\ block_frame tib c c'.
Proof.
  intros [] Hv. destruct (WriteMacInt32_writes (tib + 2) v c ba_wf0) as (c' & E & W); [by apply (mapped_le 4 30 _ tib); [lia|lia|]|].
  exists c'. split; [done|]. split.
  - split; rewrite ?(writes_other W) by lia; try done; [by apply W|by apply (writes_mapped W)|].
    rewrite (writes_value _ _ _ _ _ W). by rewrite trunc_small.
  - intros i Hi. apply (writes_frame _ _ _ _ _ W). lia.
Qed.

Lemma block_set_cnt tib ptr len cnt c v :
  block_at tib ptr len cnt c -> is_uint 32 v ->
  exists c', WriteMacInt32 (tib + 16) v c = Ok c' /\ block_at tib ptr len v c' /\ block_frame tib c c'.
Proof.
  intros [] Hv. destruct (WriteMacInt32_writes (tib + 16) v c ba_wf0) as (c' & E & W); [by apply (mapped_le 4 30 _ tib); [lia|lia|]|].
  exists c'. split; [done|]. split.
  - split; rewrite ?(writes_other W) by lia; try done; [by apply W|by apply (writes_mapped W)|].
    rewrite (writes_value _ _ _ _ _ W). by rewrite trunc_small.
  - intros i Hi. apply (writes_frame _ _ _ _ _ W). lia.
Qed.

Lemma tib_insn_inc ptr len tib s c :
  tib_insn scInc ptr len tib s c = (c ← WriteMacInt32 (u32 (tib - 8)) (u32 (ptr + len)) c; tib_data ptr len tib s c).
Proof. reflexivity. Qed.

Lemma tib_insn_loop ptr len tib s c :
  tib_insn scLoop ptr len tib s c =
  (c ← WriteMacInt32 (u32 (tib - 4)) (u32 (len - 1)) c;
   Ok (Continue (if 0 <? u32 (len - 1) then u32 (tib + (s32 ptr - 10)) else tib), s, c)).
Proof. reflexivity. Qed.

(** One block: two instructions, and back to the first unless it was the last. *)
Lemma block_turn tib ptr len cnt c s s' fuel :
  block_at tib ptr len cnt c -> 0 <= tib -> tib + 30 <= 2 ^ 32 -> is_uint 32 (ptr + len) -> 1 <= cnt < 2 ^ 32 ->
  sg_add ptr len s = Some s' ->
  exists c', block_at tib (ptr + len) len (cnt - 1) c' /\ block_frame tib c c' /\
    exec_tib (S (S fuel)) tib s c = exec_tib fuel (if 1 <? cnt then tib else tib + 20) s' c'.
Proof.
  intros Hb H0 Ht Hp Hc Hsg. pose proof Hb as [Hw _ Hi Hpt Hl _ _ _ _]. cbn [exec_tib].
  rewrite !(trunc_small 32 (tib + _)) by (split; lia). rewrite ReadMacInt16_be, !ReadMacInt32_be, Hi, Hpt, Hl by done. cbn [mbind outcome_bind].
  rewrite tib_insn_inc, (trunc_small 32 (tib + 10 - 8)) by (split; lia).
  rewrite (trunc_small 32 (ptr + len)) by done. replace (tib + 10 - 8) with (tib + 2) by lia.
  destruct (block_set_ptr tib ptr len cnt c (ptr + len) Hb Hp) as (c1 & -> & Hb1 & Hf1). cbn [mbind outcome_bind]. unfold tib_data. rewrite Hsg. cbn [mbind outcome_bind].
  pose proof Hb1 as [Hw1 _ _ _ _ Hlo Hba Hcn _]. rewrite !(trunc_small 32 (tib + 10 + _)) by (split; lia).
  replace (tib + 10 + 2) with (tib + 12) by lia. replace (tib + 10 + 6) with (tib + 16) by lia.
  rewrite ReadMacInt16_be, !ReadMacInt32_be, Hlo, Hba, Hcn by done. cbn [mbind outcome_bind].
  rewrite tib_insn_loop, (trunc_small 32 (tib + 10 + 10 - 4)) by (split; lia). rewrite (trunc_small 32 (cnt - 1)) by (split; lia).
  replace (tib + 10 + 10 - 4) with (tib + 16) by lia.
  destruct (block_set_cnt tib (ptr + len) len cnt c1 (cnt - 1) Hb1) as (c2 & -> & Hb2 & Hf2); [split; lia|]. cbn [mbind outcome_bind].
  exists c2. split; [done|]. split; [intros i Hi'; by rewrite Hf2, Hf1|].
  change (s32 (u32 (-10))) with (-10). destruct (Z.ltb_spec 0 (cnt - 1)), (Z.ltb_spec 1 cnt); try lia.
  - by rewrite trunc_small by (split; lia); f_equal; lia.
  - f_equal. lia.
Qed.

(** The canonical transfer block ends, and leaves one entry in the table for
    all of its blocks, its pointer behind the data and its counter 0. *)
Theorem block_loop_runs tib buf len n s c :
  block_at tib buf len n c -> 0 <= tib -> tib + 30 <= 2 ^ 32 -> 0 <= buf -> 0 <= len -> 1 <= n < 2 ^ 32 -> buf + n * len < 2 ^ 32 ->
  sg s = [] -> sg_total_length s = 0 ->
  exists s' c', exec_tib (2 * Z.to_nat n + 1) tib s c = Ok (0, s', c') /\
    sg s' = [(buf, n * len)] /\ sg_total_length s' = n * len /\ block_at tib (buf + n * len) len 0 c' /\ block_frame tib c c'.
Proof.
  intros Hb H0 Ht Hbuf Hlen Hn Hsum Hs Htot.
  assert (H : forall k done s c, block_at tib (buf + done * len) len (Z.of_nat (S k)) c -> 0 <= done -> done + Z.of_nat (S k) = n ->
    sg s = (if decide (done = 0) then [] else [(buf, done * len)]) -> sg_total_length s = done * len ->
    exists s' c', exec_tib (2 * S k + 1) tib s c = Ok (0, s', c') /\
      sg s' = [(buf, n * len)] /\ sg_total_length s' = n * len /\ block_at tib (buf + n * len) len 0 c' /\ block_frame tib c c').
  { clear s c Hb Hs Htot. induction k as [|k IH]; intros dn s c Hb Hd Hk Hs Htot;
      (assert (Hx : buf + (dn + 1) * len <= buf + n * len) by nia);
      (assert (Hadd : exists s', sg_add (buf + dn * len) len s = Some s' /\ sg s' = [(buf, (dn + 1) * len)] /\ sg_total_length s' = (dn + 1) * len);
        [unfold sg_add; rewrite Hs, Htot; destruct (decide (dn = 0)) as [->|];
          [eexists; split; [reflexivity|]; cbn [set_sg sg sg_total_length]; rewrite trunc_small by (split; nia);
            split; [do 2 f_equal; lia|lia]
          |cbn [last]; rewrite Z.eqb_refl; eexists; split; [reflexivity|]; cbn [set_sg sg sg_total_length removelast app];
            rewrite !trunc_small by (split; nia); split; [do 2 f_equal; lia|lia]]|]);
      destruct Hadd as (s1 & Hsg & Hs1 & Ht1).
    - destruct (block_turn tib (buf + dn * len) len 1 c s s1 1 Hb H0 Ht ltac:(split; nia) ltac:(lia) Hsg) as (c1 & Hb1 & Hf1 & E).
      exists s1, c1. change (2 * 1 + 1)%nat with 3%nat. rewrite E. cbn [Z.ltb Z.compare Pos.compare Pos.compare_cont].
      pose proof Hb1 as [Hw1 Hm1 _ _ _ _ _ _ Hst]. replace (buf + n * len) with (buf + dn * len + len) by nia. replace (n * len) with ((dn + 1) * len) by nia.
      split_and!; try done. cbn [exec_tib].
      rewrite (trunc_small 32 (tib + 20 + 2)), (trunc_small 32 (tib + 20 + 6)) by (split; lia). rewrite ReadMacInt16_be, !ReadMacInt32_be, Hst by done. cbn [mbind outcome_bind].
      destruct (load_be_total 4 (mem c1) (tib + 20 + 2)) as [x ->]; [by apply (mapped_le 4 30 _ tib); [lia|lia|]|].
      destruct (load_be_total 4 (mem c1) (tib + 20 + 6)) as [y ->]; [by apply (mapped_le 4 30 _ tib); [lia|lia|]|]. done.
    - destruct (block_turn tib (buf + dn * len) len (Z.of_nat (S (S k))) c s s1 (2 * S k + 1) Hb H0 Ht ltac:(split; nia) ltac:(lia) Hsg) as (c1 & Hb1 & Hf1 & E).
      replace (2 * S (S k) + 1)%nat with (S (S (2 * S k + 1))) by lia. rewrite E.
      rewrite (proj2 (Z.ltb_lt _ _)) by lia.
      destruct (IH (dn + 1) s1 c1) as (s2 & c2 & E2 & ? & ? & ? & Hf2); [|lia|lia| |done|].
      + replace (buf + (dn + 1) * len) with (buf + dn * len + len) by lia. by replace (Z.of_nat (S k)) with (Z.of_nat (S (S k)) - 1) by lia.
      + by rewrite decide_False by lia.
      + exists s2, c2. split_and!; try done. intros i Hi. by rewrite Hf2, Hf1. }
  replace (Z.to_nat n) with (S (Z.to_nat (n - 1))) by lia.
  apply (H (Z.to_nat (n - 1)) 0 s c); [|lia|lia|done|done].
  replace (Z.of_nat (S (Z.to_nat (n - 1)))) with n by lia. by rewrite Z.mul_0_l, Z.add_0_r.
Qed.

(** [INC 0x2000 512; LOOP -10 3; STOP] at 0x1000. *)
Definition loop_memory : memory :=
  list_to_map (zip ((fun i => 0x1000 + i) <$> count_up 30)
    [0; 1; 0; 0; 0x20; 0; 0; 0; 2; 0;  0; 5; 0xff; 0xff; 0xff; 0xf6; 0; 0; 0; 3;  0; 7; 0; 0; 0; 0; 0; 0; 0; 0]).
Definition loop_machine : powerpc_cpu := cpu_init loop_memory.

Lemma block_loop_runs_witness :
  exists s' c', exec_tib 7 0x1000 scsi_init loop_machine = Ok (0, s', c') /\ sg s' = [(0x2000, 1536)] /\ sg_total_length s' = 1536.
Proof.
  assert (Hb : block_at 0x1000 0x2000 512 3 loop_machine).
  { split; try (vm_compute; reflexivity); [apply (bool_decide_eq_true_1 _); vm_compute; reflexivity|].
    intros i Hi. assert (H : i ∈ (fun i => 0x1000 + i) <$> count_up 30).
    { apply list_elem_of_fmap. exists (i - 0x1000). split; [lia|]. apply elem_of_count_up. lia. }
    change (mem loop_machine) with loop_memory. apply elem_of_dom. unfold loop_memory.
    rewrite dom_list_to_map_L, fst_zip by done. by apply elem_of_list_to_set. }
  destruct (block_loop_runs 0x1000 0x2000 512 3 scsi_init loop_machine Hb) as (s' & c' & E & Hs & Ht & _);
    [lia|lia|lia|lia|lia|lia|reflexivity|reflexivity|].
  exists s', c'. split; [exact E|]. split; [exact Hs|exact Ht].
Defined.
