(* ===== verification/MacUtil.v ===== *)
(** Mac OS utilities (macos_util.cpp): operating system queues, free drive
    numbers, the layout of disk images, and the time since 1904; with their
    specifications. *)
From S2P Require Import Prelude Bitfields Registers HostFPU Operations Memory Handlers BlockCache Cpu Operands ExecInt ExecMem ExecSys MacMem.

#[local] Open Scope list_scope.

(** ** Queues *)

Definition qLink := 0.
Definition qHead := 2.
Definition qTail := 6.

Definition Enqueue (elem list_ : Z) (c : powerpc_cpu) : outcome powerpc_cpu :=
  c ← WriteMacInt32 (u32 (elem + qLink)) 0 c;
  tail ← ReadMacInt32 (u32 (list_ + qTail)) c;
  if tail =? 0 then
    c ← WriteMacInt32 (u32 (list_ + qHead)) elem c;
    WriteMacInt32 (u32 (list_ + qTail)) elem c
  else
    c ← WriteMacInt32 (u32 (tail + qLink)) elem c;
    WriteMacInt32 (u32 (list_ + qTail)) elem c.

(** ** Drive numbers *)

Definition dsQLink := 6.
Definition dsQDrive := 12.

(** The walk along the drive queue; [fuel] bounds its length. *)
Fixpoint drive_loop (fuel : nat) (e num : Z) (c : powerpc_cpu) : outcome bool :=
  match fuel with
  | O => Fuel
  | S fuel =>
      if e =? 0 then Ok true
      else
        let d := u32 (e - dsQLink) in
        drive ← ReadMacInt16 (u32 (d + dsQDrive)) c;
        if drive =? num then Ok false
        else
          e ← ReadMacInt32 (u32 (e + qLink)) c;
          drive_loop fuel e num c
  end.
Definition is_drive_number_free (fuel : nat) (num : Z) (c : powerpc_cpu) : outcome bool :=
  e ← ReadMacInt32 (0x308 + qHead) c;
  drive_loop fuel e num c.

Fixpoint FindFreeDriveNumber (tries fuel : nat) (num : Z) (c : powerpc_cpu) : outcome Z :=
  match tries with
  | O => Fuel
  | S tries =>
      free ← is_drive_number_free fuel num c;
      if (free : bool) then Ok num else FindFreeDriveNumber tries fuel (num + 1) c
  end.

(** ** Disk images *)

(** Start and size of the data; [size] is a file's size. *)
Definition FileDiskLayout (size : Z) : Z * Z :=
  if (size =? 419284) || (size =? 838484) then (84, Z.land (size - 84) (Z.lnot 0x1ff))
  else
    let start_byte := Z.land size 0x1ff in
    (start_byte, size - start_byte).

(** ** Time *)

(** The fields of [struct tm] that are used: [localtime]'s result. *)
Record tm := Tm { tm_year : Z; tm_yday : Z; tm_hour : Z; tm_min : Z; tm_sec : Z }.

Definition TM_EPOCH_YEAR := 1900.
Definition MAC_EPOCH_YEAR := 1904.

Definition TimeToMacTime (local : tm) : Z :=
  let not z := bZ (z =? 0) in
  let a4 := Z.shiftr (tm_year local + TM_EPOCH_YEAR) 2 - not (Z.land (tm_year local) 3) in
  let b4 := Z.shiftr MAC_EPOCH_YEAR 2 - not (Z.land MAC_EPOCH_YEAR 3) in
  let a100 := Z.quot a4 25 - bZ (Z.rem a4 25 <? 0) in
  let b100 := Z.quot b4 25 - bZ (Z.rem b4 25 <? 0) in
  let a400 := Z.shiftr a100 2 in
  let b400 := Z.shiftr b100 2 in
  let intervening_leap_days := (a4 - b4) - (a100 - b100) + (a400 - b400) in
  let days := u32 (tm_yday local + 365 * (tm_year local - 4) + intervening_leap_days) in
  u32 (tm_sec local + 60 * u32 (tm_min local + 60 * u32 (tm_hour local + u32 (24 * days)))).

(** ** Queues as lists

    [els] are the addresses of the elements from [e] on. *)
Fixpoint links (m : memory) (e : Z) (els : list Z) : Prop :=
  match els with
  | [] => e = 0
  | x :: els => e = x /\ x <> 0 /\ exists n, load_be 4 m x = Ok n /\ links m n els
  end.

Record queue_at (q : Z) (els : list Z) (c : powerpc_cpu) : Prop := {
  qa_wf : mem_wf (mem c);
  qa_mapped : mapped 8 (q + qHead) (mem c);
  qa_head : exists h, load_be 4 (mem c) (q + qHead) = Ok h /\ (els <> [] -> links (mem c) h els);
  qa_tail : load_be 4 (mem c) (q + qTail) = Ok (default 0 (last els));
  qa_elements : Forall (fun x => 0 < x /\ x + 4 <= 2 ^ 32 /\ mapped 4 x (mem c) /\ (x + 4 <= q + qHead \/ q + qHead + 8 <= x)) els;
}.

(** The link words of two elements are apart. *)
Definition apart4 (x y : Z) : Prop := x + 4 <= y \/ y + 4 <= x.

Lemma links_keep m m' els : forall e,
  Forall (fun x => load_be 4 m' x = load_be 4 m x) els -> links m e els -> links m' e els.
Proof.
  induction els as [|x els IH]; intros e Hk H; [done|]. inversion Hk as [|? ? Hx Hr]; subst.
  destruct H as (-> & H0 & n & Hn & Hl). split_and!; [done|done|]. exists n. rewrite Hx. split; [done|]. by apply IH.
Qed.

Lemma links_snoc m m' els y t : forall e,
  last els = Some t -> links m e els -> NoDup els -> Forall (fun x => x <> t -> load_be 4 m' x = load_be 4 m x) els ->
  y <> 0 -> load_be 4 m' t = Ok y -> load_be 4 m' y = Ok 0 -> links m' e (els ++ [y]).
Proof.
  induction els as [|x els IH]; intros e Hlast H Hd Hk Hy Ht Hz; [done|]. inversion Hk as [|? ? Hx Hr]; subst. inversion Hd as [|? ? Hnot Hd']; subst.
  destruct H as (-> & H0 & n & Hn & Hl). cbn [app links]. split_and!; [done|done|].
  destruct els as [|z els].
  - injection Hlast as ->. exists y. split; [done|]. cbn. split_and!; [done|done|]. by exists 0.
  - assert (Hxt : x <> t). { intros ->. apply Hnot. apply last_Some_elem_of. by rewrite last_cons_cons in Hlast. }
    exists n. rewrite (Hx Hxt). split; [done|]. by apply IH.
Qed.

(** Enqueue appends the element to the queue's list, whatever it held, and
    changes nothing but the queue's head and tail and the links of the element and
    of the last one. *)
Theorem Enqueue_spec elem q els c :
  queue_at q els c -> NoDup (elem :: els) -> Forall (apart4 elem) els -> (forall x y, x ∈ els -> y ∈ els -> x <> y -> apart4 x y) ->
  0 < elem -> elem + 4 <= 2 ^ 32 -> mapped 4 elem (mem c) -> elem + 4 <= q + qHead \/ q + qHead + 8 <= elem ->
  0 <= q -> q + 10 <= 2 ^ 32 ->
  exists c', Enqueue elem q c = Ok c' /\ queue_at q (els ++ [elem]) c' /\
    forall i, ~ (elem <= i < elem + 4) -> ~ (q + 2 <= i < q + 10) ->
      (forall t, last els = Some t -> ~ (t <= i < t + 4)) -> mem c' !! i = mem c !! i.
Proof.
  intros [Hw Hmq (h & Hh & Hlinks) Htail Hels] Hnd Hap Hpair He0 He32 Hme Heq Hq0 Hq.
  apply NoDup_cons in Hnd as [Hnotin Hnd]. unfold Enqueue, qHead, qTail, qLink in *. rewrite (trunc_small 32 (elem + 0)), (trunc_small 32 (q + 6)), (trunc_small 32 (q + 2)) by (split; lia). rewrite Z.add_0_r.
  destruct (WriteMacInt32_writes elem 0 c Hw Hme) as (c1 & -> & W1). cbn [mbind outcome_bind]. pose proof (writes_wf _ _ _ _ _ W1) as Hw1.
  assert (Hel : forall x, x ∈ els -> 0 < x /\ x + 4 <= 2 ^ 32 /\ mapped 4 x (mem c) /\ (x + 4 <= q + 2 \/ q + 2 + 8 <= x)) by (by apply Forall_forall).
  rewrite ReadMacInt32_be, (writes_other W1) by (done || lia). rewrite Htail. cbn [mbind outcome_bind].
  assert (Hmq1 : mapped 8 (q + 2) (mem c1)) by (by apply (writes_mapped W1)).
  assert (Hmt : forall c', dom (mem c') = dom (mem c1) -> mapped 4 (q + 6) (mem c')).
  { intros c' Hd. apply (mapped_cong 4 _ _ _ Hd). by apply (mapped_le 4 8 _ (q + 2)); [lia|lia|]. }
  destruct (last els) as [t|] eqn:El; cbn [default].
  - assert (Ht : t ∈ els) by (by apply last_Some_elem_of). destruct (Hel t Ht) as (Ht0 & Ht32 & Hmapt & Htq). unfold id. rewrite (proj2 (Z.eqb_neq t 0)) by lia.
    rewrite (trunc_small 32 (t + 0)), Z.add_0_r by (split; lia).
    destruct (WriteMacInt32_writes t elem c1 Hw1) as (c2 & -> & W2); [by apply (writes_mapped W1)|]. cbn [mbind outcome_bind]. pose proof (writes_wf _ _ _ _ _ W2) as Hw2.
    destruct (WriteMacInt32_writes (q + 6) elem c2 Hw2) as (c3 & -> & W3); [apply Hmt, (writes_dom _ _ _ _ _ W2)|].
    assert (Hte : apart4 elem t) by (rewrite Forall_forall in Hap; by apply Hap). unfold apart4 in *.
    exists c3. split; [done|]. split.
    + split.
      * apply W3.
      * by apply (writes_mapped W3), (writes_mapped W2).
      * exists h. unfold qHead. rewrite (writes_other W3), (writes_other W2), (writes_other W1) by lia. split; [done|]. intros _.
        apply (links_snoc (mem c) (mem c3) els elem t h); try done; [apply Hlinks; by intros ->| |lia| |].
        -- apply Forall_forall. intros x Hx Hxt. destruct (Hel x Hx) as (_ & _ & _ & Hxq). rewrite Forall_forall in Hap. pose proof (Hap x Hx). pose proof (Hpair x t Hx Ht Hxt).
           by rewrite (writes_other W3), (writes_other W2), (writes_other W1) by lia.
        -- rewrite (writes_other W3) by lia. rewrite (writes_value _ _ _ _ _ W2). by rewrite trunc_small by (split; lia).
        -- rewrite (writes_other W3), (writes_other W2) by lia. by rewrite (writes_value _ _ _ _ _ W1).
      * unfold qTail. rewrite (writes_value _ _ _ _ _ W3), last_snoc. by rewrite trunc_small by (split; lia).
      * apply Forall_app. split; [|constructor; [|done]].
        -- apply Forall_forall. intros x Hx. destruct (Hel x Hx) as (? & ? & ? & ?). split_and!; try done. by apply (writes_mapped W3), (writes_mapped W2), (writes_mapped W1).
        -- split_and!; try done. by apply (writes_mapped W3), (writes_mapped W2), (writes_mapped W1).
    + intros i H1 H2 H3. specialize (H3 t eq_refl).
      rewrite (writes_frame _ _ _ _ _ W3), (writes_frame _ _ _ _ _ W2), (writes_frame _ _ _ _ _ W1) by lia. done.
  - apply last_None in El as ->. cbn [Z.eqb].
    destruct (WriteMacInt32_writes (q + 2) elem c1 Hw1) as (c2 & -> & W2); [by apply (mapped_le 4 8 _ (q + 2)); [lia|lia|]|]. cbn [mbind outcome_bind]. pose proof (writes_wf _ _ _ _ _ W2) as Hw2.
    destruct (WriteMacInt32_writes (q + 6) elem c2 Hw2) as (c3 & -> & W3); [apply Hmt, (writes_dom _ _ _ _ _ W2)|].
    exists c3. split; [done|]. split.
    + split.
      * apply W3.
      * by apply (writes_mapped W3), (writes_mapped W2).
      * exists elem. unfold qHead. rewrite (writes_other W3) by lia. rewrite (writes_value _ _ _ _ _ W2), trunc_small by (split; lia). split; [done|]. intros _.
        split_and!; [done|lia|]. exists 0. rewrite (writes_other W3), (writes_other W2) by lia. by rewrite (writes_value _ _ _ _ _ W1).
      * unfold qTail. rewrite (writes_value _ _ _ _ _ W3). by rewrite trunc_small by (split; lia).
      * constructor; [|done]. split_and!; try done. by apply (writes_mapped W3), (writes_mapped W2), (writes_mapped W1).
    + intros i H1 H2 _. rewrite (writes_frame _ _ _ _ _ W3), (writes_frame _ _ _ _ _ W2), (writes_frame _ _ _ _ _ W1) by lia. done.
Qed.

(** ** Drive numbers *)

(** The drive queue from [e] on: elements and drive numbers. *)
Fixpoint drives (m : memory) (e : Z) (l : list (Z * Z)) : Prop :=
  match l with
  | [] => e = 0
  | (x, num) :: l => e = x /\ 0 < x < 2 ^ 32 - 8 /\ load_be 2 m (x + 6) = Ok num /\
      exists n, load_be 4 m x = Ok n /\ drives m n l
  end.

Lemma drive_loop_spec m num l : forall e c fuel,
  mem c = m -> mem_wf m -> drives m e l -> (length l < fuel)%nat ->
  drive_loop fuel e num c = Ok (bool_decide (num ∉ l.*2)).
Proof.
  induction l as [|[x k] l IH]; intros e c fuel Hc Hm Hd Hf; (destruct fuel as [|fuel]; [lia|]); cbn [drive_loop].
  - cbn in Hd. subst e. cbn. rewrite bool_decide_true; [done|]. apply not_elem_of_nil.
  - destruct Hd as (-> & Hx & Hk & n & Hn & Hl). rewrite (proj2 (Z.eqb_neq x 0)) by lia. unfold dsQLink, dsQDrive, qLink.
    rewrite trunc_add_l. replace (x - 6 + 12) with (x + 6) by lia. rewrite (trunc_small 32 (x + 6)), (trunc_small 32 (x + 0)), Z.add_0_r by (split; lia).
    rewrite ReadMacInt16_be, ReadMacInt32_be, Hc, Hk, Hn by (by rewrite Hc). cbn [mbind outcome_bind fmap list_fmap].
    destruct (Z.eqb_spec k num) as [->|Hne].
    + rewrite bool_decide_false; [done|]. intros Hnot. apply Hnot. left.
    + cbn [length] in Hf. rewrite (IH n c fuel Hc Hm Hl) by lia. f_equal. apply bool_decide_ext. cbn [snd]. rewrite not_elem_of_cons. naive_solver.
Qed.

(** How many of [l] are at least [j]. *)
Definition at_least (j : Z) (l : list Z) : nat := length (filter (fun x => j <= x) l).

Lemma at_least_next j l : (at_least (j + 1) l <= at_least j l)%nat /\ (j ∈ l -> (at_least (j + 1) l < at_least j l)%nat).
Proof.
  unfold at_least. induction l as [|x l [IH1 IH2]]; [split; [done|by intros ?%elem_of_nil]|]. rewrite !filter_cons.
  split; [repeat case_decide; cbn; lia|]. intros [->|Hin]%elem_of_cons.
  - rewrite decide_False, decide_True by lia. cbn. lia.
  - specialize (IH2 Hin). repeat case_decide; cbn; lia.
Qed.

(** The search for a drive number ends with the least one from the given number
    on that no drive of the queue has. *)
Theorem FindFreeDriveNumber_spec l h c num :
  mem_wf (mem c) -> load_be 4 (mem c) 0x30a = Ok h -> drives (mem c) h l ->
  exists k, FindFreeDriveNumber (S (length l)) (S (length l)) num c = Ok k /\
    num <= k <= num + Z.of_nat (length l) /\ k ∉ l.*2 /\ forall j, num <= j < k -> j ∈ l.*2.
Proof.
  intros Hm Hh Hd.
  assert (Hfree : forall j, is_drive_number_free (S (length l)) j c = Ok (bool_decide (j ∉ l.*2))).
  { intros j. unfold is_drive_number_free. rewrite ReadMacInt32_be by done. change (0x308 + qHead) with 0x30a. rewrite Hh. cbn [mbind outcome_bind].
    apply (drive_loop_spec (mem c)); try done. lia. }
  assert (H : forall tries j, (at_least j l.*2 < tries)%nat ->
    exists k, FindFreeDriveNumber tries (S (length l)) j c = Ok k /\ j <= k < j + Z.of_nat tries /\ k ∉ l.*2 /\ forall i, j <= i < k -> i ∈ l.*2).
  { induction tries as [|tries IH]; intros j Hj; [lia|]. cbn [FindFreeDriveNumber]. rewrite Hfree. cbn [mbind outcome_bind].
    destruct (decide (j ∈ l.*2)) as [Hin|Hout].
    - rewrite bool_decide_false by tauto.
      destruct (IH (j + 1)) as (k & E & Hk & Hn & Hall).
      { pose proof (proj2 (at_least_next j l.*2) Hin). lia. }
      exists k. split; [done|]. split_and!; [lia|lia|done|]. intros i Hi. destruct (decide (i = j)) as [->|]; [done|]. apply Hall. lia.
    - rewrite bool_decide_true by done. exists j. split; [done|]. split_and!; [lia|lia|done|lia]. }
  destruct (H (S (length l)) num) as (k & E & Hk & Hn & Hall).
  { unfold at_least. pose proof (length_filter (fun x => num <= x) l.*2) as Hl. rewrite length_fmap in Hl. lia. }
  exists k. split_and!; [done|lia|lia|done|done].
Qed.

(** ** Disk images *)

(** The data are whole blocks inside the file, and less than a block is left over. *)
Lemma FileDiskLayout_spec size :
  0 <= size -> let '(start_byte, real_size) := FileDiskLayout size in
  0 <= start_byte < 512 /\ real_size mod 512 = 0 /\ 0 <= real_size /\
  size - 512 < start_byte + real_size <= size /\ (size <> 419284 /\ size <> 838484 -> start_byte + real_size = size).
Proof.
  intros Hs. unfold FileDiskLayout. destruct (Z.eqb_spec size 419284) as [->|H1]; [vm_compute; intuition congruence|].
  destruct (Z.eqb_spec size 838484) as [->|H2]; [vm_compute; intuition congruence|]. cbn [orb].
  change 0x1ff with (Z.ones 9). rewrite Z.land_ones by done. change (2 ^ 9) with 512.
  split_and!; Z.div_mod_to_equations; lia.
Qed.

(** ** The civil calendar *)

Definition leap (y : Z) : bool := (y mod 4 =? 0) && (negb (y mod 100 =? 0) || (y mod 400 =? 0)).

(** The days from 1 January 1904 to 1 January of the [n]-th year after. *)
Fixpoint days_to (n : nat) : Z :=
  match n with O => 0 | S n => days_to n + 365 + bZ (leap (1904 + Z.of_nat n)) end.

(** The leap years before a year. *)
Definition leaps (y : Z) : Z := (y - 1) / 4 - (y - 1) / 100 + (y - 1) / 400.

Lemma leaps_next y : leaps (y + 1) = leaps y + bZ (leap y).
Proof.
  unfold leaps, leap. replace (y + 1 - 1) with y by lia.
  assert (H : forall k, 0 < k -> y / k = (y - 1) / k + bZ (y mod k =? 0)).
  { intros k Hk. destruct (Z.eqb_spec (y mod k) 0) as [E|E]; cbn [bZ].
    - pose proof (Z.div_mod y k ltac:(lia)). assert (y / k - 1 = (y - 1) / k) by (apply (Z.div_unique _ _ _ (k - 1)); nia). lia.
    - pose proof (Z.mod_pos_bound y k Hk). pose proof (Z.div_mod y k ltac:(lia)). rewrite Z.add_0_r.
      apply (Z.div_unique _ _ _ (y mod k - 1)); lia. }
  rewrite !H by done.
  assert (H100 : y mod 400 = 0 -> y mod 100 = 0) by (intros; Z.div_mod_to_equations; lia).
  assert (H4 : y mod 100 = 0 -> y mod 4 = 0) by (intros; Z.div_mod_to_equations; lia).
  destruct (Z.eqb_spec (y mod 4) 0), (Z.eqb_spec (y mod 100) 0), (Z.eqb_spec (y mod 400) 0); cbn; try lia; tauto.
Qed.

Lemma days_to_leaps n : days_to n = 365 * Z.of_nat n + leaps (1904 + Z.of_nat n) - leaps 1904.
Proof.
  induction n as [|n IH]; [done|]. cbn [days_to]. rewrite IH, Nat2Z.inj_succ. unfold Z.succ.
  rewrite Z.add_assoc, leaps_next. lia.
Qed.

Lemma trunc_affine w a k x : trunc w (a + k * trunc w x) = trunc w (a + k * x).
Proof. by rewrite <- trunc_add_r, trunc_mul_r, trunc_add_r. Qed.

(** The Mac time of a local time from 1904 on is the number of seconds of the
    civil calendar since then, in 32 bits: the leap-day arithmetic is the calendar's. *)
Theorem TimeToMacTime_spec local :
  4 <= tm_year local ->
  TimeToMacTime local =
  u32 (tm_sec local + 60 * (tm_min local + 60 * (tm_hour local + 24 * (days_to (Z.to_nat (tm_year local - 4)) + tm_yday local)))).
Proof.
  intros Hy. destruct local as [year yday hour min sec]. cbn [tm_year tm_yday tm_hour tm_min tm_sec] in *.
  unfold TimeToMacTime, TM_EPOCH_YEAR, MAC_EPOCH_YEAR. cbn [tm_year tm_yday tm_hour tm_min tm_sec]. cbn zeta.
  rewrite days_to_leaps. replace (1904 + Z.of_nat (Z.to_nat (year - 4))) with (year + 1900) by lia.
  change (Z.shiftr 1904 2 - bZ (Z.land 1904 3 =? 0)) with 475. change (Z.quot 475 25 - bZ (Z.rem 475 25 <? 0)) with 19. change (Z.shiftr 19 2) with 4.
  change (leaps 1904) with (475 - 19 + 4).
  assert (H4 : Z.shiftr (year + 1900) 2 - bZ (Z.land year 3 =? 0) = (year + 1900 - 1) / 4).
  { change 3 with (Z.ones 2). rewrite Z.land_ones, Z.shiftr_div_pow2 by done. change (2 ^ 2) with 4.
    destruct (Z.eqb_spec (year mod 4) 0); cbn [bZ]; Z.div_mod_to_equations; lia. }
  rewrite H4. set (a4 := (year + 1900 - 1) / 4). assert (Ha : 0 <= a4) by (apply Z.div_pos; lia).
  rewrite Z.quot_div_nonneg, Z.rem_mod_nonneg by lia. rewrite (proj2 (Z.ltb_ge _ _)) by (apply Z.mod_pos_bound; lia). cbn [bZ]. rewrite Z.sub_0_r.
  replace (a4 / 25) with ((year + 1900 - 1) / 100) by (subst a4; rewrite Z.div_div by done; done).
  rewrite Z.shiftr_div_pow2 by done. change (2 ^ 2) with 4. rewrite Z.div_div by done. change (100 * 4) with 400.
  fold (leaps (year + 1900)). unfold leaps. fold a4. rewrite trunc_mul_r.
  set (b := (year + 1900 - 1) / 100). set (d := (year + 1900 - 1) / 400).
  set (days := yday + _ + _). set (days' := 365 * _ + _ - _ + _). replace days' with days by (subst days days'; lia).
  by rewrite trunc_add_r, (trunc_affine 32 min), (trunc_affine 32 sec).
Qed.

(** ** Concrete inputs *)

(** Every address of a zipped list is mapped. *)
Lemma mapped_list a n l b k :
  length l = n -> a <= b -> b + Z.of_nat k <= a + Z.of_nat n -> mapped k b (list_to_map (zip ((fun i => a + i) <$> count_up n) l) : memory).
Proof.
  intros Hl H1 H2 i Hi. apply elem_of_dom. rewrite dom_list_to_map_L, fst_zip.
  - apply elem_of_list_to_set, list_elem_of_fmap. exists (i - a). split; [lia|]. apply elem_of_count_up. lia.
  - rewrite length_fmap. unfold count_up. rewrite length_fmap, length_seq. lia.
Qed.

(** A queue at 0x110 with one element, 0x100, and room for another at 0x108. *)
Definition queue_bytes : list Z := replicate 16 0 ++ [0; 0; 0; 0; 1; 0; 0; 0; 1; 0].
Definition queue_machine : powerpc_cpu := cpu_init (list_to_map (zip ((fun i => 0x100 + i) <$> count_up 26) queue_bytes)).

Lemma Enqueue_spec_witness :
  exists c', Enqueue 0x108 0x110 queue_machine = Ok c' /\ queue_at 0x110 [0x100; 0x108] c'.
Proof.
  assert (Hq : queue_at 0x110 [0x100] queue_machine).
  { split.
    - apply (bool_decide_eq_true_1 _). vm_compute. reflexivity.
    - apply (mapped_list 0x100 26 queue_bytes); [reflexivity|done|done].
    - exists 0x100. split; [vm_compute; reflexivity|]. intros _. split; [reflexivity|]. split; [discriminate|]. exists 0. split; [vm_compute; reflexivity|reflexivity].
    - vm_compute. reflexivity.
    - constructor; [|constructor]. unfold qHead. split; [lia|]. split; [lia|]. split; [|lia]. apply (mapped_list 0x100 26 queue_bytes); [reflexivity|done|done]. }
  destruct (Enqueue_spec 0x108 0x110 [0x100] queue_machine Hq) as (c' & E & Hq' & _).
  - apply (bool_decide_eq_true_1 _). vm_compute. reflexivity.
  - constructor; [unfold apart4; lia|constructor].
  - intros x y ->%list_elem_of_singleton ->%list_elem_of_singleton Hne. by destruct Hne.
  - lia.
  - lia.
  - apply (mapped_list 0x100 26 queue_bytes); [reflexivity|done|done].
  - unfold qHead. lia.
  - lia.
  - lia.
  - by exists c'.
Defined.

(** A drive queue: number 1 at 0x400, number 2 at 0x410. *)
Definition drive_machine : powerpc_cpu :=
  cpu_init (list_to_map (zip [0x30a; 0x30b; 0x30c; 0x30d; 0x400; 0x401; 0x402; 0x403; 0x406; 0x407; 0x410; 0x411; 0x412; 0x413; 0x416; 0x417]
    [0; 0; 4; 0; 0; 0; 4; 0x10; 0; 1; 0; 0; 0; 0; 0; 2])).

Lemma FindFreeDriveNumber_spec_witness :
  exists k, FindFreeDriveNumber 3 3 1 drive_machine = Ok k /\ 1 <= k <= 3 /\ k ∉ [1; 2].
Proof.
  destruct (FindFreeDriveNumber_spec [(0x400, 1); (0x410, 2)] 0x400 drive_machine 1) as (k & E & Hk & Hn & _).
  - apply (bool_decide_eq_true_1 _). vm_compute. reflexivity.
  - vm_compute. reflexivity.
  - split; [reflexivity|]. split; [lia|]. split; [vm_compute; reflexivity|]. exists 0x410. split; [vm_compute; reflexivity|].
    split; [reflexivity|]. split; [lia|]. split; [vm_compute; reflexivity|]. exists 0. split; [vm_compute; reflexivity|reflexivity].
  - exists k. split; [exact E|]. split; [cbn [length] in Hk; lia|exact Hn].
Defined.

(** 29 February 2000, 12:00:00. *)
Lemma TimeToMacTime_spec_witness :
  TimeToMacTime (Tm 100 59 12 0 0) = u32 (0 + 60 * (0 + 60 * (12 + 24 * (days_to 96 + 59)))).
Proof. apply (TimeToMacTime_spec (Tm 100 59 12 0 0)). cbn. lia. Defined.
