(* ===== verification/SysFile.v ===== *)
(** Disk images and devices (include/sys.h, Unix/sys_unix.cpp): the interface
    between the disk drivers and the host, its promises, and the Unix
    implementation for plain files and block devices.

    Configuration: Linux, without the BIN/CUE and VHD formats (both are options
    of the build). *)
From S2P Require Import Prelude Memory MacUtil.

#[local] Open Scope list_scope.

(** ** The interface of the drivers (include/sys.h)

    A file handle is a number, 0 the null handle.  Reading goes to host memory,
    which with real addressing is the Mac's; the result is a byte count, a
    [size_t]. *)
Class SysFiles (B : Type) := {
  Sys_read : Z -> Z -> Z -> Z -> B -> memory -> Z * memory;
  Sys_write : Z -> Z -> Z -> Z -> memory -> B -> Z * B;
  SysGetFileSize : Z -> B -> Z;
  SysEject : Z -> B -> B;
  SysFormat : Z -> B -> bool;
  SysIsReadOnly : Z -> B -> bool;
  SysIsFixedDisk : Z -> B -> bool;
  SysIsDiskInserted : Z -> B -> bool * B;
}.

(** [n] bytes of host memory from [a] on. *)
Definition bytes_of_memory (a : Z) (n : nat) (m : memory) : list Z :=
  (fun i => default 0 (m !! (a + i))) <$> count_up n.

(** [l] with the bytes [new] from [at_] on. *)
Definition overwrite (at_ : Z) (new l : list Z) : list Z :=
  take (Z.to_nat at_) l ++ new ++ drop (Z.to_nat at_ + length new) l.

(** What the drivers rely on: [image fh b] is the contents of an open medium;
    transfers inside it and inside mapped memory are complete, reads past its end are not. *)
Class SysFileLaws {B} (SYS : SysFiles B) := {
  sys_wf : B -> Prop;
  image : Z -> B -> option (list Z);
  writable : Z -> B -> bool;
  image_bytes fh b l : sys_wf b -> image fh b = Some l -> Forall (is_uint 8) l;
  Sys_read_image fh buffer off len b m l :
    sys_wf b -> image fh b = Some l -> 0 <= off -> 0 <= len -> off + len <= Z.of_nat (length l) ->
    mapped (Z.to_nat len) buffer m ->
    Sys_read fh buffer off len b m = (len, blit buffer (take (Z.to_nat len) (drop (Z.to_nat off) l)) m);
  Sys_read_end fh buffer off len b m l :
    sys_wf b -> image fh b = Some l -> 0 <= off -> 0 < len < 2 ^ 63 -> Z.of_nat (length l) < off + len ->
    fst (Sys_read fh buffer off len b m) <> len;
  Sys_write_image fh buffer off len b m l :
    sys_wf b -> image fh b = Some l -> writable fh b = true -> mem_wf m ->
    0 <= off -> 0 <= len -> off + len <= Z.of_nat (length l) -> mapped (Z.to_nat len) buffer m ->
    exists b', Sys_write fh buffer off len m b = (len, b') /\ sys_wf b' /\
      image fh b' = Some (overwrite off (bytes_of_memory buffer (Z.to_nat len) m) l) /\
      forall fh', writable fh' b' = writable fh' b /\ (fh' <> fh -> image fh' b' = image fh' b);
}.

(** ** Unix *)

(** A file of the host: its contents and whether the descriptor may write. *)
Record host_file := HostFile { file_data : list Z; file_writable : bool }.

(** The fields of [struct mac_file_handle] that are used; [fd] -1 is closed. *)
Record mac_file_handle := Handle {
  fh_name : Z;
  fd : Z;
  is_file : bool;
  is_floppy : bool;
  is_cdrom : bool;
  fh_read_only : bool;
  fh_start_byte : Z;
  file_size : Z;
}.

(** The process: handles, and open files by descriptor. *)
Record unix := Unix { handles : gmap Z mac_file_handle; files : gmap Z host_file }.

(** Device-specific requests of the host ([ioctl]) and the reopening of a device. *)
Class Ioctl := {
  BLKGETSIZE : Z -> unix -> Z;
  FD_DISK_WRITABLE : Z -> unix -> bool;
  disc_inserted : Z -> unix -> bool * unix;
  reopen : mac_file_handle -> unix -> unix;
}.

(** *** The calls on descriptors

    [mapped_prefix] is how much of [n] bytes at [a] is mapped: a transfer stops
    at a fault, and fails if it cannot start. *)
Fixpoint mapped_prefix (n : nat) (a : Z) (m : memory) : nat :=
  match n with
  | O => O
  | S n => match m !! a with Some _ => S (mapped_prefix n (a + 1) m) | None => O end
  end.

(** [lseek(fd, pos, SEEK_SET)]: the new position, negative on an error. *)
Definition lseek (d pos : Z) (u : unix) : Z :=
  match files u !! d with Some _ => if pos <? 0 then -1 else pos | None => -1 end.

(** [read] and [write] at the position [lseek] has set. *)
Definition file_read (d pos buffer len : Z) (u : unix) (m : memory) : Z * memory :=
  match files u !! d with
  | None => (-1, m)
  | Some f =>
      let bytes := take (Z.to_nat len) (drop (Z.to_nat pos) (file_data f)) in
      let k := mapped_prefix (length bytes) buffer m in
      if (k =? 0)%nat && negb (length bytes =? 0)%nat then (-1, m)
      else (Z.of_nat k, blit buffer (take k bytes) m)
  end.

Definition file_write (d pos buffer len : Z) (m : memory) (u : unix) : Z * unix :=
  match files u !! d with
  | None => (-1, u)
  | Some f =>
      let k := mapped_prefix (Z.to_nat len) buffer m in
      if negb (file_writable f) || ((k =? 0)%nat && negb (len =? 0)) then (-1, u)
      else
        let gap := replicate (Z.to_nat pos - length (file_data f)) 0 in
        let data := overwrite pos (bytes_of_memory buffer k m) (file_data f ++ gap) in
        (Z.of_nat k, Unix (handles u) (<[d := HostFile data (file_writable f)]> (files u)))
  end.

Definition read_block (d : Z) (u : unix) : Z :=
  match files u !! d with None => -1 | Some f => Z.of_nat (length (take 512 (file_data f))) end.

(** *** The functions of sys_unix.cpp *)

Definition unix_read (arg buffer offset length : Z) (u : unix) (m : memory) : Z * memory :=
  match handles u !! arg with
  | None => (0, m)
  | Some fh =>
      let pos := lseek (fd fh) (offset + fh_start_byte fh) u in
      if pos <? 0 then (0, m)
      else
        let '(n, m) := file_read (fd fh) pos buffer length u m in
        (u64 n, m)
  end.

Definition unix_write (arg buffer offset length : Z) (m : memory) (u : unix) : Z * unix :=
  match handles u !! arg with
  | None => (0, u)
  | Some fh =>
      let pos := lseek (fd fh) (offset + fh_start_byte fh) u in
      if pos <? 0 then (0, u)
      else
        let '(n, u) := file_write (fd fh) pos buffer length m u in
        (u64 n, u)
  end.

Section Unix.
Context {IO : Ioctl}.

Definition unix_file_size (arg : Z) (u : unix) : Z :=
  match handles u !! arg with
  | None => 1
  | Some fh =>
      if is_file fh then file_size fh
      else
        let blocks := BLKGETSIZE (fd fh) u in
        if blocks <? 0 then 0 else blocks * 512
  end.

(** Close and reopen, so that the host sees the change of the medium. *)
Definition unix_eject (arg : Z) (u : unix) : unix :=
  match handles u !! arg with
  | None => u
  | Some fh => if is_floppy fh || is_cdrom fh then reopen fh u else u
  end.

Definition unix_format (arg : Z) (u : unix) : bool :=
  match handles u !! arg with None => false | Some _ => true end.

Definition unix_is_read_only (arg : Z) (u : unix) : bool :=
  match handles u !! arg with
  | None => true
  | Some fh =>
      if is_floppy fh then if 0 <=? fd fh then negb (FD_DISK_WRITABLE (fd fh) u) else true
      else fh_read_only fh
  end.

Definition unix_is_fixed_disk (arg : Z) (u : unix) : bool :=
  match handles u !! arg with
  | None => true
  | Some fh => if is_file fh then true else if is_floppy fh || is_cdrom fh then false else true
  end.

Definition unix_is_disk_inserted (arg : Z) (u : unix) : bool * unix :=
  match handles u !! arg with
  | None => (false, u)
  | Some fh =>
      if is_file fh then (true, u)
      else if is_floppy fh then
        let actual := read_block (fd fh) u in
        if actual <? 0 then
          let u := reopen fh u in
          let d := match handles u !! arg with Some fh => fd fh | None => -1 end in
          (read_block d u =? 512, u)
        else (actual =? 512, u)
      else if is_cdrom fh then disc_inserted arg u
      else (true, u)
  end.

#[export] Instance unix_files : SysFiles unix := {|
  Sys_read := unix_read;
  Sys_write := unix_write;
  SysGetFileSize := unix_file_size;
  SysEject := unix_eject;
  SysFormat := unix_format;
  SysIsReadOnly := unix_is_read_only;
  SysIsFixedDisk := unix_is_fixed_disk;
  SysIsDiskInserted := unix_is_disk_inserted;
|}.
End Unix.

(** *** Opening a plain file

    [Sys_open] of a name outside /dev: [access_w] is whether [access] allows
    writing, [open_] what [open] gives for reading only or not.  A read-only
    descriptor is tried if the file cannot be opened for writing. *)
Definition open_file (name : Z) (ro access_w : bool) (open_ : bool -> option Z) (data : list Z) (u : unix) : Z * unix :=
  let ro := if negb ro && negb access_w then true else ro in
  let '(ro, d) :=
    match open_ ro with
    | None => if negb ro then (true, open_ true) else (ro, None)
    | d => (ro, d)
    end in
  match d with
  | None => (0, u)
  | Some d =>
      let '(start, size) := FileDiskLayout (Z.of_nat (length data)) in
      let fh := fresh ({[0]} ∪ dom (handles u)) in
      (fh, Unix (<[fh := Handle name d true false false ro start size]> (handles u))
                (<[d := HostFile data (negb ro)]> (files u)))
  end.

(** ** The implementation keeps the promises *)

(** The medium of a handle: the file behind its header. *)
Definition unix_image (arg : Z) (u : unix) : option (list Z) :=
  match handles u !! arg with
  | Some fh => match files u !! fd fh with
               | Some f => if (0 <=? fh_start_byte fh) && (fh_start_byte fh <=? Z.of_nat (length (file_data f)))
                           then Some (drop (Z.to_nat (fh_start_byte fh)) (file_data f)) else None
               | None => None
               end
  | None => None
  end.
Definition unix_writable (arg : Z) (u : unix) : bool :=
  match handles u !! arg with
  | Some fh => match files u !! fd fh with Some f => file_writable f | None => false end
  | None => false
  end.

(** Handles have descriptors of their own, files hold bytes and have the size of
    a [size_t] at most. *)
Record unix_wf (u : unix) : Prop := {
  uw_fds a b fa fb : handles u !! a = Some fa -> handles u !! b = Some fb -> fd fa = fd fb -> a = b;
  uw_bytes d f : files u !! d = Some f -> Forall (is_uint 8) (file_data f) /\ Z.of_nat (length (file_data f)) < 2 ^ 63;
}.

Lemma mapped_prefix_mapped n : forall a m, mapped n a m -> mapped_prefix n a m = n.
Proof.
  induction n as [|n IH]; intros a m H; cbn; [done|]. destruct (H a) as [b ->]; [lia|]. f_equal. apply IH. intros i Hi. apply H. lia.
Qed.

Lemma length_bytes_of_memory a n m : length (bytes_of_memory a n m) = n.
Proof. unfold bytes_of_memory, count_up. by rewrite !length_fmap, length_seq. Qed.

Lemma bytes_of_memory_wf a n m : mem_wf m -> Forall (is_uint 8) (bytes_of_memory a n m).
Proof.
  intros Hm. apply Forall_fmap, Forall_forall. intros i _. cbn. destruct (m !! (a + i)) as [b|] eqn:E; [by apply (Hm _ _ E)|done].
Qed.

Lemma bytes_of_memory_lookup a n m k :
  (k < n)%nat -> bytes_of_memory a n m !! k = Some (default 0 (m !! (a + Z.of_nat k))).
Proof.
  intros Hk. unfold bytes_of_memory, count_up. rewrite !list_lookup_fmap, lookup_seq_lt by done. done.
Qed.

Lemma length_overwrite at_ new l :
  0 <= at_ -> at_ + Z.of_nat (length new) <= Z.of_nat (length l) -> length (overwrite at_ new l) = length l.
Proof. intros. unfold overwrite. rewrite !length_app, length_take, length_drop. lia. Qed.

Lemma overwrite_wf at_ new l : Forall (is_uint 8) new -> Forall (is_uint 8) l -> Forall (is_uint 8) (overwrite at_ new l).
Proof. intros. unfold overwrite. repeat apply Forall_app_2; [by apply Forall_take|done|by apply Forall_drop]. Qed.

(** What is written is what is read there, and the rest stays. *)
Lemma overwrite_read at_ new l k :
  0 <= at_ -> at_ + Z.of_nat (length new) <= Z.of_nat (length l) ->
  overwrite at_ new l !! k = if decide (at_ <= Z.of_nat k < at_ + Z.of_nat (length new)) then new !! (k - Z.to_nat at_)%nat else l !! k.
Proof.
  intros H0 Hl. unfold overwrite. assert (Ht : length (take (Z.to_nat at_) l) = Z.to_nat at_) by (rewrite length_take; lia).
  destruct (decide (Z.of_nat k < at_)).
  - rewrite lookup_app_l, lookup_take_lt by lia. by rewrite decide_False by lia.
  - rewrite lookup_app_r by lia. rewrite Ht. destruct (decide _).
    + by rewrite lookup_app_l by lia.
    + rewrite lookup_app_r, lookup_drop by lia. f_equal. lia.
Qed.

Lemma overwrite_take at_ new l :
  0 <= at_ -> at_ + Z.of_nat (length new) <= Z.of_nat (length l) ->
  take (length new) (drop (Z.to_nat at_) (overwrite at_ new l)) = new.
Proof.
  intros H0 Hl. unfold overwrite. rewrite drop_app_le by (rewrite length_take; lia).
  rewrite (drop_ge (take _ _)) by (rewrite length_take; lia). cbn [app]. by rewrite take_app_length.
Qed.

Lemma unix_image_Some arg u l :
  unix_image arg u = Some l -> exists fh f, handles u !! arg = Some fh /\ files u !! fd fh = Some f /\
    0 <= fh_start_byte fh <= Z.of_nat (length (file_data f)) /\ l = drop (Z.to_nat (fh_start_byte fh)) (file_data f).
Proof.
  unfold unix_image. destruct (handles u !! arg) as [fh|]; [|done]. destruct (files u !! fd fh) as [f|] eqn:Ef; [|done].
  destruct (_ && _) eqn:E; [|done]. apply andb_true_iff in E as [?%Z.leb_le ?%Z.leb_le]. intros [= <-]. by exists fh, f.
Qed.

Lemma unix_read_image fh buffer off len u m l :
  unix_wf u -> unix_image fh u = Some l -> 0 <= off -> 0 <= len -> off + len <= Z.of_nat (length l) ->
  mapped (Z.to_nat len) buffer m ->
  unix_read fh buffer off len u m = (len, blit buffer (take (Z.to_nat len) (drop (Z.to_nat off) l)) m).
Proof.
  intros Hw Hi Ho Hl Hlen Hm. apply unix_image_Some in Hi as (h & f & Eh & Ef & Hs & ->). rewrite length_drop in Hlen.
  pose proof (proj2 (uw_bytes u Hw _ _ Ef)) as Hsz. unfold unix_read, lseek, file_read. rewrite Eh, Ef.
  rewrite (proj2 (Z.ltb_ge (off + fh_start_byte h) 0)) by lia. rewrite (proj2 (Z.ltb_ge (off + fh_start_byte h) 0)) by lia. rewrite drop_drop.
  replace (Z.to_nat (fh_start_byte h) + Z.to_nat off)%nat with (Z.to_nat (off + fh_start_byte h)) by lia.
  set (bytes := take (Z.to_nat len) _). assert (Hb : length bytes = Z.to_nat len) by (subst bytes; rewrite length_take, length_drop; lia).
  rewrite Hb, mapped_prefix_mapped by done. rewrite (take_ge bytes) by lia.
  destruct (Nat.eqb_spec (Z.to_nat len) 0) as [E|]; cbn [andb negb]; rewrite Z2Nat.id by lia; by rewrite trunc_small by (split; lia).
Qed.

Lemma mapped_prefix_le n : forall a m, (mapped_prefix n a m <= n)%nat.
Proof. induction n as [|n IH]; intros a m; cbn; [done|]. destruct (m !! a); [|lia]. specialize (IH (a + 1) m). lia. Qed.

Lemma unix_read_end fh buffer off len u m l :
  unix_wf u -> unix_image fh u = Some l -> 0 <= off -> 0 < len < 2 ^ 63 -> Z.of_nat (length l) < off + len ->
  fst (unix_read fh buffer off len u m) <> len.
Proof.
  intros Hw Hi Ho Hl Hlen. apply unix_image_Some in Hi as (h & f & Eh & Ef & Hs & ->). rewrite length_drop in Hlen.
  unfold unix_read, lseek, file_read. rewrite Eh, Ef.
  rewrite (proj2 (Z.ltb_ge (off + fh_start_byte h) 0)) by lia. rewrite (proj2 (Z.ltb_ge (off + fh_start_byte h) 0)) by lia.
  set (bytes := take (Z.to_nat len) _). assert (Hb : Z.of_nat (length bytes) < len) by (subst bytes; rewrite length_take, length_drop; lia).
  pose proof (mapped_prefix_le (length bytes) buffer m). pose proof (uw_bytes u Hw _ _ Ef) as [_ Hsz].
  destruct (_ && _); cbn [fst]; [change (u64 (-1)) with (2 ^ 64 - 1); lia|]. rewrite trunc_small by (split; lia). lia.
Qed.

Lemma unix_write_image fh buffer off len u m l :
  unix_wf u -> unix_image fh u = Some l -> unix_writable fh u = true -> mem_wf m ->
  0 <= off -> 0 <= len -> off + len <= Z.of_nat (length l) -> mapped (Z.to_nat len) buffer m ->
  exists u', unix_write fh buffer off len m u = (len, u') /\ unix_wf u' /\
    unix_image fh u' = Some (overwrite off (bytes_of_memory buffer (Z.to_nat len) m) l) /\
    forall fh', unix_writable fh' u' = unix_writable fh' u /\ (fh' <> fh -> unix_image fh' u' = unix_image fh' u).
Proof.
  intros Hw Hi Hwr Hmw Ho Hl Hlen Hm. apply unix_image_Some in Hi as (h & f & Eh & Ef & Hs & ->). rewrite length_drop in Hlen.
  destruct (uw_bytes u Hw _ _ Ef) as [Hby Hsz]. unfold unix_writable in Hwr. rewrite Eh, Ef in Hwr.
  set (new := bytes_of_memory buffer (Z.to_nat len) m). assert (Hn : length new = Z.to_nat len) by apply length_bytes_of_memory.
  set (data := overwrite (off + fh_start_byte h) new (file_data f)).
  assert (Hd : length data = length (file_data f)) by (apply length_overwrite; lia).
  set (u' := Unix (handles u) (<[fd h := HostFile data (file_writable f)]> (files u))).
  assert (E : unix_write fh buffer off len m u = (len, u')).
  { unfold unix_write, lseek, file_write. rewrite Eh, Ef.
    rewrite (proj2 (Z.ltb_ge (off + fh_start_byte h) 0)) by lia. rewrite (proj2 (Z.ltb_ge (off + fh_start_byte h) 0)) by lia. rewrite Hwr. cbn [negb orb].
    rewrite mapped_prefix_mapped by done. replace (_ && _) with false; cycle 1.
    { symmetry. apply andb_false_iff. destruct (Z.eqb_spec len 0); [by right|left; apply Nat.eqb_neq; lia]. }
    replace (Z.to_nat (off + fh_start_byte h) - length (file_data f))%nat with 0%nat by lia. cbn [replicate]. rewrite app_nil_r.
    cbn beta iota. rewrite Z2Nat.id by lia. rewrite trunc_small by (split; lia). unfold u'. by rewrite <- Hwr. }
  exists u'. split; [done|]. split_and!.
  - split; [apply (uw_fds u Hw)|]. intros d g. cbn [files u']. destruct (decide (d = fd h)) as [->|].
    + rewrite lookup_insert_eq. intros [= <-]. cbn [file_data]. rewrite Hd. split; [|done]. apply overwrite_wf; [by apply bytes_of_memory_wf|done].
    + rewrite lookup_insert_ne by done. apply (uw_bytes u Hw).
  - unfold unix_image. cbn [handles files u']. rewrite Eh, lookup_insert_eq. cbn [file_data]. rewrite Hd.
    rewrite !(proj2 (Z.leb_le _ _)) by lia. cbn [andb]. f_equal. apply list_eq. intros k.
    rewrite lookup_drop. unfold data. rewrite overwrite_read by lia. rewrite overwrite_read by (rewrite ?length_drop; lia). rewrite lookup_drop.
    repeat destruct (decide _); try lia; f_equal; lia.
  - intros fh'. split.
    + unfold unix_writable. cbn [handles files u']. destruct (handles u !! fh') as [h'|]; [|done].
      destruct (decide (fd h' = fd h)) as [->|]; [by rewrite lookup_insert_eq, Ef|by rewrite lookup_insert_ne].
    + intros Hne. unfold unix_image. cbn [handles files u']. destruct (handles u !! fh') as [h'|] eqn:Eh'; [|done].
      rewrite lookup_insert_ne; [done|]. intros Efd. apply Hne. by apply (uw_fds u Hw _ _ _ _ Eh' Eh).
Qed.

#[export] Instance unix_laws {IO : Ioctl} : SysFileLaws unix_files.
Proof.
  unshelve refine {| sys_wf := unix_wf; image := unix_image; writable := unix_writable |}.
  - intros fh u l Hw (h & f & _ & Ef & _ & ->)%unix_image_Some. apply Forall_drop. apply (uw_bytes u Hw _ _ Ef).
  - apply unix_read_image.
  - apply unix_read_end.
  - apply unix_write_image.
Defined.
