(* ===== verification/Device.v ===== *)
(** What the disk drivers share: the constants of the Device Manager
    (include/macos_util.h), and the state of a driver between its calls. *)
From S2P Require Import Prelude Bitfields Registers HostFPU Operations Memory Handlers BlockCache Cpu Operands ExecInt ExecMem ExecSys Thunks MacUtil SysFile.

(** ** Error codes *)

Definition noErr := 0.
Definition controlErr := -17.
Definition statusErr := -18.
Definition readErr := -19.
Definition writErr := -20.
Definition wPrErr := -44.
Definition ioErr := -36.
Definition paramErr := -50.
Definition nsDrvErr := -56.
Definition offLinErr := -65.
Definition verErr := -84.

(** ** Parameter blocks, drive status records, device control entries *)

Definition aRdCmd := 2.
Definition sony := 0.
Definition hard20 := 1.

Definition ioTrap := 6.
Definition ioVRefNum := 22.
Definition ioBuffer := 32.
Definition ioReqCount := 36.
Definition ioActCount := 40.
Definition ioPosMode := 44.
Definition ioWPosOffset := 46.
Definition csCode := 26.
Definition csParam := 28.

Definition dsWriteProt := 2.
Definition dsDiskInPlace := 3.
Definition dsInstalled := 4.
Definition dsSides := 5.
Definition dsQType := 10.
Definition dsTwoSideFmt := 18.
Definition dsNewIntf := 19.
Definition dsMFMDrive := 22.
Definition dsMFMDisk := 23.
Definition dsTwoMegFmt := 24.
Definition dsDriveSize := 18.
Definition dsDriveS1 := 20.
Definition SIZEOF_DrvSts := 30.

Definition dCtlFlags := 4.
Definition dCtlQHdr := 6.
Definition dCtlPosition := 16.
Definition dCtlDelay := 34.

Definition EMULATOR_ID_4 := 0x62616168.

(** [ReadMacInt8] (include/cpu_emulation.h). *)
Definition ReadMacInt8 (addr : Z) (c : powerpc_cpu) : outcome Z := vm_read_memory_1 (mem c) addr.

(** Registers for a trap. *)
Definition set_d0 (v : Z) (r : M68kRegisters) : M68kRegisters := R68 (Zinsert 0 (u32 v) (r68_d r)) (r68_a r).
Definition set_a0 (v : Z) (r : M68kRegisters) : M68kRegisters := R68 (r68_d r) (Zinsert 0 (u32 v) (r68_a r)).

(** What the driver gestalt call stores in the parameter block: 32 bits, 16 bits,
    or two words. *)
Inductive gestalt := Long (v : Z) | Word (v : Z) | Words (v w : Z).
Definition put_gestalt (param : Z) (g : gestalt) (c : powerpc_cpu) : outcome powerpc_cpu :=
  match g with
  | Long v => WriteMacInt32 (u32 (param + 4)) v c
  | Word v => WriteMacInt16 (u32 (param + 4)) v c
  | Words v w =>
      c ← WriteMacInt16 (u32 (param + 4)) v c;
      WriteMacInt16 (u32 (param + 6)) w c
  end.

(** ** Partitions

    The search for an HFS partition, which disk.cpp and cdrom.cpp write out twice. *)

Section Partition.
Context {B : Type} {SYS : SysFiles B}.

(** The block [map], of uninitialised host memory. *)
Definition new_map : memory := list_to_map ((fun i => (i, 0)) <$> count_up 512).

Definition map_bytes (map_ : memory) (i n : Z) : list Z := bytes_of_memory i (Z.to_nat n) map_.
Definition map_be32 (map_ : memory) (i : Z) : Z :=
  match map_bytes map_ i 4 with
  | [a; b; c; d] => s32 (Z.lor (Z.lor (Z.lor (Z.shiftl a 24) (Z.shiftl b 16)) (Z.shiftl c 8)) d)
  | _ => 0
  end.

Definition Apple_HFS : list Z := [65; 112; 112; 108; 101; 95; 72; 70; 83; 0].

(** Blocks [i] to 63; the start in bytes and the number of blocks. *)
Fixpoint partition_loop (n : nat) (i f : Z) (b : B) (map_ : memory) : Z * Z :=
  match n with
  | O => (0, 0)
  | S n =>
      let '(actual, map_) := Sys_read f 0 (i * 512) 512 b map_ in
      if negb (actual =? 512) then (0, 0)
      else if negb (bool_decide (map_bytes map_ 0 2 = [0x50; 0x4d])) then partition_loop n (i + 1) f b map_
      else if bool_decide (map_bytes map_ 48 10 = Apple_HFS)
      then (Z.shiftl (map_be32 map_ 8) 9, u32 (map_be32 map_ 12))
      else partition_loop n (i + 1) f b map_
  end.
End Partition.

(** ** The state around a driver

    The globals of the driver, the host's media, and the processor with its
    memory.  A trap that the driver executes may run any Mac OS code, so it has
    the whole state. *)
Section State.
Context {S B : Type}.
Abbreviation state := (S * B * powerpc_cpu)%type.

Definition globals (st : state) : S := fst (fst st).
Definition media (st : state) : B := snd (fst st).
Definition machine (st : state) : powerpc_cpu := snd st.
Definition set_globals (s : S) (st : state) : state := (s, media st, machine st).
Definition set_media (b : B) (st : state) : state := (globals st, b, machine st).
Definition set_machine (c : powerpc_cpu) (st : state) : state := (fst st, c).
Definition on_machine (f : powerpc_cpu -> outcome powerpc_cpu) (st : state) : outcome state :=
  c ← f (machine st); Ok (set_machine c st).
End State.
