(* ===== verification/Disk.v ===== *)
(** The disk driver (disk.cpp): drives, HFS partitions, and the driver's calls.

    The source's vector of drives does not grow after [DiskInit], so an iterator
    is an index; [end()] is [None], and using it would be a fault. *)
From Stdlib Require Import Ascii String.
From S2P Require Import Prelude Bitfields Registers HostFPU Operations Memory Handlers BlockCache Cpu Operands ExecInt ExecMem ExecSys Thunks MacUtil Prefs Rom Scsi SysFile Device.

#[local] Open Scope list_scope.

(** ** Drives *)

Record disk_drive_info := Drive {
  num : Z;
  fh : Z;
  start_byte : Z;
  num_blocks : Z;
  to_be_mounted : bool;
  read_only : bool;
  status : Z;
}.

Definition set_num (n : Z) (d : disk_drive_info) : disk_drive_info :=
  Drive n (fh d) (start_byte d) (num_blocks d) (to_be_mounted d) (read_only d) (status d).
Definition set_partition (start blocks : Z) (d : disk_drive_info) : disk_drive_info :=
  Drive (num d) (fh d) start blocks (to_be_mounted d) (read_only d) (status d).
Definition set_to_be_mounted (b : bool) (d : disk_drive_info) : disk_drive_info :=
  Drive (num d) (fh d) (start_byte d) (num_blocks d) b (read_only d) (status d).
Definition set_read_only (b : bool) (d : disk_drive_info) : disk_drive_info :=
  Drive (num d) (fh d) (start_byte d) (num_blocks d) (to_be_mounted d) b (status d).
Definition set_status (a : Z) (d : disk_drive_info) : disk_drive_info :=
  Drive (num d) (fh d) (start_byte d) (num_blocks d) (to_be_mounted d) (read_only d) a.

(** The globals of the file. *)
Record disk := Disk { drives : list disk_drive_info; acc_run_called : bool }.

Definition set_acc_run_called (b : bool) (s : disk) : disk := Disk (drives s) b.
Definition update_drive (i : nat) (f : disk_drive_info -> disk_drive_info) (s : disk) : disk :=
  Disk (alter f i (drives s)) (acc_run_called s).

Definition DiskRefNum := -63.

Fixpoint find_drive (n : Z) (l : list disk_drive_info) : option nat :=
  match l with
  | [] => None
  | d :: l => if num d =? n then Some O else S <$> find_drive n l
  end.
Definition get_drive_info (n : Z) (s : disk) : option nat := find_drive n (drives s).

(** ** Partitions *)

Section Partition.
Context {B : Type} {SYS : SysFiles B}.

Definition find_hfs_partition (b : B) (info : disk_drive_info) : disk_drive_info :=
  let '(start, blocks) := partition_loop 64 0 (fh info) b new_map in
  set_partition start blocks info.

(** The partition, or the whole medium. *)
Definition find_size (b : B) (info : disk_drive_info) : disk_drive_info :=
  let info := find_hfs_partition b info in
  if start_byte info =? 0
  then set_partition (start_byte info) (u32 (Z.quot (SysGetFileSize (fh info) b) 512)) info
  else info.
End Partition.

(** ** Start-up and shutdown *)

Section Init.
Context {B : Type} {SYS : SysFiles B}.
(** Opening and closing of media, the default drives of the host, and what a
    constructor leaves uninitialised. *)
Context (Sys_open : cstring -> bool -> B -> Z * B) (Sys_close : Z -> B -> B).
Context (SysAddDiskPrefs : prefs -> prefs) (uninit : disk_drive_info).

Definition new_drive (f : Z) (ro : bool) : disk_drive_info :=
  Drive 0 f (start_byte uninit) (num_blocks uninit) (to_be_mounted uninit) ro 0.

(** The names of the preference, from [index] on. *)
Fixpoint init_loop (fuel : nat) (index : Z) (ps : prefs) (s : disk) (b : B) : outcome (disk * B) :=
  match fuel with
  | O => Fuel
  | S fuel =>
      match PrefsFindString (cstr "disk") index ps with
      | None => Ok (s, b)
      | Some str =>
          let '(ro, str) := match str with "*"%char :: rest => (true, rest) | _ => (false, str) end in
          let '(f, b) := Sys_open str ro b in
          let s := if f =? 0 then s else Disk (drives s ++ [new_drive f (SysIsReadOnly f b)]) (acc_run_called s) in
          init_loop fuel (index + 1) ps s b
      end
  end.
Definition DiskInit (ps : prefs) (s : disk) (b : B) : outcome (prefs * disk * B) :=
  let ps := match PrefsFindString (cstr "disk") 0 ps with None => SysAddDiskPrefs ps | Some _ => ps end in
  '(s, b) ← init_loop (S (length ps)) 0 ps s b;
  Ok (ps, s, b).

Definition DiskExit (s : disk) (b : B) : disk * B :=
  (Disk [] (acc_run_called s), fold_left (fun b d => Sys_close (fh d) b) (drives s) b).
End Init.

(** ** The driver's calls *)

Section Driver.
Context {B : Type} {SYS : SysFiles B}.
Abbreviation state := (disk * B * powerpc_cpu)%type.
Context (Execute68kTrap : Z -> M68kRegisters -> state -> outcome (M68kRegisters * state)).
(** The contents of uninitialised 68k registers, the bound of the drive queue,
    and the address of the icon in the ROM. *)
Context (uninit_68k : M68kRegisters) (queue_fuel : nat) (DiskIconAddr : Z).

Definition drive_at (i : nat) (st : state) : option disk_drive_info := drives (globals st) !! i.
Definition on_drive (i : nat) (f : disk_drive_info -> disk_drive_info) (st : state) : state :=
  set_globals (update_drive i f (globals st)) st.
Definition status_byte (info : disk_drive_info) (ofs : Z) (st : state) : outcome Z :=
  ReadMacInt8 (u32 (status info + ofs)) (machine st).
Definition put_status (info : disk_drive_info) (ofs v : Z) : state -> outcome state :=
  on_machine (WriteMacInt8 (u32 (status info + ofs)) v).

(** The size of a drive in its status record. *)
Definition put_size (info : disk_drive_info) (st : state) : outcome state :=
  st ← on_machine (WriteMacInt16 (u32 (status info + dsDriveSize)) (Z.land (num_blocks info) 0xffff)) st;
  on_machine (WriteMacInt16 (u32 (status info + dsDriveS1)) (Z.shiftr (num_blocks info) 16)) st.

(** A disk inserted in drive [i]. *)
Definition insert_disk (i : nat) (info : disk_drive_info) (st : state) : outcome state :=
  let '(inserted, b) := SysIsDiskInserted (fh info) (media st) in
  let st := set_media b st in
  if inserted then
    let info := set_read_only (SysIsReadOnly (fh info) b) info in
    st ← put_status info dsDiskInPlace 1 st;
    st ← put_status info dsWriteProt (if read_only info then 0xff else 0) st;
    let info := find_size b info in
    st ← put_size info st;
    Ok (on_drive i (fun _ => set_to_be_mounted true info) st)
  else Ok st.

Fixpoint find_fh (f : Z) (l : list disk_drive_info) : option nat :=
  match l with
  | [] => None
  | d :: l => if fh d =? f then Some O else S <$> find_fh f l
  end.
Definition DiskMountVolume (f : Z) (st : state) : outcome (bool * state) :=
  match find_fh f (drives (globals st)) with
  | None => Ok (false, st)
  | Some i =>
      match drive_at i st with
      | None => Segv 0
      | Some info => st ← insert_disk i info st; Ok (true, st)
      end
  end.

(** One turn of the loop over the drives, for drive [i]. *)
Definition mount_drive (i : nat) (info : disk_drive_info) (st : state) : outcome state :=
  in_place ← status_byte info dsDiskInPlace st;
  st ← (if in_place =? 0 then
          let '(inserted, b) := SysIsDiskInserted (fh info) (media st) in
          let st := set_media b st in
          if inserted then '(_, st) ← DiskMountVolume (fh info) st; Ok st else Ok st
        else Ok st);
  match drive_at i st with
  | None => Segv 0
  | Some info =>
      if to_be_mounted info then
        '(_, st) ← Execute68kTrap 0xa02f (set_a0 7 (set_d0 (num info) uninit_68k)) st;
        Ok (on_drive i (set_to_be_mounted false) st)
      else Ok st
  end.
(** [turn] at the drives [i], [i + 1], ... [n] of them. *)
Fixpoint for_drives (n i : nat) (turn : nat -> disk_drive_info -> state -> outcome state) (st : state) : outcome state :=
  match n with
  | O => Ok st
  | S n =>
      match drive_at i st with
      | None => Segv 0
      | Some info => st ← turn i info st; for_drives n (S i) turn st
      end
  end.
Definition mount_mountable_volumes (st : state) : outcome state :=
  for_drives (length (drives (globals st))) 0 mount_drive st.

(** The status record at [a0] of drive [i], and the drive's entry in the drive queue. *)
Definition set_up_drive (i : nat) (a0 : Z) (r : M68kRegisters) (info : disk_drive_info) (st : state) : outcome state :=
  let info := set_status a0 info in
  st ← on_machine (WriteMacInt16 (u32 (status info + dsQType)) hard20) st;
  st ← put_status info dsInstalled 1 st;
  let '(in_place, st) :=
    if SysIsFixedDisk (fh info) (media st) then (Some 8, st)
    else
      let '(inserted, b) := SysIsDiskInserted (fh info) (media st) in
      ((if inserted then Some 1 else None), set_media b st) in
  '(info, st) ←
    match in_place with
    | Some v =>
        st ← put_status info dsDiskInPlace v st;
        st ← put_status info dsWriteProt (if read_only info then 0x80 else 0) st;
        Ok (set_to_be_mounted true (find_size (media st) info), st)
    | None => Ok (info, st)
    end;
  st ← put_size info st;
  let st := on_drive i (fun _ => info) st in
  let r := set_d0 (Z.lor (Z.shiftl (num info) 16) (Z.land DiskRefNum 0xffff)) r in
  let r := set_a0 (status info + dsQLink) r in
  '(_, st) ← Execute68kTrap 0xa04e r st;
  Ok st.

Definition open_drive (i : nat) (info : disk_drive_info) (st : state) : outcome state :=
  n ← FindFreeDriveNumber queue_fuel queue_fuel 1 (machine st);
  let st := on_drive i (fun info => set_to_be_mounted false (set_num n info)) st in
  if fh info =? 0 then Ok st
  else
    '(r, st) ← Execute68kTrap 0xa71e (set_d0 SIZEOF_DrvSts uninit_68k) st;
    let a0 := Zlookup (r68_a r) 0 in
    if a0 =? 0 then Ok st
    else
      match drive_at i st with
      | None => Segv 0
      | Some info => set_up_drive i a0 r info st
      end.
Definition DiskOpen (pb dce : Z) (st : state) : outcome (Z * state) :=
  st ← on_machine (WriteMacInt32 (u32 (dce + dCtlPosition)) 0) st;
  let st := set_globals (set_acc_run_called false (globals st)) st in
  st ← for_drives (length (drives (globals st))) 0 open_drive st;
  Ok (noErr, st).

(** *** Prime *)

(** The position: from the device control entry, or 64 bits from the parameter block. *)
Definition io_position (pb dce : Z) (c : powerpc_cpu) : outcome Z :=
  position ← ReadMacInt32 (u32 (dce + dCtlPosition)) c;
  mode ← ReadMacInt16 (u32 (pb + ioPosMode)) c;
  if Zb (Z.land mode 0x100) then
    hi ← ReadMacInt32 (u32 (pb + ioWPosOffset)) c;
    lo ← ReadMacInt32 (u32 (pb + ioWPosOffset + 4)) c;
    Ok (s64 (Z.lor (Z.shiftl hi 32) lo))
  else Ok position.

(** The transfer: what it gives, the error if it is not complete, and the state. *)
Definition prime_transfer (rd : bool) (info : disk_drive_info) (buffer position length : Z) (st : state) : Z * Z * state :=
  let offset := s64 (position + start_byte info) in
  if rd then
    let '(actual, m) := Sys_read (fh info) buffer offset length (media st) (mem (machine st)) in
    (actual, readErr, set_machine (set_mem m (machine st)) st)
  else
    let '(actual, b) := Sys_write (fh info) buffer offset length (mem (machine st)) (media st) in
    (actual, writErr, set_media b st).

Definition DiskPrime (pb dce : Z) (st : state) : outcome (Z * state) :=
  st ← on_machine (WriteMacInt32 (u32 (pb + ioActCount)) 0) st;
  n ← ReadMacInt16 (u32 (pb + ioVRefNum)) (machine st);
  match get_drive_info n (globals st) ≫= (fun i => drive_at i st) with
  | None => Ok (nsDrvErr, st)
  | Some info =>
      in_place ← status_byte info dsDiskInPlace st;
      if in_place =? 0 then Ok (offLinErr, st)
      else
        buffer ← ReadMacInt32 (u32 (pb + ioBuffer)) (machine st);
        length ← ReadMacInt32 (u32 (pb + ioReqCount)) (machine st);
        position ← io_position pb dce (machine st);
        if Zb (Z.land length 0x1ff) || Zb (Z.land position 0x1ff) then Ok (paramErr, st)
        else
          trap ← ReadMacInt16 (u32 (pb + ioTrap)) (machine st);
          let rd := Z.land trap 0xff =? aRdCmd in
          if negb rd && read_only info then Ok (wPrErr, st)
          else
            let '(actual, error, st) := prime_transfer rd info buffer position length st in
            if negb (actual =? length) then Ok (error, st)
            else
              st ← on_machine (WriteMacInt32 (u32 (pb + ioActCount)) actual) st;
              p ← ReadMacInt32 (u32 (dce + dCtlPosition)) (machine st);
              st ← on_machine (WriteMacInt32 (u32 (dce + dCtlPosition)) (u32 (p + actual))) st;
              Ok (noErr, st)
  end.

(** *** Control *)

Definition eject_drive (info : disk_drive_info) (st : state) : outcome state :=
  in_place ← status_byte info dsDiskInPlace st;
  if in_place =? 8 then
    '(_, st) ← Execute68kTrap 0xa02f (set_a0 7 (set_d0 (num info) uninit_68k)) st;
    Ok st
  else if 0 <? in_place then
    let st := set_media (SysEject (fh info) (media st)) st in
    put_status info dsDiskInPlace 0 st
  else Ok st.

Definition DiskControl (pb dce : Z) (st : state) : outcome (Z * state) :=
  code ← ReadMacInt16 (u32 (pb + csCode)) (machine st);
  if code =? 1 then Ok (noErr, st)
  else if code =? 65 then
    st ← mount_mountable_volumes st;
    flags ← ReadMacInt16 (u32 (dce + dCtlFlags)) (machine st);
    st ← on_machine (WriteMacInt16 (u32 (dce + dCtlFlags)) (Z.land flags (Z.lnot 0x2000))) st;
    Ok (noErr, set_globals (set_acc_run_called true (globals st)) st)
  else
    n ← ReadMacInt16 (u32 (pb + ioVRefNum)) (machine st);
    match get_drive_info n (globals st) ≫= (fun i => drive_at i st) with
    | None => Ok (nsDrvErr, st)
    | Some info =>
        let param v := on_machine (WriteMacInt32 (u32 (pb + csParam)) v) st in
        let in_place := status_byte info dsDiskInPlace st in
        if code =? 5 then v ← in_place; Ok (if 0 <? v then noErr else offLinErr, st)
        else if code =? 6 then
          if read_only info then Ok (wPrErr, st) else v ← in_place; Ok (if 0 <? v then noErr else offLinErr, st)
        else if code =? 7 then st ← eject_drive info st; Ok (noErr, st)
        else if (code =? 21) || (code =? 22) then st ← param DiskIconAddr; Ok (noErr, st)
        else if code =? 23 then v ← in_place; st ← param (if v =? 8 then 0x0601 else 0x0201); Ok (noErr, st)
        else if code =? 24 then
          v ← in_place;
          if 0 <? v then st ← param (num_blocks info); Ok (noErr, st) else Ok (offLinErr, st)
        else Ok (controlErr, st)
    end.

(** *** Status *)

(** The driver gestalt. *)
Definition driver_gestalt (sel : Z) (info : option disk_drive_info) (in_place : Z) : option gestalt :=
  let sel_is a b c d := sel =? FOURCC a b c d in
  if sel_is "v"%char "e"%char "r"%char "s"%char then Some (Long 0x01008000)
  else if sel_is "d"%char "e"%char "v"%char "t"%char then
    Some (Long match info with
               | Some _ => if in_place =? 8 then FOURCC "d"%char "i"%char "s"%char "k"%char else FOURCC "r"%char "d"%char "s"%char "k"%char
               | None => FOURCC "d"%char "i"%char "s"%char "k"%char
               end)
  else if sel_is "i"%char "n"%char "t"%char "f"%char then Some (Long EMULATOR_ID_4)
  else if sel_is "s"%char "y"%char "n"%char "c"%char then Some (Long 0x01000000)
  else if sel_is "b"%char "o"%char "o"%char "t"%char then Some (Words (match info with Some d => num d | None => 0 end) (u16 DiskRefNum))
  else if sel_is "w"%char "i"%char "d"%char "e"%char then Some (Word 0x0100)
  else if sel_is "p"%char "u"%char "r"%char "g"%char then Some (Long 0)
  else if sel_is "e"%char "j"%char "e"%char "c"%char then Some (Long 0x00030003)
  else if sel_is "f"%char "l"%char "u"%char "s"%char then Some (Word 0)
  else if sel_is "v"%char "m"%char "o"%char "p"%char then Some (Long 0)
  else None.

Definition DiskStatus (pb dce : Z) (st : state) : outcome (Z * state) :=
  n ← ReadMacInt16 (u32 (pb + ioVRefNum)) (machine st);
  let info := get_drive_info n (globals st) ≫= (fun i => drive_at i st) in
  code ← ReadMacInt16 (u32 (pb + csCode)) (machine st);
  if code =? 43 then
    sel ← ReadMacInt32 (u32 (pb + csParam)) (machine st);
    in_place ← match info with
               | Some d => if sel =? FOURCC "d"%char "e"%char "v"%char "t"%char then status_byte d dsDiskInPlace st else Ok 0
               | None => Ok 0
               end;
    match driver_gestalt sel info in_place with
    | None => Ok (statusErr, st)
    | Some g => st ← on_machine (put_gestalt (pb + csParam) g) st; Ok (noErr, st)
    end
  else
    match info with
    | None => Ok (nsDrvErr, st)
    | Some info =>
        if code =? 8 then
          bytes ← read_bytes 22 (status info) (machine st);
          st ← on_machine (Host2Mac_memcpy (u32 (pb + csParam)) bytes) st;
          Ok (noErr, st)
        else Ok (statusErr, st)
    end.

(** The routine of the 1 Hz interrupt. *)
Definition DiskInterrupt (st : state) : outcome state :=
  if acc_run_called (globals st) then mount_mountable_volumes st else Ok st.
End Driver.
