(* ===== verification/Sony.v ===== *)
(** The floppy driver (sony.cpp), in the configuration without
    [DISK_INSERT_CHECK]: drives do not poll for disks.

    The source's vector of drives does not grow after [SonyInit], so an iterator
    is an index; [end()] is [None], and using it would be a fault. *)
From Stdlib Require Import Ascii String.
From S2P Require Import Prelude Bitfields Registers HostFPU Operations Memory Handlers BlockCache Cpu Operands ExecInt ExecMem ExecSys Thunks MacUtil Prefs Rom Scsi SysFile Device.

#[local] Open Scope list_scope.

(** ** Drives *)

Record sony_drive_info := Drive {
  num : Z;
  fh : Z;
  to_be_mounted : bool;
  read_only : bool;
  tag_buffer : Z;
  status : Z;
}.

Definition set_opened (n : Z) (d : sony_drive_info) : sony_drive_info :=
  Drive n (fh d) false (read_only d) 0 (status d).
Definition set_to_be_mounted (b : bool) (d : sony_drive_info) : sony_drive_info :=
  Drive (num d) (fh d) b (read_only d) (tag_buffer d) (status d).
Definition set_read_only (b : bool) (d : sony_drive_info) : sony_drive_info :=
  Drive (num d) (fh d) (to_be_mounted d) b (tag_buffer d) (status d).
Definition set_tag_buffer (a : Z) (d : sony_drive_info) : sony_drive_info :=
  Drive (num d) (fh d) (to_be_mounted d) (read_only d) a (status d).
Definition set_status (a : Z) (d : sony_drive_info) : sony_drive_info :=
  Drive (num d) (fh d) (to_be_mounted d) (read_only d) (tag_buffer d) a.

(** The globals of the file. *)
Record floppies := Floppies { drives : list sony_drive_info; acc_run_called : bool }.

Definition set_acc_run_called (b : bool) (s : floppies) : floppies := Floppies (drives s) b.
Definition update_drive (i : nat) (f : sony_drive_info -> sony_drive_info) (s : floppies) : floppies :=
  Floppies (alter f i (drives s)) (acc_run_called s).

Definition SonyRefNum := -5.

Fixpoint find_drive (n : Z) (l : list sony_drive_info) : option nat :=
  match l with
  | [] => None
  | d :: l => if num d =? n then Some O else S <$> find_drive n l
  end.
Definition get_drive_info (n : Z) (s : floppies) : option nat := find_drive n (drives s).

(** ** Start-up and shutdown *)

Section Init.
Context {B : Type} {SYS : SysFiles B}.
(** Opening and closing of media, the default drives of the host, and what a
    constructor leaves uninitialised. *)
Context (Sys_open : cstring -> bool -> B -> Z * B) (Sys_close : Z -> B -> B).
Context (SysAddFloppyPrefs : prefs -> prefs) (uninit : sony_drive_info).

Definition new_drive (f : Z) (ro : bool) : sony_drive_info :=
  Drive 0 f (to_be_mounted uninit) ro (tag_buffer uninit) 0.

(** The names of the preference, from [index] on. *)
Fixpoint init_loop (fuel : nat) (index : Z) (ps : prefs) (s : floppies) (b : B) : outcome (floppies * B) :=
  match fuel with
  | O => Fuel
  | S fuel =>
      match PrefsFindString (cstr "floppy") index ps with
      | None => Ok (s, b)
      | Some str =>
          let '(ro, str) := match str with "*"%char :: rest => (true, rest) | _ => (false, str) end in
          let '(f, b) := Sys_open str ro b in
          let s := if f =? 0 then s else Floppies (drives s ++ [new_drive f (SysIsReadOnly f b)]) (acc_run_called s) in
          init_loop fuel (index + 1) ps s b
      end
  end.
Definition SonyInit (ps : prefs) (s : floppies) (b : B) : outcome (prefs * floppies * B) :=
  let ps := match PrefsFindString (cstr "floppy") 0 ps with None => SysAddFloppyPrefs ps | Some _ => ps end in
  '(s, b) ← init_loop (S (length ps)) 0 ps s b;
  Ok (ps, s, b).

Definition SonyExit (s : floppies) (b : B) : floppies * B :=
  (Floppies [] (acc_run_called s), fold_left (fun b d => Sys_close (fh d) b) (drives s) b).
End Init.

(** ** The driver's calls *)

Section Driver.
Context {B : Type} {SYS : SysFiles B}.
Abbreviation state := (floppies * B * powerpc_cpu)%type.
Context (Execute68kTrap : Z -> M68kRegisters -> state -> outcome (M68kRegisters * state)).
Context (PatchAfterStartup : state -> outcome state).
(** The contents of uninitialised 68k registers, the bound of the drive queue,
    and the addresses of the icons in the ROM. *)
Context (uninit_68k : M68kRegisters) (queue_fuel : nat) (SonyDiskIconAddr SonyDriveIconAddr : Z).

Definition drive_at (i : nat) (st : state) : option sony_drive_info := drives (globals st) !! i.
Definition on_drive (i : nat) (f : sony_drive_info -> sony_drive_info) (st : state) : state :=
  set_globals (update_drive i f (globals st)) st.
Definition status_byte (info : sony_drive_info) (ofs : Z) (st : state) : outcome Z :=
  ReadMacInt8 (u32 (status info + ofs)) (machine st).
Definition put_status (info : sony_drive_info) (ofs v : Z) : state -> outcome state :=
  on_machine (WriteMacInt8 (u32 (status info + ofs)) v).

Fixpoint find_fh (f : Z) (l : list sony_drive_info) : option nat :=
  match l with
  | [] => None
  | d :: l => if fh d =? f then Some O else S <$> find_fh f l
  end.
Definition SonyMountVolume (f : Z) (st : state) : outcome (bool * state) :=
  match find_fh f (drives (globals st)) with
  | None => Ok (false, st)
  | Some i =>
      match drive_at i st with
      | None => Segv 0
      | Some info =>
          let '(inserted, b) := SysIsDiskInserted (fh info) (media st) in
          let st := set_media b st in
          if inserted then
            let info := set_read_only (SysIsReadOnly (fh info) b) info in
            st ← put_status info dsDiskInPlace 1 st;
            st ← put_status info dsWriteProt (if read_only info then 0xff else 0) st;
            Ok (true, on_drive i (fun _ => set_to_be_mounted true info) st)
          else Ok (true, st)
      end
  end.

Definition mount_drive (i : nat) (info : sony_drive_info) (st : state) : outcome state :=
  if to_be_mounted info then
    '(_, st) ← Execute68kTrap 0xa02f (set_a0 7 (set_d0 (num info) uninit_68k)) st;
    Ok (on_drive i (set_to_be_mounted false) st)
  else Ok st.
(** [turn] at the drives [i], [i + 1], ... [n] of them. *)
Fixpoint for_drives (n i : nat) (turn : nat -> sony_drive_info -> state -> outcome state) (st : state) : outcome state :=
  match n with
  | O => Ok st
  | S n =>
      match drive_at i st with
      | None => Segv 0
      | Some info => st ← turn i info st; for_drives n (S i) turn st
      end
  end.
Definition mount_mountable_volumes (st : state) : outcome state :=
  for_drives (length (drives (globals st))) 0 mount_drive st.

(** The error code, also left in the low-memory global DskErr. *)
Definition set_dsk_err (err : Z) (st : state) : outcome (Z * state) :=
  st ← on_machine (WriteMacInt16 0x142 err) st; Ok (err, st).

(** *** Open *)

(** The status record at [a0] of drive [i], and the drive's entry in the drive queue. *)
Definition set_up_drive (i : nat) (a0 : Z) (r : M68kRegisters) (info : sony_drive_info) (st : state) : outcome state :=
  let info := set_status a0 info in
  st ← on_machine (WriteMacInt16 (u32 (status info + dsQType)) sony) st;
  st ← put_status info dsInstalled 1 st;
  st ← put_status info dsSides 0xff st;
  st ← put_status info dsTwoSideFmt 0xff st;
  st ← put_status info dsNewIntf 0xff st;
  st ← put_status info dsMFMDrive 0xff st;
  st ← put_status info dsMFMDisk 0xff st;
  st ← put_status info dsTwoMegFmt 0xff st;
  let '(inserted, b) := SysIsDiskInserted (fh info) (media st) in
  let st := set_media b st in
  '(info, st) ←
    (if inserted : bool then
      st ← put_status info dsDiskInPlace 1 st;
      st ← put_status info dsWriteProt (if read_only info then 0xff else 0) st;
      Ok (set_to_be_mounted true info, st)
    else Ok (info, st));
  let st := on_drive i (fun _ => info) st in
  let r := set_d0 (Z.lor (Z.shiftl (num info) 16) (Z.land SonyRefNum 0xffff)) r in
  let r := set_a0 (status info + dsQLink) r in
  '(_, st) ← Execute68kTrap 0xa04e r st;
  Ok st.

Definition open_drive (i : nat) (info : sony_drive_info) (st : state) : outcome state :=
  n ← FindFreeDriveNumber queue_fuel queue_fuel 1 (machine st);
  let st := on_drive i (set_opened n) st in
  if fh info =? 0 then Ok st
  else
    '(r, st) ← Execute68kTrap 0xa71e (set_d0 SIZEOF_DrvSts uninit_68k) st;
    let a0 := Zlookup (r68_a r) 0 in
    if a0 =? 0 then Ok st
    else
      match drive_at i st with
      | None => Segv 0
      | Some info => set_up_drive i a0 r info st
      end.

Definition qFlags := 0.

Definition SonyOpen (pb dce : Z) (st : state) : outcome (Z * state) :=
  st ← on_machine (WriteMacInt32 (u32 (dce + dCtlPosition)) 0) st;
  flags ← ReadMacInt16 (u32 (dce + dCtlQHdr + qFlags)) (machine st);
  st ← on_machine (WriteMacInt16 (u32 (dce + dCtlQHdr + qFlags)) (Z.lor (Z.land flags 0xff00) 3)) st;
  let st := set_globals (set_acc_run_called false (globals st)) st in
  utab ← ReadMacInt32 0x11c (machine st);
  v ← ReadMacInt32 (u32 (utab + 16)) (machine st);
  st ← on_machine (WriteMacInt32 (u32 (utab + 4)) v) st;
  st ← on_machine (WriteMacInt32 0x134 0xdeadbeef) st;
  '(_, st) ← set_dsk_err 0 st;
  st ← for_drives (length (drives (globals st))) 0 open_drive st;
  Ok (noErr, st).

(** *** Prime *)

(** The transfer: what it gives, the error if it is not complete, and the state. *)
Definition prime_transfer (rd : bool) (info : sony_drive_info) (buffer position length : Z) (st : state) : Z * Z * state :=
  if rd then
    let '(actual, m) := Sys_read (fh info) buffer position length (media st) (mem (machine st)) in
    (actual, readErr, set_machine (set_mem m (machine st)) st)
  else
    let '(actual, b) := Sys_write (fh info) buffer position length (mem (machine st)) (media st) in
    (actual, writErr, set_media b st).

(** The tag bytes of the last sector read, in low memory. *)
Definition clear_tags (st : state) : outcome state :=
  st ← on_machine (WriteMacInt32 0x2fc 0) st;
  st ← on_machine (WriteMacInt32 0x300 0) st;
  on_machine (WriteMacInt32 0x304 0) st.

Definition SonyPrime (pb dce : Z) (st : state) : outcome (Z * state) :=
  st ← on_machine (WriteMacInt32 (u32 (pb + ioActCount)) 0) st;
  n ← ReadMacInt16 (u32 (pb + ioVRefNum)) (machine st);
  match get_drive_info n (globals st) ≫= (fun i => drive_at i st) with
  | None => set_dsk_err nsDrvErr st
  | Some info =>
      in_place ← status_byte info dsDiskInPlace st;
      if in_place =? 0 then set_dsk_err offLinErr st
      else
        st ← put_status info dsDiskInPlace 2 st;
        buffer ← ReadMacInt32 (u32 (pb + ioBuffer)) (machine st);
        length ← ReadMacInt32 (u32 (pb + ioReqCount)) (machine st);
        position ← ReadMacInt32 (u32 (dce + dCtlPosition)) (machine st);
        if Zb (Z.land length 0x1ff) || Zb (Z.land position 0x1ff) then set_dsk_err paramErr st
        else
          trap ← ReadMacInt16 (u32 (pb + ioTrap)) (machine st);
          let rd := Z.land trap 0xff =? aRdCmd in
          if negb rd && read_only info then set_dsk_err wPrErr st
          else
            let '(actual, error, st) := prime_transfer rd info buffer position length st in
            if negb (actual =? length) then set_dsk_err error st
            else
              st ← (if rd then clear_tags st else Ok st);
              st ← on_machine (WriteMacInt32 (u32 (pb + ioActCount)) actual) st;
              p ← ReadMacInt32 (u32 (dce + dCtlPosition)) (machine st);
              st ← on_machine (WriteMacInt32 (u32 (dce + dCtlPosition)) (u32 (p + actual))) st;
              set_dsk_err noErr st
  end.

(** *** Control *)

(** The codes for the drive [i]. *)
Definition drive_control (code pb : Z) (i : nat) (info : sony_drive_info) (st : state) : outcome (Z * state) :=
  let param v := st ← on_machine (WriteMacInt32 (u32 (pb + csParam)) v) st; Ok (noErr, st) in
  let in_place := status_byte info dsDiskInPlace st in
  if code =? 5 then v ← in_place; Ok (if 0 <? v then noErr else verErr, st)
  else if code =? 6 then
    if read_only info then Ok (wPrErr, st)
    else
      v ← in_place;
      Ok (if 0 <? v then if SysFormat (fh info) (media st) then noErr else writErr else offLinErr, st)
  else if code =? 7 then
    v ← in_place;
    if 0 <? v then
      st ← put_status info dsDiskInPlace 0 (set_media (SysEject (fh info) (media st)) st);
      Ok (noErr, st)
    else Ok (noErr, st)
  else if code =? 8 then
    a ← ReadMacInt32 (u32 (pb + csParam)) (machine st);
    Ok (noErr, on_drive i (set_tag_buffer a) st)
  else if code =? 21 then param SonyDriveIconAddr
  else if code =? 22 then param SonyDiskIconAddr
  else if code =? 23 then param (if num info =? 1 then 0x0004 else 0x0104)
  else if code =? 0x5343 then
    v ← in_place;
    if v =? 0 then Ok (offLinErr, st)
    else if read_only info then Ok (wPrErr, st)
    else
      data ← ReadMacInt32 (u32 (pb + csParam + 2)) (machine st);
      let '(actual, b) := Sys_write (fh info) data 0 (2880 * 512) (mem (machine st)) (media st) in
      Ok (if actual =? 2880 * 512 then noErr else writErr, set_media b st)
  else Ok (controlErr, st).

Definition SonyControl (pb dce : Z) (st : state) : outcome (Z * state) :=
  code ← ReadMacInt16 (u32 (pb + csCode)) (machine st);
  if code =? 1 then set_dsk_err (-1) st
  else if code =? 9 then set_dsk_err noErr st
  else if code =? 65 then
    st ← mount_mountable_volumes st;
    st ← PatchAfterStartup st;
    flags ← ReadMacInt16 (u32 (dce + dCtlFlags)) (machine st);
    st ← on_machine (WriteMacInt16 (u32 (dce + dCtlFlags)) (Z.land flags (Z.lnot 0x2000))) st;
    Ok (noErr, set_globals (set_acc_run_called true (globals st)) st)
  else
    n ← ReadMacInt16 (u32 (pb + ioVRefNum)) (machine st);
    match get_drive_info n (globals st) with
    | None => set_dsk_err nsDrvErr st
    | Some i =>
        match drive_at i st with
        | None => Segv 0
        | Some info => '(err, st) ← drive_control code pb i info st; set_dsk_err err st
        end
    end.

(** *** Status *)

Definition drive_status (code pb : Z) (info : sony_drive_info) (st : state) : outcome (Z * state) :=
  let done st := Ok (noErr, st) in
  if code =? 6 then
    n ← ReadMacInt16 (u32 (pb + csParam)) (machine st);
    if 0 <? n then
      adr ← ReadMacInt32 (u32 (pb + csParam + 2)) (machine st);
      st ← on_machine (WriteMacInt16 (u32 (pb + csParam)) 1) st;
      st ← on_machine (WriteMacInt32 adr 2880) st;
      st ← on_machine (WriteMacInt32 (u32 (adr + 4)) 0xd2120050) st;
      done st
    else Ok (paramErr, st)
  else if code =? 8 then
    bytes ← read_bytes 22 (status info) (machine st);
    st ← on_machine (Host2Mac_memcpy (u32 (pb + csParam)) bytes) st;
    done st
  else if code =? 10 then
    v ← ReadMacInt32 (u32 (status info + dsMFMDrive)) (machine st);
    st ← on_machine (WriteMacInt32 (u32 (pb + csParam)) (Z.lor (Z.land v 0xffffff00) 0xfe)) st;
    done st
  else if code =? 0x4456 then st ← on_machine (WriteMacInt16 (u32 (pb + csParam)) 0x0410) st; done st
  else if code =? 0x5343 then st ← on_machine (WriteMacInt8 (u32 (pb + csParam)) 0x22) st; done st
  else Ok (statusErr, st).

Definition SonyStatus (pb dce : Z) (st : state) : outcome (Z * state) :=
  code ← ReadMacInt16 (u32 (pb + csCode)) (machine st);
  n ← ReadMacInt16 (u32 (pb + ioVRefNum)) (machine st);
  match get_drive_info n (globals st) ≫= (fun i => drive_at i st) with
  | None => set_dsk_err nsDrvErr st
  | Some info => '(err, st) ← drive_status code pb info st; set_dsk_err err st
  end.

(** The routine of the 1 Hz interrupt. *)
Definition SonyInterrupt (st : state) : outcome state :=
  if acc_run_called (globals st) then mount_mountable_volumes st else Ok st.
End Driver.
