(* ===== verification/Cdrom.v ===== *)
(** The CD-ROM driver (cdrom.cpp): data and audio discs.

    The source's vector of drives does not grow after [CDROMInit], so an iterator
    is an index; [end()] is [None], and using it would be a fault. *)
From Stdlib Require Import Ascii String.
From S2P Require Import Prelude Bitfields Registers HostFPU Operations Memory Handlers BlockCache Cpu Operands ExecInt ExecMem ExecSys Thunks MacUtil Prefs Rom Scsi SysFile Device.

#[local] Open Scope list_scope.

(** ** Packed decimal numbers

    Bytes that are no such number give 255. *)
Definition bin2bcd_table : list Z :=
  [0x00; 0x01; 0x02; 0x03; 0x04; 0x05; 0x06; 0x07; 0x08; 0x09; 0x10; 0x11; 0x12; 0x13; 0x14; 0x15;
   0x16; 0x17; 0x18; 0x19; 0x20; 0x21; 0x22; 0x23; 0x24; 0x25; 0x26; 0x27; 0x28; 0x29; 0x30; 0x31;
   0x32; 0x33; 0x34; 0x35; 0x36; 0x37; 0x38; 0x39; 0x40; 0x41; 0x42; 0x43; 0x44; 0x45; 0x46; 0x47;
   0x48; 0x49; 0x50; 0x51; 0x52; 0x53; 0x54; 0x55; 0x56; 0x57; 0x58; 0x59; 0x60; 0x61; 0x62; 0x63;
   0x64; 0x65; 0x66; 0x67; 0x68; 0x69; 0x70; 0x71; 0x72; 0x73; 0x74; 0x75; 0x76; 0x77; 0x78; 0x79;
   0x80; 0x81; 0x82; 0x83; 0x84; 0x85; 0x86; 0x87; 0x88; 0x89; 0x90; 0x91; 0x92; 0x93; 0x94; 0x95;
   0x96; 0x97; 0x98; 0x99; 0xff; 0xff; 0xff; 0xff; 0xff; 0xff; 0xff; 0xff; 0xff; 0xff; 0xff; 0xff;
   0xff; 0xff; 0xff; 0xff; 0xff; 0xff; 0xff; 0xff; 0xff; 0xff; 0xff; 0xff; 0xff; 0xff; 0xff; 0xff;
   0xff; 0xff; 0xff; 0xff; 0xff; 0xff; 0xff; 0xff; 0xff; 0xff; 0xff; 0xff; 0xff; 0xff; 0xff; 0xff;
   0xff; 0xff; 0xff; 0xff; 0xff; 0xff; 0xff; 0xff; 0xff; 0xff; 0xff; 0xff; 0xff; 0xff; 0xff; 0xff;
   0xff; 0xff; 0xff; 0xff; 0xff; 0xff; 0xff; 0xff; 0xff; 0xff; 0xff; 0xff; 0xff; 0xff; 0xff; 0xff;
   0xff; 0xff; 0xff; 0xff; 0xff; 0xff; 0xff; 0xff; 0xff; 0xff; 0xff; 0xff; 0xff; 0xff; 0xff; 0xff;
   0xff; 0xff; 0xff; 0xff; 0xff; 0xff; 0xff; 0xff; 0xff; 0xff; 0xff; 0xff; 0xff; 0xff; 0xff; 0xff;
   0xff; 0xff; 0xff; 0xff; 0xff; 0xff; 0xff; 0xff; 0xff; 0xff; 0xff; 0xff; 0xff; 0xff; 0xff; 0xff;
   0xff; 0xff; 0xff; 0xff; 0xff; 0xff; 0xff; 0xff; 0xff; 0xff; 0xff; 0xff; 0xff; 0xff; 0xff; 0xff;
   0xff; 0xff; 0xff; 0xff; 0xff; 0xff; 0xff; 0xff; 0xff; 0xff; 0xff; 0xff; 0xff; 0xff; 0xff; 0xff].
Definition bcd2bin_table : list Z :=
  [0; 1; 2; 3; 4; 5; 6; 7; 8; 9; 0xff; 0xff; 0xff; 0xff; 0xff; 0xff;
   10; 11; 12; 13; 14; 15; 16; 17; 18; 19; 0xff; 0xff; 0xff; 0xff; 0xff; 0xff;
   20; 21; 22; 23; 24; 25; 26; 27; 28; 29; 0xff; 0xff; 0xff; 0xff; 0xff; 0xff;
   30; 31; 32; 33; 34; 35; 36; 37; 38; 39; 0xff; 0xff; 0xff; 0xff; 0xff; 0xff;
   40; 41; 42; 43; 44; 45; 46; 47; 48; 49; 0xff; 0xff; 0xff; 0xff; 0xff; 0xff;
   50; 51; 52; 53; 54; 55; 56; 57; 58; 59; 0xff; 0xff; 0xff; 0xff; 0xff; 0xff;
   60; 61; 62; 63; 64; 65; 66; 67; 68; 69; 0xff; 0xff; 0xff; 0xff; 0xff; 0xff;
   70; 71; 72; 73; 74; 75; 76; 77; 78; 79; 0xff; 0xff; 0xff; 0xff; 0xff; 0xff;
   80; 81; 82; 83; 84; 85; 86; 87; 88; 89; 0xff; 0xff; 0xff; 0xff; 0xff; 0xff;
   90; 91; 92; 93; 94; 95; 96; 97; 98; 99; 0xff; 0xff; 0xff; 0xff; 0xff; 0xff;
   0xff; 0xff; 0xff; 0xff; 0xff; 0xff; 0xff; 0xff; 0xff; 0xff; 0xff; 0xff; 0xff; 0xff; 0xff; 0xff;
   0xff; 0xff; 0xff; 0xff; 0xff; 0xff; 0xff; 0xff; 0xff; 0xff; 0xff; 0xff; 0xff; 0xff; 0xff; 0xff;
   0xff; 0xff; 0xff; 0xff; 0xff; 0xff; 0xff; 0xff; 0xff; 0xff; 0xff; 0xff; 0xff; 0xff; 0xff; 0xff;
   0xff; 0xff; 0xff; 0xff; 0xff; 0xff; 0xff; 0xff; 0xff; 0xff; 0xff; 0xff; 0xff; 0xff; 0xff; 0xff;
   0xff; 0xff; 0xff; 0xff; 0xff; 0xff; 0xff; 0xff; 0xff; 0xff; 0xff; 0xff; 0xff; 0xff; 0xff; 0xff;
   0xff; 0xff; 0xff; 0xff; 0xff; 0xff; 0xff; 0xff; 0xff; 0xff; 0xff; 0xff; 0xff; 0xff; 0xff; 0xff].
Definition bin2bcd (b : Z) : Z := Zlookup bin2bcd_table b.
Definition bcd2bin (b : Z) : Z := Zlookup bcd2bin_table b.

(** ** Drives *)

(** A position on the disc: minutes, seconds, frames. *)
Abbreviation msf := (Z * Z * Z)%type.

Record cdrom_drive_info := Drive {
  num : Z;
  fh : Z;
  block_size : Z;
  twok_offset : Z;
  start_byte : Z;
  to_be_mounted : bool;
  mount_non_hfs : bool;
  toc : list Z;
  lead_out : msf;
  stop_at : msf;
  play_mode : Z;
  power_mode : Z;
  status : Z;
}.

Definition set_opened (n : Z) (d : cdrom_drive_info) : cdrom_drive_info :=
  Drive n (fh d) (block_size d) (twok_offset d) (start_byte d) false (mount_non_hfs d) (toc d) (lead_out d) (stop_at d) (play_mode d) (power_mode d) (status d).
Definition set_defaults (d : cdrom_drive_info) : cdrom_drive_info :=
  Drive (num d) (fh d) 512 (-1) (start_byte d) (to_be_mounted d) true (toc d) (lead_out d) (stop_at d) 0x09 0 (status d).
Definition set_block_size (x : Z) (d : cdrom_drive_info) : cdrom_drive_info :=
  Drive (num d) (fh d) x (twok_offset d) (start_byte d) (to_be_mounted d) (mount_non_hfs d) (toc d) (lead_out d) (stop_at d) (play_mode d) (power_mode d) (status d).
Definition set_twok_offset (x : Z) (d : cdrom_drive_info) : cdrom_drive_info :=
  Drive (num d) (fh d) (block_size d) x (start_byte d) (to_be_mounted d) (mount_non_hfs d) (toc d) (lead_out d) (stop_at d) (play_mode d) (power_mode d) (status d).
Definition set_start_byte (x : Z) (d : cdrom_drive_info) : cdrom_drive_info :=
  Drive (num d) (fh d) (block_size d) (twok_offset d) x (to_be_mounted d) (mount_non_hfs d) (toc d) (lead_out d) (stop_at d) (play_mode d) (power_mode d) (status d).
Definition set_to_be_mounted (x : bool) (d : cdrom_drive_info) : cdrom_drive_info :=
  Drive (num d) (fh d) (block_size d) (twok_offset d) (start_byte d) x (mount_non_hfs d) (toc d) (lead_out d) (stop_at d) (play_mode d) (power_mode d) (status d).
Definition set_mount_non_hfs (x : bool) (d : cdrom_drive_info) : cdrom_drive_info :=
  Drive (num d) (fh d) (block_size d) (twok_offset d) (start_byte d) (to_be_mounted d) x (toc d) (lead_out d) (stop_at d) (play_mode d) (power_mode d) (status d).
Definition set_stop_at (x : msf) (d : cdrom_drive_info) : cdrom_drive_info :=
  Drive (num d) (fh d) (block_size d) (twok_offset d) (start_byte d) (to_be_mounted d) (mount_non_hfs d) (toc d) (lead_out d) x (play_mode d) (power_mode d) (status d).
Definition set_play_mode (x : Z) (d : cdrom_drive_info) : cdrom_drive_info :=
  Drive (num d) (fh d) (block_size d) (twok_offset d) (start_byte d) (to_be_mounted d) (mount_non_hfs d) (toc d) (lead_out d) (stop_at d) x (power_mode d) (status d).
Definition set_power_mode (x : Z) (d : cdrom_drive_info) : cdrom_drive_info :=
  Drive (num d) (fh d) (block_size d) (twok_offset d) (start_byte d) (to_be_mounted d) (mount_non_hfs d) (toc d) (lead_out d) (stop_at d) (play_mode d) x (status d).
Definition set_status (x : Z) (d : cdrom_drive_info) : cdrom_drive_info :=
  Drive (num d) (fh d) (block_size d) (twok_offset d) (start_byte d) (to_be_mounted d) (mount_non_hfs d) (toc d) (lead_out d) (stop_at d) (play_mode d) (power_mode d) x.
Definition set_toc (x0 : list Z) (x1 : msf) (x2 : msf) (d : cdrom_drive_info) : cdrom_drive_info :=
  Drive (num d) (fh d) (block_size d) (twok_offset d) (start_byte d) (to_be_mounted d) (mount_non_hfs d) x0 x1 x2 (play_mode d) (power_mode d) (status d).

(** The globals of the file. *)
Record cdroms := Cdroms { drives : list cdrom_drive_info; acc_run_called : bool }.

Definition set_acc_run_called (b : bool) (s : cdroms) : cdroms := Cdroms (drives s) b.
Definition update_drive (i : nat) (f : cdrom_drive_info -> cdrom_drive_info) (s : cdroms) : cdroms :=
  Cdroms (alter f i (drives s)) (acc_run_called s).

Definition CDROMRefNum := -62.

Fixpoint find_drive (n : Z) (l : list cdrom_drive_info) : option nat :=
  match l with
  | [] => None
  | d :: l => if num d =? n then Some O else S <$> find_drive n l
  end.
Definition get_drive_info (n : Z) (s : cdroms) : option nat := find_drive n (drives s).

(** ** The table of contents

    A header of four bytes, then descriptors of eight: the control bits at 1, the
    track at 2 (0xaa for the lead-out), and where it starts at 5, 6, 7. *)
Definition toc_byte (t : list Z) (i : Z) : outcome Z :=
  if (0 <=? i) && (i <? Z.of_nat (length t)) then Ok (Zlookup t i) else Segv i.
Definition toc_msf (t : list Z) (i : Z) : msf := (Zlookup t (i + 5), Zlookup t (i + 6), Zlookup t (i + 7)).

(** [for (i = 4; i < 804; i += 8)]: the first descriptor that satisfies [p]. *)
Fixpoint find_descriptor (n : nat) (i : Z) (p : Z -> bool) (t : list Z) : option Z :=
  match n with
  | O => None
  | S n => if p (Zlookup t (i + 2)) then Some i else find_descriptor n (i + 8) p t
  end.
Definition find_track (p : Z -> bool) (t : list Z) : option Z := find_descriptor 100 4 p t.

(** The lead-out; the place to stop is left alone if there is none. *)
Definition toc_lead_out (t : list Z) (stop : msf) : msf * msf :=
  match find_track (fun x => x =? 0xaa) t with
  | Some i => (toc_msf t i, toc_msf t i)
  | None => ((0, 0, 0), stop)
  end.

Definition position2msf (info : cdrom_drive_info) (postype pos : Z) (stopping : bool) : option msf :=
  if postype =? 0 then Some (u8 (pos / (60 * 75)), (pos / 75) mod 60, pos mod 75)
  else if postype =? 1 then
    Some (bcd2bin (Z.land (Z.shiftr pos 16) 0xff), bcd2bin (Z.land (Z.shiftr pos 8) 0xff), bcd2bin (Z.land pos 0xff))
  else if postype =? 2 then
    let track := bcd2bin (Z.land pos 0xff) in
    let track := if stopping then u8 (track + 1) else track in
    toc_msf (toc info) <$> find_track (fun x => (x =? track) || (x =? 0xaa)) (toc info)
  else None.

(** ** Audio functions of the host (include/sys.h) *)
Class SysCD (B : Type) := {
  SysPreventRemoval : Z -> B -> B;
  SysAllowRemoval : Z -> B -> B;
  SysCDReadTOC : Z -> list Z -> B -> list Z * B;
  SysCDGetPosition : Z -> B -> option (list Z) * B;
  SysCDPlay : Z -> msf -> msf -> B -> bool * B;
  SysCDPause : Z -> B -> bool * B;
  SysCDResume : Z -> B -> bool * B;
  SysCDStop : Z -> msf -> B -> bool * B;
  SysCDScan : Z -> msf -> bool -> B -> bool * B;
  SysCDSetVolume : Z -> Z -> Z -> B -> B;
  SysCDGetVolume : Z -> B -> Z * Z;
}.

Section Media.
Context {B : Type} {SYS : SysFiles B} {CD : SysCD B}.

Definition find_hfs_partition (b : B) (info : cdrom_drive_info) : cdrom_drive_info :=
  set_start_byte (fst (partition_loop 64 0 (fh info) b new_map)) info.

Definition read_toc (info : cdrom_drive_info) (b : B) : cdrom_drive_info * B :=
  let '(t, b) := SysCDReadTOC (fh info) (replicate 804 0) b in
  let '(out, stop) := toc_lead_out t (stop_at info) in
  (set_toc t out stop info, b).
End Media.

(** ** Start-up and shutdown *)

Section Init.
Context {B : Type} {SYS : SysFiles B} {CD : SysCD B}.
(** Opening and closing of media, the default drives of the host, and what a
    constructor leaves uninitialised. *)
Context (Sys_open : cstring -> bool -> B -> Z * B) (Sys_close : Z -> B -> B).
Context (SysAddCDROMPrefs : prefs -> prefs) (uninit : cdrom_drive_info).

Definition new_drive (f : Z) : cdrom_drive_info :=
  Drive 0 f (block_size uninit) (twok_offset uninit) 0 (to_be_mounted uninit) (mount_non_hfs uninit)
    (toc uninit) (lead_out uninit) (stop_at uninit) (play_mode uninit) (power_mode uninit) 0.

(** The names of the preference, from [index] on. *)
Fixpoint init_loop (fuel : nat) (index : Z) (ps : prefs) (s : cdroms) (b : B) : outcome (cdroms * B) :=
  match fuel with
  | O => Fuel
  | S fuel =>
      match PrefsFindString (cstr "cdrom") index ps with
      | None => Ok (s, b)
      | Some str =>
          let '(f, b) := Sys_open str true b in
          let s := if f =? 0 then s else Cdroms (drives s ++ [new_drive f]) (acc_run_called s) in
          init_loop fuel (index + 1) ps s b
      end
  end.
Definition CDROMInit (ps : prefs) (s : cdroms) (b : B) : outcome (prefs * cdroms * B) :=
  let ps := match PrefsFindString (cstr "cdrom") 0 ps with None => SysAddCDROMPrefs ps | Some _ => ps end in
  '(s, b) ← init_loop (S (length ps)) 0 ps s b;
  Ok (ps, s, b).

Definition CDROMExit (s : cdroms) (b : B) : cdroms * B :=
  (Cdroms [] (acc_run_called s), fold_left (fun b d => Sys_close (fh d) (SysAllowRemoval (fh d) b)) (drives s) b).
End Init.

(** ** The driver's calls *)

Section Driver.
Context {B : Type} {SYS : SysFiles B} {CD : SysCD B}.
Abbreviation state := (cdroms * B * powerpc_cpu)%type.
Context (Execute68kTrap : Z -> M68kRegisters -> state -> outcome (M68kRegisters * state)).
(** The contents of uninitialised 68k registers, the bound of the drive queue,
    and the address of the icon in the ROM. *)
Context (uninit_68k : M68kRegisters) (queue_fuel : nat) (CDROMIconAddr : Z).

Definition drive_at (i : nat) (st : state) : option cdrom_drive_info := drives (globals st) !! i.
Definition on_drive (i : nat) (f : cdrom_drive_info -> cdrom_drive_info) (st : state) : state :=
  set_globals (update_drive i f (globals st)) st.
Definition status_byte (info : cdrom_drive_info) (ofs : Z) (st : state) : outcome Z :=
  ReadMacInt8 (u32 (status info + ofs)) (machine st).
Definition put_status (info : cdrom_drive_info) (ofs v : Z) : state -> outcome state :=
  on_machine (WriteMacInt8 (u32 (status info + ofs)) v).

(** A disc in drive [i]: it is locked, and its contents are read. *)
Definition insert_disc (i : nat) (info : cdrom_drive_info) (st : state) : outcome (cdrom_drive_info * state) :=
  let st := set_media (SysPreventRemoval (fh info) (media st)) st in
  st ← put_status info dsDiskInPlace 1 st;
  let '(info, b) := read_toc info (media st) in
  let info := find_hfs_partition b info in
  let st := on_drive i (fun _ => info) (set_media b st) in
  Ok (info, st).

Fixpoint find_fh (f : Z) (l : list cdrom_drive_info) : option nat :=
  match l with
  | [] => None
  | d :: l => if fh d =? f then Some O else S <$> find_fh f l
  end.
Definition CDROMMountVolume (f : Z) (st : state) : outcome (bool * state) :=
  match find_fh f (drives (globals st)) with
  | None => Ok (false, st)
  | Some i =>
      match drive_at i st with
      | None => Segv 0
      | Some info =>
          let '(inserted, b) := SysIsDiskInserted (fh info) (media st) in
          let st := set_media b st in
          if inserted then
            '(info, st) ← insert_disc i info st;
            let st := if negb (start_byte info =? 0) || mount_non_hfs info then on_drive i (set_to_be_mounted true) st else st in
            Ok (true, st)
          else Ok (true, st)
      end
  end.

(** One turn of the loop over the drives, for drive [i]. *)
Definition mount_drive (i : nat) (info : cdrom_drive_info) (st : state) : outcome state :=
  in_place ← status_byte info dsDiskInPlace st;
  st ← (if in_place =? 0 then
          let '(inserted, b) := SysIsDiskInserted (fh info) (media st) in
          let st := set_media b st in
          if inserted then '(_, st) ← CDROMMountVolume (fh info) st; Ok st else Ok st
        else Ok st);
  match drive_at i st with
  | None => Segv 0
  | Some info =>
      if to_be_mounted info then
        '(_, st) ← Execute68kTrap 0xa02f (set_a0 7 (set_d0 (num info) uninit_68k)) st;
        Ok (on_drive i (set_to_be_mounted false) st)
      else Ok st
  end.
(** [turn] at the drives [i], [i + 1], ... [n] of them. *)
Fixpoint for_drives (n i : nat) (turn : nat -> cdrom_drive_info -> state -> outcome state) (st : state) : outcome state :=
  match n with
  | O => Ok st
  | S n =>
      match drive_at i st with
      | None => Segv 0
      | Some info => st ← turn i info st; for_drives n (S i) turn st
      end
  end.
Definition mount_mountable_volumes (st : state) : outcome state :=
  for_drives (length (drives (globals st))) 0 mount_drive st.

(** *** Open *)

(** The status record at [a0] of drive [i], and the drive's entry in the drive queue. *)
Definition set_up_drive (i : nat) (a0 : Z) (r : M68kRegisters) (info : cdrom_drive_info) (st : state) : outcome state :=
  let info := set_status a0 info in
  let st := on_drive i (fun _ => info) st in
  st ← put_status info dsWriteProt 0x80 st;
  st ← put_status info dsInstalled 1 st;
  st ← put_status info dsSides 1 st;
  let '(inserted, b) := SysIsDiskInserted (fh info) (media st) in
  let st := set_media b st in
  st ← (if inserted : bool then '(_, st) ← insert_disc i info st; Ok (on_drive i (set_to_be_mounted true) st) else Ok st);
  let r := set_d0 (Z.lor (Z.shiftl (num info) 16) (Z.land CDROMRefNum 0xffff)) r in
  let r := set_a0 (status info + dsQLink) r in
  '(_, st) ← Execute68kTrap 0xa04e r st;
  Ok st.

Definition open_drive (i : nat) (info : cdrom_drive_info) (st : state) : outcome state :=
  n ← FindFreeDriveNumber queue_fuel queue_fuel 1 (machine st);
  let st := on_drive i (set_opened n) st in
  if fh info =? 0 then Ok st
  else
    let st := on_drive i set_defaults st in
    '(r, st) ← Execute68kTrap 0xa71e (set_d0 SIZEOF_DrvSts uninit_68k) st;
    let a0 := Zlookup (r68_a r) 0 in
    if a0 =? 0 then Ok st
    else
      match drive_at i st with
      | None => Segv 0
      | Some info => set_up_drive i a0 r info st
      end.

Definition CDROMOpen (pb dce : Z) (st : state) : outcome (Z * state) :=
  st ← on_machine (WriteMacInt32 (u32 (dce + dCtlPosition)) 0) st;
  let st := set_globals (set_acc_run_called false (globals st)) st in
  st ← for_drives (length (drives (globals st))) 0 open_drive st;
  Ok (noErr, st).

(** *** Prime *)

(** A read; sector 2 of a disc that cannot be read is blank, so that audio discs
    are mounted. *)
Definition prime_read (info : cdrom_drive_info) (buffer position length : Z) (st : state) : outcome (option Z * state) :=
  let '(actual, m) := Sys_read (fh info) buffer (s64 (position + start_byte info)) length (media st) (mem (machine st)) in
  let st := set_machine (set_mem m (machine st)) st in
  if actual =? length then Ok (Some actual, st)
  else if (length =? 0x200) && (position =? 0x400) then
    st ← on_machine (cpu_write (memset buffer 0 (Z.to_nat 0x200))) st;
    Ok (Some 0x200, st)
  else Ok (None, st).

Definition CDROMPrime (pb dce : Z) (st : state) : outcome (Z * state) :=
  st ← on_machine (WriteMacInt32 (u32 (pb + ioActCount)) 0) st;
  n ← ReadMacInt16 (u32 (pb + ioVRefNum)) (machine st);
  match get_drive_info n (globals st) with
  | None => Ok (nsDrvErr, st)
  | Some i =>
      match drive_at i st with
      | None => Segv 0
      | Some info =>
          in_place ← status_byte info dsDiskInPlace st;
          if in_place =? 0 then Ok (offLinErr, st)
          else
            buffer ← ReadMacInt32 (u32 (pb + ioBuffer)) (machine st);
            length ← ReadMacInt32 (u32 (pb + ioReqCount)) (machine st);
            position ← ReadMacInt32 (u32 (dce + dCtlPosition)) (machine st);
            if Zb (Z.land length (block_size info - 1)) || Zb (Z.land position (block_size info - 1)) then Ok (paramErr, st)
            else
              let st := on_drive i (set_twok_offset (Z.land (position + start_byte info) 0x7ff)) st in
              trap ← ReadMacInt16 (u32 (pb + ioTrap)) (machine st);
              if Z.land trap 0xff =? aRdCmd then
                '(actual, st) ← prime_read info buffer position length st;
                match actual with
                | None => Ok (readErr, st)
                | Some actual =>
                    st ← on_machine (WriteMacInt32 (u32 (pb + ioActCount)) actual) st;
                    p ← ReadMacInt32 (u32 (dce + dCtlPosition)) (machine st);
                    st ← on_machine (WriteMacInt32 (u32 (dce + dCtlPosition)) (u32 (p + actual))) st;
                    Ok (noErr, st)
                end
              else Ok (wPrErr, st)
      end
  end.

(** *** Control *)

(** The drive of a call: an unknown number means the first drive. *)
Definition control_drive (n : Z) (st : state) : option nat :=
  match get_drive_info n (globals st) with
  | Some i => Some i
  | None => match drives (globals st) with [] => None | _ => Some O end
  end.

Fixpoint write_bytes (addr : Z) (l : list Z) (c : powerpc_cpu) : outcome powerpc_cpu :=
  match l with
  | [] => Ok c
  | b :: l => c ← WriteMacInt8 addr b c; write_bytes (u32 (addr + 1)) l c
  end.
Definition msf_bcd (p : msf) : list Z := let '(m, s, f) := p in [bin2bcd m; bin2bcd s; bin2bcd f].

(** Four bytes for each descriptor from [i] on, up to the lead-out or the end
    of the buffer. *)
Fixpoint toc_fill (fuel : nat) (buf buf_size i : Z) (t : list Z) (c : powerpc_cpu) : outcome powerpc_cpu :=
  match fuel with
  | O => Fuel
  | S fuel =>
      if negb (0 <? buf_size) then Ok c
      else
        control ← toc_byte t (i + 1);
        c ← WriteMacInt8 buf (Z.land control 0x0f) c;
        m ← toc_byte t (i + 5);
        c ← WriteMacInt8 (u32 (buf + 1)) (bin2bcd m) c;
        s ← toc_byte t (i + 6);
        c ← WriteMacInt8 (u32 (buf + 2)) (bin2bcd s) c;
        f ← toc_byte t (i + 7);
        c ← WriteMacInt8 (u32 (buf + 3)) (bin2bcd f) c;
        track ← toc_byte t (i + 2);
        if track =? 0xaa then Ok c
        else toc_fill fuel (u32 (buf + 4)) (u16 (buf_size - 4)) (i + 8) t c
  end.

(** Code 100, by the kind of information. *)
Definition read_toc_action (pb : Z) (info : cdrom_drive_info) (st : state) : outcome (Z * state) :=
  let param k := u32 (pb + csParam + k) in
  let t := toc info in
  action ← ReadMacInt16 (param 0) (machine st);
  if action =? 1 then
    st ← on_machine (write_bytes (param 0) [bin2bcd (Zlookup t 2); bin2bcd (Zlookup t 3)]) st;
    st ← on_machine (WriteMacInt16 (param 2) 0) st; Ok (noErr, st)
  else if action =? 2 then
    st ← on_machine (write_bytes (param 0) (msf_bcd (lead_out info) ++ [0])) st; Ok (noErr, st)
  else if action =? 3 then
    buf ← ReadMacInt32 (param 2) (machine st);
    buf_size ← ReadMacInt16 (param 6) (machine st);
    b ← ReadMacInt8 (param 8) (machine st);
    match find_track (fun x => x =? bcd2bin b) t with
    | None => Ok (noErr, st)
    | Some i => st ← on_machine (toc_fill 101 buf buf_size i t) st; Ok (noErr, st)
    end
  else if action =? 5 then
    st ← on_machine (WriteMacInt16 (param 0) 1) st;
    st ← on_machine (WriteMacInt16 (param 2) 1) st;
    st ← on_machine (WriteMacInt16 (param 4) (bin2bcd (Zlookup t 2))) st;
    st ← on_machine (write_bytes (param 6)
      [Z.land (Zlookup t 5) 0x0f; bin2bcd (Zlookup t 9); bin2bcd (Zlookup t 10); bin2bcd (Zlookup t 11)]) st;
    Ok (noErr, st)
  else Ok (paramErr, st).

(** Code 101: where the audio head is. *)
Definition read_q_subcode (pb : Z) (info : cdrom_drive_info) (st : state) : outcome (Z * state) :=
  in_place ← status_byte info dsDiskInPlace st;
  if in_place =? 0 then
    st ← on_machine (Mac_memset (u32 (pb + csParam)) 0 10) st; Ok (offLinErr, st)
  else
    let '(pos, b) := SysCDGetPosition (fh info) (media st) in
    let st := set_media b st in
    match pos with
    | None => Ok (ioErr, st)
    | Some pos =>
        let bcd k := bin2bcd (Zlookup pos k) in
        st ← on_machine (write_bytes (u32 (pb + csParam))
          [Z.land (Zlookup pos 5) 0x0f; bcd 6; bcd 7; bcd 13; bcd 14; bcd 15; bcd 9; bcd 10; bcd 11; 0]) st;
        Ok (noErr, st)
    end.

(** Codes 103 to 108, with a disc in the drive. *)
Definition audio_control (code pb : Z) (i : nat) (info : cdrom_drive_info) (st : state) : outcome (Z * state) :=
  let param k := u32 (pb + csParam + k) in
  let position stopping :=
    postype ← ReadMacInt16 (param 0) (machine st);
    pos ← ReadMacInt32 (param 2) (machine st);
    Ok (position2msf info postype pos stopping) in
  let stop_there :=
    p ← position true;
    match p with
    | None => Ok (paramErr, st)
    | Some p => Ok (noErr, on_drive i (set_stop_at p) st)
    end in
  let play after :=
    p ← position false;
    match p with
    | None => Ok (paramErr, st)
    | Some p =>
        mode ← ReadMacInt8 (param 9) (machine st);
        let st := on_drive i (set_play_mode (Z.land mode 0x0f)) st in
        let '(ok, b) := SysCDPlay (fh info) p (stop_at info) (media st) in
        let st := set_media b st in
        if (ok : bool) then after st else Ok (paramErr, st)
    end in
  if code =? 103 then
    play (fun st =>
      hold ← ReadMacInt16 (param 6) (machine st);
      Ok (noErr, if hold =? 0 then set_media (snd (SysCDPause (fh info) (media st))) st else st))
  else if code =? 104 then
    given_stop ← ReadMacInt16 (param 6) (machine st);
    if negb (given_stop =? 0) then stop_there else play (fun st => Ok (noErr, st))
  else if code =? 105 then
    what ← ReadMacInt32 (param 0) (machine st);
    let result (rb : bool * B) := Ok (if fst rb then noErr else paramErr, set_media (snd rb) st) in
    if what =? 0 then result (SysCDResume (fh info) (media st))
    else if what =? 1 then result (SysCDPause (fh info) (media st))
    else Ok (paramErr, st)
  else if code =? 106 then
    postype ← ReadMacInt16 (param 0) (machine st);
    at_once ← (if postype =? 0 then pos ← ReadMacInt32 (param 2) (machine st); Ok (pos =? 0) else Ok false);
    if (at_once : bool) then
      let '(ok, b) := SysCDStop (fh info) (lead_out info) (media st) in
      Ok (if ok : bool then noErr else paramErr, set_media b st)
    else stop_there
  else if code =? 107 then
    let '(pos, b) := SysCDGetPosition (fh info) (media st) in
    let st := set_media b st in
    match pos with
    | None => Ok (paramErr, st)
    | Some pos =>
        let bcd k := bin2bcd (Zlookup pos k) in
        let s := Zlookup pos 1 in
        let state := if s =? 0x11 then 0 else if s =? 0x12 then 1 else if s =? 0x13 then 3 else if s =? 0x14 then 4 else 5 in
        st ← on_machine (write_bytes (param 0) [state; play_mode info; Z.land (Zlookup pos 5) 0x0f; bcd 9; bcd 10; bcd 11]) st;
        Ok (noErr, st)
    end
  else
    p ← position false;
    match p with
    | None => Ok (paramErr, st)
    | Some p =>
        reverse ← ReadMacInt16 (param 6) (machine st);
        let '(ok, b) := SysCDScan (fh info) p (Zb reverse) (media st) in
        Ok (if ok : bool then noErr else paramErr, set_media b st)
    end.

(** The codes for the drive [i]. *)
Definition drive_control (code pb : Z) (i : nat) (info : cdrom_drive_info) (st : state) : outcome (Z * state) :=
  let param k := u32 (pb + csParam + k) in
  let put v := st ← on_machine (WriteMacInt32 (param 0) v) st; Ok (noErr, st) in
  let put16 v := st ← on_machine (WriteMacInt16 (param 0) v) st; Ok (noErr, st) in
  let in_place := status_byte info dsDiskInPlace st in
  if code =? 5 then v ← in_place; Ok (if 0 <? v then noErr else offLinErr, st)
  else if code =? 6 then Ok (writErr, st)
  else if code =? 7 then
    v ← in_place;
    if 0 <? v then
      let st := set_media (SysEject (fh info) (SysAllowRemoval (fh info) (media st))) st in
      st ← put_status info dsDiskInPlace 0 st;
      Ok (noErr, on_drive i (set_twok_offset (-1)) st)
    else Ok (noErr, st)
  else if (code =? 21) || (code =? 22) then put CDROMIconAddr
  else if code =? 23 then put 0x00000b01
  else if code =? 70 then
    mode ← ReadMacInt8 (param 0) (machine st);
    if 3 <? mode then Ok (paramErr, st) else Ok (noErr, on_drive i (set_power_mode mode) st)
  else if code =? 76 then
    v ← ReadMacInt16 (param 0) (machine st);
    Ok (noErr, on_drive i (set_mount_non_hfs (Zb v)) st)
  else if code =? 79 then
    size ← ReadMacInt16 (param 0) (machine st);
    if negb (size =? 512) && negb (size =? 2048) then Ok (paramErr, st) else Ok (noErr, on_drive i (set_block_size size) st)
  else if code =? 80 then
    v ← in_place;
    if 0 <? v then
      eject ← ReadMacInt16 (param 0) (machine st);
      Ok (noErr, set_media ((if eject =? 1 then SysAllowRemoval else SysPreventRemoval) (fh info) (media st)) st)
    else Ok (offLinErr, st)
  else if code =? 100 then v ← in_place; if v =? 0 then Ok (offLinErr, st) else read_toc_action pb info st
  else if code =? 101 then read_q_subcode pb info st
  else if (103 <=? code) && (code <=? 108) then v ← in_place; if v =? 0 then Ok (offLinErr, st) else audio_control code pb i info st
  else if code =? 109 then
    vl ← ReadMacInt8 (param 0) (machine st);
    vr ← ReadMacInt8 (param 1) (machine st);
    Ok (noErr, set_media (SysCDSetVolume (fh info) vl vr (media st)) st)
  else if code =? 112 then
    let '(vl, vr) := SysCDGetVolume (fh info) (media st) in
    st ← on_machine (write_bytes (param 0) [vl; vr]) st; Ok (noErr, st)
  else if code =? 113 then put16 0xff
  else if code =? 114 then Ok (noErr, st)
  else if code =? 126 then put16 0
  else Ok (controlErr, st).

Definition CDROMControl (pb dce : Z) (st : state) : outcome (Z * state) :=
  code ← ReadMacInt16 (u32 (pb + csCode)) (machine st);
  if code =? 1 then Ok (noErr, st)
  else if code =? 65 then
    st ← mount_mountable_volumes st;
    flags ← ReadMacInt16 (u32 (dce + dCtlFlags)) (machine st);
    st ← on_machine (WriteMacInt16 (u32 (dce + dCtlFlags)) (Z.land flags (Z.lnot 0x2000))) st;
    Ok (noErr, set_globals (set_acc_run_called true (globals st)) st)
  else if code =? 81 then
    v ← ReadMacInt16 (u32 (pb + csParam)) (machine st);
    st ← on_machine (WriteMacInt16 (u32 (dce + dCtlDelay)) v) st;
    Ok (noErr, st)
  else
    n ← ReadMacInt16 (u32 (pb + ioVRefNum)) (machine st);
    match control_drive n st with
    | None => Ok (nsDrvErr, st)
    | Some i => match drive_at i st with None => Segv 0 | Some info => drive_control code pb i info st end
    end.

(** *** Status *)

Definition driver_gestalt (sel : Z) (info : option cdrom_drive_info) : option gestalt :=
  let sel_is a b c d := sel =? FOURCC a b c d in
  if sel_is "v"%char "e"%char "r"%char "s"%char then Some (Long 0x05208000)
  else if sel_is "d"%char "e"%char "v"%char "t"%char then Some (Long (FOURCC "c"%char "d"%char "r"%char "m"%char))
  else if sel_is "i"%char "n"%char "t"%char "f"%char then Some (Long EMULATOR_ID_4)
  else if sel_is "s"%char "y"%char "n"%char "c"%char then Some (Long 0x01000000)
  else if sel_is "b"%char "o"%char "o"%char "t"%char then
    Some (Words (match info with Some d => num d | None => 0 end) (u16 CDROMRefNum))
  else if sel_is "w"%char "i"%char "d"%char "e"%char then Some (Word 0)
  else if sel_is "p"%char "u"%char "r"%char "g"%char then Some (Long 0)
  else if sel_is "e"%char "j"%char "e"%char "c"%char then Some (Long 0x00030003)
  else if sel_is "f"%char "l"%char "u"%char "s"%char then Some (Word 0)
  else if sel_is "v"%char "m"%char "o"%char "p"%char then Some (Long 0)
  else None.

(** The drives with a number up to 6, as bits. *)
Definition drives_present (l : list cdrom_drive_info) : Z :=
  fold_left (fun bits d => if num d <=? 6 then u8 (Z.lor bits (Z.shiftl 1 (num d))) else bits) l 0.

(** The codes for a drive. *)
Definition drive_status (code pb : Z) (info : cdrom_drive_info) (st : state) : outcome (Z * state) :=
  let param k := u32 (pb + csParam + k) in
  let put16 v := st ← on_machine (WriteMacInt16 (param 0) v) st; Ok (noErr, st) in
  if code =? 6 then
    n ← ReadMacInt16 (param 0) (machine st);
    if 0 <? n then
      adr ← ReadMacInt32 (param 2) (machine st);
      st ← on_machine (WriteMacInt16 (param 0) 1) st;
      st ← on_machine (WriteMacInt32 adr (u32 (Z.quot (SysGetFileSize (fh info) (media st)) 512))) st;
      st ← on_machine (WriteMacInt32 (u32 (adr + 4)) 0) st;
      Ok (noErr, st)
    else Ok (paramErr, st)
  else if code =? 8 then
    bytes ← read_bytes 22 (status info) (machine st);
    st ← on_machine (Host2Mac_memcpy (param 0) bytes) st;
    Ok (noErr, st)
  else if code =? 70 then put16 (Z.shiftl (power_mode info) 8)
  else if code =? 95 then if 0 <? twok_offset info then put16 (twok_offset info) else Ok (statusErr, st)
  else if code =? 96 then put16 3
  else if code =? 98 then put16 (block_size info)
  else if code =? 120 then st ← on_machine (WriteMacInt32 (param 0) 0) st; Ok (noErr, st)
  else if code =? 121 then
    st ← on_machine (WriteMacInt16 (param 0) 0x0200) st;
    st ← on_machine (WriteMacInt16 (param 2) 0x0c00) st;
    Ok (noErr, st)
  else Ok (statusErr, st).

Definition CDROMStatus (pb dce : Z) (st : state) : outcome (Z * state) :=
  n ← ReadMacInt16 (u32 (pb + ioVRefNum)) (machine st);
  code ← ReadMacInt16 (u32 (pb + csCode)) (machine st);
  if code =? 43 then
    sel ← ReadMacInt32 (u32 (pb + csParam)) (machine st);
    match driver_gestalt sel (get_drive_info n (globals st) ≫= (fun i => drive_at i st)) with
    | None => Ok (statusErr, st)
    | Some g => st ← on_machine (put_gestalt (pb + csParam) g) st; Ok (noErr, st)
    end
  else if code =? 97 then
    st ← on_machine (WriteMacInt8 (u32 (pb + csParam + 1)) (drives_present (drives (globals st)))) st;
    Ok (noErr, st)
  else
    match control_drive n st ≫= (fun i => drive_at i st) with
    | None => Ok (nsDrvErr, st)
    | Some info => drive_status code pb info st
    end.

(** The routine of the 1 Hz interrupt. *)
Definition CDROMInterrupt (st : state) : outcome state :=
  if acc_run_called (globals st) then mount_mountable_volumes st else Ok st.
End Driver.
