(* ===== verification/DiskSpec.v ===== *)
(** Properties of the disk driver: Prime is a block device behind a partition,
    with its errors; the search for the partition; inserted disks are mounted. *)
From S2P Require Import Prelude Bitfields Registers HostFPU Operations Memory Handlers BlockCache Cpu Operands ExecInt ExecMem ExecSys Thunks MacMem MacUtil Scsi SysFile Device Disk.

#[local] Open Scope list_scope.

(** ** Prime *)

Lemma find_drive_Some n l i : find_drive n l = Some i -> exists d, l !! i = Some d /\ num d = n.
Proof.
  revert i. induction l as [|d l IH]; intros i; cbn; [done|]. destruct (Z.eqb_spec (num d) n) as [<-|].
  - intros [= <-]. by exists d.
  - destruct (find_drive n l) as [k|]; [|done]. intros [= <-]. by apply IH.
Qed.

Lemma ReadMacInt8_load a c : ReadMacInt8 a c = load_1 (mem c) a.
Proof. done. Qed.

Lemma low9_aligned z : Zb (Z.land z 0x1ff) = negb (z mod 512 =? 0).
Proof. unfold Zb. change 0x1ff with (Z.ones 9). by rewrite Z.land_ones. Qed.

Lemma s64_small z : 0 <= z < 2 ^ 63 -> s64 z = z.
Proof.
  intros H. unfold sext. rewrite trunc_small by (split; lia). change (2 ^ (64 - 1)) with (2 ^ 63). by rewrite (proj2 (Z.ltb_lt _ _)) by lia.
Qed.

Section Prime.
Context {B : Type} {SYS : SysFiles B} {LAWS : SysFileLaws SYS}.
Abbreviation state := (disk * B * powerpc_cpu)%type.

(** The call's parameters: the parameter block [pb] with the drive [n], a read
    or write, the buffer, and the number of bytes; the position. *)
Record prime_call (pb dce n : Z) (rd : bool) (buffer len position p : Z) (c : powerpc_cpu) : Prop := {
  pc_wf : mem_wf (mem c);
  pc_pb : 0 <= pb /\ pb + 54 <= 2 ^ 32 /\ mapped 54 pb (mem c);
  pc_dce : 0 <= dce /\ dce + 20 <= 2 ^ 32 /\ mapped 4 (dce + dCtlPosition) (mem c);
  pc_apart : dce + 20 <= pb + ioActCount \/ pb + 44 <= dce + dCtlPosition;
  pc_drive : load_be 2 (mem c) (pb + ioVRefNum) = Ok n;
  pc_trap : exists t, load_be 2 (mem c) (pb + ioTrap) = Ok t /\ rd = (Z.land t 0xff =? aRdCmd);
  pc_buffer : load_be 4 (mem c) (pb + ioBuffer) = Ok buffer;
  pc_len : load_be 4 (mem c) (pb + ioReqCount) = Ok len;
  pc_p : load_be 4 (mem c) (dce + dCtlPosition) = Ok p;
  pc_position : exists mode, load_be 2 (mem c) (pb + ioPosMode) = Ok mode /\
    if Zb (Z.land mode 0x100)
    then exists hi lo, load_be 4 (mem c) (pb + ioWPosOffset) = Ok hi /\ load_be 4 (mem c) (pb + ioWPosOffset + 4) = Ok lo /\
      position = s64 (Z.lor (Z.shiftl hi 32) lo)
    else position = p;
}.

(** The drive of the call, its disk in place or not. *)
Record prime_drive (pb n : Z) (info : disk_drive_info) (in_place : Z) (st : state) : Prop := {
  pd_info i : get_drive_info n (globals st) = Some i -> drives (globals st) !! i = Some info;
  pd_found : get_drive_info n (globals st) <> None;
  pd_status : 0 <= status info /\ status info + 4 <= 2 ^ 32 /\ (status info + 3 < pb + ioActCount \/ pb + 44 <= status info + 3);
  pd_place : load_1 (mem (machine st)) (status info + dsDiskInPlace) = Ok in_place;
}.

(** What a block device refuses. *)
Definition refuses (info : disk_drive_info) (in_place : Z) (rd : bool) (len position : Z) : option Z :=
  if in_place =? 0 then Some offLinErr
  else if negb (len mod 512 =? 0) || negb (position mod 512 =? 0) then Some paramErr
  else if negb rd && read_only info then Some wPrErr
  else None.

Lemma prime_fields pb dce n rd buffer len position p c c1 :
  prime_call pb dce n rd buffer len position p c -> writes 4 (pb + ioActCount) 0 c c1 ->
  ReadMacInt16 (u32 (pb + ioVRefNum)) c1 = Ok n /\ ReadMacInt32 (u32 (pb + ioBuffer)) c1 = Ok buffer /\
  ReadMacInt32 (u32 (pb + ioReqCount)) c1 = Ok len /\ io_position pb dce c1 = Ok position /\
  (exists t, ReadMacInt16 (u32 (pb + ioTrap)) c1 = Ok t /\ rd = (Z.land t 0xff =? aRdCmd)).
Proof using.
  intros [Hw (H0 & H32 & _) (Hd0 & Hd32 & _) Hap Hn (t & Ht & Hrd) Hb Hl Hp (mode & Hm & Hpos)] W.
  pose proof (writes_wf _ _ _ _ _ W) as Hw1. unfold io_position, ioVRefNum, ioBuffer, ioReqCount, ioTrap, ioPosMode, ioWPosOffset, ioActCount, dCtlPosition in *.
  rewrite !trunc_small by (split; lia). rewrite !ReadMacInt16_be, !ReadMacInt32_be by done.
  rewrite !(writes_other W) by lia. rewrite Hn, Hb, Hl, Hp, Hm. cbn [mbind outcome_bind]. split_and!; try done.
  - destruct (Zb (Z.land mode 256)); [|by subst]. destruct Hpos as (hi & lo & Ehi & Elo & ->).
    rewrite Ehi. cbn [mbind outcome_bind]. rewrite Elo. done.
  - exists t. by rewrite Ht.
Qed.

Lemma set_machine_id (st : state) : set_machine (machine st) st = st.
Proof using. by destruct st. Qed.

(** Prime up to the transfer. *)
Lemma prime_start pb dce n rd buffer len position p (st : state) :
  prime_call pb dce n rd buffer len position p (machine st) ->
  exists c1, writes 4 (pb + ioActCount) 0 (machine st) c1 /\
    (get_drive_info n (globals st) = None -> DiskPrime pb dce st = Ok (nsDrvErr, set_machine c1 st)) /\
    forall info v, prime_drive pb n info v st ->
      DiskPrime pb dce st =
      match refuses info v rd len position with
      | Some e => Ok (e, set_machine c1 st)
      | None =>
          let '(actual, error, st) := prime_transfer rd info buffer position len (set_machine c1 st) in
          if negb (actual =? len) then Ok (error, st)
          else
            st ← on_machine (WriteMacInt32 (u32 (pb + ioActCount)) actual) st;
            q ← ReadMacInt32 (u32 (dce + dCtlPosition)) (machine st);
            st ← on_machine (WriteMacInt32 (u32 (dce + dCtlPosition)) (u32 (q + actual))) st;
            Ok (noErr, st)
      end.
Proof using.
  intros Hc. destruct (WriteMacInt32_writes (pb + ioActCount) 0 (machine st)) as (c1 & E1 & W1).
  { apply (pc_wf _ _ _ _ _ _ _ _ _ Hc). }
  { destruct (pc_pb _ _ _ _ _ _ _ _ _ Hc) as (_ & _ & H). apply (mapped_le 4 54 _ pb); unfold ioActCount; [lia|lia|done]. }
  destruct (prime_fields _ _ _ _ _ _ _ _ _ c1 Hc W1) as (En & Eb & El & Ep & t & Et & Hrd).
  destruct (pc_pb _ _ _ _ _ _ _ _ _ Hc) as (H0 & H32 & _).
  exists c1. split; [done|]. unfold DiskPrime, on_machine. rewrite (trunc_small 32 (pb + ioActCount)) by (unfold ioActCount; split; lia).
  rewrite E1. cbn [mbind outcome_bind]. change (machine (set_machine c1 st)) with c1. change (globals (set_machine c1 st)) with (globals st).
  rewrite En. cbn [mbind outcome_bind]. split; [by intros ->|]. intros info v [Hi Hf Hs Hv].
  destruct (get_drive_info n (globals st)) as [i|]; [|done]. cbn [option_bind mbind].
  change (drive_at i (set_machine c1 st)) with (drives (globals st) !! i). rewrite (Hi i) by done.
  unfold status_byte, refuses. change (machine (set_machine c1 st)) with c1. rewrite (trunc_small 32 (status info + dsDiskInPlace)) by (unfold dsDiskInPlace; split; lia).
  rewrite ReadMacInt8_load. replace (load_1 (mem c1) _) with (Ok (A := Z) v); cycle 1.
  { rewrite <- Hv. unfold load_1. rewrite (writes_frame _ _ _ _ _ W1); [done|]. unfold dsDiskInPlace, ioActCount in *. lia. }
  cbn [mbind outcome_bind]. destruct (v =? 0); [done|]. rewrite Eb, El, Ep. cbn [mbind outcome_bind]. rewrite !low9_aligned.
  destruct (negb (len mod 512 =? 0) || negb (position mod 512 =? 0)); [done|]. rewrite Et. cbn [mbind outcome_bind]. rewrite <- Hrd.
  by destruct (negb rd && read_only info).
Qed.

(** C38: A call that names no drive, or that the drive refuses, reports the error
    and does nothing else but clear the count of bytes. *)
Theorem DiskPrime_errors pb dce n rd buffer len position p (st : state) :
  prime_call pb dce n rd buffer len position p (machine st) ->
  exists c1, writes 4 (pb + ioActCount) 0 (machine st) c1 /\
    (get_drive_info n (globals st) = None -> DiskPrime pb dce st = Ok (nsDrvErr, set_machine c1 st)) /\
    forall info v e, prime_drive pb n info v st -> refuses info v rd len position = Some e ->
      DiskPrime pb dce st = Ok (e, set_machine c1 st).
Proof using.
  intros Hc. destruct (prime_start _ _ _ _ _ _ _ _ st Hc) as (c1 & W & Hn & H). exists c1. split_and!; [done|done|].
  intros info v e Hd He. rewrite (H info v Hd). by rewrite He.
Qed.

(** The end of a transfer: the count of bytes and the new position. *)
Lemma prime_end pb dce n rd buffer len position p c len' (st : state) :
  prime_call pb dce n rd buffer len position p c ->
  mem_wf (mem (machine st)) -> dom (mem (machine st)) = dom (mem c) ->
  load_be 4 (mem (machine st)) (dce + dCtlPosition) = Ok p ->
  exists c', (st ← on_machine (WriteMacInt32 (u32 (pb + ioActCount)) len') st;
              q ← ReadMacInt32 (u32 (dce + dCtlPosition)) (machine st);
              st ← on_machine (WriteMacInt32 (u32 (dce + dCtlPosition)) (u32 (q + len'))) st;
              Ok (noErr, st)) = Ok (noErr, set_machine c' st) /\
    load_be 4 (mem c') (pb + ioActCount) = Ok (u32 len') /\ load_be 4 (mem c') (dce + dCtlPosition) = Ok (u32 (p + len')) /\
    forall i, ~ (pb + ioActCount <= i < pb + ioActCount + 4) -> ~ (dce + dCtlPosition <= i < dce + dCtlPosition + 4) ->
      mem c' !! i = mem (machine st) !! i.
Proof using.
  intros Hc Hw Hd Hp. destruct (pc_pb _ _ _ _ _ _ _ _ _ Hc) as (H0 & H32 & Hm). destruct (pc_dce _ _ _ _ _ _ _ _ _ Hc) as (Hd0 & Hd32 & Hmd).
  pose proof (pc_apart _ _ _ _ _ _ _ _ _ Hc) as Hap. unfold on_machine.
  rewrite (trunc_small 32 (pb + ioActCount)), (trunc_small 32 (dce + dCtlPosition)) by (unfold ioActCount, dCtlPosition; split; lia).
  destruct (WriteMacInt32_writes (pb + ioActCount) len' (machine st)) as (c1 & -> & W1); [done| |].
  { apply (mapped_cong 4 _ _ _ Hd). apply (mapped_le 4 54 _ pb); unfold ioActCount; [lia|lia|done]. }
  cbn [mbind outcome_bind]. change (machine (set_machine c1 st)) with c1. pose proof (writes_wf _ _ _ _ _ W1) as Hw1.
  rewrite ReadMacInt32_be, (writes_other W1), Hp by (done || (unfold ioActCount, dCtlPosition in *; lia)). cbn [mbind outcome_bind].
  destruct (WriteMacInt32_writes (dce + dCtlPosition) (u32 (p + len')) c1) as (c2 & -> & W2); [done| |].
  { apply (writes_mapped W1). by apply (mapped_cong 4 _ _ _ Hd). }
  exists c2. split; [done|]. split_and!.
  - rewrite (writes_other W2) by (unfold ioActCount, dCtlPosition in *; lia). apply (writes_value _ _ _ _ _ W1).
  - rewrite (writes_value _ _ _ _ _ W2). by rewrite trunc_trunc.
  - intros i Hi1 Hi2. rewrite (writes_frame _ _ _ _ _ W2) by lia. apply (writes_frame _ _ _ _ _ W1). lia.
Qed.

(** A transfer that is inside the image and the memory, with a buffer apart from
    the fields that the call changes. *)
Record transfer_ok (pb dce : Z) (info : disk_drive_info) (buffer len position : Z) (l : list Z) (st : state) : Prop := {
  to_wf : sys_wf (media st);
  to_image : image (fh info) (media st) = Some l;
  to_size : Z.of_nat (length l) < 2 ^ 63;
  to_range : 0 <= position /\ 0 <= start_byte info /\ 0 <= len /\ start_byte info + position + len <= Z.of_nat (length l);
  to_mapped : mapped (Z.to_nat len) buffer (mem (machine st));
  to_apart : (buffer + len <= pb + ioActCount \/ pb + 44 <= buffer) /\
    (buffer + len <= dce + dCtlPosition \/ dce + 20 <= buffer);
}.

Lemma transfer_offset pb dce info buffer len position l st :
  transfer_ok pb dce info buffer len position l st -> s64 (position + start_byte info) = position + start_byte info.
Proof using. intros [_ _ ? ? _ _]. apply s64_small. lia. Qed.

Lemma load_be_agree n m m' a :
  (forall i, a <= i < a + Z.of_nat n -> m' !! i = m !! i) -> load_be n m' a = load_be n m a.
Proof using. apply load_be_cong. Qed.

(** A read puts the bytes of the partition into the buffer. *)
Lemma DiskPrime_reads pb dce n buffer len position p info v l st :
  prime_call pb dce n true buffer len position p (machine st) -> prime_drive pb n info v st ->
  refuses info v true len position = None -> transfer_ok pb dce info buffer len position l st ->
  exists c', DiskPrime pb dce st = Ok (noErr, set_machine c' st) /\
    (forall k, 0 <= k < len -> mem c' !! (buffer + k) = l !! Z.to_nat (start_byte info + position + k)) /\
    load_be 4 (mem c') (pb + ioActCount) = Ok (u32 len) /\ load_be 4 (mem c') (dce + dCtlPosition) = Ok (u32 (p + len)) /\
    forall i, ~ (pb + ioActCount <= i < pb + ioActCount + 4) -> ~ (dce + dCtlPosition <= i < dce + dCtlPosition + 4) ->
      ~ (buffer <= i < buffer + len) -> mem c' !! i = mem (machine st) !! i.
Proof using LAWS.
  intros Hc Hd Hr Ht. pose proof (transfer_offset _ _ _ _ _ _ _ _ Ht) as Eoff.
  destruct Ht as [Hsw Hi Hsz (Hp0 & Hs0 & Hl0 & Hin) Hmap [Hap1 Hap2]].
  destruct (prime_start _ _ _ _ _ _ _ _ st Hc) as (c1 & W1 & _ & E). rewrite (E info v Hd), Hr. unfold prime_transfer. rewrite Eoff.
  change (media (set_machine c1 st)) with (media st). change (machine (set_machine c1 st)) with c1.
  rewrite (Sys_read_image _ _ _ _ _ _ l) by (done || lia || by apply (writes_mapped W1)). rewrite Z.eqb_refl. cbn [negb].
  set (bytes := take (Z.to_nat len) _). assert (Hb : length bytes = Z.to_nat len) by (subst bytes; rewrite length_take, length_drop; lia).
  set (c2 := set_mem _ c1). change (set_machine c2 (set_machine c1 st)) with (set_machine c2 st).
  pose proof (pc_p _ _ _ _ _ _ _ _ _ Hc) as Hp. pose proof (pc_apart _ _ _ _ _ _ _ _ _ Hc) as Hap.
  destruct (prime_end pb dce n true buffer len position p (machine st) len (set_machine c2 st)) as (c' & -> & Hcount & Hpos & Hf); [done| | | |].
  - change (mem_wf (blit buffer bytes (mem c1))). apply blit_wf; [|apply (writes_wf _ _ _ _ _ W1)].
    apply Forall_take, Forall_drop. by eapply image_bytes.
  - change (dom (blit buffer bytes (mem c1)) = dom (mem (machine st))). rewrite blit_dom; [apply (writes_dom _ _ _ _ _ W1)|].
    rewrite Hb. by apply (writes_mapped W1).
  - change (load_be 4 (blit buffer bytes (mem c1)) (dce + dCtlPosition) = Ok p). rewrite <- Hp. apply load_be_cong. intros i Hi'.
    rewrite blit_frame by (unfold dCtlPosition in *; lia). apply (writes_frame _ _ _ _ _ W1). unfold ioActCount, dCtlPosition in *. lia.
  - change (mem (machine (set_machine c2 st))) with (blit buffer bytes (mem c1)) in Hf. exists c'. split; [done|]. split_and!; [|done|done|].
    + intros k Hk. rewrite Hf by (unfold ioActCount, dCtlPosition in *; lia). rewrite blit_lookup, decide_True by lia.
      subst bytes. rewrite lookup_take_lt, lookup_drop by lia. f_equal. lia.
    + intros i H1 H2 H3. rewrite Hf by done. rewrite blit_frame by lia. apply (writes_frame _ _ _ _ _ W1). lia.
Qed.

(** A write puts the bytes of the buffer into the partition, and no other medium changes. *)
Lemma DiskPrime_writes pb dce n buffer len position p info v l st :
  prime_call pb dce n false buffer len position p (machine st) -> prime_drive pb n info v st ->
  refuses info v false len position = None -> transfer_ok pb dce info buffer len position l st -> writable (fh info) (media st) = true ->
  exists c' b', DiskPrime pb dce st = Ok (noErr, set_machine c' (set_media b' st)) /\ sys_wf b' /\
    image (fh info) b' = Some (overwrite (start_byte info + position) (bytes_of_memory buffer (Z.to_nat len) (mem (machine st))) l) /\
    (forall f, f <> fh info -> image f b' = image f (media st)) /\
    load_be 4 (mem c') (pb + ioActCount) = Ok (u32 len) /\ load_be 4 (mem c') (dce + dCtlPosition) = Ok (u32 (p + len)) /\
    forall i, ~ (pb + ioActCount <= i < pb + ioActCount + 4) -> ~ (dce + dCtlPosition <= i < dce + dCtlPosition + 4) ->
      mem c' !! i = mem (machine st) !! i.
Proof using LAWS.
  intros Hc Hd Hr Ht Hwr. pose proof (transfer_offset _ _ _ _ _ _ _ _ Ht) as Eoff.
  destruct Ht as [Hsw Hi Hsz (Hp0 & Hs0 & Hl0 & Hin) Hmap [Hap1 Hap2]].
  destruct (prime_start _ _ _ _ _ _ _ _ st Hc) as (c1 & W1 & _ & E). rewrite (E info v Hd), Hr. unfold prime_transfer. rewrite Eoff.
  change (media (set_machine c1 st)) with (media st). change (machine (set_machine c1 st)) with c1.
  pose proof (writes_wf _ _ _ _ _ W1) as Hw1.
  destruct (Sys_write_image (fh info) buffer (position + start_byte info) len (media st) (mem c1) l) as (b' & -> & Hsw' & Hi' & Ho);
    [done|done|done|done|lia|lia|lia|by apply (writes_mapped W1)|]. rewrite Z.eqb_refl. cbn [negb].
  pose proof (pc_p _ _ _ _ _ _ _ _ _ Hc) as Hp. pose proof (pc_apart _ _ _ _ _ _ _ _ _ Hc) as Hap.
  destruct (prime_end pb dce n false buffer len position p (machine st) len (set_media b' (set_machine c1 st))) as (c' & -> & Hcount & Hpos & Hf);
    [done|done|apply (writes_dom _ _ _ _ _ W1)| |].
  - change (load_be 4 (mem c1) (dce + dCtlPosition) = Ok p). rewrite (writes_other W1); [done|]. unfold ioActCount, dCtlPosition in *. lia.
  - change (mem (machine (set_media b' (set_machine c1 st)))) with (mem c1) in Hf. exists c', b'. split; [done|]. split_and!; try done.
    + rewrite Hi'. do 2 f_equal; [lia|]. apply list_eq. intros k. destruct (decide (k < Z.to_nat len)%nat).
      * rewrite !bytes_of_memory_lookup by done. do 2 f_equal. apply (writes_frame _ _ _ _ _ W1). unfold ioActCount in *. lia.
      * by rewrite !lookup_ge_None_2 by (rewrite length_bytes_of_memory; lia).
    + intros f Hne. by apply (proj2 (Ho f)).
    + intros i H1 H2. rewrite Hf by done. apply (writes_frame _ _ _ _ _ W1). lia.
Qed.

(** C37: What Prime writes to a partition is what it reads back, into any buffer and
    through any parameter block, as often as the drive keeps its disk. *)
Theorem DiskPrime_roundtrip pb dce n buffer len position p info v l st :
  prime_call pb dce n false buffer len position p (machine st) -> prime_drive pb n info v st ->
  refuses info v false len position = None -> transfer_ok pb dce info buffer len position l st -> writable (fh info) (media st) = true ->
  exists st', DiskPrime pb dce st = Ok (noErr, st') /\
    forall pb2 dce2 n2 buffer2 p2 v2,
      prime_call pb2 dce2 n2 true buffer2 len position p2 (machine st') -> prime_drive pb2 n2 info v2 st' -> v2 <> 0 ->
      mapped (Z.to_nat len) buffer2 (mem (machine st')) ->
      buffer2 + len <= pb2 + ioActCount \/ pb2 + 44 <= buffer2 -> buffer2 + len <= dce2 + dCtlPosition \/ dce2 + 20 <= buffer2 ->
      exists st'', DiskPrime pb2 dce2 st' = Ok (noErr, st'') /\
        forall k, 0 <= k < len -> mem (machine st'') !! (buffer2 + k) = mem (machine st) !! (buffer + k).
Proof using LAWS.
  intros Hc Hd Hr Ht Hwr. destruct (DiskPrime_writes _ _ _ _ _ _ _ _ _ _ _ Hc Hd Hr Ht Hwr) as (c' & b' & E & Hsw & Hi & _ & _ & _ & _).
  exists (set_machine c' (set_media b' st)). split; [done|]. intros pb2 dce2 n2 buffer2 p2 v2 Hc2 Hd2 Hv2 Hm2 Ha1 Ha2.
  destruct Ht as [_ _ Hsz (Hp0 & Hs0 & Hl0 & Hin) Hmap _]. set (new := bytes_of_memory _ _ _) in Hi.
  assert (Hn : length new = Z.to_nat len) by apply length_bytes_of_memory.
  assert (Hlen : length (overwrite (start_byte info + position) new l) = length l) by (apply length_overwrite; lia).
  destruct (DiskPrime_reads pb2 dce2 n2 buffer2 len position p2 info v2 (overwrite (start_byte info + position) new l) _ Hc2 Hd2) as (c'' & E2 & Hread & _).
  { unfold refuses in *. rewrite (proj2 (Z.eqb_neq v2 0)) by done. destruct (v =? 0); [done|]. destruct (_ || _); [done|]. by cbn [negb andb]. }
  { split; [done|exact Hi|by rewrite Hlen|by rewrite Hlen|done|done]. }
  exists (set_machine c'' (set_machine c' (set_media b' st))). split; [done|]. intros k Hk. etransitivity; [by apply Hread|].
  rewrite overwrite_read, decide_True by lia. replace (_ - _)%nat with (Z.to_nat k) by lia.
  subst new. rewrite bytes_of_memory_lookup by lia. rewrite Z2Nat.id by lia.
  destruct (Hmap (buffer + k)) as [x ->]; [lia|done].
Qed.
End Prime.

(** ** The HFS partition *)

(** Big-endian words of a list of bytes. *)
Definition list_be32 (l : list Z) (i : nat) : Z :=
  Z.lor (Z.lor (Z.lor (Z.shiftl (l !!! i) 24) (Z.shiftl (l !!! (i + 1)%nat) 16)) (Z.shiftl (l !!! (i + 2)%nat) 8)) (l !!! (i + 3)%nat).

(** Block [k] of an image is a partition map entry of type Apple_HFS. *)
Definition hfs_entry (l : list Z) (k : Z) : Prop :=
  take 2 (drop (Z.to_nat (512 * k)) l) = [0x50; 0x4d] /\ take 10 (drop (Z.to_nat (512 * k) + 48) l) = Apple_HFS.

#[export] Instance hfs_entry_dec l k : Decision (hfs_entry l k).
Proof. unfold hfs_entry. apply _. Defined.

Section Partition.
Context {B : Type} {SYS : SysFiles B} {LAWS : SysFileLaws SYS}.

Lemma map_bytes_block block (i n : nat) :
  length block = 512%nat -> (i + n <= 512)%nat ->
  forall m, map_bytes (blit 0 block m) (Z.of_nat i) (Z.of_nat n) = take n (drop i block).
Proof using.
  intros Hb Hin m. unfold map_bytes. rewrite Nat2Z.id. apply list_eq. intros k. destruct (decide (k < n)%nat).
  - rewrite bytes_of_memory_lookup, blit_lookup, decide_True by lia. rewrite lookup_take_lt, lookup_drop by lia.
    replace (Z.to_nat (Z.of_nat i + Z.of_nat k - 0)) with (i + k)%nat by lia.
    destruct (block !! (i + k)%nat) eqn:E; [done|]. apply lookup_ge_None in E. lia.
  - by rewrite !lookup_ge_None_2 by (rewrite ?length_bytes_of_memory, ?length_take; lia).
Qed.

Lemma map_be32_block block (i : nat) m :
  length block = 512%nat -> (i + 4 <= 512)%nat -> map_be32 (blit 0 block m) (Z.of_nat i) = s32 (list_be32 block i).
Proof using.
  intros Hb Hi. unfold map_be32. change 4 with (Z.of_nat 4). rewrite map_bytes_block by done. unfold list_be32.
  assert (H : forall k, (k < 4)%nat -> drop i block !! k = Some (block !!! (i + k)%nat)).
  { intros k Hk. rewrite lookup_drop. apply list_lookup_lookup_total_lt. lia. }
  assert (H4 : (4 <= length (drop i block))%nat) by (rewrite length_drop; lia).
  destruct (drop i block) as [|a [|b [|c [|d r]]]]; cbn in H4; try lia. cbn [take].
  pose proof (H 0%nat ltac:(lia)) as E0. pose proof (H 1%nat ltac:(lia)) as E1. pose proof (H 2%nat ltac:(lia)) as E2. pose proof (H 3%nat ltac:(lia)) as E3.
  cbn in E0, E1, E2, E3. rewrite Nat.add_0_r in E0. injection E0 as ->. injection E1 as ->. injection E2 as ->. by injection E3 as ->.
Qed.

(** The outcome of a search from block [i] on over [n] blocks. *)
Definition partition_found (l : list Z) (n : nat) (i : Z) (r : Z * Z) : Prop :=
  (exists k, i <= k < i + Z.of_nat n /\ 512 * (k + 1) <= Z.of_nat (length l) /\ hfs_entry l k /\
     (forall j, i <= j < k -> ~ hfs_entry l j) /\
     r = (s32 (list_be32 l (Z.to_nat (512 * k + 8))) * 512, u32 (list_be32 l (Z.to_nat (512 * k + 12))))) \/
  ((forall j, i <= j < i + Z.of_nat n -> 512 * (j + 1) <= Z.of_nat (length l) -> ~ hfs_entry l j) /\ r = (0, 0)).

Lemma partition_next l n i r : ~ hfs_entry l i -> partition_found l n (i + 1) r -> partition_found l (S n) i r.
Proof using.
  intros Hi [(k & Hk & Hl & Hh & Hf & ->)|[Hn ->]].
  - left. exists k. split_and!; try done; [lia|lia|]. intros j Hj. destruct (decide (j = i)) as [->|]; [done|]. apply Hf. lia.
  - right. split; [|done]. intros j Hj Hl. destruct (decide (j = i)) as [->|]; [done|]. apply Hn; lia.
Qed.

Lemma list_be32_drop l a i : (a + i + 4 <= length l)%nat -> list_be32 (take 512 (drop a l)) i = list_be32 l (a + i) \/ (512 < i + 4)%nat.
Proof using.
  intros Hl. destruct (decide (i + 4 <= 512)%nat); [left|right; lia]. unfold list_be32.
  assert (H : forall k, (k < 4)%nat -> take 512 (drop a l) !!! (i + k)%nat = l !!! (a + i + k)%nat).
  { intros k Hk. apply list_lookup_total_correct. rewrite lookup_take_lt, lookup_drop by lia. rewrite <- Nat.add_assoc.
    apply list_lookup_lookup_total_lt. lia. }
  pose proof (H 0%nat ltac:(lia)) as E0. rewrite !Nat.add_0_r in E0. by rewrite E0, !H by lia.
Qed.

Lemma partition_loop_spec f b l :
  sys_wf b -> image f b = Some l -> forall n i m, 0 <= i -> mapped 512 0 m ->
  partition_found l n i (partition_loop n i f b m).
Proof using LAWS.
  intros Hw Hi n. induction n as [|n IH]; intros i m H0 Hm; [right; split; [lia|done]|]. cbn [partition_loop].
  destruct (decide (512 * (i + 1) <= Z.of_nat (length l))) as [Hin|Hout].
  - rewrite (Sys_read_image _ _ _ _ _ _ l) by (done || lia). rewrite Z.eqb_refl. cbn [negb].
    set (block := take (Z.to_nat 512) _). assert (Hb : length block = 512%nat) by (subst block; rewrite length_take, length_drop; lia).
    rewrite (map_bytes_block block 0 2 Hb ltac:(lia) m : map_bytes _ 0 2 = _), (map_bytes_block block 48 10 Hb ltac:(lia) m : map_bytes _ 48 10 = _).
    rewrite (map_be32_block block 8 m Hb ltac:(lia) : map_be32 _ 8 = _), (map_be32_block block 12 m Hb ltac:(lia) : map_be32 _ 12 = _).
    assert (Hnext : ~ hfs_entry l i -> partition_found l (S n) i (partition_loop n (i + 1) f b (blit 0 block m))).
    { intros Hne. apply partition_next; [done|]. apply IH; [lia|]. by apply blit_mapped. }
    replace (take 2 (drop 0 block)) with (take 2 (drop (Z.to_nat (512 * i)) l)); cycle 1.
    { subst block. rewrite drop_0, take_take, (Z.mul_comm 512). done. }
    replace (take 10 (drop 48 block)) with (take 10 (drop (Z.to_nat (512 * i) + 48) l)); cycle 1.
    { subst block. rewrite skipn_firstn_comm, take_take, drop_drop, (Z.mul_comm 512). done. }
    destruct (decide (take 2 (drop (Z.to_nat (512 * i)) l) = [0x50; 0x4d])) as [E1|N1].
    + rewrite bool_decide_true by done. cbn [negb]. destruct (decide (take 10 (drop (Z.to_nat (512 * i) + 48) l) = Apple_HFS)) as [E2|N2].
      * rewrite bool_decide_true by done. left. exists i. split_and!; try lia; [by split|].
        rewrite Z.shiftl_mul_pow2 by done. subst block.
        destruct (list_be32_drop l (Z.to_nat (i * 512)) 8) as [E8|]; [lia| |lia].
        destruct (list_be32_drop l (Z.to_nat (i * 512)) 12) as [E12|]; [lia| |lia].
        change (Z.to_nat 512) with 512%nat. rewrite E8, E12. rewrite trunc_sext by done.
        replace (Z.to_nat (512 * i + 8)) with (Z.to_nat (i * 512) + 8)%nat by lia.
        by replace (Z.to_nat (512 * i + 12)) with (Z.to_nat (i * 512) + 12)%nat by lia.
      * rewrite bool_decide_false by done. apply Hnext. by intros [_ ?].
    + rewrite bool_decide_false by done. apply Hnext. by intros [? _].
  - pose proof (Sys_read_end f 0 (i * 512) 512 b m l Hw Hi ltac:(lia) ltac:(lia) ltac:(lia)) as Hne.
    destruct (Sys_read f 0 (i * 512) 512 b m) as [actual m']. cbn [fst] in Hne. rewrite (proj2 (Z.eqb_neq _ _)) by done. cbn [negb].
    right. split; [|done]. intros j Hj Hl. lia.
Qed.

(** C39: The search for a partition gives the first Apple_HFS entry of the partition
    map among the first 64 blocks of the medium, however short it is, or none. *)
Theorem find_hfs_partition_spec b info l :
  sys_wf b -> image (fh info) b = Some l ->
  exists r, partition_found l 64 0 r /\ find_hfs_partition b info = set_partition (fst r) (snd r) info.
Proof using LAWS.
  intros Hw Hi. exists (partition_loop 64 0 (fh info) b new_map). split.
  - apply partition_loop_spec; try done. intros i Hr. unfold new_map.
    apply elem_of_dom. rewrite dom_list_to_map_L, <- list_fmap_compose. apply elem_of_list_to_set, list_elem_of_fmap.
    exists i. split; [done|]. by apply elem_of_count_up.
  - unfold find_hfs_partition. by destruct (partition_loop _ _ _ _ _).
Qed.
End Partition.

(** ** Concrete inputs *)

Definition no_ioctl : Ioctl := {|
  BLKGETSIZE _ _ := 0; FD_DISK_WRITABLE _ _ := false; disc_inserted _ u := (false, u); reopen _ u := u |}.

(** One open disk image, with the handle 1. *)
Definition host_with (data : list Z) : unix :=
  Unix {[1 := Handle 0 3 true false false false 0 (Z.of_nat (length data))]} {[3 := HostFile data true]}.

Lemma host_with_wf data : Forall (is_uint 8) data -> Z.of_nat (length data) < 2 ^ 63 -> unix_wf (host_with data).
Proof.
  intros H Hl. split.
  - unfold host_with. cbn [handles]. intros a b fa fb [<- _]%lookup_singleton_Some [<- _]%lookup_singleton_Some _. done.
  - unfold host_with. cbn [files]. intros d f [_ <-]%lookup_singleton_Some. done.
Qed.

Lemma host_with_image data : unix_image 1 (host_with data) = Some data.
Proof.
  unfold unix_image, host_with. cbn [handles files]. rewrite lookup_singleton_eq. cbn [fd]. rewrite lookup_singleton_eq.
  cbn [fh_start_byte file_data]. by rewrite !(proj2 (Z.leb_le _ _)) by lia.
Qed.

(** An entry for 9 blocks from block 2 on. *)
Definition entry_image : list Z :=
  [0x50; 0x4d] ++ replicate 6 0 ++ [0; 0; 0; 2] ++ [0; 0; 0; 9] ++ replicate 32 0 ++ Apple_HFS ++ replicate 454 0.

Lemma find_hfs_partition_spec_witness :
  let info := Drive 1 1 0 0 false false 0x300 in
  exists r, partition_found entry_image 64 0 r /\
    find_hfs_partition (SYS := @unix_files no_ioctl) (host_with entry_image) info = set_partition (fst r) (snd r) info.
Proof.
  intros info. apply (find_hfs_partition_spec (LAWS := @unix_laws no_ioctl)).
  - apply host_with_wf; [|done]. apply (bool_decide_eq_true_1 _). vm_compute. reflexivity.
  - apply host_with_image.
Defined.

(** A parameter block at 0x100 for a write of 512 bytes from 0x1000, the device
    control entry at 0x200 and the drive's status record at 0x300. *)
Definition prime_fields_bytes : list Z :=
  replicate 6 0 ++ [0; 3] ++ replicate 14 0 ++ [0; 1] ++ replicate 8 0 ++ [0; 0; 0x10; 0; 0; 0; 2; 0] ++ replicate 14 0.
Definition prime_memory : memory :=
  blit 0x1000 (replicate (Z.to_nat 512) 7)
    (list_to_map (zip ((fun i => 0x100 + i) <$> count_up 54) prime_fields_bytes) ∪
     list_to_map [(0x210, 0); (0x211, 0); (0x212, 2); (0x213, 0); (0x303, 8)]).
Definition prime_state (ro : bool) : disk * unix * powerpc_cpu :=
  (Disk [Drive 1 1 512 4 false ro 0x300] true, host_with (replicate (Z.to_nat 2048) 9), cpu_init prime_memory).

Lemma small_field n a :
  a + Z.of_nat n <= 0x1000 -> load_be n prime_memory a =
  load_be n (list_to_map (zip ((fun i => 0x100 + i) <$> count_up 54) prime_fields_bytes) ∪
             list_to_map [(0x210, 0); (0x211, 0); (0x212, 2); (0x213, 0); (0x303, 8)]) a.
Proof. intros H. apply load_be_cong. intros i Hi. apply blit_frame. lia. Qed.

Lemma prime_memory_wf : mem_wf prime_memory.
Proof.
  apply blit_wf; [by apply Forall_replicate|]. apply (bool_decide_eq_true_1 _). vm_compute. reflexivity.
Qed.

Lemma prime_state_call ro : prime_call 0x100 0x200 1 false 0x1000 512 512 512 (machine (prime_state ro)).
Proof.
  split.
  - apply prime_memory_wf.
  - split; [lia|]. split; [lia|]. apply blit_mapped. intros i Hi. apply lookup_union_is_Some. left.
    by apply (mapped_list 0x100 54 prime_fields_bytes 0x100 54).
  - split; [lia|]. split; [unfold dCtlPosition; lia|]. apply blit_mapped. intros i Hi. apply lookup_union_is_Some. right.
    unfold dCtlPosition in Hi. assert (Hc : i = 0x210 \/ i = 0x211 \/ i = 0x212 \/ i = 0x213) by lia.
    by destruct Hc as [->|[->|[->| ->]]]; eexists.
  - unfold dCtlPosition, ioActCount. lia.
  - rewrite small_field by done. vm_compute. reflexivity.
  - exists 3. split; [rewrite small_field by done; vm_compute; reflexivity|reflexivity].
  - rewrite small_field by done. vm_compute. reflexivity.
  - rewrite small_field by done. vm_compute. reflexivity.
  - rewrite small_field by done. vm_compute. reflexivity.
  - exists 0. split; [rewrite small_field by done; vm_compute; reflexivity|reflexivity].
Qed.

Lemma prime_state_drive ro : prime_drive 0x100 1 (Drive 1 1 512 4 false ro 0x300) 8 (prime_state ro).
Proof.
  split.
  - intros i [= <-]. reflexivity.
  - discriminate.
  - unfold ioActCount. cbn [status]. lia.
  - change (load_1 prime_memory 0x303 = Ok 8). unfold load_1, prime_memory. rewrite blit_frame by lia. vm_compute. reflexivity.
Qed.

Lemma DiskPrime_errors_witness :
  exists c1, writes 4 (0x100 + ioActCount) 0 (machine (prime_state true)) c1 /\
    DiskPrime (SYS := @unix_files no_ioctl) 0x100 0x200 (prime_state true) = Ok (wPrErr, set_machine c1 (prime_state true)).
Proof.
  destruct (DiskPrime_errors (SYS := @unix_files no_ioctl) 0x100 0x200 1 false 0x1000 512 512 512 (prime_state true)) as (c1 & W & _ & H).
  - apply prime_state_call.
  - exists c1. split; [exact W|]. apply (H (Drive 1 1 512 4 false true 0x300) 8 wPrErr); [apply prime_state_drive|reflexivity].
Defined.

Lemma prime_state_transfer :
  transfer_ok (LAWS := @unix_laws no_ioctl) 0x100 0x200 (Drive 1 1 512 4 false false 0x300) 0x1000 512 512
    (replicate (Z.to_nat 2048) 9) (prime_state false).
Proof.
  assert (Hl : Z.of_nat (length (replicate (Z.to_nat 2048) 9)) = 2048) by (rewrite length_replicate, Z2Nat.id by lia; reflexivity).
  split.
  - apply host_with_wf; [by apply Forall_replicate|]. rewrite Hl. lia.
  - apply host_with_image.
  - rewrite Hl. lia.
  - rewrite Hl. cbn [start_byte]. lia.
  - intros i Hi. change (mem (machine (prime_state false))) with prime_memory. unfold prime_memory.
    rewrite blit_lookup. rewrite length_replicate, decide_True by lia. apply lookup_lt_is_Some. rewrite length_replicate. lia.
  - unfold ioActCount, dCtlPosition. lia.
Qed.

Lemma DiskPrime_roundtrip_witness :
  exists st', DiskPrime (SYS := @unix_files no_ioctl) 0x100 0x200 (prime_state false) = Ok (noErr, st') /\
    forall pb2 dce2 n2 buffer2 p2 v2,
      prime_call pb2 dce2 n2 true buffer2 512 512 p2 (machine st') ->
      prime_drive pb2 n2 (Drive 1 1 512 4 false false 0x300) v2 st' -> v2 <> 0 ->
      mapped (Z.to_nat 512) buffer2 (mem (machine st')) ->
      buffer2 + 512 <= pb2 + ioActCount \/ pb2 + 44 <= buffer2 -> buffer2 + 512 <= dce2 + dCtlPosition \/ dce2 + 20 <= buffer2 ->
      exists st'', DiskPrime (SYS := @unix_files no_ioctl) pb2 dce2 st' = Ok (noErr, st'') /\
        forall k, 0 <= k < 512 -> mem (machine st'') !! (buffer2 + k) = prime_memory !! (0x1000 + k).
Proof.
  destruct (DiskPrime_roundtrip (LAWS := @unix_laws no_ioctl) 0x100 0x200 1 0x1000 512 512 512 (Drive 1 1 512 4 false false 0x300) 8
    (replicate (Z.to_nat 2048) 9) (prime_state false)) as (st' & E & H).
  - apply prime_state_call.
  - apply prime_state_drive.
  - reflexivity.
  - apply prime_state_transfer.
  - reflexivity.
  - exists st'. split; [exact E|exact H].
Defined.
