(* ===== verification/CdromSpec.v ===== *)
(** Properties of the CD-ROM driver: packed decimal numbers and positions, and
    the table of contents that Mac OS reads. *)
From S2P Require Import Prelude Bitfields Registers HostFPU Operations Memory Handlers BlockCache Cpu Operands ExecInt ExecMem ExecSys Thunks MacMem MacUtil Scsi SysFile Device Cdrom.

#[local] Open Scope list_scope.

(** ** Packed decimal numbers *)

(** The tables are what they are called. *)
Lemma bcd_tables b : is_uint 8 b ->
  bin2bcd b = (if b <? 100 then b / 10 * 16 + b mod 10 else 255) /\
  bcd2bin b = (if (b / 16 <? 10) && (b mod 16 <? 10) then b / 16 * 10 + b mod 16 else 255).
Proof.
  intros Hb.
  assert (H : forallb (fun b => (bin2bcd b =? (if b <? 100 then b / 10 * 16 + b mod 10 else 255)) &&
    (bcd2bin b =? (if (b / 16 <? 10) && (b mod 16 <? 10) then b / 16 * 10 + b mod 16 else 255))) (count_up 256) = true) by (vm_compute; reflexivity).
  rewrite forallb_forall in H. specialize (H b). rewrite <- list_elem_of_In in H.
  destruct (andb_prop _ _ (H ltac:(apply elem_of_count_up; destruct Hb; lia))) as [E1%Z.eqb_eq E2%Z.eqb_eq]. done.
Qed.

Lemma bcd2bin_bin2bcd b : 0 <= b < 100 -> bcd2bin (bin2bcd b) = b /\ is_uint 8 (bin2bcd b).
Proof.
  intros Hb. destruct (bcd_tables b) as [-> _]; [split; lia|]. rewrite (proj2 (Z.ltb_lt b 100)) by lia.
  assert (Hr : is_uint 8 (b / 10 * 16 + b mod 10)) by (split; Z.div_mod_to_equations; lia). split; [|done].
  destruct (bcd_tables _ Hr) as [_ ->]. 
  assert (E1 : (b / 10 * 16 + b mod 10) / 16 = b / 10) by (Z.div_mod_to_equations; lia).
  assert (E2 : (b / 10 * 16 + b mod 10) mod 16 = b mod 10) by (Z.div_mod_to_equations; lia).
  rewrite E1, E2. rewrite !(proj2 (Z.ltb_lt _ _)) by (Z.div_mod_to_equations; lia). cbn [andb]. Z.div_mod_to_equations; lia.
Qed.

(** ** Positions *)

(** Frames from the start of the disc, and the packed position. *)
Definition frames (p : msf) : Z := let '(m, s, f) := p in m * (60 * 75) + s * 75 + f.
Definition packed (p : msf) : Z :=
  let '(m, s, f) := p in Z.lor (Z.lor (Z.shiftl (bin2bcd m) 16) (Z.shiftl (bin2bcd s) 8)) (bin2bcd f).

Lemma packed_bytes m s f :
  0 <= m < 100 -> 0 <= s < 100 -> 0 <= f < 100 ->
  Z.land (Z.shiftr (packed (m, s, f)) 16) 0xff = bin2bcd m /\
  Z.land (Z.shiftr (packed (m, s, f)) 8) 0xff = bin2bcd s /\
  Z.land (packed (m, s, f)) 0xff = bin2bcd f.
Proof.
  intros Hm Hs Hf. cbn [packed]. destruct (bcd2bin_bin2bcd m Hm) as [_ [? ?]], (bcd2bin_bin2bcd s Hs) as [_ [? ?]], (bcd2bin_bin2bcd f Hf) as [_ [? ?]].
  assert (E : Z.lor (Z.lor (Z.shiftl (bin2bcd m) 16) (Z.shiftl (bin2bcd s) 8)) (bin2bcd f) = (bin2bcd m * 256 + bin2bcd s) * 256 + bin2bcd f).
  { change 16 with (8 + 8). rewrite <- Z.shiftl_shiftl, <- Z.shiftl_lor by done. by rewrite !lor_shiftl_add by done. }
  rewrite E. change 0xff with (Z.ones 8). rewrite !Z.land_ones, !Z.shiftr_div_pow2 by done.
  change (2 ^ 16) with 65536. change (2 ^ 8) with 256 in *. split_and!; Z.div_mod_to_equations; lia.
Qed.

(** A position in frames, and the same position as packed minutes, seconds and
    frames, are the same place on the disc, and it is that many frames from the
    start; beyond 255 minutes the minutes wrap around. *)
Theorem position2msf_spec info pos stopping :
  0 <= pos < 100 * (60 * 75) ->
  exists p, position2msf info 0 pos stopping = Some p /\ position2msf info 1 (packed p) stopping = Some p /\ frames p = pos /\
    let '(m, s, f) := p in 0 <= m < 100 /\ 0 <= s < 60 /\ 0 <= f < 75.
Proof.
  intros Hp. exists (pos / (60 * 75), (pos / 75) mod 60, pos mod 75).
  assert (Hm : 0 <= pos / (60 * 75) < 100) by (Z.div_mod_to_equations; lia).
  assert (Hs : 0 <= (pos / 75) mod 60 < 60) by (Z.div_mod_to_equations; lia).
  assert (Hf : 0 <= pos mod 75 < 75) by (Z.div_mod_to_equations; lia).
  split; [unfold position2msf; cbn [Z.eqb]; by rewrite trunc_small by (split; lia)|].
  destruct (packed_bytes (pos / (60 * 75)) ((pos / 75) mod 60) (pos mod 75)) as (E1 & E2 & E3); [lia|lia|lia|].
  split; [unfold position2msf; cbn [Z.eqb Pos.eqb]; rewrite E1, E2, E3, !(fun b H => proj1 (bcd2bin_bin2bcd b H)) by lia; done|].
  split; [unfold frames; Z.div_mod_to_equations; lia|done].
Qed.

(** ** The table of contents *)

Definition entry_bytes (t : list Z) (i : Z) : list Z :=
  Z.land (Zlookup t (i + 1)) 0x0f :: msf_bcd (toc_msf t i).
Fixpoint entries (n : nat) (i : Z) (t : list Z) : list Z :=
  match n with O => [] | S n => entry_bytes t i ++ entries n (i + 8) t end.

(** The lead-out is the [k]th descriptor after the one at [i]. *)
Record lead_out_after (t : list Z) (i : Z) (k : nat) : Prop := {
  lo_toc : Z.of_nat (length t) = 804;
  lo_range : 0 <= i /\ i + 8 * Z.of_nat k + 8 <= 804;
  lo_here : Zlookup t (i + 8 * Z.of_nat k + 2) = 0xaa;
  lo_first j : 0 <= j < Z.of_nat k -> Zlookup t (i + 8 * j + 2) <> 0xaa;
}.

(** How many descriptors a buffer gets: the whole ones that fit, or up to the
    lead-out; all of them if the size is no multiple of four, because the rest
    of the size, below 4, wraps around. *)
Definition entry_count (buf_size : Z) (k : nat) : nat :=
  if buf_size mod 4 =? 0 then Nat.min (S k) (Z.to_nat (buf_size / 4)) else S k.

Lemma length_entries n t : forall i, Z.of_nat (length (entries n i t)) = 4 * Z.of_nat n.
Proof.
  induction n as [|n IH]; intros i; [done|]. cbn [entries]. rewrite length_app, Nat2Z.inj_add, IH.
  unfold entry_bytes, msf_bcd, toc_msf. cbn [length]. lia.
Qed.

Lemma toc_byte_in t i : 0 <= i < Z.of_nat (length t) -> toc_byte t i = Ok (Zlookup t i).
Proof. intros H. unfold toc_byte. by rewrite (proj2 (Z.leb_le _ _)), (proj2 (Z.ltb_lt _ _)) by lia. Qed.

Lemma write_bytes_app l1 l2 : forall a c, is_uint 32 a ->
  write_bytes a (l1 ++ l2) c = (c ← write_bytes a l1 c; write_bytes (u32 (a + Z.of_nat (length l1))) l2 c).
Proof.
  induction l1 as [|b l1 IH]; intros a c Ha; cbn [app write_bytes length].
  - rewrite Z.add_0_r. cbn [mbind outcome_bind]. by rewrite trunc_small.
  - destruct (WriteMacInt8 a b c) as [c1| | | |]; try done. cbn [mbind outcome_bind]. rewrite IH by by apply trunc_range.
    destruct (write_bytes _ l1 c1) as [c2| | | |]; try done. cbn [mbind outcome_bind]. f_equal. rewrite trunc_add_l. f_equal. lia.
Qed.

Lemma toc_fill_turn fuel t i k buf buf_size c :
  lead_out_after t i k -> is_uint 32 buf -> 0 < buf_size ->
  toc_fill (S fuel) buf buf_size i t c =
  (c ← write_bytes buf (entry_bytes t i) c;
   if Zlookup t (i + 2) =? 0xaa then Ok c else toc_fill fuel (u32 (buf + 4)) (u16 (buf_size - 4)) (i + 8) t c).
Proof.
  intros [Ht Hr _ _] Hbuf Hs. cbn [toc_fill]. rewrite (proj2 (Z.ltb_lt 0 buf_size)) by done. cbn [negb].
  rewrite !toc_byte_in by lia. unfold entry_bytes, msf_bcd, toc_msf. cbn [write_bytes mbind outcome_bind].
  assert (E2 : u32 (u32 (buf + 1) + 1) = u32 (buf + 2)) by (rewrite trunc_add_l; f_equal; lia).
  assert (E3 : u32 (u32 (buf + 2) + 1) = u32 (buf + 3)) by (rewrite trunc_add_l; f_equal; lia). rewrite E2, E3.
  repeat match goal with |- mbind _ ?m = mbind _ (mbind _ ?m) => destruct m as [?| | | |]; try done; cbn [mbind outcome_bind] end.
Qed.

(** The buffer gets the descriptors from the start track on up to the lead-out
    or the end of the buffer, packed into four bytes each; the loop ends, and
    does not leave the table. *)
Lemma toc_fill_spec t : forall k fuel i buf buf_size c,
  lead_out_after t i k -> is_uint 32 buf -> is_uint 16 buf_size -> (k < fuel)%nat ->
  toc_fill (S fuel) buf buf_size i t c = write_bytes buf (entries (entry_count buf_size k) i t) c.
Proof.
  induction k as [|k IH]; intros fuel i buf buf_size c H Hbuf [Hs0 Hs16] Hf; pose proof H as [Ht Hr Hhere Hfirst].
  - destruct (decide (buf_size = 0)) as [->|]; [done|]. rewrite (toc_fill_turn _ _ _ _ _ _ _ H) by (done || lia).
    rewrite Z.mul_0_r, Z.add_0_r in Hhere. rewrite Hhere. cbn [Z.eqb Pos.eqb].
    replace (entry_count buf_size 0) with 1%nat; cycle 1.
    { unfold entry_count. destruct (Z.eqb_spec (buf_size mod 4) 0); [|done]. Z.div_mod_to_equations; lia. }
    cbn [entries]. rewrite app_nil_r. by destruct (write_bytes _ _ _).
  - destruct (decide (buf_size = 0)) as [->|]; [done|]. rewrite (toc_fill_turn _ _ _ _ _ _ _ H) by (done || lia).
    pose proof (Hfirst 0 ltac:(lia)) as Hne. rewrite Z.mul_0_r, Z.add_0_r in Hne. rewrite (proj2 (Z.eqb_neq _ _)) by done.
    replace (entry_count buf_size (S k)) with (S (entry_count (u16 (buf_size - 4)) k)); cycle 1.
    { unfold entry_count. unfold trunc. change (2 ^ 16) with 65536 in *.
      destruct (Z.eqb_spec (buf_size mod 4) 0), (Z.eqb_spec ((buf_size - 4) mod 65536 mod 4) 0); Z.div_mod_to_equations; lia. }
    cbn [entries]. rewrite write_bytes_app by done. unfold mbind, outcome_bind.
    destruct (write_bytes buf (entry_bytes t i) c) as [c1| | | |]; try done. change (Z.of_nat (length (entry_bytes t i))) with 4.
    destruct fuel as [|fuel]; [lia|]. apply IH; [|by apply trunc_range|by apply trunc_range|lia].
    split; [done|lia| |].
    + rewrite <- Hhere. f_equal. lia.
    + intros j Hj. replace (i + 8 + 8 * j + 2) with (i + 8 * (j + 1) + 2) by lia. apply Hfirst. lia.
Qed.

Lemma bin2bcd_uint x : is_uint 8 (bin2bcd x).
Proof.
  assert (H : Forall (is_uint 8) bin2bcd_table) by (apply (bool_decide_eq_true_1 _); vm_compute; reflexivity).
  unfold bin2bcd, Zlookup. destruct (decide (Z.to_nat x < length bin2bcd_table)%nat) as [Hlt|Hge].
  - rewrite Forall_lookup in H. apply (H (Z.to_nat x)). by apply list_lookup_lookup_total_lt.
  - rewrite list_lookup_total_alt, lookup_ge_None_2 by lia. done.
Qed.

Lemma entries_bytes n t : forall i, Forall (is_uint 8) (entries n i t).
Proof.
  induction n as [|n IH]; intros i; cbn [entries]; [constructor|]. apply Forall_app_2; [|apply IH].
  unfold entry_bytes, msf_bcd, toc_msf. repeat constructor; try apply bin2bcd_uint.
  - apply Z.land_nonneg. by right.
  - change 0x0f with (Z.ones 4). rewrite Z.land_ones by done. pose proof (Z.mod_pos_bound (Zlookup t (i + 1)) (2 ^ 4)). lia.
Qed.

Lemma write_bytes_blit l : forall a c,
  Forall (is_uint 8) l -> mapped (length l) a (mem c) -> 0 <= a -> a + Z.of_nat (length l) <= 2 ^ 32 ->
  write_bytes a l c = Ok (set_mem (blit a l (mem c)) c).
Proof.
  induction l as [|b l IH]; intros a c Hl Hm H0 H32; cbn [write_bytes blit]; [by destruct c|].
  inversion Hl as [|? ? Hb Hl']; subst. cbn [length] in *. destruct (Hm a) as [x Hx]; [lia|].
  unfold WriteMacInt8, cpu_write, vm_write_memory_1, vm_do_get_real_address, vm_do_write_memory_1, store_1. rewrite Hx.
  cbn [mbind outcome_bind]. rewrite (trunc_small 8 b Hb).
  destruct l as [|b' l]; [by destruct c|]. rewrite trunc_small by (cbn [length] in *; split; lia). rewrite IH.
  - done.
  - done.
  - intros i Hi. change (mem (set_mem (<[a:=b]> (mem c)) c)) with (<[a:=b]> (mem c)). destruct (decide (i = a)) as [->|].
    + rewrite lookup_insert_eq. by eexists.
    + rewrite lookup_insert_ne by done. apply Hm. lia.
  - lia.
  - lia.
Qed.

Section Toc.
Context {B : Type} {SYS : SysFiles B} {CD : SysCD B}.

(** The call for any size.  A size that is no multiple of four does not bound the
    loop: it gets every descriptor up to the lead-out ([entry_count]). *)
Lemma read_toc_fills pb info (st : cdroms * B * powerpc_cpu) buf buf_size b i k :
  ReadMacInt16 (u32 (pb + csParam + 0)) (machine st) = Ok 3 ->
  ReadMacInt32 (u32 (pb + csParam + 2)) (machine st) = Ok buf ->
  ReadMacInt16 (u32 (pb + csParam + 6)) (machine st) = Ok buf_size ->
  ReadMacInt8 (u32 (pb + csParam + 8)) (machine st) = Ok b ->
  find_track (fun x => x =? bcd2bin b) (toc info) = Some i -> lead_out_after (toc info) i k -> mem_wf (mem (machine st)) ->
  let l := entries (entry_count buf_size k) i (toc info) in
  mapped (length l) buf (mem (machine st)) -> buf + Z.of_nat (length l) <= 2 ^ 32 ->
  read_toc_action pb info st = Ok (noErr, set_machine (set_mem (blit buf l (mem (machine st))) (machine st)) st).
Proof using.
  intros E0 E2 E6 E8 Ef Hlo Hw l Hm H32. unfold read_toc_action. rewrite E0. cbn [mbind outcome_bind Z.eqb Pos.eqb].
  rewrite E2. cbn [mbind outcome_bind]. rewrite E6. cbn [mbind outcome_bind]. rewrite E8. cbn [mbind outcome_bind]. rewrite Ef.
  assert (Hbuf : is_uint 32 buf).
  { rewrite ReadMacInt32_be in E2 by done. pose proof (load_be_range 4 (mem (machine st)) (u32 (pb + csParam + 2)) Hw) as H. by rewrite E2 in H. }
  assert (Hsz : is_uint 16 buf_size).
  { rewrite ReadMacInt16_be in E6 by done. pose proof (load_be_range 2 (mem (machine st)) (u32 (pb + csParam + 6)) Hw) as H. by rewrite E6 in H. }
  pose proof Hlo as [_ Hr _ _]. unfold on_machine. rewrite (toc_fill_spec _ k) by (done || lia).
  rewrite write_bytes_blit; [done|apply entries_bytes|done|by destruct Hbuf|done].
Qed.

(** C40: The call that reads the starts of the tracks, for a disc whose table has a
    lead-out after the requested track and a buffer whose size is a multiple of four:
    it puts into the buffer the packed descriptors from the requested track on, up to
    the lead-out or as many as fit, in order, and changes nothing else; it writes no
    more bytes than the size of the buffer, and does not leave the table. *)
Theorem read_toc_tracks pb info (st : cdroms * B * powerpc_cpu) buf buf_size b i k :
  ReadMacInt16 (u32 (pb + csParam + 0)) (machine st) = Ok 3 ->
  ReadMacInt32 (u32 (pb + csParam + 2)) (machine st) = Ok buf ->
  ReadMacInt16 (u32 (pb + csParam + 6)) (machine st) = Ok buf_size ->
  ReadMacInt8 (u32 (pb + csParam + 8)) (machine st) = Ok b ->
  find_track (fun x => x =? bcd2bin b) (toc info) = Some i ->
  lead_out_after (toc info) i k -> buf_size mod 4 = 0 -> mem_wf (mem (machine st)) ->
  let n := Nat.min (S k) (Z.to_nat (buf_size / 4)) in
  let l := entries n i (toc info) in
  mapped (length l) buf (mem (machine st)) -> buf + Z.of_nat (length l) <= 2 ^ 32 ->
  Z.of_nat (length l) = 4 * Z.of_nat n /\ 4 * Z.of_nat n <= buf_size /\
  read_toc_action pb info st = Ok (noErr, set_machine (set_mem (blit buf l (mem (machine st))) (machine st)) st).
Proof using.
  intros E0 E2 E6 E8 Ef Hlo H4 Hw n l Hm H32.
  assert (En : entry_count buf_size k = n) by (unfold entry_count; by rewrite (proj2 (Z.eqb_eq _ _) H4)).
  assert (Hsz : is_uint 16 buf_size).
  { rewrite ReadMacInt16_be in E6 by done. pose proof (load_be_range 2 (mem (machine st)) (u32 (pb + csParam + 6)) Hw) as H. by rewrite E6 in H. }
  split; [by apply length_entries|]. split; [destruct Hsz; Z.div_mod_to_equations; lia|]. unfold l in *. rewrite <- En in *.
  by apply (read_toc_fills pb info st buf buf_size b i k).
Qed.
End Toc.

(** ** Concrete inputs *)

Lemma position2msf_spec_witness :
  let info := Drive 1 1 512 (-1) 0 false true [] (0, 0, 0) (0, 0, 0) 9 0 0x300 in
  exists p, position2msf info 0 12345 false = Some p /\ position2msf info 1 (packed p) false = Some p /\ frames p = 12345.
Proof.
  intros info. destruct (position2msf_spec info 12345 false) as (p & E0 & E1 & E2 & _); [lia|].
  exists p. split; [exact E0|]. split; [exact E1|exact E2].
Defined.

(** Two tracks and the lead-out. *)
Definition two_tracks : list Z :=
  [0; 26; 1; 2;  0; 0x10; 1; 0; 0; 0; 2; 0;  0; 0x14; 2; 0; 0; 10; 30; 5;  0; 0x10; 0xaa; 0; 0; 60; 0; 0] ++ replicate 776 0.

(** A parameter block at 0x100 that asks for two tracks from 1 on, at 0x200. *)
Definition toc_state : cdroms * unit * powerpc_cpu :=
  (Cdroms [] true, tt,
   cpu_init (list_to_map (zip ((fun i => 0x11c + i) <$> count_up 9) [0; 3; 0; 0; 2; 0; 0; 8; 1]) ∪
             list_to_map (zip ((fun i => 0x200 + i) <$> count_up 8) (replicate 8 0)))).

Lemma read_toc_tracks_witness :
  let info := Drive 1 1 512 (-1) 0 false true two_tracks (60, 0, 0) (60, 0, 0) 9 0 0x300 in
  read_toc_action 0x100 info toc_state =
  Ok (noErr, set_machine (set_mem (blit 0x200 [0; 0; 2; 0; 4; 0x10; 0x30; 5] (mem (machine toc_state))) (machine toc_state)) toc_state).
Proof.
  intros info. refine (proj2 (proj2 (read_toc_tracks 0x100 info toc_state 0x200 8 1 4 2 _ _ _ _ _ _ _ _ _ _))).
  - vm_compute. reflexivity.
  - vm_compute. reflexivity.
  - vm_compute. reflexivity.
  - vm_compute. reflexivity.
  - reflexivity.
  - split; [reflexivity|lia|reflexivity|]. intros j Hj. assert (Hc : j = 0 \/ j = 1) by lia. by destruct Hc as [->| ->].
  - reflexivity.
  - apply (bool_decide_eq_true_1 _). vm_compute. reflexivity.
  - intros i Hi. change (length _) with 8%nat in Hi. apply lookup_union_is_Some. right.
    by apply (mapped_list 0x200 8 (replicate 8 0) 0x200 8).
  - change (length _) with 8%nat. lia.
Defined.
