(* ===== verification/Accel.v ===== *)
(** QuickDraw acceleration (gfxaccel.cpp): the hooks that decide whether an
    operation is taken over, and inverting, filling and copying rectangles of
    pixels.

    The frame buffer is guest memory.  What the host does to show a changed area is
    the class [Display]. *)
From S2P Require Import Prelude Bitfields Registers HostFPU Operations Memory Handlers BlockCache Cpu Operands ExecInt ExecMem ExecSys Thunks Glue Scsi.

(** ** Parameter blocks (include/video_defs.h) *)

Definition acclTransferMode := 0x0c.
Definition acclPenMode := 0x10.
Definition acclForePen := 0x1c.
Definition acclBackPen := 0x20.
Definition acclSrcBaseAddr := 0x30.
Definition acclSrcRowBytes := 0x34.
Definition acclSrcBoundsRect := 0x38.
Definition acclSrcPixelSize := 0x48.
Definition acclDestBaseAddr := 0x64.
Definition acclDestRowBytes := 0x68.
Definition acclDestBoundsRect := 0x6c.
Definition acclDestPixelSize := 0x7c.
Definition acclSrcRect := 0xcc.
Definition acclDestRect := 0xd4.
Definition acclDrawProc := 0x174.
Definition SIZEOF_accl_hook_info := 12.

Definition ACCL_BITBLT := 0.
Definition ACCL_FILLRECT := 2.

(** A field of the parameter block [p]. *)
Definition param32 (p ofs : Z) : powerpc_cpu -> outcome Z := ReadMacInt32 (u32 (p + ofs)).
(** [(int16)ReadMacInt16(p + a) - (int16)ReadMacInt16(p + b)], as an [int16]. *)
Definition param_diff (p a b : Z) (c : powerpc_cpu) : outcome Z :=
  x ← ReadMacInt16 (u32 (p + a)) c;
  y ← ReadMacInt16 (u32 (p + b)) c;
  Ok (s16 (s16 x - s16 y)).

Definition bytes_per_pixel (depth : Z) : outcome Z :=
  if depth =? 8 then Ok 1
  else if (depth =? 15) || (depth =? 16) then Ok 2
  else if (depth =? 24) || (depth =? 32) then Ok 4
  else Abort.

(** ** Rows of pixels

    [do_invrect] and [do_fillrect] treat a row by cells of 8, 4, 2 and 1 bytes; they
    differ in what they do with a cell: [cell w a] treats the [w] bytes at [a].  The
    host's unaligned accesses are cheap ([UNALIGNED_PROFITABLE]), so a row starts
    with the cells of 8 bytes. *)

Definition INVERT (w : nat) (a : Z) (m : memory) : outcome memory :=
  v ← load_le w m a; store_le w a (Z.lnot v) m.

(** [FILL_1] to [FILL_8]. *)
Definition FILL (color : Z) (w : nat) (a : Z) (m : memory) : outcome memory :=
  store_le w a (if (w =? 8)%nat then Z.lor (Z.shiftl color 32) color else color) m.

Section Row.
Context (cell : nat -> Z -> memory -> outcome memory).

(** [case k:] down to [case 1:]. *)
Fixpoint cells (k : nat) (dest : Z) (m : memory) : outcome memory :=
  match k with
  | O => Ok m
  | S k' => m ← cell 8 (dest - 8 * Z.of_nat k) m; cells k' dest m
  end.

(** [n] rounds of the [do] loop from its start. *)
Fixpoint rounds (n : nat) (dest : Z) (m : memory) : outcome (Z * memory) :=
  match n with
  | O => Ok (dest, m)
  | S n => m ← cells 8 (dest + 64) m; rounds n (dest + 64) m
  end.

(** The words of 8 bytes; the [switch] jumps into the first round. *)
Definition words_8 (length dest : Z) (m : memory) : outcome (Z * memory) :=
  if 8 <=? length then
    let r := (length / 8) mod 8 in
    let dest := dest + r * 8 in
    let n := Z.to_nat ((length / 8 + 7) / 8) in
    if r =? 0 then rounds n dest m
    else m ← cells (Z.to_nat r) dest m; rounds (n - 1) dest m
  else Ok (dest, m).

Definition do_rect (bpp dest length : Z) (m : memory) : outcome memory :=
  '(dest, m) ← words_8 length dest m;
  '(dest, m) ← (if negb (Z.land length 4 =? 0)
                then m ← cell 4 dest m; Ok (if bpp <=? 16 then dest + 4 else dest, m)
                else Ok (dest, m));
  '(dest, m) ← (if (bpp <=? 16) && negb (Z.land length 2 =? 0)
                then m ← cell 2 dest m; Ok (if bpp <=? 8 then dest + 2 else dest, m)
                else Ok (dest, m));
  if (bpp <=? 8) && negb (Z.land length 1 =? 0) then cell 1 dest m else Ok m.
End Row.

Definition do_invrect (bpp dest length : Z) : memory -> outcome memory := do_rect INVERT bpp dest length.
Definition do_fillrect (bpp dest color length : Z) : memory -> outcome memory :=
  do_rect (FILL color) bpp dest length.

(** [memmove(dst, src, n)], with [n] a [size_t]. *)
Definition memmove (dst src n : Z) (c : powerpc_cpu) : outcome powerpc_cpu :=
  l ← read_bytes (Z.to_nat n) src c;
  Host2Mac_memcpy dst l c.

(** ** Rectangles *)

(** [for (int i = 0; i < height; i++) { row(dest); dest += dest_row_bytes; }] *)
Fixpoint rows (row : Z -> memory -> outcome memory) (n : nat) (dest dest_row_bytes : Z) (m : memory)
  : outcome memory :=
  match n with
  | O => Ok m
  | S n => m ← row dest m; rows row n (dest + dest_row_bytes) dest_row_bytes m
  end.

Definition NQD_invrect (p : Z) (c : powerpc_cpu) : outcome powerpc_cpu :=
  dest_X ← param_diff p (acclDestRect + 2) (acclDestBoundsRect + 2) c;
  dest_Y ← param_diff p (acclDestRect + 0) (acclDestBoundsRect + 0) c;
  width ← param_diff p (acclDestRect + 6) (acclDestRect + 2) c;
  height ← param_diff p (acclDestRect + 4) (acclDestRect + 0) c;
  depth ← param32 p acclDestPixelSize c;
  bpp ← bytes_per_pixel (s32 depth);
  row_bytes ← param32 p acclDestRowBytes c;
  let dest_row_bytes := s32 row_bytes in
  base ← param32 p acclDestBaseAddr c;
  let dest := u32 (base + dest_Y * dest_row_bytes + dest_X * bpp) in
  let width := s16 (width * bpp) in
  cpu_write (rows (fun dest => do_invrect (8 * bpp) dest (u32 width)) (Z.to_nat height) dest dest_row_bytes) c.

Definition NQD_fillrect (p : Z) (c : powerpc_cpu) : outcome powerpc_cpu :=
  dest_X ← param_diff p (acclDestRect + 2) (acclDestBoundsRect + 2) c;
  dest_Y ← param_diff p (acclDestRect + 0) (acclDestBoundsRect + 0) c;
  width ← param_diff p (acclDestRect + 6) (acclDestRect + 2) c;
  height ← param_diff p (acclDestRect + 4) (acclDestRect + 0) c;
  pen_mode ← param32 p acclPenMode c;
  pen ← param32 p (if pen_mode =? 8 then acclForePen else acclBackPen) c;
  let color := generic_bswap_32 pen in
  depth ← param32 p acclDestPixelSize c;
  bpp ← bytes_per_pixel (s32 depth);
  row_bytes ← param32 p acclDestRowBytes c;
  let dest_row_bytes := s32 row_bytes in
  base ← param32 p acclDestBaseAddr c;
  let dest := u32 (base + dest_Y * dest_row_bytes + dest_X * bpp) in
  let width := s16 (width * bpp) in
  cpu_write (rows (fun dest => if bpp =? 1 then memset dest color (Z.to_nat (u64 width))
                               else do_fillrect (8 * bpp) dest color (u32 width))
               (Z.to_nat height) dest dest_row_bytes) c.

(** [n] times [memmove(dst, src, width)], then on to the next row. *)
Fixpoint move_rows (n : nat) (dst src width dst_step src_step : Z) (c : powerpc_cpu) : outcome powerpc_cpu :=
  match n with
  | O => Ok c
  | S n =>
      c ← memmove dst src width c;
      move_rows n (dst + dst_step) (src + src_step) width dst_step src_step c
  end.

Definition NQD_bitblt (p : Z) (c : powerpc_cpu) : outcome powerpc_cpu :=
  src_X ← param_diff p (acclSrcRect + 2) (acclSrcBoundsRect + 2) c;
  src_Y ← param_diff p (acclSrcRect + 0) (acclSrcBoundsRect + 0) c;
  dest_X ← param_diff p (acclDestRect + 2) (acclDestBoundsRect + 2) c;
  dest_Y ← param_diff p (acclDestRect + 0) (acclDestBoundsRect + 0) c;
  width ← param_diff p (acclDestRect + 6) (acclDestRect + 2) c;
  height ← param_diff p (acclDestRect + 4) (acclDestRect + 0) c;
  depth ← param32 p acclSrcPixelSize c;
  bpp ← bytes_per_pixel (s32 depth);
  let width := s16 (width * bpp) in
  src_bytes ← param32 p acclSrcRowBytes c;
  dst_bytes ← param32 p acclDestRowBytes c;
  src_base ← param32 p acclSrcBaseAddr c;
  dst_base ← param32 p acclDestBaseAddr c;
  if 0 <? s32 src_bytes then
    let src_row_bytes := s32 src_bytes in
    let dst_row_bytes := s32 dst_bytes in
    let src := u32 (src_base + src_Y * src_row_bytes + src_X * bpp) in
    let dst := u32 (dst_base + dest_Y * dst_row_bytes + dest_X * bpp) in
    move_rows (Z.to_nat height) dst src (u64 width) dst_row_bytes src_row_bytes c
  else
    let src_row_bytes := - s32 src_bytes in
    let dst_row_bytes := - s32 dst_bytes in
    let src := u32 (src_base + (src_Y + height - 1) * src_row_bytes + src_X * bpp) in
    let dst := u32 (dst_base + (dest_Y + height - 1) * dst_row_bytes + dest_X * bpp) in
    move_rows (Z.to_nat height) dst src (u64 width) (- dst_row_bytes) (- src_row_bytes) c.

(** ** Hooks *)

(** [a && b], where both may fault. *)
Definition and_also (a b : outcome bool) : outcome bool := x ← a; if (x : bool) then b else Ok false.
#[local] Infix "&&&" := and_also (at level 40, left associativity).

Class Display (V : Type) := {
  screen_base : V -> Z;
  video_set_dirty_area : Z -> Z -> Z -> Z -> V -> V;
}.
Arguments screen_base {V _}.
Arguments video_set_dirty_area {V _}.

Section Hooks.
Context {V : Type} {DISP : Display V} (native_op : list native_op_t).

Definition NQD_set_dirty_area (p : Z) (v : V) (c : powerpc_cpu) : outcome V :=
  base ← param32 p acclDestBaseAddr c;
  if base =? screen_base v then
    x ← param_diff p (acclDestRect + 2) (acclDestBoundsRect + 2) c;
    y ← param_diff p (acclDestRect + 0) (acclDestBoundsRect + 0) c;
    w ← param_diff p (acclDestRect + 6) (acclDestRect + 2) c;
    h ← param_diff p (acclDestRect + 4) (acclDestRect + 0) c;
    Ok (video_set_dirty_area x y w h v)
  else Ok v.

(** [WriteMacInt32(p + acclDrawProc, NativeTVECT(selector)); return true;] *)
Definition accept (p : Z) (selector : native_selector) (v : V) (c : powerpc_cpu)
  : outcome (bool * (V * powerpc_cpu)) :=
  tvect ← NativeTVECT native_op (selector_index selector);
  c ← WriteMacInt32 (u32 (p + acclDrawProc)) tvect c;
  Ok (true, (v, c)).

Definition NQD_fillrect_hook (p : Z) (v : V) (c : powerpc_cpu) : outcome (bool * (V * powerpc_cpu)) :=
  v ← NQD_set_dirty_area p v c;
  ok ← (x ← param32 p 0x284 c; Ok (negb (x =? 0))) &&&
       (x ← param32 p acclDestPixelSize c; Ok (8 <=? x));
  if ok : bool then
    transfer_mode ← param32 p acclTransferMode c;
    if s32 transfer_mode =? 8 then accept p NATIVE_NQD_FILLRECT v c
    else if s32 transfer_mode =? 10 then accept p NATIVE_NQD_INVRECT v c
    else Ok (false, (v, c))
  else Ok (false, (v, c)).

Definition bitblt_accelerated (p : Z) (c : powerpc_cpu) : outcome bool :=
  (x ← param32 p 0x018 c; y ← param32 p 0x128 c; Ok (u32 (x + y) =? 0)) &&&
  (x ← param32 p 0x130 c; Ok (x =? 0)) &&&
  (x ← param32 p acclSrcPixelSize c; Ok (8 <=? x)) &&&
  (x ← param32 p acclSrcPixelSize c; y ← param32 p acclDestPixelSize c; Ok (x =? y)) &&&
  (x ← param32 p acclSrcRowBytes c; y ← param32 p acclDestRowBytes c; Ok (0 <=? s32 (Z.lxor x y))) &&&
  (x ← param32 p acclTransferMode c; Ok (x =? 0)) &&&
  (x ← param32 p 0x15c c; Ok (0 <? s32 x)).

Definition NQD_bitblt_hook (p : Z) (v : V) (c : powerpc_cpu) : outcome (bool * (V * powerpc_cpu)) :=
  v ← NQD_set_dirty_area p v c;
  ok ← bitblt_accelerated p c;
  if ok : bool then accept p NATIVE_NQD_BITBLT v c else Ok (false, (v, c)).

Definition NQD_unknown_hook (arg : Z) (v : V) (c : powerpc_cpu) : outcome (bool * (V * powerpc_cpu)) :=
  v ← NQD_set_dirty_area arg v c;
  Ok (false, (v, c)).

Definition NQD_sync_hook (arg : Z) (v : V) (c : powerpc_cpu) : outcome (bool * (V * powerpc_cpu)) :=
  Ok (true, (v, c)).

(** ** Installation *)

Context (execute : emulation) (nqdmisc_tvect : Z).

(** [NQDMisc] (video.cpp). *)
Definition NQDMisc (arg1 arg2 : Z) (c : powerpc_cpu) : outcome powerpc_cpu :=
  '(_, c) ← call_macos execute nqdmisc_tvect [arg1; arg2] c;
  Ok c.

(** Fills in a hook's description, announces it, and goes on while it lives. *)
Definition with_hook (draw : native_selector) (code : Z) (body : powerpc_cpu -> outcome powerpc_cpu)
    (c : powerpc_cpu) : outcome powerpc_cpu :=
  '(_, c) ← with_SheepVar SIZEOF_accl_hook_info (fun base c =>
    f ← NativeTVECT native_op (selector_index draw);
    c ← WriteMacInt32 base f c;
    f ← NativeTVECT native_op (selector_index NATIVE_NQD_SYNC_HOOK);
    c ← WriteMacInt32 (u32 (base + 4)) f c;
    c ← WriteMacInt32 (u32 (base + 8)) code c;
    c ← NQDMisc 6 base c;
    c ← body c;
    Ok (tt, c)) c;
  Ok c.

(** [for (int op = 0; op < 8; op++)] *)
Fixpoint unknown_hooks (ops : list Z) (c : powerpc_cpu) : outcome powerpc_cpu :=
  match ops with
  | [] => Ok c
  | op :: ops =>
      if (op =? ACCL_BITBLT) || (op =? ACCL_FILLRECT) then unknown_hooks ops c
      else c ← with_hook NATIVE_NQD_UNKNOWN_HOOK op Ok c; unknown_hooks ops c
  end.

Definition VideoInstallAccel (gfxaccel : bool) (c : powerpc_cpu) : outcome powerpc_cpu :=
  if gfxaccel then
    with_hook NATIVE_NQD_BITBLT_HOOK ACCL_BITBLT
      (with_hook NATIVE_NQD_FILLRECT_HOOK ACCL_FILLRECT (unknown_hooks (count_up 8))) c
  else Ok c.
End Hooks.
