(* ===== verification/AccelSpec.v ===== *)
(** Theorems about QuickDraw acceleration: the unrolled loops treat exactly the
    pixels of a rectangle, and copying a rectangle is right in spite of overlaps,
    in either direction. *)
From S2P Require Import Prelude Bitfields Registers HostFPU Operations Memory Handlers BlockCache Cpu Operands ExecInt ExecMem ExecSys MacMem Thunks MacUtil Glue Scsi Accel.

(** ** Treating a range of bytes *)

(** [m'] is [m] with [f] applied to the bytes at [a] to [a + n - 1]. *)
Definition touched (f : Z -> Z -> Z) (a n : Z) (m m' : memory) : Prop :=
  forall i, m' !! i = if decide (a <= i < a + n) then f i <$> m !! i else m !! i.

Lemma touched_nil f a m : touched f a 0 m m.
Proof. intros i. by rewrite decide_False by lia. Qed.

Lemma touched_app f a n b k m m1 m2 :
  touched f a n m m1 -> touched f b k m1 m2 -> b = a + n -> 0 <= n -> 0 <= k -> touched f a (n + k) m m2.
Proof.
  intros H1 H2 -> Hn Hk i. rewrite H2, H1.
  destruct (decide (a + n <= i < a + n + k)), (decide (a <= i < a + n)), (decide (a <= i < a + (n + k))); lia || done.
Qed.

Lemma touched_ext f g a n m m' :
  (forall i b, a <= i < a + n -> f i b = g i b) -> touched f a n m m' -> touched g a n m m'.
Proof.
  intros E H i. rewrite H. destruct (decide _); [|done].
  destruct (m !! i); [|done]. cbn. by rewrite E.
Qed.

Lemma touched_mapped f a n k b m m' : touched f a n m m' -> mapped k b m -> mapped k b m'.
Proof. intros H Hm i Hi. rewrite H. destruct (decide _); [rewrite fmap_is_Some|]; by apply Hm. Qed.

Lemma touched_wf f a n m m' :
  (forall i b, is_uint 8 b -> is_uint 8 (f i b)) -> touched f a n m m' -> mem_wf m -> mem_wf m'.
Proof.
  intros Hf H Hm i b. rewrite H. destruct (decide _); [|apply Hm].
  intros (b0 & E & ->)%fmap_Some. apply Hf. by apply (Hm i).
Qed.

(** ** Cells *)

Lemma u8_shiftr_next v k : 0 <= k -> u8 (Z.shiftr (Z.shiftr v 8) (8 * k)) = u8 (Z.shiftr v (8 * (k + 1))).
Proof. intros. rewrite Z.shiftr_shiftr by lia. do 2 f_equal. lia. Qed.

Lemma store_le_touched w : forall a v m, mapped w a m ->
  exists m', store_le w a v m = Ok m' /\ touched (fun i _ => u8 (Z.shiftr v (8 * (i - a)))) a (Z.of_nat w) m m'.
Proof.
  induction w as [|w IH]; intros a v m Hm; [exists m; split; [done|apply touched_nil]|].
  cbn [store_le]. destruct (Hm a ltac:(lia)) as [b Hb]. unfold store_1 at 1. rewrite Hb. cbn [mbind outcome_bind].
  destruct (IH (a + 1) (Z.shiftr v 8) (<[a := u8 v]> m)) as (m' & -> & H).
  - intros i Hi. apply lookup_insert_is_Some'. right. apply Hm. lia.
  - exists m'. split; [done|]. intros i. rewrite H. destruct (decide (i = a)) as [->|Hne].
    + rewrite decide_False, decide_True by lia. by rewrite lookup_insert_eq, Hb, Z.sub_diag.
    + rewrite lookup_insert_ne by done.
      destruct (decide (a + 1 <= i < _)), (decide (a <= i < _)); try lia; [|done].
      destruct (m !! i); [|done]. cbn. rewrite u8_shiftr_next by lia. do 4 f_equal. lia.
Qed.

Lemma load_le_bytes w : forall a m, mem_wf m -> mapped w a m ->
  exists v, load_le w m a = Ok v /\ forall i, a <= i < a + Z.of_nat w -> m !! i = Some (u8 (Z.shiftr v (8 * (i - a)))).
Proof.
  induction w as [|w IH]; intros a m Hw Hm; [exists 0; split; [done|lia]|].
  cbn [load_le]. destruct (Hm a ltac:(lia)) as [b Hb]. unfold load_1 at 1. rewrite Hb. cbn [mbind outcome_bind].
  destruct (IH (a + 1) m Hw) as (r & -> & H); [intros i Hi; apply Hm; lia|].
  assert (Hb8 : is_uint 8 b) by exact (Hw a b Hb). eexists. split; [done|]. intros i Hi.
  destruct (decide (i = a)) as [->|Hne].
  - rewrite Hb, Z.sub_diag. f_equal. rewrite Z.shiftr_0_r. bits.
  - rewrite H by lia. f_equal. assert (1 <= i - a) by lia. replace (i - (a + 1)) with (i - a - 1) by lia.
    generalize dependent (i - a). intros k Hk. bits.
Qed.

Definition byte_not (_ b : Z) : Z := 255 - b.

Lemma u8_shiftr_lnot v k : 0 <= k -> u8 (Z.shiftr (Z.lnot v) k) = 255 - u8 (Z.shiftr v k).
Proof.
  intros Hk. assert (E : Z.shiftr (Z.lnot v) k = Z.lnot (Z.shiftr v k)) by (symmetry; by apply Z.lnot_shiftr).
  rewrite E. generalize (Z.shiftr v k). intros x. unfold trunc, Z.lnot. change (2 ^ 8) with 256.
  pose proof (Z.mod_pos_bound x 256). symmetry; apply Z.mod_unique with (- (x / 256) - 1); [lia|].
  pose proof (Z.div_mod x 256). lia.
Qed.

Lemma INVERT_touched w a m : mem_wf m -> mapped w a m ->
  exists m', INVERT w a m = Ok m' /\ touched byte_not a (Z.of_nat w) m m'.
Proof.
  intros Hw Hm. unfold INVERT. destruct (load_le_bytes w a m Hw Hm) as (v & -> & Hv). cbn [mbind outcome_bind].
  destruct (store_le_touched w a (Z.lnot v) m Hm) as (m' & -> & H). exists m'. split; [done|].
  intros i. rewrite H. destruct (decide _) as [Hi|]; [|done]. rewrite Hv by done. cbn. unfold byte_not.
  by rewrite u8_shiftr_lnot by lia.
Qed.

(** The bytes of a pattern of 32 bits, as the host stores it, over and over from [o]. *)
Definition pattern (color o : Z) (i _ : Z) : Z := u8 (Z.shiftr color (8 * ((i - o) mod 4))).

Lemma FILL_touched color o w a m :
  is_uint 32 color -> mapped w a m -> (a - o) mod 4 = 0 -> (w = 8 \/ w = 4 \/ w = 2)%nat ->
  exists m', FILL color w a m = Ok m' /\ touched (pattern color o) a (Z.of_nat w) m m'.
Proof.
  intros Hc Hm Ha Hw. unfold FILL.
  destruct (store_le_touched w a (if (w =? 8)%nat then Z.lor (Z.shiftl color 32) color else color) m Hm) as (m' & -> & H).
  exists m'. split; [done|]. refine (touched_ext _ _ _ _ _ _ _ H). intros i b Hi. unfold pattern. clear b H Hm.
  assert (E : (i - o) mod 4 = (i - a) mod 4).
  { replace (i - o) with ((i - a) + (a - o)) by lia. rewrite Zplus_mod, Ha, Z.add_0_r. apply Z.mod_mod. lia. }
  rewrite E. clear E Ha. assert (0 <= i - a < Z.of_nat w) as Hk by lia. clear Hi.
  generalize dependent (i - a). intros k Hk.
  destruct Hw as [->|[->| ->]]; cbn [Nat.eqb].
  - destruct (decide (k < 4)).
    + rewrite (Z.mod_small k) by lia. bits.
    + replace (k mod 4) with (k - 4) by (apply Z.mod_unique with 1; lia). bits.
  - by rewrite (Z.mod_small k) by lia.
  - by rewrite (Z.mod_small k) by lia.
Qed.

(** ** A row

    What a treatment promises of the cells of a row that starts at [o]. *)
Class RowCell (cell : nat -> Z -> memory -> outcome memory) (f : Z -> Z -> Z) (bpp o : Z) := {
  cell_bytes i b : is_uint 8 b -> is_uint 8 (f i b);
  cell_ok w a m : mem_wf m -> mapped w a m -> (w = 8 \/ w = 4 \/ w = 2)%nat -> (a - o) mod 4 = 0 ->
    exists m', cell w a m = Ok m' /\ touched f a (Z.of_nat w) m m';
  cell_last a m : bpp = 8 -> mem_wf m -> mapped 1 a m ->
    exists m', cell 1%nat a m = Ok m' /\ touched f a 1 m m';
}.

#[export] Instance INVERT_row bpp o : RowCell INVERT byte_not bpp o.
Proof.
  split.
  - unfold is_uint, byte_not. lia.
  - intros. by apply INVERT_touched.
  - intros a m _. by apply (INVERT_touched 1).
Qed.

Lemma FILL_row color bpp o : is_uint 32 color -> bpp <> 8 -> RowCell (FILL color) (pattern color o) bpp o.
Proof.
  intros Hc Hb. split; [|intros; by apply FILL_touched|done].
  intros. apply trunc_range. lia.
Qed.

Section Row.
Context {cell : nat -> Z -> memory -> outcome memory} {f : Z -> Z -> Z} {bpp o : Z} {ROW : RowCell cell f bpp o}.

(** From a well-formed memory [m], the computation treats the [n] bytes at [a]. *)
Definition treats (a n : Z) (m : memory) (r : outcome memory) : Prop :=
  exists m', r = Ok m' /\ touched f a n m m' /\ mem_wf m'.

Lemma treats_cell w a m : mem_wf m -> mapped w a m -> (w = 8 \/ w = 4 \/ w = 2)%nat -> (a - o) mod 4 = 0 ->
  treats a (Z.of_nat w) m (cell w a m).
Proof using ROW.
  intros Hw Hm Hc Ha. destruct (cell_ok w a m Hw Hm Hc Ha) as (m' & E & H). exists m'. split; [done|].
  split; [done|]. by apply (touched_wf _ _ _ _ _ cell_bytes H).
Qed.

Lemma treats_bind a n b k m r g :
  treats a n m r -> (forall m', touched f a n m m' -> mem_wf m' -> treats b k m' (g m')) ->
  b = a + n -> 0 <= n -> 0 <= k -> treats a (n + k) m (mbind g r).
Proof using.
  intros (m1 & -> & H1 & W1) Hg Hb Hn Hk. destruct (Hg m1 H1 W1) as (m2 & E & H2 & W2).
  exists m2. split; [exact E|]. split; [by apply (touched_app _ _ _ _ _ _ _ _ H1 H2)|done].
Qed.

Lemma mod_4_add a k : (a - o) mod 4 = 0 -> k mod 4 = 0 -> (a + k - o) mod 4 = 0.
Proof using. intros H1 H2. replace (a + k - o) with (a - o + k) by lia. by rewrite Zplus_mod, H1, H2. Qed.

Lemma cells_ok k : forall dest m, mem_wf m -> mapped (8 * k) (dest - 8 * Z.of_nat k) m -> (dest - o) mod 4 = 0 ->
  treats (dest - 8 * Z.of_nat k) (8 * Z.of_nat k) m (cells cell k dest m).
Proof using ROW.
  induction k as [|k IH]; intros dest m Hw Hm Hd.
  - exists m. split; [done|]. split; [apply touched_nil|done].
  - cbn [cells]. replace (8 * Z.of_nat (S k)) with (Z.of_nat 8 + 8 * Z.of_nat k) at 2 by lia.
    assert (Ha : (dest - 8 * Z.of_nat (S k) - o) mod 4 = 0).
    { apply (mod_4_add dest (- (8 * Z.of_nat (S k))) Hd). replace (- (8 * Z.of_nat (S k))) with (-2 * Z.of_nat (S k) * 4) by lia. by apply Z_mod_mult. }
    eapply treats_bind; [apply treats_cell; [done| |by left|done]| | | |].
    + intros i Hi. apply Hm. lia.
    + intros m' H Hw'. apply IH; [done| |done]. apply (touched_mapped _ _ _ _ _ _ _ H). intros i Hi. apply Hm. lia.
    + lia.
    + lia.
    + lia.
Qed.

(** The computation treats the [n] bytes at [a] and goes on behind them. *)
Definition advances (a n : Z) (m : memory) (r : outcome (Z * memory)) : Prop :=
  exists m', r = Ok (a + n, m') /\ touched f a n m m' /\ mem_wf m'.

Lemma advances_bind a n k m r g :
  treats a n m r -> (forall m', touched f a n m m' -> mem_wf m' -> advances (a + n) k m' (g m')) ->
  0 <= n -> 0 <= k -> advances a (n + k) m (mbind g r).
Proof using.
  intros (m1 & -> & H1 & W1) Hg Hn Hk. destruct (Hg m1 H1 W1) as (m2 & E & H2 & W2).
  exists m2. split; [cbn; rewrite E; do 2 f_equal; lia|]. split; [by apply (touched_app _ _ _ _ _ _ _ _ H1 H2)|done].
Qed.

Lemma rounds_ok n : forall dest m, mem_wf m -> mapped (64 * n) dest m -> (dest - o) mod 4 = 0 ->
  advances dest (64 * Z.of_nat n) m (rounds cell n dest m).
Proof using ROW.
  induction n as [|n IH]; intros dest m Hw Hm Hd.
  - exists m. split; [by rewrite Z.add_0_r|]. split; [apply touched_nil|done].
  - cbn [rounds]. replace (64 * Z.of_nat (S n)) with (64 + 64 * Z.of_nat n) by lia.
    apply advances_bind; [| |lia..].
    + replace dest with (dest + 64 - 8 * Z.of_nat 8) at 1 by lia. apply (cells_ok 8); [done| |by apply mod_4_add].
      intros i Hi. apply Hm. lia.
    + intros m' H Hw'. apply IH; [done| |by apply mod_4_add].
      apply (touched_mapped _ _ _ _ _ _ _ H). intros i Hi. apply Hm. lia.
Qed.

(** The jump into the first round treats the words that do not fill a round. *)
Lemma words_8_ok length dest m : 0 <= length -> mem_wf m -> mapped (Z.to_nat length) dest m -> (dest - o) mod 4 = 0 ->
  advances dest (8 * (length / 8)) m (words_8 cell length dest m).
Proof using ROW.
  intros Hl Hw Hm Hd. unfold words_8. pose proof (Z.div_mod length 8 ltac:(lia)) as E.
  pose proof (Z.mod_pos_bound length 8 ltac:(lia)). set (q := length / 8) in *. destruct (Z.leb_spec 8 length).
  2:{ replace (8 * q) with 0 by lia. exists m. split; [by rewrite Z.add_0_r|]. split; [apply touched_nil|done]. }
  pose proof (Z.div_mod q 8 ltac:(lia)) as Eq. pose proof (Z.mod_pos_bound q 8 ltac:(lia)).
  set (r := q mod 8) in *. set (k := q / 8) in *. destruct (Z.eqb_spec r 0) as [Er|].
  - replace ((q + 7) / 8) with k by (apply Z.div_unique with 7; lia).
    rewrite Er, Z.mul_0_l, Z.add_0_r. replace (8 * q) with (64 * Z.of_nat (Z.to_nat k)) by lia.
    apply rounds_ok; [done| |done]. intros i Hi. apply Hm. lia.
  - replace ((q + 7) / 8) with (k + 1) by (apply Z.div_unique with (r - 1); lia).
    replace (Z.to_nat (k + 1) - 1)%nat with (Z.to_nat k) by lia.
    replace (8 * q) with (8 * r + 64 * Z.of_nat (Z.to_nat k)) by lia.
    assert (Hd' : (dest + r * 8 - o) mod 4 = 0).
    { apply mod_4_add; [done|]. replace (r * 8) with (r * 2 * 4) by lia. by apply Z_mod_mult. }
    apply advances_bind; [| |lia..].
    + replace dest with (dest + r * 8 - 8 * Z.of_nat (Z.to_nat r)) at 1 by lia.
      replace (8 * r) with (8 * Z.of_nat (Z.to_nat r)) by lia. apply cells_ok; [done| |done].
      intros i Hi. apply Hm. lia.
    + intros m' H' Hw'. replace (dest + r * 8) with (dest + 8 * r) in * by lia. apply rounds_ok; [done| |done].
      apply (touched_mapped _ _ _ _ _ _ _ H'). intros i Hi. apply Hm. lia.
Qed.

Lemma advances_then a n k m r g :
  advances a n m r -> (forall m', touched f a n m m' -> mem_wf m' -> treats (a + n) k m' (g (a + n, m'))) ->
  0 <= n -> 0 <= k -> treats a (n + k) m (mbind g r).
Proof using.
  intros (m1 & -> & H1 & W1) Hg Hn Hk. destruct (Hg m1 H1 W1) as (m2 & E & H2 & W2).
  exists m2. split; [exact E|]. split; [by apply (touched_app _ _ _ _ _ _ _ _ H1 H2)|done].
Qed.

(** One of the tests after the words: a cell, or nothing. *)
Lemma advances_if (b : bool) w (next : Z) a m :
  mem_wf m -> (b = true -> mapped w a m) -> (w = 4 \/ w = 2)%nat -> (b = true -> (a - o) mod 4 = 0) ->
  (b = true -> next = a + Z.of_nat w) ->
  advances a (if b then Z.of_nat w else 0) m (if b then m ← cell w a m; Ok (next, m) else Ok (a, m)).
Proof using ROW.
  intros Hw Hm Hc Ha Hn. destruct b.
  - rewrite Hn by done. destruct (treats_cell w a m Hw (Hm eq_refl)) as (m' & -> & H & W); [tauto|auto|]. by exists m'.
  - exists m. split; [by rewrite Z.add_0_r|]. split; [apply touched_nil|done].
Qed.

(** When the last cell is followed by nothing, where the row goes on does not matter. *)
Lemma treats_if (b : bool) w (next : Z) a m g :
  mem_wf m -> (b = true -> mapped w a m) -> (w = 4 \/ w = 2)%nat -> (b = true -> (a - o) mod 4 = 0) ->
  (forall x m', g (x, m') = Ok m') ->
  treats a (if b then Z.of_nat w else 0) m (mbind g (if b then m ← cell w a m; Ok (next, m) else Ok (a, m))).
Proof using ROW.
  intros Hw Hm Hc Ha Hg. destruct b.
  - destruct (treats_cell w a m Hw (Hm eq_refl)) as (m' & -> & H & W); [tauto|auto|].
    cbn [mbind outcome_bind]. rewrite Hg. by exists m'.
  - cbn [mbind outcome_bind]. rewrite Hg. exists m. split; [done|]. split; [apply touched_nil|done].
Qed.

Lemma land_bit x p k : p = 2 ^ k -> 0 <= k -> negb (Z.land x p =? 0) = Z.testbit x k.
Proof using. intros -> ?. by apply Zb_land_bit. Qed.

Lemma low_bits x : 0 <= x -> x mod 8 = 4 * bZ (Z.testbit x 2) + 2 * bZ (Z.testbit x 1) + bZ (Z.testbit x 0).
Proof using.
  intros Hx. rewrite <- (Z.mod_pow2_bits_low x 3 2), <- (Z.mod_pow2_bits_low x 3 1), <- (Z.mod_pow2_bits_low x 3 0) by lia.
  change (2 ^ 3) with 8. pose proof (Z.mod_pos_bound x 8 ltac:(lia)) as Ht. set (t := x mod 8) in *. clearbody t.
  assert (t = 0 \/ t = 1 \/ t = 2 \/ t = 3 \/ t = 4 \/ t = 5 \/ t = 6 \/ t = 7) as E by lia.
  by destruct E as [->|[->|[->|[->|[->|[->|[->| ->]]]]]]].
Qed.

Lemma treats_last (b : bool) a m :
  bpp = 8 \/ b = false -> mem_wf m -> (b = true -> mapped 1 a m) ->
  treats a (bZ b) m (if b then cell 1 a m else Ok m).
Proof using ROW.
  intros Hb Hw Hm. destruct b; [|exists m; split; [done|]; split; [apply touched_nil|done]].
  destruct Hb as [Hb|]; [|done]. destruct (cell_last a m Hb Hw (Hm eq_refl)) as (m' & -> & H).
  exists m'. split; [done|]. split; [done|]. by apply (touched_wf _ _ _ _ _ cell_bytes H).
Qed.

(** The bytes that are left after the words; a narrow cell is for narrow pixels only. *)
Lemma tail_ok (b2 b1 b0 : bool) d m :
  bpp = 8 \/ bpp = 16 \/ bpp = 32 -> (b0 = true -> bpp = 8) -> (b1 = true -> bpp <> 32) ->
  (d - o) mod 4 = 0 -> mem_wf m -> mapped (Z.to_nat (4 * bZ b2 + 2 * bZ b1 + bZ b0)) d m ->
  treats d (4 * bZ b2 + 2 * bZ b1 + bZ b0) m
    ('(dest, m) ← (if b2 then m ← cell 4%nat d m; Ok (if bpp <=? 16 then d + 4 else d, m) else Ok (d, m));
     '(dest, m) ← (if (bpp <=? 16) && b1 then m ← cell 2%nat dest m; Ok (if bpp <=? 8 then dest + 2 else dest, m)
                   else Ok (dest, m));
     if (bpp <=? 8) && b0 then cell 1%nat dest m else Ok m).
Proof using ROW.
  intros Hb H0 H1 Hd Hw Hm.
  assert (D2 : b2 = true -> mapped 4 d m) by (intros ->; intros i Hi; apply Hm; cbn [bZ]; destruct b1, b0; cbn [bZ]; lia).
  replace (4 * bZ b2 + 2 * bZ b1 + bZ b0) with ((if b2 then Z.of_nat 4 else 0) + ((if b1 then Z.of_nat 2 else 0) + bZ b0)) in *
    by (destruct b2, b1; cbn [bZ]; lia).
  set (k2 := if b2 then Z.of_nat 4 else 0) in *. set (k1 := if b1 then Z.of_nat 2 else 0) in *.
  assert (K2 : k2 = 0 \/ k2 = 4) by (subst k2; destruct b2; auto).
  assert (K1 : k1 = 0 \/ (k1 = 2 /\ b1 = true)) by (subst k1; destruct b1; auto).
  assert (K0 : 0 <= bZ b0) by (destruct b0; done).
  assert (Hd2 : (d + k2 - o) mod 4 = 0) by (apply mod_4_add; [done|]; by destruct K2 as [->| ->]).
  assert (M1 : forall m', touched f d k2 m m' -> b1 = true -> mapped 2 (d + k2) m').
  { intros m' H E. apply (touched_mapped _ _ _ _ _ _ _ H). intros i Hi. apply Hm. subst k1. rewrite E. lia. }
  destruct Hb as [Hb|[Hb|Hb]]; rewrite Hb; cbn [Z.leb Z.compare Pos.compare Pos.compare_cont andb].
  - apply advances_then; [apply advances_if; auto| |lia..]. intros m1 T1 W1.
    apply advances_then; [apply advances_if; auto| |lia..]. intros m2 T2 W2.
    apply treats_last; [auto|done|]. intros ->. apply (touched_mapped _ _ _ _ _ _ _ T2), (touched_mapped _ _ _ _ _ _ _ T1).
    intros i Hi. apply Hm. cbn [bZ]. lia.
  - destruct b0; [specialize (H0 eq_refl); lia|]. rewrite !Z.add_0_r in *.
    apply advances_then; [apply advances_if; auto| |lia..]. intros m1 T1 W1. apply treats_if; auto.
  - destruct b0; [specialize (H0 eq_refl); lia|]. destruct b1; [by destruct H1|]. subst k1. rewrite !Z.add_0_r in *.
    apply treats_if; auto.
Qed.

(** A row of whole pixels. *)
Lemma do_rect_ok length m :
  bpp = 8 \/ bpp = 16 \/ bpp = 32 -> 0 <= length -> (8 * length) mod bpp = 0 ->
  mem_wf m -> mapped (Z.to_nat length) o m -> treats o length m (do_rect cell bpp o length m).
Proof using ROW.
  intros Hb Hl Hdiv Hw Hm. unfold do_rect. pose proof (Z.div_mod length 8 ltac:(lia)) as E.
  pose proof (Z.mod_pos_bound length 8 ltac:(lia)) as Ht. rewrite E at 1.
  apply advances_then; [apply words_8_ok; [done..|by rewrite Z.sub_diag]| |lia..].
  intros m1 H1 W1. rewrite (land_bit length 4 2), (land_bit length 2 1), (land_bit length 1 0) by done.
  pose proof (low_bits length Hl) as Eb. pose proof (Z.div_mod (8 * length) bpp ltac:(lia)) as Eq. rewrite Hdiv in Eq.
  assert (M1 : mapped (Z.to_nat (length mod 8)) (o + 8 * (length / 8)) m1).
  { apply (touched_mapped _ _ _ _ _ _ _ H1). intros i Hi. apply Hm. lia. }
  rewrite Eb in *. apply tail_ok; [done| | |apply mod_4_add|done|done].
  - intros B. rewrite B in *. cbn [bZ] in *. destruct (Z.testbit length 1), (Z.testbit length 2); cbn [bZ] in *; lia.
  - intros B. rewrite B in *. cbn [bZ] in *. destruct (Z.testbit length 0), (Z.testbit length 2); cbn [bZ] in *; lia.
  - by rewrite Z.sub_diag.
  - replace (8 * (length / 8)) with (length / 8 * 2 * 4) by lia. by apply Z_mod_mult.
Qed.
End Row.

(** ** Rectangles *)

(** [n] rows of [w] bytes, the first at [a], each [s] behind the one before: [m'] is
    [m] with [f] applied to the bytes of the rows, given their place in the row. *)
Record rect_treated (f : Z -> Z -> Z) (a s w n : Z) (m m' : memory) : Prop := {
  rect_inside y x : 0 <= y < n -> 0 <= x < w -> m' !! (a + y * s + x) = f x <$> m !! (a + y * s + x);
  rect_outside i : (forall y, 0 <= y < n -> ~ (a + y * s <= i < a + y * s + w)) -> m' !! i = m !! i;
}.

(** The bytes of the rows are mapped. *)
Definition rect_mapped (a s w n : Z) (m : memory) : Prop :=
  forall y, 0 <= y < n -> mapped (Z.to_nat w) (a + y * s) m.

Definition row_ok (f : Z -> Z -> Z) (w : Z) (row : Z -> memory -> outcome memory) : Prop :=
  forall a m, mem_wf m -> mapped (Z.to_nat w) a m ->
    exists m', row a m = Ok m' /\ touched (fun i => f (i - a)) a w m m' /\ mem_wf m'.

Lemma rows_ok f w s row n : forall a m,
  row_ok f w row -> 0 <= w <= Z.abs s -> mem_wf m -> rect_mapped a s w (Z.of_nat n) m ->
  exists m', rows row n a s m = Ok m' /\ rect_treated f a s w (Z.of_nat n) m m'.
Proof.
  induction n as [|n IH]; intros a m Hrow Hs Hw Hm; cbn [rows].
  { exists m. split; [done|]. split; [lia|done]. }
  destruct (Hrow a m Hw) as (m1 & -> & H1 & W1).
  { specialize (Hm 0 ltac:(lia)). by rewrite Z.mul_0_l, Z.add_0_r in Hm. }
  cbn [mbind outcome_bind]. destruct (IH (a + s) m1 Hrow Hs W1) as (m' & -> & [Hin Hout]).
  { intros y Hy. apply (touched_mapped _ _ _ _ _ _ _ H1). replace (a + s + y * s) with (a + (y + 1) * s) by lia. apply Hm. lia. }
  exists m'. split; [done|]. split.
  - intros y x Hy Hx. destruct (decide (y = 0)) as [->|].
    + rewrite Hout by (intros; nia). rewrite H1, decide_True by lia.
      by replace (a + 0 * s + x - a) with x by lia.
    + specialize (Hin (y - 1) x ltac:(lia) Hx). replace (a + s + (y - 1) * s + x) with (a + y * s + x) in Hin by lia.
      rewrite Hin, H1, decide_False by nia. done.
  - intros i Hi. rewrite Hout.
    + rewrite H1, decide_False; [done|]. specialize (Hi 0 ltac:(lia)). by rewrite Z.mul_0_l, Z.add_0_r in Hi.
    + intros y Hy. specialize (Hi (y + 1) ltac:(lia)). by replace (a + (y + 1) * s) with (a + s + y * s) in Hi by lia.
Qed.

(** What the parameter block [p] asks for: the place [X], [Y] and size [W], [H] of the
    destination, in pixels of [bpp] bytes; the first byte [base] and the distance [rb]
    of rows of the pixel map. *)
Record dest_block (p : Z) (c : powerpc_cpu) (X Y W H bpp rb base : Z) : Prop := {
  block_X : param_diff p (acclDestRect + 2) (acclDestBoundsRect + 2) c = Ok X;
  block_Y : param_diff p (acclDestRect + 0) (acclDestBoundsRect + 0) c = Ok Y;
  block_W : param_diff p (acclDestRect + 6) (acclDestRect + 2) c = Ok W;
  block_H : param_diff p (acclDestRect + 4) (acclDestRect + 0) c = Ok H;
  block_bpp : (v ← param32 p acclDestPixelSize c; bytes_per_pixel (s32 v)) = Ok bpp;
  block_rb : (v ← param32 p acclDestRowBytes c; Ok (s32 v)) = Ok rb;
  block_base : param32 p acclDestBaseAddr c = Ok base;
}.

Lemma bytes_per_pixel_cases depth bpp : bytes_per_pixel depth = Ok bpp -> bpp = 1 \/ bpp = 2 \/ bpp = 4.
Proof.
  unfold bytes_per_pixel. destruct (depth =? 8); [|destruct (_ || _); [|destruct (_ || _)]];
    intros E; simplify_eq; auto.
Qed.

(** A row of [w] bytes as the two operations treat it. *)
Lemma invrect_row bpp w : bpp = 1 \/ bpp = 2 \/ bpp = 4 -> 0 <= w -> w mod bpp = 0 ->
  row_ok byte_not w (fun dest => do_invrect (8 * bpp) dest w).
Proof.
  intros Hb Hw Hd a m Hm Ha. unfold do_invrect.
  apply (do_rect_ok (cell := INVERT) (f := fun i => byte_not (i - a)) (bpp := 8 * bpp) (o := a)); [lia|done| |done|done].
  rewrite Z.mul_mod_distr_l by lia. by rewrite Hd.
Qed.

(** The bytes of a pen, from the most significant one on, over and over. *)
Definition pen_byte (pen bpp : Z) (x _ : Z) : Z := u8 (Z.shiftr pen (8 * (3 - if bpp =? 1 then 0 else x mod 4))).

Lemma memset_touched color n : forall a m, mapped n a m ->
  exists m', memset a color n m = Ok m' /\ touched (fun _ _ => u8 color) a (Z.of_nat n) m m'.
Proof.
  induction n as [|n IH]; intros a m Hm; [exists m; split; [done|apply touched_nil]|].
  cbn [memset]. destruct (Hm a ltac:(lia)) as [b Hb]. unfold store_1 at 1. rewrite Hb. cbn [mbind outcome_bind].
  destruct (IH (a + 1) (<[a := u8 color]> m)) as (m' & -> & H).
  - intros i Hi. apply lookup_insert_is_Some'. right. apply Hm. lia.
  - exists m'. split; [done|]. intros i. rewrite H. destruct (decide (i = a)) as [->|Hne].
    + rewrite decide_False, decide_True by lia. by rewrite lookup_insert_eq, Hb.
    + rewrite lookup_insert_ne by done.
      destruct (decide (a + 1 <= i < _)), (decide (a <= i < _)); try lia; done.
Qed.

Lemma bswap_byte pen k : is_uint 32 pen -> 0 <= k < 4 ->
  u8 (Z.shiftr (generic_bswap_32 pen) (8 * k)) = u8 (Z.shiftr pen (8 * (3 - k))).
Proof. intros Hp Hk. rewrite <- (trunc_small 32 pen Hp) at 1. by apply bswap_32_byte. Qed.

Lemma bswap_range pen : is_uint 32 pen -> is_uint 32 (generic_bswap_32 pen).
Proof.
  intros Hp. unfold generic_bswap_32. block_masks.
  apply is_uint_bits; [lia| |].
  - repeat (apply Z.lor_nonneg; split); rewrite ?Z.shiftr_nonneg, ?Z.shiftl_nonneg; apply Z.land_nonneg; right;
      rewrite ?Z.shiftl_nonneg; done.
  - intros i Hi. push_testbit. split_cmp; close_bits.
Qed.

Lemma fillrect_row bpp w pen : bpp = 1 \/ bpp = 2 \/ bpp = 4 -> 0 <= w -> w mod bpp = 0 -> is_uint 32 pen ->
  row_ok (pen_byte pen bpp) w
    (fun dest => if bpp =? 1 then memset dest (generic_bswap_32 pen) (Z.to_nat w)
                 else do_fillrect (8 * bpp) dest (generic_bswap_32 pen) w).
Proof.
  intros Hb Hw Hd Hp a m Hm Ha. unfold pen_byte. destruct (Z.eqb_spec bpp 1) as [->|].
  - destruct (memset_touched (generic_bswap_32 pen) (Z.to_nat w) a m Ha) as (m' & -> & H). rewrite Z2Nat.id in H by done.
    exists m'. split; [done|]. pose proof (bswap_byte pen 0 Hp ltac:(lia)) as E0.
    rewrite Z.mul_0_r, Z.shiftr_0_r in E0. rewrite E0 in H. split; [done|].
    apply (touched_wf _ _ _ _ _ (fun _ _ _ => trunc_range 8 _ ltac:(lia)) H Hm).
  - pose proof (FILL_row (generic_bswap_32 pen) (8 * bpp) a (bswap_range pen Hp) ltac:(lia)) as ROW.
    destruct (do_rect_ok (cell := FILL (generic_bswap_32 pen)) (f := pattern (generic_bswap_32 pen) a)
      (bpp := 8 * bpp) (o := a) w m) as (m' & E & H & W); [lia|done| |done|done|].
    { rewrite Z.mul_mod_distr_l by lia. by rewrite Hd. }
    exists m'. split; [done|]. split; [|done]. refine (touched_ext _ _ _ _ _ _ _ H). intros i b Hi. unfold pattern.
    apply bswap_byte; [done|]. apply Z.mod_pos_bound. lia.
Qed.

Lemma read32_range a c v : mem_wf (mem c) -> ReadMacInt32 a c = Ok v -> is_uint 32 v.
Proof. intros Hw E. rewrite ReadMacInt32_be in E by done. pose proof (load_be_range 4 (mem c) a Hw) as R. by rewrite E in R. Qed.

Section Rect.
Context {p : Z} {c : powerpc_cpu} {X Y W H bpp rb base : Z}.
Hypotheses (Hblock : dest_block p c X Y W H bpp rb base) (Hwf : mem_wf (mem c)) (HW : 0 <= W) (HH : 0 <= H)
  (Hwide : W * bpp < 2 ^ 15) (Hrows : W * bpp <= Z.abs rb).
Let dest := u32 (base + Y * rb + X * bpp).
Hypothesis Hmap : rect_mapped dest rb (W * bpp) H (mem c).

Lemma block_pixels : bpp = 1 \/ bpp = 2 \/ bpp = 4.
Proof using Hblock.
  destruct Hblock as [_ _ _ _ E _ _]. apply outcome_bind_Ok in E as (d & _ & E). by eapply bytes_per_pixel_cases.
Qed.

Lemma block_width : s16 (W * bpp) = W * bpp /\ (W * bpp) mod bpp = 0.
Proof using Hblock HW Hwide.
  destruct block_pixels as [E|[E|E]]; (split; [rewrite sext_small; lia|by rewrite Z_mod_mult]).
Qed.

Lemma NQD_invrect_treats :
  exists m', NQD_invrect p c = Ok (set_mem m' c) /\ rect_treated byte_not dest rb (W * bpp) H (mem c) m'.
Proof using All.
  destruct block_width as [Ew Hd]. pose proof block_pixels as Hb.
  destruct Hblock as [E1 E2 E3 E4 E5 E6 E7]. apply outcome_bind_Ok in E5 as (d & E5 & E5'), E6 as (v & E6 & [= E6']).
  unfold NQD_invrect. rewrite E1, E2, E3, E4, E5. cbn [mbind outcome_bind]. rewrite E5', E6, E7. cbn [mbind outcome_bind].
  rewrite E6', Ew, trunc_small by (split; lia). fold dest.
  destruct (rows_ok byte_not (W * bpp) rb (fun dest => do_invrect (8 * bpp) dest (W * bpp)) (Z.to_nat H) dest (mem c))
    as (m' & E & Ht); [apply invrect_row; [done|nia|done]|split; nia|done|by rewrite Z2Nat.id|].
  unfold cpu_write. rewrite E. exists m'. by rewrite Z2Nat.id in Ht.
Qed.

Lemma NQD_fillrect_treats pen_mode pen :
  param32 p acclPenMode c = Ok pen_mode ->
  param32 p (if pen_mode =? 8 then acclForePen else acclBackPen) c = Ok pen ->
  exists m', NQD_fillrect p c = Ok (set_mem m' c) /\ rect_treated (pen_byte pen bpp) dest rb (W * bpp) H (mem c) m'.
Proof using All.
  intros Epm Epen. destruct block_width as [Ew Hd]. pose proof block_pixels as Hb.
  assert (Hp : is_uint 32 pen) by (by apply (read32_range _ _ _ Hwf Epen)).
  destruct Hblock as [E1 E2 E3 E4 E5 E6 E7]. apply outcome_bind_Ok in E5 as (d & E5 & E5'), E6 as (v & E6 & [= E6']).
  unfold NQD_fillrect. rewrite E1, E2, E3, E4, Epm. cbn [mbind outcome_bind]. rewrite Epen, E5. cbn [mbind outcome_bind].
  rewrite E5', E6, E7. cbn [mbind outcome_bind]. rewrite E6', Ew, !trunc_small by (split; lia). fold dest.
  destruct (rows_ok (pen_byte pen bpp) (W * bpp) rb (fun dest => if bpp =? 1 then memset dest (generic_bswap_32 pen) (Z.to_nat (W * bpp))
    else do_fillrect (8 * bpp) dest (generic_bswap_32 pen) (W * bpp)) (Z.to_nat H) dest (mem c))
    as (m' & E & Ht); [apply fillrect_row; [done|nia|done|done]|split; nia|done|by rewrite Z2Nat.id|].
  unfold cpu_write. rewrite E. exists m'. by rewrite Z2Nat.id in Ht.
Qed.

End Rect.

(** C34: Inverting a rectangle complements every byte of its pixels; filling it
    repeats the pen's bytes along each of its rows; neither changes any other
    byte.  The loops by words of eight, four, two and one bytes leave out and
    repeat nothing, for every alignment and for pixels of one, two and four
    bytes, when a row of the rectangle has fewer than 32768 bytes, rows are at
    least that far apart, and the rectangle is mapped. *)
Theorem NQD_rect_spec p c X Y W H bpp rb base pen_mode pen :
  dest_block p c X Y W H bpp rb base -> mem_wf (mem c) ->
  0 <= W -> 0 <= H -> W * bpp < 2 ^ 15 -> W * bpp <= Z.abs rb ->
  let dest := u32 (base + Y * rb + X * bpp) in
  rect_mapped dest rb (W * bpp) H (mem c) ->
  param32 p acclPenMode c = Ok pen_mode ->
  param32 p (if pen_mode =? 8 then acclForePen else acclBackPen) c = Ok pen ->
  (exists m', NQD_invrect p c = Ok (set_mem m' c) /\ rect_treated byte_not dest rb (W * bpp) H (mem c) m') /\
  (exists m', NQD_fillrect p c = Ok (set_mem m' c) /\ rect_treated (pen_byte pen bpp) dest rb (W * bpp) H (mem c) m').
Proof.
  intros Hblock Hwf HW HH Hwide Hrows dest Hmap Epm Epen. split.
  - by apply (NQD_invrect_treats Hblock Hwf HW HH Hwide Hrows Hmap).
  - by apply (NQD_fillrect_treats Hblock Hwf HW HH Hwide Hrows Hmap pen_mode pen).
Qed.

(** ** Copying *)

Lemma read_bytes_total n : forall a c, mem_wf (mem c) -> mapped n a (mem c) ->
  exists l, read_bytes n a c = Ok l /\ length l = n /\ Forall (is_uint 8) l /\
    forall k, (k < n)%nat -> l !! k = mem c !! (a + Z.of_nat k).
Proof.
  induction n as [|n IH]; intros a c Hw Hm; cbn [read_bytes].
  { exists []. split; [done|]. split; [done|]. split; [constructor|lia]. }
  destruct (Hm a ltac:(lia)) as [b Hb]. unfold load_1. rewrite Hb. cbn [mbind outcome_bind].
  destruct (IH (a + 1) c Hw) as (l & -> & Hl & Hf & Hk); [intros i Hi; apply Hm; lia|].
  exists (b :: l). split; [done|]. split; [cbn; lia|]. split.
  - constructor; [exact (Hw a b Hb)|done].
  - intros [|k] ?; cbn [lookup list_lookup]; [by rewrite Z.add_0_r|]. rewrite Hk by lia. f_equal. lia.
Qed.

Lemma memcpy_blit l : forall a m, Forall (is_uint 8) l -> mapped (length l) a m -> memcpy a l m = Ok (blit a l m).
Proof.
  induction l as [|b l IH]; intros a m Hl Hm; [done|]. apply Forall_cons in Hl as [Hb Hl]. cbn [memcpy blit length] in *.
  destruct (Hm a ltac:(lia)) as [x Hx]. unfold store_1 at 1. rewrite Hx. cbn [mbind outcome_bind].
  rewrite (trunc_small 8 b Hb). apply IH; [done|]. intros i Hi. apply lookup_insert_is_Some'. right. apply Hm. lia.
Qed.

(** Even when they overlap, the bytes arrive as they were. *)
Lemma memmove_moves dst src w c : mem_wf (mem c) -> 0 <= w ->
  mapped (Z.to_nat w) src (mem c) -> mapped (Z.to_nat w) dst (mem c) ->
  exists m', memmove dst src w c = Ok (set_mem m' c) /\ mem_wf m' /\ dom m' = dom (mem c) /\
    (forall x, 0 <= x < w -> m' !! (dst + x) = mem c !! (src + x)) /\
    (forall i, ~ (dst <= i < dst + w) -> m' !! i = mem c !! i).
Proof.
  intros Hw H0 Hs Hd. unfold memmove. destruct (read_bytes_total _ _ _ Hw Hs) as (l & -> & Hl & Hf & Hk).
  cbn [mbind outcome_bind]. unfold Host2Mac_memcpy, cpu_write, vm_do_get_real_address.
  rewrite <- Hl in Hd. rewrite (memcpy_blit l dst (mem c) Hf Hd). exists (blit dst l (mem c)). split; [done|].
  split; [by apply blit_wf|]. split; [by apply blit_dom|]. split.
  - intros x Hx. rewrite blit_lookup, decide_True by lia. rewrite Hk by lia. f_equal. lia.
  - intros i Hi. apply blit_frame. lia.
Qed.

(** Row by row, in an order in which no row is overwritten before it is read. *)
Lemma move_rows_ok w n : forall dst src ds ss c,
  mem_wf (mem c) -> 0 <= w <= Z.abs ds ->
  rect_mapped src ss w (Z.of_nat n) (mem c) -> rect_mapped dst ds w (Z.of_nat n) (mem c) ->
  (forall i j, 0 <= i < j -> j < Z.of_nat n -> dst + i * ds + w <= src + j * ss \/ src + j * ss + w <= dst + i * ds) ->
  exists m', move_rows n dst src w ds ss c = Ok (set_mem m' c) /\
    (forall y x, 0 <= y < Z.of_nat n -> 0 <= x < w -> m' !! (dst + y * ds + x) = mem c !! (src + y * ss + x)) /\
    (forall i, (forall y, 0 <= y < Z.of_nat n -> ~ (dst + y * ds <= i < dst + y * ds + w)) -> m' !! i = mem c !! i).
Proof.
  induction n as [|n IH]; intros dst src ds ss c Hw Hd Hms Hmd Hord; cbn [move_rows].
  { exists (mem c). split; [by destruct c|]. split; [lia|done]. }
  destruct (memmove_moves dst src w c Hw ltac:(lia)) as (m1 & -> & W1 & D1 & C1 & F1).
  { specialize (Hms 0 ltac:(lia)). by rewrite Z.mul_0_l, Z.add_0_r in Hms. }
  { specialize (Hmd 0 ltac:(lia)). by rewrite Z.mul_0_l, Z.add_0_r in Hmd. }
  cbn [mbind outcome_bind].
  destruct (IH (dst + ds) (src + ss) ds ss (set_mem m1 c)) as (m' & E & Hin & Hout); [done|done| | | |].
  - intros y Hy. apply (mapped_cong _ _ (mem c)); [done|]. replace (src + ss + y * ss) with (src + (y + 1) * ss) by lia. apply Hms. lia.
  - intros y Hy. apply (mapped_cong _ _ (mem c)); [done|]. replace (dst + ds + y * ds) with (dst + (y + 1) * ds) by lia. apply Hmd. lia.
  - intros i j Hij Hj. specialize (Hord (i + 1) (j + 1) ltac:(lia) ltac:(lia)). lia.
  - change (mem (set_mem m1 c)) with m1 in *. exists m'. split; [exact E|]. split.
    + intros y x Hy Hx. destruct (decide (y = 0)) as [->|].
      * rewrite Hout by (intros; nia). rewrite !Z.mul_0_l, !Z.add_0_r. by apply C1.
      * specialize (Hin (y - 1) x ltac:(lia) Hx).
        replace (dst + ds + (y - 1) * ds + x) with (dst + y * ds + x) in Hin by lia.
        replace (src + ss + (y - 1) * ss + x) with (src + y * ss + x) in Hin by lia.
        rewrite Hin. apply F1. specialize (Hord 0 y ltac:(lia) ltac:(lia)). lia.
    + intros i Hi. rewrite Hout.
      * apply F1. specialize (Hi 0 ltac:(lia)). by rewrite Z.mul_0_l, Z.add_0_r in Hi.
      * intros y Hy. specialize (Hi (y + 1) ltac:(lia)). by replace (dst + (y + 1) * ds) with (dst + ds + y * ds) in Hi by lia.
Qed.

(** The parameter block of a copy: the pixel maps' first bytes and distances of rows,
    and the rectangles' places in them.  A negative distance of rows stands for a copy
    from the last row to the first. *)
Record copy_block (p : Z) (c : powerpc_cpu) (sX sY dX dY W H bpp srb drb sbase dbase : Z) : Prop := {
  copy_sX : param_diff p (acclSrcRect + 2) (acclSrcBoundsRect + 2) c = Ok sX;
  copy_sY : param_diff p (acclSrcRect + 0) (acclSrcBoundsRect + 0) c = Ok sY;
  copy_dX : param_diff p (acclDestRect + 2) (acclDestBoundsRect + 2) c = Ok dX;
  copy_dY : param_diff p (acclDestRect + 0) (acclDestBoundsRect + 0) c = Ok dY;
  copy_W : param_diff p (acclDestRect + 6) (acclDestRect + 2) c = Ok W;
  copy_H : param_diff p (acclDestRect + 4) (acclDestRect + 0) c = Ok H;
  copy_bpp : (v ← param32 p acclSrcPixelSize c; bytes_per_pixel (s32 v)) = Ok bpp;
  copy_srb : (v ← param32 p acclSrcRowBytes c; Ok (s32 v)) = Ok srb;
  copy_drb : (v ← param32 p acclDestRowBytes c; Ok (s32 v)) = Ok drb;
  copy_sbase : param32 p acclSrcBaseAddr c = Ok sbase;
  copy_dbase : param32 p acclDestBaseAddr c = Ok dbase;
}.

(** [H] rows of [w] bytes from [S] are copied to [D]. *)
Record rect_copied (S ss D ds w H : Z) (m m' : memory) : Prop := {
  copied_inside y x : 0 <= y < H -> 0 <= x < w -> m' !! (D + y * ds + x) = m !! (S + y * ss + x);
  copied_outside i : (forall y, 0 <= y < H -> ~ (D + y * ds <= i < D + y * ds + w)) -> m' !! i = m !! i;
}.

Lemma move_down S ss D ds w H c :
  mem_wf (mem c) -> 0 <= w <= ds -> 0 <= H -> rect_mapped S ss w H (mem c) -> rect_mapped D ds w H (mem c) ->
  (forall i j, 0 <= i < j -> j < H -> D + i * ds + w <= S + j * ss \/ S + j * ss + w <= D + i * ds) ->
  exists m', move_rows (Z.to_nat H) D S w ds ss c = Ok (set_mem m' c) /\ rect_copied S ss D ds w H (mem c) m'.
Proof.
  intros Hw Hd HH Hms Hmd Hord. pose proof (move_rows_ok w (Z.to_nat H) D S ds ss c) as M. rewrite Z2Nat.id in M by done.
  destruct M as (m' & E & Hin & Hout); [done|lia|done|done|done|]. exists m'. by split.
Qed.

Lemma move_up S ss D ds w H c :
  mem_wf (mem c) -> 0 <= w <= ds -> 0 <= H -> rect_mapped S ss w H (mem c) -> rect_mapped D ds w H (mem c) ->
  (forall i j, 0 <= j < i -> i < H -> D + i * ds + w <= S + j * ss \/ S + j * ss + w <= D + i * ds) ->
  exists m', move_rows (Z.to_nat H) (D + (H - 1) * ds) (S + (H - 1) * ss) w (- ds) (- ss) c = Ok (set_mem m' c) /\
    rect_copied S ss D ds w H (mem c) m'.
Proof.
  intros Hw Hd HH Hms Hmd Hord.
  assert (F : forall A s y, A + (H - 1) * s + y * - s = A + (H - 1 - y) * s) by lia.
  pose proof (move_rows_ok w (Z.to_nat H) (D + (H - 1) * ds) (S + (H - 1) * ss) (- ds) (- ss) c) as M.
  rewrite Z2Nat.id in M by done. destruct M as (m' & E & Hin & Hout); [done|lia| | | |].
  - intros y Hy. rewrite F. apply Hms. lia.
  - intros y Hy. rewrite F. apply Hmd. lia.
  - intros i j Hij Hj. rewrite !F. apply Hord; lia.
  - exists m'. split; [exact E|]. split.
    + intros y x Hy Hx. specialize (Hin (H - 1 - y) x ltac:(lia) Hx). rewrite !F in Hin.
      by replace (H - 1 - (H - 1 - y)) with y in Hin by lia.
    + intros i Hi. apply Hout. intros y Hy. rewrite F. apply Hi. lia.
Qed.

(** The rectangles have no byte in common, or the copy goes in the direction that
    reads what is overwritten before. *)
Definition copy_order (S srb D drb w H : Z) : Prop :=
  (forall y z, 0 <= y < H -> 0 <= z < H ->
     D + y * Z.abs drb + w <= S + z * Z.abs srb \/ S + z * Z.abs srb + w <= D + y * Z.abs drb) \/
  srb = drb /\ (if 0 <? srb then D <= S else S <= D).

Section Copy.
Context {p : Z} {c : powerpc_cpu} {sX sY dX dY W H bpp srb drb sbase dbase : Z}.
Let S := sbase + sY * Z.abs srb + sX * bpp.
Let D := dbase + dY * Z.abs drb + dX * bpp.

(** C33: A copy of a rectangle of pixels gives every byte the value its source had
    before the copy, also where the rectangles overlap, and changes nothing else, when a
    row has fewer than 32768 bytes and no more than the distance of rows, and the
    direction is right for the overlap ([copy_order]): rectangles with a byte in common
    have the same distance of rows, and the destination begins no later than the source
    if it is positive, and no earlier if it is negative, which stands for a copy from the
    last row to the first. *)
Theorem NQD_bitblt_spec :
  copy_block p c sX sY dX dY W H bpp srb drb sbase dbase -> mem_wf (mem c) ->
  0 <= W -> 0 < H -> W * bpp < 2 ^ 15 -> W * bpp <= Z.abs drb -> srb * drb > 0 ->
  0 <= S -> S + (H - 1) * Z.abs srb < 2 ^ 32 -> 0 <= D -> D + (H - 1) * Z.abs drb < 2 ^ 32 ->
  rect_mapped S (Z.abs srb) (W * bpp) H (mem c) -> rect_mapped D (Z.abs drb) (W * bpp) H (mem c) ->
  copy_order S srb D drb (W * bpp) H ->
  exists m', NQD_bitblt p c = Ok (set_mem m' c) /\
    rect_copied S (Z.abs srb) D (Z.abs drb) (W * bpp) H (mem c) m'.
Proof.
  intros Hblock Hwf HW HH Hwide Hrow Hsign HS0 HS1 HD0 HD1 Hms Hmd Hord.
  destruct Hblock as [E1 E2 E3 E4 E5 E6 E7 E8 E9 E10 E11].
  apply outcome_bind_Ok in E7 as (d & E7 & E7'), E8 as (v & E8 & [= E8']), E9 as (u & E9 & [= E9']).
  pose proof (bytes_per_pixel_cases _ _ E7') as Hb.
  unfold NQD_bitblt. rewrite E1, E2, E3, E4, E5, E6, E7. cbn [mbind outcome_bind].
  rewrite E7', E8, E9, E10, E11. cbn [mbind outcome_bind]. rewrite E8', E9'.
  rewrite (sext_small 16 (W * bpp)), (trunc_small 64 (W * bpp)) by (split || idtac; lia).
  assert (0 <= W * bpp) by nia. set (w := W * bpp) in *.
  assert (ES : S = sbase + sY * Z.abs srb + sX * bpp) by done. assert (ED : D = dbase + dY * Z.abs drb + dX * bpp) by done.
  clearbody S D. unfold copy_order in Hord. destruct (Z.ltb_spec 0 srb).
  - rewrite (Z.abs_eq srb) in * by lia. rewrite (Z.abs_eq drb) in * by nia. rewrite <- ES, <- ED, !trunc_small by (split; nia).
    apply move_down; [done|lia|lia|done|done|]. intros i j Hij Hj. destruct Hord as [Hord|[-> Hord]]; [apply Hord; lia|].
    left. nia.
  - assert (srb < 0) by nia. rewrite (Z.abs_neq srb) in * by lia. rewrite (Z.abs_neq drb) in * by nia.
    replace (sbase + (sY + H - 1) * - srb + sX * bpp) with (S + (H - 1) * - srb) by lia.
    replace (dbase + (dY + H - 1) * - drb + dX * bpp) with (D + (H - 1) * - drb) by lia.
    rewrite !trunc_small by (split; nia). apply move_up; [done|lia|lia|done|done|].
    intros i j Hij Hj. destruct Hord as [Hord|[-> Hord]]; [apply Hord; lia|].
    right. nia.
Qed.
End Copy.

(** ** Concrete inputs *)

Definition put2 (ofs v : Z) (l : list Z) : list Z := Zinsert ofs (u8 (Z.shiftr v 8)) (Zinsert (ofs + 1) (u8 v) l).
Definition put4 (ofs v : Z) (l : list Z) : list Z := put2 ofs (Z.shiftr v 16) (put2 (ofs + 2) v l).

(** A rectangle of [h] rows and [w] columns at row [y], column [x]. *)
Definition put_rect (ofs y x h w : Z) (l : list Z) : list Z :=
  put2 ofs y (put2 (ofs + 2) x (put2 (ofs + 4) (y + h) (put2 (ofs + 6) (x + w) l))).

(** A parameter block at 0x1000, and from 0x1200 on 6 rows of 8 pixels of 16 bits. *)
Definition accel_bytes (row_bytes : Z) : list Z :=
  put4 acclPenMode 8 (put4 acclForePen 0x12345678
    (put4 acclSrcBaseAddr 0x1200 (put4 acclSrcRowBytes row_bytes (put4 acclSrcPixelSize 16
      (put4 acclDestBaseAddr 0x1200 (put4 acclDestRowBytes row_bytes (put4 acclDestPixelSize 16
        (put_rect acclSrcRect 0 1 3 3 (put_rect acclDestRect 1 2 3 3 (replicate 512 0)))))))))) ++ count_up 96.

Definition accel_machine (row_bytes : Z) : powerpc_cpu :=
  cpu_init (list_to_map (zip ((fun i => 0x1000 + i) <$> count_up 608) (accel_bytes row_bytes))).

Lemma accel_mapped row_bytes a s w n :
  length (accel_bytes row_bytes) = 608%nat -> 0 <= s -> 0x1000 <= a -> a + (n - 1) * s + w <= 0x1260 ->
  rect_mapped a s w n (mem (accel_machine row_bytes)).
Proof.
  intros Hl Hs Ha Hb y Hy i Hi.
  apply (mapped_list 0x1000 608 (accel_bytes row_bytes) (a + y * s) (Z.to_nat w)); [done|nia| |done]. nia.
Qed.

Lemma accel_wf row_bytes : bool_decide (mem_wf (mem (accel_machine row_bytes))) = true -> mem_wf (mem (accel_machine row_bytes)).
Proof. by rewrite bool_decide_eq_true. Qed.

(** A number within numeric bounds. *)
Ltac within := split; [discriminate|reflexivity].

Lemma NQD_rect_spec_witness :
  (exists m', NQD_invrect 0x1000 (accel_machine 16) = Ok (set_mem m' (accel_machine 16)) /\ m' !! 0x1214 = Some (255 - 20)) /\
  (exists m', NQD_fillrect 0x1000 (accel_machine 16) = Ok (set_mem m' (accel_machine 16)) /\
     m' !! 0x1214 = Some 0x12 /\ m' !! 0x1219 = Some 0x34 /\ m' !! 0x121a = Some 0x1a).
Proof.
  destruct (NQD_rect_spec 0x1000 (accel_machine 16) 2 1 3 3 2 16 0x1200 8 0x12345678)
    as [(m1 & E1 & H1) (m2 & E2 & H2)].
  - by split; vm_compute.
  - apply accel_wf. vm_compute. reflexivity.
  - done.
  - done.
  - reflexivity.
  - discriminate.
  - by apply accel_mapped.
  - vm_compute. reflexivity.
  - vm_compute. reflexivity.
  - split.
    + exists m1. split; [exact E1|]. pose proof (rect_inside _ _ _ _ _ _ _ H1 0 0 ltac:(within) ltac:(within)) as R.
        change (u32 _ + _ + _) with 0x1214 in R. rewrite R. vm_compute. reflexivity.
    + exists m2. split; [exact E2|]. split; [|split].
      * pose proof (rect_inside _ _ _ _ _ _ _ H2 0 0 ltac:(within) ltac:(within)) as R.
        change (u32 _ + _ + _) with 0x1214 in R. rewrite R. vm_compute. reflexivity.
      * pose proof (rect_inside _ _ _ _ _ _ _ H2 0 5 ltac:(within) ltac:(within)) as R.
        change (u32 _ + _ + _) with 0x1219 in R. rewrite R. vm_compute. reflexivity.
      * rewrite (rect_outside _ _ _ _ _ _ _ H2); [vm_compute; reflexivity|]. intros y Hy. change (u32 _) with 0x1214. lia.
Defined.

Lemma NQD_bitblt_spec_witness :
  exists m', NQD_bitblt 0x1000 (accel_machine (-16)) = Ok (set_mem m' (accel_machine (-16))) /\
    m' !! 0x1214 = Some 2 /\ m' !! 0x1224 = Some 18 /\ m' !! 0x1239 = Some 39 /\ m' !! 0x123a = Some 58.
Proof.
  destruct (NQD_bitblt_spec (p := 0x1000) (c := accel_machine (-16)) (sX := 1) (sY := 0) (dX := 2) (dY := 1) (W := 3) (H := 3)
    (bpp := 2) (srb := -16) (drb := -16) (sbase := 0x1200) (dbase := 0x1200)) as (m' & E & Hin & Hout).
  - by split; vm_compute.
  - apply accel_wf. vm_compute. reflexivity.
  - done.
  - done.
  - reflexivity.
  - discriminate.
  - reflexivity.
  - discriminate.
  - reflexivity.
  - discriminate.
  - reflexivity.
  - by apply accel_mapped.
  - by apply accel_mapped.
  - right. done.
  - exists m'. split; [exact E|]. split; [|split; [|split]].
    + pose proof (Hin 0 0 ltac:(within) ltac:(within)) as R.
      match type of R with _ !! ?a = _ => change a with 0x1214 in R end. rewrite R. vm_compute. reflexivity.
    + pose proof (Hin 1 0 ltac:(within) ltac:(within)) as R.
      match type of R with _ !! ?a = _ => change a with 0x1224 in R end. rewrite R. vm_compute. reflexivity.
    + pose proof (Hin 2 5 ltac:(within) ltac:(within)) as R.
      match type of R with _ !! ?a = _ => change a with 0x1239 in R end. rewrite R. vm_compute. reflexivity.
    + rewrite Hout; [vm_compute; reflexivity|]. intros y Hy. cbn. lia.
Defined.
