(* ===== verification/SharedLib.v ===== *)
(** Looking up Mac OS's shared libraries, CallUniversalProc and the system heap
    (macos_util.cpp).

    Before the native environment runs ([MODE_EMUL_OP]) the Code Fragment Manager is
    called through 68k code; later through the transition vectors that the first
    look-ups gave. *)
From S2P Require Import Prelude Bitfields Registers HostFPU Operations Memory Handlers BlockCache Cpu Operands ExecInt ExecMem ExecSys Thunks Glue Device.

(** The static variables: the transition vectors, and the 68k procedures that
    [FindLibSymbol] builds on its first use. *)
Record shared_lib := SharedLib {
  cu_tvect : Z;
  gsl_tvect : Z;
  fs_tvect : Z;
  cc_tvect : Z;
  nps_tvect : Z;
  d_tvect : Z;
  proc1 : Z;
  proc2 : Z;
}.

Definition set_proc1 (p : Z) (u : shared_lib) : shared_lib :=
  SharedLib (cu_tvect u) (gsl_tvect u) (fs_tvect u) (cc_tvect u) (nps_tvect u) (d_tvect u) p (proc2 u).
Definition set_proc2 (p : Z) (u : shared_lib) : shared_lib :=
  SharedLib (cu_tvect u) (gsl_tvect u) (fs_tvect u) (cc_tvect u) (nps_tvect u) (d_tvect u) (proc1 u) p.

Definition MacOSUtilReset (u : shared_lib) : shared_lib :=
  SharedLib 0 0 0 0 (nps_tvect u) (d_tvect u) (proc1 u) (proc2 u).

Definition proc1_template : list Z :=
  [0x55; 0x8f; 0x2f; 0x08; 0x2f; 0x3c; 0x70; 0x77; 0x70; 0x63; 0x2f; 0x3c; 0x00; 0x00; 0x00; 0x01;
   0x2f; 0x09; 0x2f; 0x0a; 0x2f; 0x0b; 0x3f; 0x3c; 0x00; 0x01; 0xaa; 0x5a; 0x30; 0x1f;
   Z.shiftr M68K_RTS 8; Z.land M68K_RTS 0xff].
Definition proc2_template : list Z :=
  [0x55; 0x8f; 0x2f; 0x00; 0x2f; 0x08; 0x2f; 0x09; 0x2f; 0x0a; 0x3f; 0x3c; 0x00; 0x05; 0xaa; 0x5a; 0x30; 0x1f;
   Z.shiftr M68K_RTS 8; Z.land M68K_RTS 0xff].

(** [BUILD_SHEEPSHAVER_PROCEDURE] on the static variable with the value [proc]. *)
Definition build_procedure (proc : Z) (template : list Z) (c : powerpc_cpu) : outcome (Z * powerpc_cpu) :=
  if proc =? 0 then SheepProc template c else Ok (proc, c).

(** A [SheepString] of the C string [str] that lives while [body] runs. *)
Definition with_SheepString {A} (str : list Z) (body : Z -> powerpc_cpu -> outcome (A * powerpc_cpu)) :=
  with_SheepVar (Z.of_nat (length str) + 1) (fun addr c =>
    c ← Host2Mac_memcpy addr (str ++ [0]) c;
    body addr c).

Section Calls.
Context `{DEV : Devices} (execute : emulation).

(** The calls of Mac OS's functions. *)
Definition CallUniversal (u : shared_lib) (arg1 arg2 : Z) : powerpc_cpu -> outcome (Z * powerpc_cpu) :=
  call_macos execute (cu_tvect u) [u32 arg1; arg2].
Definition GetSharedLibrary (u : shared_lib) (arg1 arg2 arg3 arg4 arg5 arg6 : Z) (c : powerpc_cpu) : outcome (Z * powerpc_cpu) :=
  '(r, c) ← call_macos execute (gsl_tvect u) [arg1; arg2; arg3; arg4; arg5; arg6] c;
  Ok (s16 r, c).
Definition FindSymbol (u : shared_lib) (arg1 arg2 arg3 arg4 : Z) (c : powerpc_cpu) : outcome (Z * powerpc_cpu) :=
  '(r, c) ← call_macos execute (fs_tvect u) [arg1; arg2; arg3; arg4] c;
  Ok (s16 r, c).
Definition NewPtrSys (u : shared_lib) (arg1 : Z) : powerpc_cpu -> outcome (Z * powerpc_cpu) :=
  call_macos execute (nps_tvect u) [arg1].
Definition DisposePtr (u : shared_lib) (arg1 : Z) (c : powerpc_cpu) : outcome powerpc_cpu :=
  '(_, c) ← call_macos execute (d_tvect u) [arg1] c;
  Ok c.

(** The Mac memory that a look-up uses. *)
Record look_up := LookUp {
  conn_id : Z;
  main_addr : Z;
  err : Z;
  sym_addr : Z;
  sym_class : Z;
  lib : Z;
  sym : Z;
}.

(** The branch of [MODE_EMUL_OP]; the registers are uninitialised at first. *)
Definition find_68k (l : look_up) (u : shared_lib) (c : powerpc_cpu) : outcome ((Z * shared_lib) * powerpc_cpu) :=
  let r := R68 (replicate 8 host_uninit) (replicate 8 host_uninit) in
  '(p1, c) ← build_procedure (proc1 u) proc1_template c;
  let u := set_proc1 p1 u in
  let r := R68 (r68_d r) (Zinsert 0 (lib l) (Zinsert 1 (conn_id l) (Zinsert 2 (main_addr l) (Zinsert 3 (err l) (r68_a r))))) in
  '(r, c) ← Execute68k execute p1 r c;
  if negb (Zlookup (r68_d r) 0 =? 0) then Ok (0, u, c) else
  '(p2, c) ← build_procedure (proc2 u) proc2_template c;
  let u := set_proc2 p2 u in
  id ← ReadMacInt32 (conn_id l) c;
  let r := R68 (Zinsert 0 id (r68_d r)) (Zinsert 0 (sym l) (Zinsert 1 (sym_addr l) (Zinsert 2 (sym_class l) (r68_a r)))) in
  '(r, c) ← Execute68k execute p2 r c;
  if negb (Zlookup (r68_d r) 0 =? 0) then Ok (0, u, c) else
  v ← ReadMacInt32 (sym_addr l) c;
  Ok (v, u, c).

(** The other branch.  The test for a call that comes too early compares the addresses
    of C++ functions with [NULL], and never succeeds. *)
Definition find_native (l : look_up) (u : shared_lib) (c : powerpc_cpu) : outcome ((Z * shared_lib) * powerpc_cpu) :=
  '(res, c) ← GetSharedLibrary u (lib l) 0x70777063 1 (conn_id l) (main_addr l) (err l) c;
  if negb (res =? 0) then Ok (0, u, c) else
  id ← ReadMacInt32 (conn_id l) c;
  '(res, c) ← FindSymbol u id (sym l) (sym_addr l) (sym_class l) c;
  if negb (res =? 0) then Ok (0, u, c) else
  v ← ReadMacInt32 (sym_addr l) c;
  Ok (v, u, c).

Definition FindLibSymbol (lib_str sym_str : list Z) (u : shared_lib) (c : powerpc_cpu)
  : outcome ((Z * shared_lib) * powerpc_cpu) :=
  with_SheepVar32 0 (fun conn_id =>
  with_SheepVar32 0 (fun main_addr =>
  with_SheepVar 256 (fun err c =>
    c ← WriteMacInt8 err 0 c;
    with_SheepVar32 0 (fun sym_addr =>
    with_SheepVar32 0 (fun sym_class =>
    with_SheepString lib_str (fun lib =>
    with_SheepString sym_str (fun sym c =>
      let l := LookUp conn_id main_addr err sym_addr sym_class lib sym in
      mode ← ReadMacInt32 XLM_RUN_MODE c;
      if mode =? MODE_EMUL_OP then find_68k l u c else find_native l u c)))) c))) c.

(** Pascal strings. *)
Definition InterfaceLib : list Z := [12; 73; 110; 116; 101; 114; 102; 97; 99; 101; 76; 105; 98].
Definition s_CallUniversalProc : list Z := [17; 67; 97; 108; 108; 85; 110; 105; 118; 101; 114; 115; 97; 108; 80; 114; 111; 99].
Definition s_GetSharedLibrary : list Z := [16; 71; 101; 116; 83; 104; 97; 114; 101; 100; 76; 105; 98; 114; 97; 114; 121].
Definition s_FindSymbol : list Z := [10; 70; 105; 110; 100; 83; 121; 109; 98; 111; 108].
Definition s_CloseConnection : list Z := [15; 67; 108; 111; 115; 101; 67; 111; 110; 110; 101; 99; 116; 105; 111; 110].
Definition s_NewPtrSys : list Z := [9; 78; 101; 119; 80; 116; 114; 83; 121; 115].
Definition s_DisposePtr : list Z := [10; 68; 105; 115; 112; 111; 115; 101; 80; 116; 114].

(** A symbol of InterfaceLib, without which the emulator quits; [set] assigns it. *)
Definition init_tvect (name : list Z) (set : Z -> shared_lib -> shared_lib) (uc : shared_lib * powerpc_cpu)
  : outcome (shared_lib * powerpc_cpu) :=
  '(tvect, u, c) ← FindLibSymbol InterfaceLib name (fst uc) (snd uc);
  if tvect =? 0 then Quit else Ok (set tvect u, c).

Definition InitCallUniversalProc (u : shared_lib) (c : powerpc_cpu) : outcome (shared_lib * powerpc_cpu) :=
  uc ← init_tvect s_CallUniversalProc (fun t u =>
    SharedLib t (gsl_tvect u) (fs_tvect u) (cc_tvect u) (nps_tvect u) (d_tvect u) (proc1 u) (proc2 u)) (u, c);
  uc ← init_tvect s_GetSharedLibrary (fun t u =>
    SharedLib (cu_tvect u) t (fs_tvect u) (cc_tvect u) (nps_tvect u) (d_tvect u) (proc1 u) (proc2 u)) uc;
  uc ← init_tvect s_FindSymbol (fun t u =>
    SharedLib (cu_tvect u) (gsl_tvect u) t (cc_tvect u) (nps_tvect u) (d_tvect u) (proc1 u) (proc2 u)) uc;
  uc ← init_tvect s_CloseConnection (fun t u =>
    SharedLib (cu_tvect u) (gsl_tvect u) (fs_tvect u) t (nps_tvect u) (d_tvect u) (proc1 u) (proc2 u)) uc;
  uc ← init_tvect s_NewPtrSys (fun t u =>
    SharedLib (cu_tvect u) (gsl_tvect u) (fs_tvect u) (cc_tvect u) t (d_tvect u) (proc1 u) (proc2 u)) uc;
  init_tvect s_DisposePtr (fun t u =>
    SharedLib (cu_tvect u) (gsl_tvect u) (fs_tvect u) (cc_tvect u) (nps_tvect u) t (proc1 u) (proc2 u)) uc.

Definition CallUniversalProc (upp info : Z) (u : shared_lib) (c : powerpc_cpu) : outcome (Z * powerpc_cpu) :=
  if cu_tvect u =? 0 then Ok (0, c) else CallUniversal u upp info c.

Definition Mac_sysalloc (size : Z) (u : shared_lib) : powerpc_cpu -> outcome (Z * powerpc_cpu) := NewPtrSys u size.
Definition Mac_sysfree (addr : Z) (u : shared_lib) : powerpc_cpu -> outcome powerpc_cpu := DisposePtr u addr.
End Calls.
