(* ===== verification/SharedLibSpec.v ===== *)
(** Routines that call Mac OS keep what the interpreter's loops rely on: looking up
    symbols and installing the acceleration hooks release every temporary of the area
    shared with Mac OS, whatever Mac OS does in between. *)
From S2P Require Import Prelude Bitfields Registers HostFPU Operations Memory Handlers BlockCache Cpu Operands ExecInt ExecMem ExecSys Dispatch DecodeTable Decode Interp Frame Thunks Glue GlueSpec Device SharedLib Accel.

Section Frames.
Context {DEV : Devices} (execute : emulation) (HX : exec_frame execute).

(** The routine gives a result and keeps the frame [k]. *)
Definition keeps {A} (k : frame) (m : outcome (A * powerpc_cpu)) : Prop :=
  outcome_holds (fun '(_, c') => in_frame k c') m.

Lemma keeps_ret {A} k (a : A) c : in_frame k c -> keeps k (Ok (a, c)).
Proof using. done. Qed.

Lemma keeps_bind {A B} k (g : A * powerpc_cpu -> outcome (B * powerpc_cpu)) m :
  keeps k m -> (forall a c, in_frame k c -> keeps k (g (a, c))) -> keeps k (mbind g m).
Proof using. intros Hm Hg. eapply outcome_holds_bind; [exact Hm|]. intros [a c]. apply Hg. Qed.

Lemma keeps_step {B} k (g : powerpc_cpu -> outcome (B * powerpc_cpu)) m :
  outcome_holds (in_frame k) m -> (forall c, in_frame k c -> keeps k (g c)) -> keeps k (mbind g m).
Proof using. intros Hm Hg. by eapply outcome_holds_bind. Qed.

Lemma keeps_read {A B} k (g : A -> outcome (B * powerpc_cpu)) m : (forall a, keeps k (g a)) -> keeps k (mbind g m).
Proof using. intros Hg. destruct m; try exact I. apply Hg. Qed.

Lemma SheepProc_keeps k proc c : in_frame k c -> keeps k (SheepProc proc c).
Proof using.
  intros Hc. unfold SheepProc, SheepMem.ReserveProc, Host2Mac_memcpy. destruct (_ <? _); [|exact I].
  cbn [mbind outcome_bind]. eapply keeps_step; [by apply cpu_write_frame|]. intros c1 H1. by apply keeps_ret.
Qed.

Lemma build_procedure_keeps k proc template c : in_frame k c -> keeps k (build_procedure proc template c).
Proof using. intros Hc. unfold build_procedure. destruct (_ =? 0); [by apply SheepProc_keeps|by apply keeps_ret]. Qed.

Lemma with_SheepVar32_keeps {A} k v (body : Z -> powerpc_cpu -> outcome (A * powerpc_cpu)) c :
  in_frame k c ->
  (forall addr c, in_frame (push_data (SheepMem.align 4) k) c -> keeps (push_data (SheepMem.align 4) k) (body addr c)) ->
  keeps k (with_SheepVar32 v body c).
Proof using.
  intros Hc Hb. apply with_SheepVar_frame; [done|]. intros addr c1 H1.
  eapply keeps_step; [by apply cpu_write_frame|]. intros c2 H2. by apply Hb.
Qed.

Lemma with_SheepString_keeps {A} k str (body : Z -> powerpc_cpu -> outcome (A * powerpc_cpu)) c :
  let k' := push_data (SheepMem.align (Z.of_nat (length str) + 1)) k in
  in_frame k c -> (forall addr c, in_frame k' c -> keeps k' (body addr c)) -> keeps k (with_SheepString str body c).
Proof using.
  intros k' Hc Hb. apply with_SheepVar_frame; [done|]. intros addr c1 H1.
  eapply keeps_step; [by apply cpu_write_frame|]. intros c2 H2. by apply Hb.
Qed.

Section Deep.
Context (k : frame) (Hk : 1 <= fr_depth k).

Lemma call_macos_keeps tvect args c : in_frame k c -> keeps k (call_macos execute tvect args c).
Proof using HX Hk. intros Hc. by apply execute_macos_code_frame. Qed.

Lemma find_68k_keeps l u c : in_frame k c -> keeps k (find_68k execute l u c).
Proof using HX Hk.
  intros Hc. unfold find_68k. cbn zeta. eapply keeps_bind; [by apply build_procedure_keeps|]. intros p1 c1 H1. cbn beta iota.
  eapply keeps_bind; [by apply execute_68k_frame|]. intros r c2 H2. cbn beta iota.
  destruct (negb _); [by apply keeps_ret|]. eapply keeps_bind; [by apply build_procedure_keeps|]. intros p2 c3 H3. cbn beta iota.
  apply keeps_read. intros id. eapply keeps_bind; [by apply execute_68k_frame|]. intros r' c4 H4. cbn beta iota.
  destruct (negb _); [by apply keeps_ret|]. apply keeps_read. intros v. by apply keeps_ret.
Qed.

Lemma find_native_keeps l u c : in_frame k c -> keeps k (find_native execute l u c).
Proof using HX Hk.
  intros Hc. unfold find_native, GetSharedLibrary, FindSymbol.
  eapply keeps_bind; [eapply keeps_bind; [by apply call_macos_keeps|]; intros; by apply keeps_ret|]. intros r c1 H1. cbn beta iota.
  destruct (negb _); [by apply keeps_ret|]. apply keeps_read. intros id.
  eapply keeps_bind; [eapply keeps_bind; [by apply call_macos_keeps|]; intros; by apply keeps_ret|]. intros r' c2 H2. cbn beta iota.
  destruct (negb _); [by apply keeps_ret|]. apply keeps_read. intros v. by apply keeps_ret.
Qed.

Lemma NQDMisc_frame nqdmisc_tvect a b c : in_frame k c -> outcome_holds (in_frame k) (NQDMisc execute nqdmisc_tvect a b c).
Proof using HX Hk. intros Hc. unfold NQDMisc. by apply drop_result, call_macos_keeps. Qed.
End Deep.

Lemma FindLibSymbol_keeps k lib_str sym_str u c :
  1 <= fr_depth k -> in_frame k c -> keeps k (FindLibSymbol execute lib_str sym_str u c).
Proof using HX.
  intros Hk Hc. unfold FindLibSymbol.
  apply with_SheepVar32_keeps; [done|]. intros conn_id c1 H1.
  apply with_SheepVar32_keeps; [done|]. intros main_addr c2 H2.
  apply with_SheepVar_frame; [done|]. intros err c3 H3.
  eapply keeps_step; [by apply cpu_write_frame|]. intros c4 H4.
  apply with_SheepVar32_keeps; [done|]. intros sym_addr c5 H5.
  apply with_SheepVar32_keeps; [done|]. intros sym_class c6 H6.
  apply with_SheepString_keeps; [done|]. intros lib c7 H7.
  apply with_SheepString_keeps; [done|]. intros sym c8 H8. cbn zeta.
  apply keeps_read. intros mode. destruct (mode =? MODE_EMUL_OP); [by apply find_68k_keeps|by apply find_native_keeps].
Qed.

Lemma init_tvect_keeps k name set uc :
  1 <= fr_depth k -> in_frame k (snd uc) -> keeps k (init_tvect execute name set uc).
Proof using HX.
  intros Hk Hc. unfold init_tvect. eapply keeps_bind; [by apply FindLibSymbol_keeps|]. intros [t u] c1 H1. cbn beta iota.
  destruct (t =? 0); [exact I|by apply keeps_ret].
Qed.

(** Initialising the calls of Mac OS keeps the interpreter's state and releases what it
    borrowed, in both ways to look symbols up. *)
Theorem InitCallUniversalProc_keeps k u c :
  1 <= fr_depth k -> in_frame k c -> keeps k (InitCallUniversalProc execute u c).
Proof using HX.
  intros Hk Hc. unfold InitCallUniversalProc.
  do 5 (eapply keeps_bind; [apply init_tvect_keeps; assumption|intros ? ? ?]). by apply init_tvect_keeps.
Qed.

Lemma with_hook_frame k ops nqdmisc_tvect draw code body c :
  1 <= fr_depth k -> in_frame k c ->
  (forall k' c', 1 <= fr_depth k' -> in_frame k' c' -> outcome_holds (in_frame k') (body c')) ->
  outcome_holds (in_frame k) (with_hook ops execute nqdmisc_tvect draw code body c).
Proof using HX.
  intros Hk Hc Hb. unfold with_hook. apply drop_result, with_SheepVar_frame; [done|]. intros base c1 H1.
  apply keeps_read. intros f. eapply keeps_step; [by apply cpu_write_frame|]. intros c2 H2.
  apply keeps_read. intros f'. eapply keeps_step; [by apply cpu_write_frame|]. intros c3 H3.
  eapply keeps_step; [by apply cpu_write_frame|]. intros c4 H4.
  eapply keeps_step; [by apply NQDMisc_frame|]. intros c5 H5.
  eapply keeps_step; [by apply Hb|]. intros c6 H6. by apply keeps_ret.
Qed.

Lemma unknown_hooks_frame ops nqdmisc_tvect l : forall k c,
  1 <= fr_depth k -> in_frame k c -> outcome_holds (in_frame k) (unknown_hooks ops execute nqdmisc_tvect l c).
Proof using HX.
  induction l as [|op l IH]; intros k c Hk Hc; [exact Hc|]. cbn [unknown_hooks].
  destruct (_ || _); [by apply IH|]. eapply outcome_holds_bind; [by apply with_hook_frame|]. intros c1 H1. by apply IH.
Qed.

(** The installation of the hooks, too. *)
Theorem VideoInstallAccel_frame ops nqdmisc_tvect gfxaccel k c :
  1 <= fr_depth k -> in_frame k c -> outcome_holds (in_frame k) (VideoInstallAccel ops execute nqdmisc_tvect gfxaccel c).
Proof using HX.
  intros Hk Hc. unfold VideoInstallAccel. destruct gfxaccel; [|exact Hc].
  apply with_hook_frame; [done|done|]. intros k1 c1 Hk1 H1.
  apply with_hook_frame; [done|done|]. intros k2 c2 Hk2 H2. by apply unknown_hooks_frame.
Qed.
End Frames.
