(* ===== verification/Drivers.v ===== *)
(** The three disk drivers together: mounting a volume from the host's side
    (macos_util.cpp). *)
From S2P Require Import Prelude Bitfields Registers HostFPU Operations Memory Handlers BlockCache Cpu Operands ExecInt ExecMem ExecSys Thunks Glue MacUtil SysFile Device.
From S2P Require Import Sony Disk Cdrom.

(** The globals of the drivers, the host's media, and the processor with its memory. *)
Record drivers (B : Type) := Drivers {
  sony_drives : Sony.floppies;
  disk_drives : Disk.disk;
  cdrom_drives : Cdrom.cdroms;
  all_media : B;
  host_cpu : powerpc_cpu;
}.
Arguments Drivers {B}.
Arguments sony_drives {B}.
Arguments disk_drives {B}.
Arguments cdrom_drives {B}.
Arguments all_media {B}.
Arguments host_cpu {B}.

Section Mount.
Context {B : Type} {SYS : SysFiles B} {CD : SysCD B}.

Definition with_sony (f : Sony.floppies * B * powerpc_cpu -> outcome (bool * (Sony.floppies * B * powerpc_cpu))) (d : drivers B)
  : outcome (bool * drivers B) :=
  '(b, st) ← f (sony_drives d, all_media d, host_cpu d);
  Ok (b, Drivers (globals st) (disk_drives d) (cdrom_drives d) (media st) (machine st)).
Definition with_disk (f : Disk.disk * B * powerpc_cpu -> outcome (bool * (Disk.disk * B * powerpc_cpu))) (d : drivers B)
  : outcome (bool * drivers B) :=
  '(b, st) ← f (disk_drives d, all_media d, host_cpu d);
  Ok (b, Drivers (sony_drives d) (globals st) (cdrom_drives d) (media st) (machine st)).
Definition with_cdrom (f : Cdrom.cdroms * B * powerpc_cpu -> outcome (bool * (Cdrom.cdroms * B * powerpc_cpu))) (d : drivers B)
  : outcome (bool * drivers B) :=
  '(b, st) ← f (cdrom_drives d, all_media d, host_cpu d);
  Ok (b, Drivers (sony_drives d) (disk_drives d) (globals st) (media st) (machine st)).

(** The first driver that owns the file handle takes the volume. *)
Definition MountVolume (fh : Z) (d : drivers B) : outcome (bool * drivers B) :=
  '(b, d) ← with_sony (Sony.SonyMountVolume fh) d;
  if b : bool then Ok (true, d) else
  '(b, d) ← with_disk (Disk.DiskMountVolume fh) d;
  if b : bool then Ok (true, d) else
  with_cdrom (Cdrom.CDROMMountVolume fh) d.

(** A handle that no driver owns changes nothing. *)
Lemma MountVolume_unknown fh d :
  Sony.find_fh fh (Sony.drives (sony_drives d)) = None -> Disk.find_fh fh (Disk.drives (disk_drives d)) = None ->
  Cdrom.find_fh fh (Cdrom.drives (cdrom_drives d)) = None -> MountVolume fh d = Ok (false, d).
Proof.
  intros Hs Hd Hc. destruct d as [s k c b m]. unfold MountVolume, with_sony, with_disk, with_cdrom.
  unfold Sony.SonyMountVolume, Disk.DiskMountVolume, Cdrom.CDROMMountVolume. cbn in *. by rewrite Hs; cbn; rewrite Hd; cbn; rewrite Hc.
Qed.
End Mount.
