(* ===== verification/EmulOps.v ===== *)
(** EMUL_OP routines (emul_op.cpp): the non-volatile memory, the level 1
    interrupt, start-up patches, and the dispatcher that calls every driver.

    The drivers' entry points are the class [Routines], on a state [D] of their
    own; the time manager, the ADB and the SCSI Manager, modelled in other files,
    are called through it as well. *)
From Stdlib Require Import Ascii String.
From S2P Require Import Prelude Bitfields Registers HostFPU Operations Memory Handlers BlockCache Cpu Operands ExecInt ExecMem ExecSys Irq Thunks Glue Rom Scsi.

#[local] Open Scope list_scope.

Inductive emul_selector :=
| OP_BREAK | OP_XPRAM1 | OP_XPRAM2 | OP_XPRAM3 | OP_NVRAM1 | OP_NVRAM2 | OP_NVRAM3
| OP_FIX_MEMTOP | OP_FIX_MEMSIZE | OP_FIX_BOOTSTACK
| OP_SONY_OPEN | OP_SONY_PRIME | OP_SONY_CONTROL | OP_SONY_STATUS
| OP_DISK_OPEN | OP_DISK_PRIME | OP_DISK_CONTROL | OP_DISK_STATUS
| OP_CDROM_OPEN | OP_CDROM_PRIME | OP_CDROM_CONTROL | OP_CDROM_STATUS
| OP_AUDIO_DISPATCH | OP_SOUNDIN_OPEN | OP_SOUNDIN_PRIME | OP_SOUNDIN_CONTROL | OP_SOUNDIN_STATUS | OP_SOUNDIN_CLOSE
| OP_ADBOP | OP_INSTIME | OP_RMVTIME | OP_PRIMETIME | OP_MICROSECONDS | OP_PUT_SCRAP | OP_GET_SCRAP
| OP_DEBUG_STR | OP_INSTALL_DRIVERS | OP_NAME_REGISTRY | OP_RESET | OP_IRQ
| OP_SCSI_DISPATCH | OP_SCSI_ATOMIC
| OP_CHECK_SYSV | OP_NTRB_17_PATCH | OP_NTRB_17_PATCH2 | OP_NTRB_17_PATCH3 | OP_NTRB_17_PATCH4 | OP_CHECKLOAD
| OP_EXTFS_COMM | OP_EXTFS_HFS | OP_IDLE_TIME | OP_IDLE_TIME_2.

Definition emul_selectors : list emul_selector :=
  [OP_BREAK; OP_XPRAM1; OP_XPRAM2; OP_XPRAM3; OP_NVRAM1; OP_NVRAM2; OP_NVRAM3;
   OP_FIX_MEMTOP; OP_FIX_MEMSIZE; OP_FIX_BOOTSTACK;
   OP_SONY_OPEN; OP_SONY_PRIME; OP_SONY_CONTROL; OP_SONY_STATUS;
   OP_DISK_OPEN; OP_DISK_PRIME; OP_DISK_CONTROL; OP_DISK_STATUS;
   OP_CDROM_OPEN; OP_CDROM_PRIME; OP_CDROM_CONTROL; OP_CDROM_STATUS;
   OP_AUDIO_DISPATCH; OP_SOUNDIN_OPEN; OP_SOUNDIN_PRIME; OP_SOUNDIN_CONTROL; OP_SOUNDIN_STATUS; OP_SOUNDIN_CLOSE;
   OP_ADBOP; OP_INSTIME; OP_RMVTIME; OP_PRIMETIME; OP_MICROSECONDS; OP_PUT_SCRAP; OP_GET_SCRAP;
   OP_DEBUG_STR; OP_INSTALL_DRIVERS; OP_NAME_REGISTRY; OP_RESET; OP_IRQ;
   OP_SCSI_DISPATCH; OP_SCSI_ATOMIC;
   OP_CHECK_SYSV; OP_NTRB_17_PATCH; OP_NTRB_17_PATCH2; OP_NTRB_17_PATCH3; OP_NTRB_17_PATCH4; OP_CHECKLOAD;
   OP_EXTFS_COMM; OP_EXTFS_HFS; OP_IDLE_TIME; OP_IDLE_TIME_2].

(** ** Non-volatile memory *)

Definition XPRAM_SIZE := 8192.

(** [XPRAM[i]]; outside the array an access is undefined and faults. *)
Definition xpram_get (i : Z) (x : list Z) : outcome Z :=
  if (0 <=? i) && (i <? XPRAM_SIZE) then Ok (Zlookup x i) else Segv i.
Definition xpram_set (i v : Z) (x : list Z) : outcome (list Z) :=
  if (0 <=? i) && (i <? XPRAM_SIZE) then Ok (Zinsert i (u8 v) x) else Segv i.

(** The loops of OP_XPRAM1 over [i], from [i] on, [n] times. *)
Fixpoint xpram_write (n : nat) (i ofs adr : Z) (m : memory) (x : list Z) : outcome (list Z) :=
  match n with
  | O => Ok x
  | S n =>
      b ← load_1 m (adr + i);
      x ← xpram_set (Z.land (ofs + i) 0xff + 0x1300) b x;
      xpram_write n (i + 1) ofs adr m x
  end.
Fixpoint xpram_read (n : nat) (i ofs adr : Z) (m : memory) (x : list Z) : outcome memory :=
  match n with
  | O => Ok m
  | S n =>
      b ← xpram_get (Z.land (ofs + i) 0xff + 0x1300) x;
      m ← store_1 (adr + i) b m;
      xpram_read n (i + 1) ofs adr m x
  end.

(** The value of OP_NVRAM1 at [ofs]: LocalTalk is reported as enabled unless set. *)
Definition nvram_value (ofs : Z) (x : list Z) : outcome Z :=
  v ← xpram_get (Z.land ofs 0x1fff) x;
  e0 ← xpram_get 0x13e0 x;
  e1 ← xpram_get 0x13e1 x;
  let localtalk := negb (negb (e0 =? 0) || negb (e1 =? 0)) in
  Ok (if localtalk then
        if ofs =? 0x13e0 then 0x00
        else if ofs =? 0x13e1 then 0x01
        else if ofs =? 0x13e2 then 0x00
        else if ofs =? 0x13e3 then 0x0a
        else v
      else v).

(** *** Start-up values (InitAll in main.cpp)

    The parameter RAM gets default values unless its signature is there; the boot
    volume is always set. *)
Fixpoint xpram_sets (l : list (Z * Z)) (x : list Z) : outcome (list Z) :=
  match l with
  | [] => Ok x
  | (i, v) :: l => x ← xpram_set i v x; xpram_sets l x
  end.

Definition xpram_defaults : list (Z * Z) :=
  [(0x130c, 0x4e); (0x130d, 0x75); (0x130e, 0x4d); (0x130f, 0x63); (0x1301, 0x80);
   (0x1310, 0xa8); (0x1311, 0x00); (0x1312, 0x00); (0x1313, 0x22); (0x1314, 0xcc); (0x1315, 0x0a); (0x1316, 0xcc); (0x1317, 0x0a);
   (0x131c, 0x00); (0x131d, 0x02); (0x131e, 0x63); (0x131f, 0x00); (0x1308, 0x13); (0x1309, 0x88); (0x130a, 0x00); (0x130b, 0xcc);
   (0x1376, 0x00); (0x1377, 0x01); (0x138a, 0x25)].

Definition init_xpram (bootdrive bootdriver : Z) (x : list Z) : outcome (list Z) :=
  a ← xpram_get 0x130c x; b ← xpram_get 0x130d x; c ← xpram_get 0x130e x; d ← xpram_get 0x130f x;
  x ← (if negb (a =? 0x4e) || negb (b =? 0x75) || negb (c =? 0x4d) || negb (d =? 0x63)
       then xpram_sets xpram_defaults (take 0x1300 x ++ replicate 0x100 0 ++ drop 0x1400 x)
       else Ok x);
  xpram_sets [(0x1378, Z.shiftr (s16 bootdrive) 8); (0x1379, Z.land (s16 bootdrive) 0xff);
              (0x137a, Z.shiftr (s16 bootdriver) 8); (0x137b, Z.land (s16 bootdriver) 0xff)] x.

(** ** The state and the drivers *)

(** The state of this file, and the rest of the emulator. *)
Record sys (D : Type) := Sys {
  xpram : list Z;
  InterruptFlags : Z;
  tick_counter : Z;
  MakeExecutableTvec : Z;
  debug_str_proc : Z;
  rest : D;
}.
Arguments Sys {D}.
Arguments xpram {D}.
Arguments InterruptFlags {D}.
Arguments tick_counter {D}.
Arguments MakeExecutableTvec {D}.
Arguments debug_str_proc {D}.
Arguments rest {D}.

Definition set_xpram {D} (x : list Z) (s : sys D) : sys D :=
  Sys x (InterruptFlags s) (tick_counter s) (MakeExecutableTvec s) (debug_str_proc s) (rest s).
Definition set_flags {D} (f : Z) (s : sys D) : sys D :=
  Sys (xpram s) f (tick_counter s) (MakeExecutableTvec s) (debug_str_proc s) (rest s).
Definition set_tick {D} (n : Z) (s : sys D) : sys D :=
  Sys (xpram s) (InterruptFlags s) n (MakeExecutableTvec s) (debug_str_proc s) (rest s).
Definition set_tvec {D} (t : Z) (s : sys D) : sys D :=
  Sys (xpram s) (InterruptFlags s) (tick_counter s) t (debug_str_proc s) (rest s).
Definition set_debug_proc {D} (p : Z) (s : sys D) : sys D :=
  Sys (xpram s) (InterruptFlags s) (tick_counter s) (MakeExecutableTvec s) p (rest s).

(** Driver entry points with a parameter block and a device control entry. *)
Inductive driver_entry :=
| SonyOpen | SonyPrime | SonyControl | SonyStatus
| DiskOpen | DiskPrime | DiskControl | DiskStatus
| CDROMOpen | CDROMPrime | CDROMControl | CDROMStatus
| AudioDispatch | InOpen | InPrime | InControl | InStatus | InClose.

(** The interrupt routines. *)
Inductive irq_routine :=
| VideoVBLNative | SonyInterrupt | DiskInterrupt | CDROMInterrupt | SerialInterrupt | EtherIRQNative
| TimerInterruptRoutine | AudioInterrupt | ADBInterrupt.

(** Initialisation and patches. *)
Inductive setup_routine := InstallDrivers | PatchNameRegistry | InitCallUniversalProc | ResetDrivers | PatchNativeResourceManager.

Class Routines (D : Type) := {
  RAMBase : Z;
  RAMSize : Z;
  pref_nogui : bool;
  driver : driver_entry -> Z -> Z -> sys D * powerpc_cpu -> outcome (Z * (sys D * powerpc_cpu));
  irq_call : irq_routine -> sys D * powerpc_cpu -> outcome (sys D * powerpc_cpu);
  setup : setup_routine -> sys D * powerpc_cpu -> outcome (sys D * powerpc_cpu);
  ADBOp : Z -> Z -> sys D * powerpc_cpu -> outcome (sys D * powerpc_cpu);
  time_InsTime : Z -> Z -> sys D * powerpc_cpu -> outcome (Z * (sys D * powerpc_cpu));
  time_RmvTime : Z -> sys D * powerpc_cpu -> outcome (Z * (sys D * powerpc_cpu));
  time_PrimeTime : Z -> Z -> sys D * powerpc_cpu -> outcome (Z * (sys D * powerpc_cpu));
  time_Microseconds : sys D * powerpc_cpu -> Z * Z;
  PutScrap : Z -> Z -> Z -> sys D * powerpc_cpu -> outcome (sys D * powerpc_cpu);
  GetScrap : Z -> Z -> Z -> sys D * powerpc_cpu -> outcome (sys D * powerpc_cpu);
  MakeExecutable_symbol : sys D * powerpc_cpu -> outcome (Z * (sys D * powerpc_cpu));
  NativeMakeExecutable : Z;
  SCSIDispatchOp : M68kRegisters -> sys D * powerpc_cpu -> outcome (M68kRegisters * (sys D * powerpc_cpu));
  ExtFSComm : Z -> Z -> Z -> sys D * powerpc_cpu -> outcome (Z * (sys D * powerpc_cpu));
  ExtFSHFS : Z -> Z -> Z -> Z -> Z -> sys D * powerpc_cpu -> outcome (Z * (sys D * powerpc_cpu));
}.

Section EmulOp.
Context {D : Type} {RT : Routines D} {DEV : Devices}.
Abbreviation st := (sys D * powerpc_cpu)%type.

Definition BootGlobsAddr : Z := u32 (RAMBase + RAMSize - 0x1c).

Definition get_d (i : Z) (r : M68kRegisters) : Z := Zlookup (r68_d r) i.
Definition get_a (i : Z) (r : M68kRegisters) : Z := Zlookup (r68_a r) i.
Definition put_d (i v : Z) (r : M68kRegisters) : M68kRegisters := R68 (Zinsert i (u32 v) (r68_d r)) (r68_a r).
Definition put_a (i v : Z) (r : M68kRegisters) : M68kRegisters := R68 (r68_d r) (Zinsert i (u32 v) (r68_a r)).

Definition on_cpu (f : powerpc_cpu -> outcome powerpc_cpu) (x : st) : outcome st := c ← f (snd x); Ok (fst x, c).

(** [HasMacStarted] *)
Definition HasMacStarted (c : powerpc_cpu) : outcome bool :=
  w ← ReadMacInt32 0xcfc c; Ok (w =? FOURCC "W"%char "L"%char "S"%char "C"%char).

(** ** The level 1 interrupt *)

(** [if (InterruptFlags & flag) { ClearInterruptFlag(flag); body }] *)
Definition serve (flag : Z) (body : st -> outcome st) (x : st) : outcome st :=
  if Zb (Z.land (InterruptFlags (fst x)) flag)
  then body (set_flags (ClearInterruptFlag flag (InterruptFlags (fst x))) (fst x), snd x)
  else Ok x.

(** The 60 Hz interrupt; every sixtieth one polls the removable disks. *)
Definition via_interrupt (x : st) : outcome st :=
  x ← irq_call VideoVBLNative x;
  let n := tick_counter (fst x) + 1 in
  let x := (set_tick n (fst x), snd x) in
  if 60 <=? n then
    let x := (set_tick 0 (fst x), snd x) in
    x ← irq_call SonyInterrupt x;
    x ← irq_call DiskInterrupt x;
    irq_call CDROMInterrupt x
  else Ok x.

Definition irq (r : M68kRegisters) (x : st) : outcome (M68kRegisters * st) :=
  p ← ReadMacInt32 (u32 (KernelDataAddr + 0x67c)) (snd x);
  x ← on_cpu (WriteMacInt16 p 0) x;
  let r := put_d 0 0 r in
  started ← HasMacStarted (snd x);
  if (started : bool) then
    let r := if Zb (Z.land (InterruptFlags (fst x)) INTFLAG_VIA) then put_d 0 1 r else r in
    x ← serve INTFLAG_VIA via_interrupt x;
    x ← serve INTFLAG_SERIAL (irq_call SerialInterrupt) x;
    x ← serve INTFLAG_ETHER (irq_call EtherIRQNative) x;
    x ← serve INTFLAG_TIMER (irq_call TimerInterruptRoutine) x;
    x ← serve INTFLAG_AUDIO (irq_call AudioInterrupt) x;
    x ← serve INTFLAG_ADB (irq_call ADBInterrupt) x;
    Ok (r, x)
  else Ok (put_d 0 1 r, x).

(** ** The dispatcher *)

Definition driver_of (sel : emul_selector) : option driver_entry :=
  match sel with
  | OP_SONY_OPEN => Some SonyOpen | OP_SONY_PRIME => Some SonyPrime | OP_SONY_CONTROL => Some SonyControl | OP_SONY_STATUS => Some SonyStatus
  | OP_DISK_OPEN => Some DiskOpen | OP_DISK_PRIME => Some DiskPrime | OP_DISK_CONTROL => Some DiskControl | OP_DISK_STATUS => Some DiskStatus
  | OP_CDROM_OPEN => Some CDROMOpen | OP_CDROM_PRIME => Some CDROMPrime | OP_CDROM_CONTROL => Some CDROMControl | OP_CDROM_STATUS => Some CDROMStatus
  | OP_SOUNDIN_OPEN => Some InOpen | OP_SOUNDIN_PRIME => Some InPrime | OP_SOUNDIN_CONTROL => Some InControl
  | OP_SOUNDIN_STATUS => Some InStatus | OP_SOUNDIN_CLOSE => Some InClose
  | _ => None
  end.

(** The memory operations, OP_XPRAM1 to OP_NVRAM3. *)
Definition xpram_op (sel : emul_selector) (r : M68kRegisters) (x : st) : outcome (M68kRegisters * st) :=
  let '(s, c) := x in
  let put i v := l ← xpram_set i v (xpram s); Ok (set_xpram l s, c) in
  match sel with
  | OP_XPRAM1 =>
      let len := get_d 3 r in
      let adr := get_a 3 r in
      let ofs := Z.land len 0xffff in
      let len := Z.shiftr len 16 in
      if Zb (Z.land len 0x8000) then
        l ← xpram_write (Z.to_nat (Z.land len 0x7fff)) 0 ofs adr (mem c) (xpram s);
        Ok (r, (set_xpram l s, c))
      else
        m ← xpram_read (Z.to_nat len) 0 ofs adr (mem c) (xpram s);
        Ok (r, (s, set_mem m c))
  | OP_XPRAM2 => v ← xpram_get (Z.land (get_d 1 r) 0xff + 0x1300) (xpram s); Ok (put_d 1 v r, x)
  | OP_XPRAM3 => x ← put (Z.land (get_d 1 r) 0xff + 0x1300) (get_d 2 r); Ok (r, x)
  | OP_NVRAM1 => v ← nvram_value (s32 (get_d 0 r)) (xpram s); Ok (put_d 0 v r, x)
  | OP_NVRAM2 => x ← put (Z.land (get_d 0 r) 0x1fff) (get_d 1 r); Ok (r, x)
  | OP_NVRAM3 =>
      let i := Z.land (u32 (get_d 4 r + 0x1300)) 0x1fff in
      if negb (get_d 3 r =? 0) then v ← xpram_get i (xpram s); Ok (put_d 0 v r, x)
      else x ← put i (get_d 5 r); Ok (put_d 0 0 r, x)
  | _ => Ok (r, x)
  end.

(** The size of memory, OP_FIX_MEMTOP to OP_FIX_BOOTSTACK. *)
Definition memory_op (sel : emul_selector) (r : M68kRegisters) (x : st) : outcome (M68kRegisters * st) :=
  match sel with
  | OP_FIX_MEMTOP =>
      x ← on_cpu (WriteMacInt32 (u32 (BootGlobsAddr - 20)) (u32 (RAMBase + RAMSize))) x;
      Ok (put_a 6 (RAMBase + RAMSize) r, x)
  | OP_FIX_MEMSIZE =>
      a ← ReadMacInt32 0x1ef8 (snd x);
      b ← ReadMacInt32 0x1ef4 (snd x);
      x ← on_cpu (WriteMacInt32 0x1ef8 RAMSize) x;
      x ← on_cpu (WriteMacInt32 0x1ef4 (u32 (RAMSize - u32 (a - b)))) x;
      Ok (r, x)
  | OP_FIX_BOOTSTACK =>
      let v := RAMBase + u32 (RAMSize * 3) / 4 in
      Ok (put_a 1 v (put_a 7 v r), x)
  | _ => Ok (r, x)
  end.

(** The patches of Mac OS's start-up, OP_DEBUG_STR to OP_RESET. *)
Definition startup_op (sel : emul_selector) (r : M68kRegisters) (x : st) : outcome (M68kRegisters * st) :=
  match sel with
  | OP_DEBUG_STR =>
      if pref_nogui then
        p ← ReadMacInt32 (u32 (get_a 7 r + 4)) (snd x);
        n ← load_1 (mem (snd x)) p;
        _ ← read_bytes (Z.to_nat n) (p + 1) (snd x);
        Ok (r, x)
      else Ok (r, x)
  | OP_INSTALL_DRIVERS =>
      x ← setup InstallDrivers x;
      '(tvec, x) ← MakeExecutable_symbol x;
      let x := (set_tvec tvec (fst x), snd x) in
      x ← on_cpu (WriteMacInt32 tvec NativeMakeExecutable) x;
      x ← (if debug_str_proc (fst x) =? 0 then
             '(p, c) ← SheepProc [0xfe; 0x43 + 35; 0x4e; 0x74; 0x00; 0x04] (snd x);
             Ok (set_debug_proc p (fst x), c)
           else Ok x);
      x ← on_cpu (WriteMacInt32 0x1dfc (debug_str_proc (fst x))) x;
      Ok (r, x)
  | OP_NAME_REGISTRY =>
      x ← setup PatchNameRegistry x;
      x ← setup InitCallUniversalProc x;
      Ok (put_d 0 (-1) r, x)
  | OP_RESET => x ← setup ResetDrivers x; Ok (r, x)
  | _ => Ok (r, x)
  end.

(** The patches of the system file's resources, OP_CHECK_SYSV to OP_CHECKLOAD. *)
Definition resource_op (sel : emul_selector) (r : M68kRegisters) (x : st) : outcome (M68kRegisters * st) :=
  match sel with
  | OP_CHECK_SYSV =>
      let d1 := get_d 1 r in
      p ← ReadMacInt32 d1 (snd x);
      let r := put_a 0 p (put_a 1 d1 r) in
      sysv ← ReadMacInt16 p (snd x);
      Ok (if ROMTYPE_NEWWORLD && (sysv <? 0x0801) then put_d 1 0 r else r, x)
  | OP_NTRB_17_PATCH =>
      a2 ← ReadMacInt32 (get_a 7 r) (snd x);
      let r := put_a 7 (get_a 7 r + 4) (put_a 2 a2 r) in
      id ← ReadMacInt16 (u32 (a2 + 6)) (snd x);
      x ← (if id =? 17 then setup PatchNativeResourceManager x else Ok x);
      Ok (r, x)
  | OP_NTRB_17_PATCH2 => x ← setup PatchNativeResourceManager x; Ok (put_a 7 (get_a 7 r + 8) r, x)
  | OP_NTRB_17_PATCH3 =>
      a2 ← ReadMacInt32 (get_a 7 r) (snd x);
      let r := put_a 7 (get_a 7 r + 4) (put_a 2 a2 r) in
      v ← ReadMacInt16 a2 (snd x);
      id ← (if v =? 11 then ReadMacInt16 (u32 (a2 + 6)) (snd x) else Ok 0);
      x ← (if id =? 17 then setup PatchNativeResourceManager x else Ok x);
      Ok (r, x)
  | OP_NTRB_17_PATCH4 =>
      d0 ← ReadMacInt16 (get_a 7 r) (snd x);
      let a2 := get_a 2 r in
      let r := put_a 7 (get_a 7 r + 2) (put_d 0 d0 r) in
      v ← ReadMacInt16 a2 (snd x);
      id ← (if v =? 11 then ReadMacInt16 (u32 (a2 + 6)) (snd x) else Ok 0);
      x ← (if id =? 17 then setup PatchNativeResourceManager x else Ok x);
      Ok (r, x)
  | OP_CHECKLOAD =>
      type ← ReadMacInt32 (get_a 7 r) (snd x);
      let r := put_a 7 (get_a 7 r + 4) r in
      id ← ReadMacInt16 (get_a 2 r) (snd x);
      if get_a 0 r =? 0 then Ok (r, x)
      else
        adr ← ReadMacInt32 (get_a 0 r) (snd x);
        if adr =? 0 then Ok (r, x)
        else
          size ← ReadMacInt32 (u32 (adr - 8)) (snd x);
          x ← on_cpu (CheckLoad type (s16 id) adr (Z.land size 0xffffff)) x;
          Ok (r, x)
  | _ => Ok (r, x)
  end.

(** The clipboard; the arguments are on the stack. *)
Definition scrap_op (sel : emul_selector) (r : M68kRegisters) (x : st) : outcome (M68kRegisters * st) :=
  let a7 := get_a 7 r in
  let long n := ReadMacInt32 (u32 (a7 + n)) (snd x) in
  match sel with
  | OP_PUT_SCRAP =>
      type ← long 8; scrap ← long 4; length ← long 12;
      x ← PutScrap type scrap length x; Ok (r, x)
  | OP_GET_SCRAP =>
      handle ← long 4; type ← long 8; offset ← long 12;
      x ← GetScrap handle type offset x; Ok (r, x)
  | _ => Ok (r, x)
  end.

(** The external file system, with its arguments on the stack, and the idle hooks. *)
Definition extfs_op (sel : emul_selector) (r : M68kRegisters) (x : st) : outcome (M68kRegisters * st) :=
  let a7 := get_a 7 r in
  let long n := ReadMacInt32 (u32 (a7 + n)) (snd x) in
  let word n := ReadMacInt16 (u32 (a7 + n)) (snd x) in
  match sel with
  | OP_EXTFS_COMM =>
      message ← word 12; param ← long 8; globals ← long 4;
      '(v, x) ← ExtFSComm message param globals x;
      x ← on_cpu (WriteMacInt16 (u32 (a7 + 14)) v) x; Ok (r, x)
  | OP_EXTFS_HFS =>
      vcb ← long 16; selector ← word 14; param ← long 10; globals ← long 6; fsid ← word 4;
      '(v, x) ← ExtFSHFS vcb selector param globals fsid x;
      x ← on_cpu (WriteMacInt16 (u32 (a7 + 20)) v) x; Ok (r, x)
  | OP_IDLE_TIME => _ ← ReadMacInt32 0x14c (snd x); v ← ReadMacInt32 0x2b6 (snd x); Ok (put_a 0 v r, x)
  | OP_IDLE_TIME_2 => _ ← ReadMacInt32 0x14c (snd x); Ok (put_d 0 (-2) r, x)
  | _ => Ok (r, x)
  end.

Definition EmulOp (r : M68kRegisters) (selector : Z) (x : st) : outcome (M68kRegisters * st) :=
  match (if 0 <=? selector then emul_selectors !! Z.to_nat selector else None) with
  | None => Quit
  | Some sel =>
      match sel with
      | OP_BREAK => Ok (r, x)
      | OP_XPRAM1 | OP_XPRAM2 | OP_XPRAM3 | OP_NVRAM1 | OP_NVRAM2 | OP_NVRAM3 => xpram_op sel r x
      | OP_AUDIO_DISPATCH => '(v, x) ← driver AudioDispatch (get_a 3 r) (get_a 4 r) x; Ok (put_d 0 v r, x)
      | OP_ADBOP => data ← ReadMacInt32 (get_a 0 r) (snd x); x ← ADBOp (u8 (get_d 0 r)) data x; Ok (r, x)
      | OP_INSTIME => '(v, x) ← time_InsTime (get_a 0 r) (u16 (get_d 1 r)) x; Ok (put_d 0 v r, x)
      | OP_RMVTIME => '(v, x) ← time_RmvTime (get_a 0 r) x; Ok (put_d 0 v r, x)
      | OP_PRIMETIME => '(v, x) ← time_PrimeTime (get_a 0 r) (s32 (get_d 0 r)) x; Ok (put_d 0 v r, x)
      | OP_MICROSECONDS => let '(hi, lo) := time_Microseconds x in Ok (put_a 0 hi (put_d 0 lo r), x)
      | OP_PUT_SCRAP | OP_GET_SCRAP => scrap_op sel r x
      | OP_FIX_MEMTOP | OP_FIX_MEMSIZE | OP_FIX_BOOTSTACK => memory_op sel r x
      | OP_DEBUG_STR | OP_INSTALL_DRIVERS | OP_NAME_REGISTRY | OP_RESET => startup_op sel r x
      | OP_CHECK_SYSV | OP_NTRB_17_PATCH | OP_NTRB_17_PATCH2 | OP_NTRB_17_PATCH3 | OP_NTRB_17_PATCH4 | OP_CHECKLOAD => resource_op sel r x
      | OP_EXTFS_COMM | OP_EXTFS_HFS | OP_IDLE_TIME | OP_IDLE_TIME_2 => extfs_op sel r x
      | OP_IRQ => irq r x
      | OP_SCSI_DISPATCH => SCSIDispatchOp r x
      | OP_SCSI_ATOMIC => Ok (put_d 0 (-7887) r, x)
      | _ =>
          match driver_of sel with
          | Some e => '(v, x) ← driver e (get_a 0 r) (get_a 1 r) x; Ok (put_d 0 v r, x)
          | None => Ok (r, x)
          end
      end
  end.
End EmulOp.
