(* ===== verification/EmulOpsSpec.v ===== *)
(** Properties of the EMUL_OP routines: the parameter RAM keeps what is written to
    it and stays in bounds, its start-up values, and the level 1 interrupt. *)
From Stdlib Require Import Ascii String.
From S2P Require Import Prelude Bitfields Registers HostFPU Operations Memory Handlers BlockCache Cpu Operands ExecInt ExecMem ExecSys Irq Thunks Glue MacMem MachineSpec Rom Scsi EmulOps.

#[local] Open Scope list_scope.

(** ** The parameter RAM *)

Definition xpram_wf (x : list Z) : Prop := Z.of_nat (length x) = 8192 /\ Forall (is_uint 8) x.

Lemma in_xpram i : 0 <= i < 8192 -> (0 <=? i) && (i <? XPRAM_SIZE) = true.
Proof. intros. apply andb_true_iff. unfold XPRAM_SIZE. split; [apply Z.leb_le|apply Z.ltb_lt]; lia. Qed.

Lemma xpram_get_ok i x : 0 <= i < 8192 -> xpram_get i x = Ok (Zlookup x i).
Proof. intros. unfold xpram_get. by rewrite in_xpram. Qed.

Lemma xpram_set_ok i v x : 0 <= i < 8192 -> xpram_set i v x = Ok (Zinsert i (u8 v) x).
Proof. intros. unfold xpram_set. by rewrite in_xpram. Qed.

Lemma xpram_insert_wf i v x : xpram_wf x -> xpram_wf (Zinsert i (u8 v) x).
Proof. intros [Hl Hb]. split; [by rewrite length_Zinsert|]. apply Forall_Zinsert; [done|]. by apply trunc_range. Qed.

(** The cell of the [i]-th byte of a block: the 256 bytes of the parameter RAM
    are used as a ring. *)
Definition cell (ofs i : Z) : Z := Z.land (ofs + i) 0xff + 0x1300.

Lemma cell_mod ofs i : cell ofs i = (ofs + i) mod 256 + 0x1300.
Proof. unfold cell. change 0xff with (Z.ones 8). by rewrite Z.land_ones. Qed.

Lemma cell_range ofs i : 0x1300 <= cell ofs i < 0x1400.
Proof. rewrite cell_mod. pose proof (Z.mod_pos_bound (ofs + i) 256 eq_refl). lia. Qed.

Lemma cell_inj ofs i j : 0 <= i < 256 -> 0 <= j < 256 -> cell ofs i = cell ofs j -> i = j.
Proof. intros Hi Hj. rewrite !cell_mod. intros E. Z.div_mod_to_equations. lia. Qed.

(** What a written block leaves. *)
Lemma xpram_write_spec n : forall i ofs adr m x,
  xpram_wf x -> mem_wf m -> 0 <= i -> i + Z.of_nat n <= 256 -> mapped n (adr + i) m ->
  exists x', xpram_write n i ofs adr m x = Ok x' /\ xpram_wf x' /\
    (forall k, i <= k < i + Z.of_nat n -> m !! (adr + k) = Some (Zlookup x' (cell ofs k))) /\
    (forall j, 0 <= j < 8192 -> (forall k, i <= k < i + Z.of_nat n -> j <> cell ofs k) -> Zlookup x' j = Zlookup x j).
Proof.
  induction n as [|n IH]; intros i ofs adr m x Hx Hm Hi Hn Hmap; [exists x; split_and!; [done|done|lia|done]|].
  destruct (Hmap (adr + i)) as [b Hb]; [lia|]. cbn [xpram_write]. unfold load_1. rewrite Hb. cbn [mbind outcome_bind].
  fold (cell ofs i). pose proof (cell_range ofs i) as Hr. rewrite xpram_set_ok by lia. cbn [mbind outcome_bind].
  assert (Hb8 : is_uint 8 b) by (by apply (Hm (adr + i))). rewrite (trunc_small 8 b Hb8).
  assert (Hx1 : xpram_wf (Zinsert (cell ofs i) b x)) by (rewrite <- (trunc_small 8 b Hb8); by apply xpram_insert_wf).
  destruct (IH (i + 1) ofs adr m (Zinsert (cell ofs i) b x) Hx1 Hm) as (x' & E & Hx' & Hin & Hout); [lia|lia| |].
  { apply (mapped_le n (S n) _ (adr + i)); [lia|lia|done]. }
  exists x'. split; [done|]. split; [done|]. split.
  - intros k Hk. destruct (decide (k = i)) as [->|]; [|apply Hin; lia]. rewrite Hout; [|lia|].
    + rewrite Zlookup_insert_eq; [done|]. destruct Hx as [-> _]. lia.
    + intros k Hk' Heq. apply cell_inj in Heq; lia.
  - intros j Hj Hne. rewrite Hout; [|done|intros k Hk; apply Hne; lia]. apply Zlookup_insert_ne; [lia|lia|].
    intros Heq. by apply (Hne i); [lia|].
Qed.

Lemma xpram_read_spec n : forall i ofs adr m x,
  xpram_wf x -> mem_wf m -> mapped n (adr + i) m ->
  exists m', xpram_read n i ofs adr m x = Ok m' /\ mem_wf m' /\ dom m' = dom m /\
    (forall k, i <= k < i + Z.of_nat n -> m' !! (adr + k) = Some (Zlookup x (cell ofs k))) /\
    (forall a, ~ (adr + i <= a < adr + i + Z.of_nat n) -> m' !! a = m !! a).
Proof.
  induction n as [|n IH]; intros i ofs adr m x Hx Hm Hmap; [exists m; split_and!; [done|done|done|lia|done]|].
  pose proof (Hmap (adr + i) ltac:(lia)) as Hsome. cbn [xpram_read]. fold (cell ofs i). pose proof (cell_range ofs i) as Hr.
  rewrite xpram_get_ok by lia. cbn [mbind outcome_bind].
  assert (Hb : is_uint 8 (Zlookup x (cell ofs i))) by (apply Forall_Zlookup; [apply Hx|destruct Hx as [-> _]; lia]).
  assert (E1 : store_1 (adr + i) (Zlookup x (cell ofs i)) m = Ok (<[adr + i := Zlookup x (cell ofs i)]> m)).
  { apply store_1_Ok. split; [done|]. by rewrite trunc_small. }
  rewrite E1. cbn [mbind outcome_bind]. set (m1 := <[adr + i := _]> m).
  assert (Hm1 : mem_wf m1) by (by apply map_Forall_insert_2).
  assert (Hd1 : dom m1 = dom m) by (by apply dom_insert_lookup_L).
  destruct (IH (i + 1) ofs adr m1 x Hx Hm1) as (m' & E & Hm' & Hd & Hin & Hout).
  { apply (mapped_cong n _ m); [done|]. apply (mapped_le n (S n) _ (adr + i)); [lia|lia|done]. }
  exists m'. split; [done|]. split; [done|]. split; [congruence|]. split.
  - intros k Hk. destruct (decide (k = i)) as [->|]; [|apply Hin; lia]. rewrite Hout by lia. subst m1. by rewrite lookup_insert_eq.
  - intros a Ha. rewrite Hout by lia. subst m1. by rewrite lookup_insert_ne by lia.
Qed.

Section Ops.
Context {D : Type} {RT : Routines D} {DEV : Devices}.

(** The registers of OP_XPRAM1. *)
Lemma xpram1_fields w n ofs :
  0 <= n < 0x8000 -> 0 <= ofs < 0x10000 -> w = 0 \/ w = 0x8000 ->
  Z.land ((w + n) * 0x10000 + ofs) 0xffff = ofs /\ Z.shiftr ((w + n) * 0x10000 + ofs) 16 = w + n /\
  Zb (Z.land (w + n) 0x8000) = Zb w /\ Z.land (w + n) 0x7fff = n.
Proof using.
  intros Hn Ho Hw. change 0xffff with (Z.ones 16). change 0x7fff with (Z.ones 15). rewrite !Z.land_ones, Z.shiftr_div_pow2 by done.
  pose proof (Zb_land_bit (w + n) 15 ltac:(done)) as E. change (2 ^ 15) with 0x8000 in *. change (2 ^ 16) with 0x10000. rewrite E. clear E. split_and!.
  - rewrite Z.add_comm, Z.mod_add by done. by apply Z.mod_small.
  - rewrite Z.div_add_l by done. rewrite (Z.div_small ofs) by done. lia.
  - rewrite Z.testbit_eqb by done. change (2 ^ 15) with 0x8000. destruct Hw as [-> | ->].
    + rewrite (Z.div_small (0 + n)) by lia. done.
    + replace (0x8000 + n) with (1 * 0x8000 + n) by lia. rewrite Z.div_add_l, (Z.div_small n) by lia. done.
  - destruct Hw as [-> | ->]; [by apply Z.mod_small|]. replace (0x8000 + n) with (n + 1 * 0x8000) by lia. rewrite Z.mod_add by done. by apply Z.mod_small.
Qed.

Lemma EmulOp_xpram1 r x : EmulOp r 1 x = xpram_op OP_XPRAM1 r x.
Proof using. reflexivity. Qed.

(** C35: A block of up to 256 bytes that OP_XPRAM1 writes to the parameter RAM from
    memory is what it reads back to memory: from any offset, wrapping around inside
    the 256 bytes; nothing else in the parameter RAM or in memory changes. *)
Theorem xpram_block_roundtrip r1 r2 s c n ofs adr1 adr2 :
  xpram_wf (xpram s) -> mem_wf (mem c) -> 0 <= n <= 256 -> 0 <= ofs < 0x10000 ->
  mapped (Z.to_nat n) adr1 (mem c) -> mapped (Z.to_nat n) adr2 (mem c) ->
  get_d 3 r1 = (0x8000 + n) * 0x10000 + ofs -> get_a 3 r1 = adr1 ->
  get_d 3 r2 = (0 + n) * 0x10000 + ofs -> get_a 3 r2 = adr2 ->
  exists s' m', EmulOp r1 1 (s, c) = Ok (r1, (s', c)) /\ EmulOp r2 1 (s', c) = Ok (r2, (s', set_mem m' c)) /\
    xpram_wf (xpram s') /\ (forall j, 0 <= j < 8192 -> ~ (0x1300 <= j < 0x1400) -> Zlookup (xpram s') j = Zlookup (xpram s) j) /\
    (forall k, 0 <= k < n -> m' !! (adr2 + k) = mem c !! (adr1 + k)) /\
    (forall a, ~ (adr2 <= a < adr2 + n) -> m' !! a = mem c !! a).
Proof using.
  intros Hx Hm Hn Ho Hm1 Hm2 Hd1 Ha1 Hd2 Ha2.
  destruct (xpram_write_spec (Z.to_nat n) 0 ofs adr1 (mem c) (xpram s) Hx Hm) as (x' & Ew & Hx' & Hin & Hout); [lia|lia|by rewrite Z.add_0_r|].
  destruct (xpram_read_spec (Z.to_nat n) 0 ofs adr2 (mem c) x' Hx' Hm) as (m' & Er & _ & _ & Hrd & Hfr); [by rewrite Z.add_0_r|].
  exists (set_xpram x' s), m'. rewrite Z.add_0_r in Hfr. rewrite !Z2Nat.id in * by lia.
  destruct (xpram1_fields 0x8000 n ofs) as (E1 & E2 & E3 & E4); [lia|lia|by right|].
  destruct (xpram1_fields 0 n ofs) as (F1 & F2 & F3 & F4); [lia|lia|by left|]. split_and!; try done.
  - rewrite EmulOp_xpram1. unfold xpram_op. rewrite Hd1, Ha1, E1, E2, E3, E4. change (Zb 0x8000) with true. cbn match. by rewrite Ew.
  - rewrite EmulOp_xpram1. unfold xpram_op. rewrite Hd2, Ha2, F1, F2, F3. change (Zb 0) with false. cbn match.
    rewrite Z.add_0_l. cbn [xpram set_xpram]. by rewrite Er.
  - intros j Hj Hjo. apply Hout; [done|]. intros k _ ->. apply Hjo, cell_range.
  - intros k Hk. rewrite Hrd by lia. symmetry. apply Hin. lia.
Qed.

(** ** The level 1 interrupt *)

(** The flags as bits, and the routine of each, in the order of the code. *)
Definition irq_order : list (Z * irq_routine) :=
  [(0, VideoVBLNative); (1, SerialInterrupt); (2, EtherIRQNative); (5, TimerInterruptRoutine); (4, AudioInterrupt); (6, ADBInterrupt)].
Definition pending (k : Z) (x : sys D * powerpc_cpu) : bool := Z.testbit (InterruptFlags (fst x)) k.

(** What the interrupt does, one event after the other. *)
Inductive event := Called (R : irq_routine) | Cleared (k : Z) | Ticked (n : Z).

#[export] Instance irq_routine_eq_dec : EqDecision irq_routine.
Proof using. solve_decision. Defined.
#[export] Instance event_eq_dec : EqDecision event.
Proof using. solve_decision. Defined.

Definition istep (e : event) (x y : sys D * powerpc_cpu) : Prop :=
  match e with
  | Called R => irq_call R x = Ok y
  | Cleared k => y = (set_flags (ClearInterruptFlag (2 ^ k) (InterruptFlags (fst x))) (fst x), snd x)
  | Ticked n => y = (set_tick n (fst x), snd x)
  end.
Fixpoint steps (tr : list event) (x z : sys D * powerpc_cpu) : Prop :=
  match tr with
  | [] => z = x
  | e :: tr => exists y, istep e x y /\ steps tr y z
  end.

Lemma steps_app tr1 tr2 : forall x y z, steps tr1 x y -> steps tr2 y z -> steps (tr1 ++ tr2) x z.
Proof using.
  induction tr1 as [|e tr1 IH]; intros x y z; cbn; [by intros ->|]. intros (w & Hw & H1) H2. eauto.
Qed.

(** Counting ticks and polling the removable disks, which no flag asks for. *)
Definition is_poll (e : event) : Prop :=
  match e with
  | Ticked _ | Called SonyInterrupt | Called DiskInterrupt | Called CDROMInterrupt => True
  | _ => False
  end.

(** The sources [l] have their turns one after the other: one that is not
    pending when its turn comes is passed over; of one that is, the flag is
    cleared first and then its routine runs, once. *)
Inductive services : list (Z * irq_routine) -> list event -> sys D * powerpc_cpu -> sys D * powerpc_cpu -> Prop :=
| services_nil x : services [] [] x x
| services_skip k R l tr x z : pending k x = false -> services l tr x z -> services ((k, R) :: l) tr x z
| services_serve k R l polls tr x y z :
    pending k x = true -> Forall is_poll polls -> steps (Cleared k :: Called R :: polls) x y ->
    services l tr y z -> services ((k, R) :: l) (Cleared k :: Called R :: polls ++ tr) x z.

Lemma services_steps l tr x z : services l tr x z -> steps tr x z.
Proof using.
  induction 1 as [| |k R l polls tr x y z _ _ Hs _ IH]; [done|done|].
  exact (steps_app (Cleared k :: Called R :: polls) tr x y z Hs IH).
Qed.

(** Interrupt routines may raise flags, but only OP_IRQ clears them. *)
Class IrqLaws := {
  irq_keeps k x x' : irq_call k x = Ok x' -> forall n, 0 <= n < 32 -> pending n x = true -> pending n x' = true;
}.
Context {LAWS : IrqLaws}.

(** A flag that is not cleared stays. *)
Lemma steps_keep n tr : 0 <= n < 32 -> Forall (fun e => forall k, e = Cleared k -> 0 <= k /\ k <> n) tr ->
  forall x z, steps tr x z -> pending n x = true -> pending n z = true.
Proof using LAWS.
  intros Hn. induction 1 as [|e tr He _ IH]; intros x z; [by intros ->|]. intros (y & Hy & Hs) Hp.
  apply (IH y z Hs). destruct e as [R|k|t]; cbn in Hy.
  - by apply (irq_keeps R x y Hy).
  - destruct (He k eq_refl) as [Hk Hne]. rewrite Hy. unfold pending. cbn [fst set_flags InterruptFlags].
    rewrite ClearInterruptFlag_bit by lia. by rewrite (proj2 (Z.eqb_neq n k)) by done.
  - by rewrite Hy.
Qed.

Lemma poll_clears n polls : Forall is_poll polls -> Forall (fun e => forall k, e = Cleared k -> 0 <= k /\ k <> n) polls.
Proof using. intros H. eapply Forall_impl; [exact H|]. by intros e He k ->. Qed.

(** Whatever is pending when the turns begin is served. *)
Lemma services_all l tr x z :
  NoDup l.*1 -> Forall (fun e => 0 <= fst e < 32) l -> services l tr x z ->
  forall k R, (k, R) ∈ l -> pending k x = true -> Called R ∈ tr.
Proof using LAWS.
  intros Hd Hr H. induction H as [|k R l tr x z Hp H IH|k R l polls tr x y z Hp Hpoll Hs H IH];
    intros k' R' Hin Hp'; [by apply elem_of_nil in Hin|..];
    cbn in Hd; apply NoDup_cons in Hd as [Hk Hd]; inversion Hr as [|? ? Hk32 Hr']; subst; cbn in Hk32;
    (apply elem_of_cons in Hin as [E|Hin]; [injection E as -> ->|]).
  - by rewrite Hp in Hp'.
  - by apply (IH Hd Hr' k').
  - right. left.
  - right. right. apply elem_of_app. right. apply (IH Hd Hr' k'); [done|].
    assert (k' <> k) by (intros ->; apply Hk, list_elem_of_fmap; by exists (k, R')).
    rewrite Forall_forall in Hr'. specialize (Hr' _ Hin). cbn in Hr'.
    apply (steps_keep k' (Cleared k :: Called R :: polls) Hr') with (x := x); [|done|done].
    constructor; [intros ? [= <-]; lia|]. constructor; [by intros ? [=]|by apply poll_clears].
Qed.

(** In every suffix of the events, a flag that is cleared has its routine run
    afterwards. *)
Lemma services_clear l tr x z :
  services l tr x z -> forall tr1 k tr2, tr = tr1 ++ Cleared k :: tr2 -> exists R, (k, R) ∈ l /\ Called R ∈ tr2.
Proof using.
  induction 1 as [|k R l tr x z Hp H IH|k R l polls tr x y z Hp Hpoll Hs H IH]; intros tr1 n tr2 E.
  - by destruct tr1.
  - destruct (IH _ _ _ E) as (R' & ? & ?). exists R'. split; [by right|done].
  - destruct tr1 as [|e1 tr1]; [injection E as <- <-; exists R; split; left|]. injection E as <- E.
    destruct tr1 as [|e2 tr1]; [discriminate|]. injection E as <- E. clear Hs. revert tr1 E.
    induction Hpoll as [|e polls He _ IHp]; intros tr1 E.
    + destruct (IH _ _ _ E) as (R' & ? & ?). exists R'. split; [by right|done].
    + destruct tr1 as [|e' tr1]; [injection E as -> _; done|]. injection E as <- E. by apply (IHp tr1).
Qed.

Lemma services_loses_none l tr x z :
  Forall (fun e => 0 <= fst e < 32) l -> services l tr x z ->
  forall tr1 tr2 y n, tr = tr1 ++ tr2 -> steps tr2 y z -> 0 <= n < 32 -> pending n y = true ->
    pending n z = true \/ exists R, (n, R) ∈ l /\ Called R ∈ tr2.
Proof using LAWS.
  intros Hr H tr1 tr2 y n E Hs Hn Hp. destruct (decide (Cleared n ∈ tr2)) as [Hin|Hin].
  - right. apply list_elem_of_split in Hin as (a & b & ->). rewrite app_assoc in E.
    destruct (services_clear _ _ _ _ H _ _ _ E) as (R & HR & Hc). exists R. split; [done|].
    apply elem_of_app. right. by right.
  - left. apply (steps_keep n tr2 Hn) with (x := y); [|done|done]. apply Forall_forall. intros e He k ->.
    apply list_elem_of_split in He as (a & b & ->). rewrite app_assoc in E.
    destruct (services_clear _ _ _ _ H _ _ _ E) as (R & HR & _). rewrite Forall_forall in Hr.
    specialize (Hr _ HR). cbn in Hr. split; [lia|]. intros ->. set_solver.
Qed.

(** What a stage runs between clearing the flag and the next stage. *)
Definition body_of (R : irq_routine) (body : sys D * powerpc_cpu -> outcome (sys D * powerpc_cpu)) : Prop :=
  forall y y', body y = Ok y' -> exists polls, Forall is_poll polls /\ steps (Called R :: polls) y y'.

Lemma one_call R : body_of R (irq_call R).
Proof using. intros y y' E. exists []. split; [constructor|]. by exists y'. Qed.

Lemma via_calls : body_of VideoVBLNative via_interrupt.
Proof using.
  intros y y'. unfold via_interrupt. destruct (irq_call VideoVBLNative y) as [[s c]| | | |] eqn:E; try done.
  cbn [mbind outcome_bind fst snd]. set (n := tick_counter s + 1). destruct (60 <=? n).
  - destruct (irq_call SonyInterrupt _) as [x1| | | |] eqn:E1; try done. cbn [mbind outcome_bind].
    destruct (irq_call DiskInterrupt x1) as [x2| | | |] eqn:E2; try done. cbn [mbind outcome_bind]. intros E3.
    exists [Ticked n; Ticked 0; Called SonyInterrupt; Called DiskInterrupt; Called CDROMInterrupt].
    split; [by repeat constructor|]. cbn [steps istep].
    eexists; split; [exact E|]. do 2 (eexists; split; [reflexivity|]). eauto 10.
  - intros [= <-]. exists [Ticked n]. split; [by repeat constructor|]. cbn [steps istep].
    eexists; split; [exact E|]. by eexists; split.
Qed.

(** A chain of stages for the sources [l]. *)
Fixpoint served (l : list (Z * irq_routine)) (x x' : sys D * powerpc_cpu) : Prop :=
  match l with
  | [] => x' = x
  | (k, R) :: l => exists y body, serve (2 ^ k) body x = Ok y /\ served l y x' /\ body_of R body
  end.

Lemma served_services l : forall x x',
  Forall (fun e => 0 <= fst e < 32) l -> served l x x' -> exists tr, services l tr x x'.
Proof using.
  induction l as [|[k R] l IH]; intros x x' Hr; cbn [served].
  { intros ->. exists []. constructor. }
  intros (y & body & Es & Hs & Hbody). inversion Hr as [|? ? Hk Hr']; subst. cbn in Hk.
  destruct (IH y x' Hr' Hs) as [tr Htr]. unfold serve in Es. rewrite Zb_land_bit in Es by lia.
  fold (pending k x) in Es. destruct (pending k x) eqn:Ep.
  - destruct (Hbody _ _ Es) as (polls & Hp & Hst). exists (Cleared k :: Called R :: polls ++ tr).
    apply (services_serve k R l polls tr x y x'); [done|done| |done]. by eexists; split.
  - injection Es as <-. exists tr. by constructor.
Qed.

(** C36: Once Mac OS has started, OP_IRQ gives each of the six sources its turn, in
    order: it runs the routine of a source exactly if its flag is set when its turn
    comes, and clears the flag before that.  So every source that was pending is
    served, and none is lost that any routine raises meanwhile: whenever a flag is set
    at some point of the run, it is still set at the end or the source's routine runs
    after that point.  D0 reports the 60 Hz interrupt.  Before Mac OS has started, it
    only acknowledges the interrupt. *)
Theorem irq_serves_pending r x r' x' :
  length (r68_d r) = 8%nat -> irq r x = Ok (r', x') ->
  exists p c1 started, ReadMacInt32 (u32 (KernelDataAddr + 0x67c)) (snd x) = Ok p /\ WriteMacInt16 p 0 (snd x) = Ok c1 /\
    HasMacStarted c1 = Ok started /\
    if started : bool then
      get_d 0 r' = bZ (pending 0 x) /\
      exists tr, services irq_order tr (fst x, c1) x' /\ steps tr (fst x, c1) x' /\
        (forall k R, (k, R) ∈ irq_order -> pending k x = true -> Called R ∈ tr) /\
        (forall tr1 tr2 y n, tr = tr1 ++ tr2 -> steps tr1 (fst x, c1) y -> steps tr2 y x' ->
           0 <= n < 32 -> pending n y = true ->
           pending n x' = true \/ exists R, (n, R) ∈ irq_order /\ Called R ∈ tr2)
    else get_d 0 r' = 1 /\ x' = (fst x, c1).
Proof using LAWS.
  intros Hlen E. unfold irq in E. destruct (ReadMacInt32 _ (snd x)) as [p| | | |] eqn:Ep; try done. cbn [mbind outcome_bind] in E.
  unfold on_cpu in E. destruct (WriteMacInt16 p 0 (snd x)) as [c1| | | |] eqn:Ew; try done. cbn [mbind outcome_bind fst snd] in E.
  destruct (HasMacStarted c1) as [started| | | |] eqn:Es; try done. cbn [mbind outcome_bind] in E. exists p, c1, started. split_and!; [done..|].
  assert (Hput : forall v r, length (r68_d r) = 8%nat -> is_uint 32 v -> get_d 0 (put_d 0 v r) = v).
  { intros v r0 Hl Hv. unfold get_d, put_d. cbn [r68_d]. rewrite Zlookup_insert_eq by (rewrite Hl; done). by apply trunc_small. }
  destruct started; [|injection E as <- <-; split; [|done]; apply Hput; [by cbn [put_d r68_d]; rewrite length_Zinsert|done]].
  repeat match type of E with mbind _ (serve ?f ?b ?y) = _ =>
    let Eq := fresh "E" in destruct (serve f b y) as [?x| | | |] eqn:Eq; try done; cbn [mbind outcome_bind] in E end.
  injection E as <- <-. split.
  - change INTFLAG_VIA with (2 ^ 0). rewrite Zb_land_bit by done. change (Z.testbit (InterruptFlags (fst x)) 0) with (pending 0 x).
    destruct (pending 0 x); apply Hput; try done. cbn [put_d r68_d]. by rewrite length_Zinsert.
  - assert (Hr : Forall (fun e => 0 <= fst e < 32) irq_order) by (apply (bool_decide_eq_true_1 _); vm_compute; reflexivity).
    assert (Hd : NoDup irq_order.*1) by (apply (bool_decide_eq_true_1 _); vm_compute; reflexivity).
    match goal with |- context [services _ _ _ ?z] => destruct (served_services irq_order (fst x, c1) z Hr) as [tr Htr] end.
    { unfold irq_order, served.
      do 6 (eexists _, _; split; [eassumption|]; split; [|first [exact via_calls | apply one_call]]). done. }
    exists tr. split; [done|]. split; [by apply services_steps in Htr|]. split.
    + exact (services_all _ _ _ _ Hd Hr Htr).
    + intros tr1 tr2 y n -> _ H2 Hn Hp. by apply (services_loses_none irq_order (tr1 ++ tr2) (fst x, c1) _ Hr Htr tr1 tr2 y n).
Qed.
End Ops.

(** ** Concrete machines: drivers that do nothing but note their interrupts *)

Definition noting : Routines (list irq_routine) := {|
  RAMBase := 0x10000000; RAMSize := 0x4000000; pref_nogui := false;
  driver _ _ _ x := Ok (0, x);
  irq_call k x := let '(s, c) := x in
    Ok (Sys (xpram s) (InterruptFlags s) (tick_counter s) (MakeExecutableTvec s) (debug_str_proc s) (rest s ++ [k]), c);
  setup _ x := Ok x; ADBOp _ _ x := Ok x; time_InsTime _ _ x := Ok (0, x); time_RmvTime _ x := Ok (0, x);
  time_PrimeTime _ _ x := Ok (0, x); time_Microseconds _ := (0, 0); PutScrap _ _ _ x := Ok x; GetScrap _ _ _ x := Ok x;
  MakeExecutable_symbol x := Ok (0, x); NativeMakeExecutable := 0; SCSIDispatchOp r x := Ok (r, x);
  ExtFSComm _ _ _ x := Ok (0, x); ExtFSHFS _ _ _ _ _ x := Ok (0, x);
|}.

Definition zero_xpram : list Z := replicate (Z.to_nat 8192) 0.

Lemma zero_xpram_wf : xpram_wf zero_xpram.
Proof.
  split; [|by apply Forall_replicate].
  unfold zero_xpram. rewrite length_replicate, Z2Nat.id by lia. reflexivity.
Qed.

(** Three bytes at 0x100, room for three at 0x200, around the end of the ring. *)
Definition xpram_memory : memory :=
  list_to_map (zip [0x100; 0x101; 0x102; 0x200; 0x201; 0x202] [1; 2; 3; 0; 0; 0]).

Lemma xpram_block_roundtrip_witness :
  let r1 := R68 [0; 0; 0; (0x8000 + 3) * 0x10000 + 0xfe; 0; 0; 0; 0] [0; 0; 0; 0x100; 0; 0; 0; 0] in
  let r2 := R68 [0; 0; 0; (0 + 3) * 0x10000 + 0xfe; 0; 0; 0; 0] [0; 0; 0; 0x200; 0; 0; 0; 0] in
  let s := Sys zero_xpram 0 0 0 0 [] in
  let c := cpu_init xpram_memory in
  exists s' m', EmulOp (RT := noting) (DEV := null_devices) r1 1 (s, c) = Ok (r1, (s', c)) /\
    EmulOp (RT := noting) (DEV := null_devices) r2 1 (s', c) = Ok (r2, (s', set_mem m' c)) /\
    forall k, 0 <= k < 3 -> m' !! (0x200 + k) = xpram_memory !! (0x100 + k).
Proof.
  intros r1 r2 s c.
  assert (Hmap : forall a, a = 0x100 \/ a = 0x200 -> mapped (Z.to_nat 3) a (mem c)).
  { intros a Ha i Hi. change (mem c) with xpram_memory. change (Z.of_nat (Z.to_nat 3)) with 3 in Hi.
    assert (Hc : i = 0x100 \/ i = 0x101 \/ i = 0x102 \/ i = 0x200 \/ i = 0x201 \/ i = 0x202) by lia.
    repeat (destruct Hc as [->|Hc]; [eexists; reflexivity|]). rewrite Hc. eexists. reflexivity. }
  destruct (xpram_block_roundtrip (RT := noting) (DEV := null_devices) r1 r2 s c 3 0xfe 0x100 0x200) as (s' & m' & E1 & E2 & _ & _ & Hm & _).
  - apply zero_xpram_wf.
  - apply (bool_decide_eq_true_1 _). vm_compute. reflexivity.
  - lia.
  - lia.
  - apply Hmap. by left.
  - apply Hmap. by right.
  - reflexivity.
  - reflexivity.
  - reflexivity.
  - reflexivity.
  - exists s', m'. split; [exact E1|]. split; [exact E2|exact Hm].
Defined.

(** Mac OS has started; the 60 Hz and the ADB interrupt are pending. *)
Definition irq_machine : powerpc_cpu :=
  cpu_init (list_to_map (zip ([0xcfc; 0xcfd; 0xcfe; 0xcff] ++ ((fun i => KernelDataAddr + 0x67c + i) <$> count_up 4) ++ [0x400; 0x401])
    ([0x57; 0x4c; 0x53; 0x43] ++ [0; 0; 4; 0] ++ [0; 1]))).

Lemma irq_serves_pending_witness :
  let x := (Sys [] (INTFLAG_VIA + INTFLAG_ADB) 0 0 0 [], irq_machine) in
  exists r' x', irq (RT := noting) (R68 (replicate 8 0) (replicate 8 0)) x = Ok (r', x') /\
    rest (fst x') = [VideoVBLNative; ADBInterrupt] /\ InterruptFlags (fst x') = 0 /\ get_d 0 r' = 1.
Proof.
  intros x.
  assert (E : exists r' x', irq (RT := noting) (R68 (replicate 8 0) (replicate 8 0)) x = Ok (r', x') /\
    rest (fst x') = [VideoVBLNative; ADBInterrupt] /\ InterruptFlags (fst x') = 0) by (do 2 eexists; split; [|split]; vm_compute; reflexivity).
  destruct E as (r' & x' & E & H1 & H2). exists r', x'. split; [exact E|]. split; [exact H1|]. split; [exact H2|].
  assert (L : @IrqLaws (list irq_routine) noting).
  { constructor. intros k [s c] z [= <-] n _ H. exact H. }
  destruct (irq_serves_pending (RT := noting) (LAWS := L) (R68 (replicate 8 0) (replicate 8 0)) x r' x') as (p & c1 & started & Hp & Hw & Hs & H).
  - reflexivity.
  - exact E.
  - destruct started; [exact (proj1 H)|exact (proj1 H)].
Defined.
